(** * code996: the work-intensity inference core, embedded in Rocq

    The TypeScript sources compute on JavaScript numbers, i.e. IEEE-754
    binary64 values.  Part I embeds the number type and the functions of the
    analysis core; Part II proves the properties.

    Conventions of the embedding
    - a JavaScript number is a [num]: [NaN], the two infinities, or a finite
      value carried as a rational; every arithmetic operation computes the
      exact rational result and rounds it to binary64 (round to nearest,
      ties to even), so rounding artefacts of the source are visible here;
      the sign of zero is not tracked (all zeros of the modelled code are sums
      of non-negative counts, i.e. +0);
    - calendar dates ('YYYY-MM-DD' keys) are day numbers counted from
      1970-01-01, a Thursday; the previous calendar day of [d] is [d - 1];
      where the code reads a weekday with [getDay], which answers in local
      time, the offset of local time from UTC is a parameter [localTZA];
    - a string is the sequence of the bytes of its UTF-8 form;
    - a function that can throw returns an [outcome]: the value it
      returns, or the error it throws. *)

From Stdlib Require Import ZArith QArith Qround Qpower Qabs Qreduction.
From Stdlib Require Import Lia Lqa List Bool String Ascii FinFun Sorted Permutation.
Import ListNotations.

(* ================================================================== *)
(** * Part I — definitions                                             *)
(* ================================================================== *)

(** ** JavaScript numbers (binary64) *)

Module JsNum.
Open Scope Q_scope.

Definition pow2 (e : Z) : Q := 2 ^ e.

(** Round to the nearest integer, ties to the even one. *)
Definition rne (y : Q) : Z :=
  let f := Qfloor y in
  match Qcompare (y - inject_Z f) (1 # 2) with
  | Lt => f
  | Gt => (f + 1)%Z
  | Eq => if Z.even f then f else (f + 1)%Z
  end.

(** [ilog2 q] is the binary exponent of a positive rational:
    [2 ^ ilog2 q <= q < 2 ^ (ilog2 q + 1)]. *)
Definition ilog2 (q : Q) : Z :=
  let l := (Z.log2 (Qnum q) - Z.log2 (Zpos (Qden q)))%Z in
  if Qle_bool (pow2 l) q then l else (l - 1)%Z.

(** Exponent of the unit in the last place: 53 significant bits, and the
    subnormal floor 2^-1074. *)
Definition ulp_exp (q : Q) : Z := Z.max (ilog2 (Qabs q) - 52) (-1074).

(** The binary64 value nearest to [q], exponent unbounded above. *)
Definition rnd_q (q : Q) : Q :=
  if Qeq_bool q 0 then 0
  else let e := ulp_exp q in Qred (inject_Z (rne (q / pow2 e)) * pow2 e).

Inductive num : Type :=
| NaN
| PInf
| NInf
| Fin (q : Q).

(** Rounding of an exact result, with overflow to the infinities. *)
Definition rnd (q : Q) : num :=
  let r := rnd_q q in
  if Qle_bool (pow2 1024) r then PInf
  else if Qle_bool r (- pow2 1024) then NInf
  else Fin r.

(** An integer value or integer literal (exact below 2^53). *)
Definition int (z : Z) : num := Fin (inject_Z z).

(** A decimal literal such as [0.1]: the nearest binary64 value. *)
Definition lit (q : Q) : num := rnd q.

Definition is_double (a : num) : Prop :=
  match a with
  | Fin q => rnd q = Fin q
  | _ => True
  end.

Definition neg (a : num) : num :=
  match a with
  | NaN => NaN
  | PInf => NInf
  | NInf => PInf
  | Fin q => Fin (- q)
  end.

Definition add (a b : num) : num :=
  match a, b with
  | NaN, _ | _, NaN => NaN
  | PInf, NInf | NInf, PInf => NaN
  | PInf, _ | _, PInf => PInf
  | NInf, _ | _, NInf => NInf
  | Fin p, Fin q => rnd (p + q)
  end.

Definition sub (a b : num) : num := add a (neg b).

Definition inf_of_sign (positive : bool) : num := if positive then PInf else NInf.

Definition mul_inf (positive : bool) (q : Q) : num :=
  match Qcompare q 0 with
  | Eq => NaN
  | Gt => inf_of_sign positive
  | Lt => inf_of_sign (negb positive)
  end.

Definition mul (a b : num) : num :=
  match a, b with
  | NaN, _ | _, NaN => NaN
  | PInf, PInf | NInf, NInf => PInf
  | PInf, NInf | NInf, PInf => NInf
  | PInf, Fin q | Fin q, PInf => mul_inf true q
  | NInf, Fin q | Fin q, NInf => mul_inf false q
  | Fin p, Fin q => rnd (p * q)
  end.

Definition div (a b : num) : num :=
  match a, b with
  | NaN, _ | _, NaN => NaN
  | (PInf | NInf), (PInf | NInf) => NaN
  | PInf, Fin q => if Qle_bool 0 q then PInf else NInf
  | NInf, Fin q => if Qle_bool 0 q then NInf else PInf
  | Fin _, (PInf | NInf) => Fin 0
  | Fin p, Fin q =>
      if Qeq_bool q 0 then
        match Qcompare p 0 with
        | Eq => NaN
        | Gt => PInf
        | Lt => NInf
        end
      else rnd (p / q)
  end.

(** Comparisons; every comparison with [NaN] is false. *)
Definition lt (a b : num) : bool :=
  match a, b with
  | NaN, _ | _, NaN => false
  | _, NInf => false
  | NInf, _ => true
  | PInf, _ => false
  | _, PInf => true
  | Fin p, Fin q => negb (Qle_bool q p)
  end.

Definition le (a b : num) : bool :=
  match a, b with
  | NaN, _ | _, NaN => false
  | NInf, _ => true
  | _, NInf => false
  | _, PInf => true
  | PInf, _ => false
  | Fin p, Fin q => Qle_bool p q
  end.

Definition gt (a b : num) : bool := lt b a.
Definition ge (a b : num) : bool := le b a.

(** Strict equality [===] on numbers. *)
Definition strict_eq (a b : num) : bool :=
  match a, b with
  | PInf, PInf | NInf, NInf => true
  | Fin p, Fin q => Qeq_bool p q
  | _, _ => false
  end.

Definition isNaN (a : num) : bool :=
  match a with NaN => true | _ => false end.

Definition Math_floor (a : num) : num :=
  match a with Fin q => int (Qfloor q) | _ => a end.

Definition Math_ceil (a : num) : num :=
  match a with Fin q => int (Qceiling q) | _ => a end.

(** [Math.round]: the integer nearest to the argument, ties towards
    +infinity, i.e. the floor of x + 1/2 taken exactly. *)
Definition Math_round (a : num) : num :=
  match a with Fin q => int (Qfloor (q + (1 # 2))) | _ => a end.

Definition Math_min (a b : num) : num :=
  match a, b with
  | NaN, _ | _, NaN => NaN
  | _, _ => if lt b a then b else a
  end.

Definition Math_max (a b : num) : num :=
  match a, b with
  | NaN, _ | _, NaN => NaN
  | _, _ => if lt a b then b else a
  end.

(** [x] is a binary64 value: rounding leaves it unchanged. *)
Definition representable (x : Q) : Prop := rnd_q x == x.

(** Reading an array at a numeric index; [None] is [undefined]. *)
Definition array_get {A : Type} (l : list A) (i : num) : option A :=
  match i with
  | Fin q =>
      let k := Qfloor q in
      if Qeq_bool q (inject_Z k) && (0 <=? k)%Z then nth_error l (Z.to_nat k)
      else None
  | _ => None
  end.

End JsNum.
Export JsNum.

(** ** Strings: [split], [parseInt], [parseFloat]

    A string is held as the bytes of its UTF-8 form. *)

Module JsString.
Open Scope Q_scope.

(** [s.split(sep)] for a one-character separator. *)
Fixpoint split (sep : ascii) (s : string) : list string :=
  match s with
  | EmptyString => [EmptyString]
  | String c r =>
      if Ascii.eqb c sep then EmptyString :: split sep r
      else match split sep r with
           | [] => [String c EmptyString]
           | h :: t => String c h :: t
           end
  end.

Definition digit_of (c : ascii) : option Z :=
  let n := nat_of_ascii c in
  if (48 <=? n)%nat && (n <=? 57)%nat then Some (Z.of_nat (n - 48)) else None.

(** The white space and line terminators that [parseInt] and [parseFloat]
    skip ([StrWhiteSpaceChar]).  Of one byte: TAB, LF, VT, FF, CR and the
    space. *)
Definition is_space (c : ascii) : bool :=
  let n := nat_of_ascii c in
  (n =? 32)%nat || ((9 <=? n)%nat && (n <=? 13)%nat).

(** Of two bytes: the no-break space U+00A0. *)
Definition is_space2 (c1 c2 : ascii) : bool :=
  ((nat_of_ascii c1 =? 194) && (nat_of_ascii c2 =? 160))%nat.

(** Of three bytes: U+1680, U+2000 to U+200A, the line and paragraph
    separators U+2028 and U+2029, U+202F, U+205F, U+3000 and the byte order
    mark U+FEFF. *)
Definition is_space3 (c1 c2 c3 : ascii) : bool :=
  let n1 := nat_of_ascii c1 in
  let n2 := nat_of_ascii c2 in
  let n3 := nat_of_ascii c3 in
  ((n1 =? 225) && (n2 =? 154) && (n3 =? 128)
   || (n1 =? 226) && (n2 =? 128)
      && ((128 <=? n3) && (n3 <=? 138) || (n3 =? 168) || (n3 =? 169) || (n3 =? 175))
   || (n1 =? 226) && (n2 =? 129) && (n3 =? 159)
   || (n1 =? 227) && (n2 =? 128) && (n3 =? 128)
   || (n1 =? 239) && (n2 =? 187) && (n3 =? 191))%nat.

Fixpoint skip_spaces (s : list ascii) : list ascii :=
  match s with
  | c1 :: r1 =>
      if is_space c1 then skip_spaces r1
      else
        match r1 with
        | c2 :: r2 =>
            if is_space2 c1 c2 then skip_spaces r2
            else
              match r2 with
              | c3 :: r3 => if is_space3 c1 c2 c3 then skip_spaces r3 else s
              | [] => s
              end
        | [] => s
        end
  | [] => []
  end.

(** Longest prefix of decimal digits: its value on top of [acc], the number
    of digits read, and the rest of the input. *)
Fixpoint digits (s : list ascii) (acc : Z) (n : nat) : Z * nat * list ascii :=
  match s with
  | c :: r =>
      match digit_of c with
      | Some d => digits r (acc * 10 + d)%Z (S n)
      | None => (acc, n, s)
      end
  | [] => (acc, n, [])
  end.

Definition sign_prefix (s : list ascii) : bool * list ascii :=
  match s with
  | "-"%char :: r => (true, r)
  | "+"%char :: r => (false, r)
  | _ => (false, s)
  end.

Definition pow10 (e : Z) : Q := 10 ^ e.

(** The [ExponentPart] of a decimal literal, when one is present. *)
Definition exponent_part (s : list ascii) : Z :=
  match s with
  | ("e" | "E")%char :: r =>
      let '(negative, r') := sign_prefix r in
      let '(e, n, _) := digits r' 0%Z 0%nat in
      match n with
      | O => 0%Z
      | S _ => if negative then (- e)%Z else e
      end
  | _ => 0%Z
  end.

Definition starts_with_Infinity (s : list ascii) : bool :=
  match s with
  | ("I" :: "n" :: "f" :: "i" :: "n" :: "i" :: "t" :: "y" :: _)%char => true
  | _ => false
  end.

(** [parseFloat]: leading white space is skipped, the longest prefix that
    is a decimal literal is read, the rest is ignored; [NaN] when there is
    no such prefix. *)
Definition parseFloat (str : string) : num :=
  let s := skip_spaces (list_ascii_of_string str) in
  let '(negative, s1) := sign_prefix s in
  if starts_with_Infinity s1 then (if negative then NInf else PInf)
  else
    let '(ip, ni, s2) := digits s1 0%Z 0%nat in
    let '(fp, nf, s3) :=
      match s2 with
      | "."%char :: r => digits r 0%Z 0%nat
      | _ => (0%Z, 0%nat, s2)
      end in
    match (ni + nf)%nat with
    | O => NaN
    | S _ =>
        let mantissa := inject_Z (ip * 10 ^ Z.of_nat nf + fp) / pow10 (Z.of_nat nf) in
        let v := mantissa * pow10 (exponent_part s3) in
        rnd (if negative then - v else v)
    end.

(** [parseInt(str, 10)]. *)
Definition parseInt (str : string) : num :=
  let s := skip_spaces (list_ascii_of_string str) in
  let '(negative, s1) := sign_prefix s in
  let '(v, n, _) := digits s1 0%Z 0%nat in
  match n with
  | O => NaN
  | S _ => rnd (inject_Z (if negative then - v else v))
  end.

End JsString.

(** ** Shared types (types/git-types.ts) *)

Record TimeCount : Type := { time : string; count : num }.

Record HourRange : Type := { rangeStartHour : num; rangeEndHour : num }.

Inductive DetectionMethod : Type := QuantileWindow | DefaultMethod | Manual.

Inductive EndDetectionMethod : Type :=
| StandardShift | BackwardThreshold | EndDefault | EndManual.

Record WorkTimeDetectionResult : Type := {
  startHour : num;
  endHour : num;
  isReliable : bool;
  sampleCount : num;
  detectionMethod : DetectionMethod;
  confidence : num;
  startHourRange : option HourRange;
  endHourRange : option HourRange;
  endDetectionMethod : option EndDetectionMethod
}.

(** [WorkTimePl] and [WorkWeekPl] are two-element tuples. *)
Record WorkTimeData : Type := {
  workHourPl : TimeCount * TimeCount;
  workWeekPl : TimeCount * TimeCount;
  hourData : list TimeCount
}.

(** The seven descriptions of [generateDescription], from the healthiest
    ('非常健康…') to the most severe ('…福報已經修滿了'). *)
Inductive Description : Type :=
| VeryHealthy | Healthy | Acceptable | Poor | VeryPoor | Severe | Extreme.

Record Result996 : Type := {
  index996 : num;
  index996Str : Description;
  overTimeRadio : num
}.

Record DailyFirstCommit : Type := { date : Z; minutesFromMidnight : Z }.

(** ** core/calculator.ts *)

Module Calculator.

Definition generateDescription (index996 : num) : Description :=
  if le index996 (int 0) then VeryHealthy
  else if le index996 (int 21) then Healthy
  else if le index996 (int 48) then Acceptable
  else if le index996 (int 63) then Poor
  else if le index996 (int 100) then VeryPoor
  else if le index996 (int 130) then Severe
  else Extreme.

Definition getUn996Radio (hourData : list TimeCount) (totalCount : num) : num :=
  let averageCommit := div totalCount (int (Z.of_nat (List.length hourData))) in
  let mockTotalCount := mul averageCommit (int 9) in
  let radio := sub (Math_ceil (mul (div totalCount mockTotalCount) (int 100))) (int 100) in
  radio.

(** The ratio before the sparse-data substitution (lines 263-269). *)
Definition primaryRadio (y x m n : num) : num :=
  let overTimeAmendCount := Math_round (add x (div (mul y n) (add m n))) in
  let totalCount := add y x in
  Math_ceil (mul (div overTimeAmendCount totalCount) (int 100)).

Definition calculate996Index (data : WorkTimeData) : Result996 :=
  let y := count (fst (workHourPl data)) in
  let x := count (snd (workHourPl data)) in
  let m := count (fst (workWeekPl data)) in
  let n := count (snd (workWeekPl data)) in
  let totalCount := add y x in
  let overTimeRadio0 := primaryRadio y x m n in
  let overTimeRadio :=
    if strict_eq overTimeRadio0 (int 0) && (List.length (hourData data) <? 9)%nat
    then getUn996Radio (hourData data) totalCount
    else overTimeRadio0 in
  let index996 := mul overTimeRadio (int 3) in
  {| index996 := index996;
     index996Str := generateDescription index996;
     overTimeRadio := overTimeRadio |}.

End Calculator.

(** ** utils/time-aggregator.ts *)

Module TimeAggregator.

Inductive Granularity : Type := HalfHourly | Hourly.

(** [i.toString().padStart(2, '0')] for [i < 100]. *)
Definition two_digits (i : nat) : string :=
  let d (k : nat) := ascii_of_nat (48 + k) in
  String (d (i / 10)%nat) (String (d (i mod 10)%nat) EmptyString).

(** The match of [/^(\d{2})/]. *)
Definition leading_two_digits (s : string) : option string :=
  match s with
  | String a (String b _) =>
      match JsString.digit_of a, JsString.digit_of b with
      | Some _, Some _ => Some (String a (String b EmptyString))
      | _, _ => None
      end
  | _ => None
  end.

(** [v || 0] on a number. *)
Definition or_zero (v : num) : num :=
  match v with
  | NaN => int 0
  | _ => v
  end.

Definition aggregateToHour (halfHourData : list TimeCount) : list TimeCount :=
  map (fun i =>
         let hour := two_digits i in
         let total :=
           fold_left
             (fun acc item =>
                match leading_two_digits (time item) with
                | Some h => if String.eqb h hour then add (or_zero acc) (count item) else acc
                | None => acc
                end)
             halfHourData (int 0) in
         {| time := hour; count := or_zero total |})
      (seq 0 24).

Fixpoint includes_colon (s : string) : bool :=
  match s with
  | EmptyString => false
  | String c r => Ascii.eqb c ":"%char || includes_colon r
  end.

Definition detectGranularity (data : list TimeCount) : Granularity :=
  if (List.length data =? 48)%nat then HalfHourly
  else if (List.length data =? 24)%nat then Hourly
  else if existsb (fun item => includes_colon (time item)) data then HalfHourly
  else Hourly.

End TimeAggregator.

(** ** core/work-time-analyzer.ts *)

Module WorkTimeAnalyzer.

Definition STANDARD_WORK_HOURS : num := int 9.
Definition MIN_VALID_MINUTES : num := mul (int 5) (int 60).
Definition MAX_VALID_MINUTES : num := mul (int 12) (int 60).

(** [isWorkingHour(hour, detection)]. *)
Definition isWorkingHour (hour : num) (detection : WorkTimeDetectionResult) : bool :=
  let hourStartMinutes := mul hour (int 60) in
  let startMinutes := mul (startHour detection) (int 60) in
  let cappedEndHour :=
    Math_min (endHour detection) (add (startHour detection) STANDARD_WORK_HOURS) in
  let endMinutes := Math_max startMinutes (mul cappedEndHour (int 60)) in
  ge hourStartMinutes startMinutes && lt hourStartMinutes endMinutes.

(** [new Date(`${date}T00:00:00Z`).getUTCDay()]: 0 is Sunday. *)
Definition getUTCDay (d : Z) : Z := ((d + 4) mod 7)%Z.

Definition filterValidDailyCommits (dailyFirstCommits : list DailyFirstCommit)
  : list DailyFirstCommit :=
  filter
    (fun item =>
       if lt (int (minutesFromMidnight item)) MIN_VALID_MINUTES
          || gt (int (minutesFromMidnight item)) MAX_VALID_MINUTES
       then false
       else
         let weekDay := getUTCDay (date item) in
         ((1 <=? weekDay) && (weekDay <=? 5))%Z)
    dailyFirstCommits.

(** [[...samples].sort((a, b) => a - b)] on integer minutes. *)
Fixpoint insert_asc (v : Z) (l : list Z) : list Z :=
  match l with
  | [] => [v]
  | h :: t => if (v <=? h)%Z then v :: l else h :: insert_asc v t
  end.

Definition sort_asc (l : list Z) : list Z := fold_right insert_asc [] l.

Definition calculateQuantile (samples : list Z) (quantile : num) (fallback : num) : num :=
  match samples with
  | [] => fallback
  | _ =>
      let sorted := sort_asc samples in
      let index :=
        Math_floor (mul (sub (int (Z.of_nat (List.length sorted))) (int 1)) quantile) in
      match array_get sorted index with
      | None => fallback
      | Some value => int value
      end
  end.

Definition roundDownToHalfHour (minutes : num) : num :=
  let halfHourBlock := Math_floor (div minutes (int 30)) in
  mul halfHourBlock (int 30).

Definition buildStartHourRange (lowerMinutes upperMinutes : num) : HourRange :=
  let boundedLower := Math_max MIN_VALID_MINUTES (Math_min lowerMinutes MAX_VALID_MINUTES) in
  let boundedUpper := Math_max MIN_VALID_MINUTES (Math_min upperMinutes MAX_VALID_MINUTES) in
  let sanitizedLower := roundDownToHalfHour boundedLower in
  let sanitizedUpper :=
    roundDownToHalfHour (Math_max boundedUpper (add sanitizedLower (int 30))) in
  let start := Math_min sanitizedLower sanitizedUpper in
  let end0 := Math_max sanitizedUpper (add start (int 30)) in
  let end1 := Math_min (Math_min end0 (add start (int 60))) MAX_VALID_MINUTES in
  {| rangeStartHour := div start (int 60); rangeEndHour := div end1 (int 60) |}.

Definition buildEndHourRange (startHour endHour : num) : HourRange :=
  let startMinutes :=
    roundDownToHalfHour (Math_max (mul startHour (int 60)) MIN_VALID_MINUTES) in
  let rawEndMinutes :=
    Math_max (mul endHour (int 60)) (add startMinutes (mul STANDARD_WORK_HOURS (int 60))) in
  let boundedEndMinutes := Math_min rawEndMinutes (mul (int 24) (int 60)) in
  let sanitizedEndMinutes := roundDownToHalfHour boundedEndMinutes in
  let rangeEnd :=
    if gt sanitizedEndMinutes (int 0) then sanitizedEndMinutes
    else Math_min (mul (add startHour (int 1)) (int 60)) (mul (int 24) (int 60)) in
  let rangeStart := Math_max startMinutes (sub rangeEnd (int 60)) in
  {| rangeStartHour := div rangeStart (int 60); rangeEndHour := div rangeEnd (int 60) |}.

Definition estimateConfidence (sampleDays : num) : num :=
  if le sampleDays (int 0) then int 0
  else
    let confidence := div (mul (int 90) sampleDays) (add sampleDays (int 50)) in
    Math_round confidence.

(** The start range of [detectWorkingHours] (lines 539-554) with the
    detection method it records. *)
Definition detectStartRange (dailyFirstCommits : list DailyFirstCommit)
  : HourRange * DetectionMethod :=
  let filteredDailyCommits := filterValidDailyCommits dailyFirstCommits in
  let minutesSamples := map minutesFromMidnight filteredDailyCommits in
  let defaultMinutes := mul (int 9) (int 60) in
  match minutesSamples with
  | _ :: _ =>
      let lowerQuantile := calculateQuantile minutesSamples (lit (1 # 10)) defaultMinutes in
      let upperQuantile :=
        calculateQuantile minutesSamples (lit (2 # 10)) (add lowerQuantile (int 60)) in
      (buildStartHourRange lowerQuantile upperQuantile, QuantileWindow)
  | [] => (buildStartHourRange defaultMinutes (add defaultMinutes (int 30)), DefaultMethod)
  end.

(** What [detectEndHourWindow] of core/end-hour-detector.ts returns. *)
Record EndHourWindow : Type := {
  windowEndHour : num;
  windowRange : HourRange;
  windowBackwardThreshold : bool
}.

Section DetectWorkingHours.

(** core/end-hour-detector.ts is not among the sources at hand; its
    function is a parameter of the detector. *)
Variable detectEndHourWindow : list TimeCount -> num -> num -> EndHourWindow.

Definition detectWorkingHours (hourData : list TimeCount)
    (dailyFirstCommits : list DailyFirstCommit) : WorkTimeDetectionResult :=
  let hourDataForAnalysis :=
    match TimeAggregator.detectGranularity hourData with
    | TimeAggregator.HalfHourly => TimeAggregator.aggregateToHour hourData
    | TimeAggregator.Hourly => hourData
    end in
  let sampleCount :=
    int (Z.of_nat (List.length (filterValidDailyCommits dailyFirstCommits))) in
  let '(startRange, detectionMethod) := detectStartRange dailyFirstCommits in
  let startHour := rangeStartHour startRange in
  let standardEndHour := Math_min (add startHour STANDARD_WORK_HOURS) (int 24) in
  let observedEndWindow := detectEndHourWindow hourDataForAnalysis startHour standardEndHour in
  let standardRange := buildEndHourRange startHour standardEndHour in
  let useObserved := windowBackwardThreshold observedEndWindow in
  let effectiveEndHour := if useObserved then windowEndHour observedEndWindow else standardEndHour in
  let effectiveRange := if useObserved then windowRange observedEndWindow else standardRange in
  let endDetectionMethod := if useObserved then BackwardThreshold else StandardShift in
  let confidence := estimateConfidence sampleCount in
  {| startHour := startHour;
     endHour := effectiveEndHour;
     isReliable := ge confidence (int 60);
     sampleCount := sampleCount;
     detectionMethod := detectionMethod;
     confidence := confidence;
     startHourRange := Some startRange;
     endHourRange := Some effectiveRange;
     endDetectionMethod := Some endDetectionMethod |}.

End DetectWorkingHours.

End WorkTimeAnalyzer.

(** ** git/git-parser.ts *)

Module GitParser.

(** The three [throw new Error(...)] sites of [parseCustomWorkHours]. *)
Inductive WorkHoursError : Type :=
| InvalidFormat
| InvalidHours
| StartNotBeforeEnd.

Inductive outcome (A : Type) : Type :=
| Returns (a : A)
| Throws (e : WorkHoursError).
Arguments Returns {A} a.
Arguments Throws {A} e.

Definition parseCustomWorkHours (customWorkHours : string)
  : outcome WorkTimeDetectionResult :=
  match JsString.split "-"%char customWorkHours with
  | [part0; part1] =>
      let startHour := JsString.parseFloat part0 in
      let endHour := JsString.parseFloat part1 in
      if isNaN startHour || isNaN endHour
         || lt startHour (int 0) || gt startHour (int 23)
         || lt endHour (int 0) || gt endHour (int 24)
      then Throws InvalidHours
      else if ge startHour endHour then Throws StartNotBeforeEnd
      else
        Returns
          {| startHour := startHour;
             endHour := endHour;
             isReliable := true;
             sampleCount := int (-1);
             detectionMethod := Manual;
             confidence := int 100;
             startHourRange :=
               Some {| rangeStartHour := startHour;
                       rangeEndHour := Math_min endHour (add startHour (int 1)) |};
             endHourRange :=
               Some {| rangeStartHour := Math_max startHour (sub endHour (int 1));
                       rangeEndHour := endHour |};
             endDetectionMethod := Some EndManual |}
  | _ => Throws InvalidFormat
  end.

Section ParseGitData.

Variable detectEndHourWindow : list TimeCount -> num -> num -> WorkTimeAnalyzer.EndHourWindow.

(** The first statement of [parseGitData]: a truthy [customWorkHours]
    (present and not the empty string) is parsed, otherwise the hours are
    detected from the raw data. *)
Definition workTimeDetection (byHour : list TimeCount)
    (dailyFirstCommits : list DailyFirstCommit) (customWorkHours : option string)
  : outcome WorkTimeDetectionResult :=
  match customWorkHours with
  | Some (String c r) => parseCustomWorkHours (String c r)
  | Some EmptyString | None =>
      Returns (WorkTimeAnalyzer.detectWorkingHours detectEndHourWindow byHour dailyFirstCommits)
  end.

End ParseGitData.

Definition calculateWorkHourPl (hourData : list TimeCount)
    (workTimeDetection : WorkTimeDetectionResult) : TimeCount * TimeCount :=
  let '(workCount, overtimeCount) :=
    fold_left
      (fun '(workCount, overtimeCount) item =>
         let hour := JsString.parseInt (time item) in
         if WorkTimeAnalyzer.isWorkingHour hour workTimeDetection
         then (add workCount (count item), overtimeCount)
         else (workCount, add overtimeCount (count item)))
      hourData (int 0, int 0) in
  ({| time := "work"; count := workCount |},
   {| time := "overtime"; count := overtimeCount |}).

End GitParser.

(** ** utils/workday-checker.ts *)

Module WorkdayChecker.

(** The checker wraps the external holiday-calendar package.  A query of
    the package answers or throws ([None]). *)
Record t : Type := {
  calendarIsWorkday : Z -> option bool;
  calendarIsHoliday : Z -> option bool;
  enabled : bool
}.

Definition msPerDay : Z := 86400000.

Section LocalTime.

(** The offset of local time from UTC at 00:00 UTC of day [d], in
    milliseconds; positive east of Greenwich.  It is a setting of the
    machine the program runs on. *)
Variable localTZA : Z -> Z.

(** [new Date(date).getDay()] for a date string 'YYYY-MM-DD': the date-only
    form is read as 00:00 UTC of day [d], and [getDay] is the weekday of
    that instant in local time.  0 = Sunday, 6 = Saturday. *)
Definition getDay (d : Z) : Z :=
  (((d * msPerDay + localTZA d) / msPerDay + 4) mod 7)%Z.

Definition fallbackIsWorkday (d : Z) : bool :=
  let dayOfWeek := getDay d in ((1 <=? dayOfWeek) && (dayOfWeek <=? 5))%Z.

Definition fallbackIsHoliday (d : Z) : bool :=
  let dayOfWeek := getDay d in ((dayOfWeek =? 0) || (dayOfWeek =? 6))%Z.

Definition isWorkday (c : t) (d : Z) : bool :=
  if negb (enabled c) then fallbackIsWorkday d
  else match calendarIsWorkday c d with
       | Some b => b
       | None => fallbackIsWorkday d
       end.

Definition isHoliday (c : t) (d : Z) : bool :=
  if negb (enabled c) then fallbackIsHoliday d
  else match calendarIsHoliday c d with
       | Some b => b
       | None => fallbackIsHoliday d
       end.

Definition isHolidayBatch (c : t) (dates : list Z) : list bool := map (isHoliday c) dates.

Definition isWorkdayBatch (c : t) (dates : list Z) : list bool := map (isWorkday c) dates.

End LocalTime.

End WorkdayChecker.

(** ** core/overtime-analyzer.ts *)

Module OvertimeAnalyzer.

(** [hours] lists the elements of the [Set<number>]; its [size] counts the
    distinct ones. *)
Record DailyCommitHours : Type := { date : Z; hours : list Z }.

Definition size (s : list Z) : Z := Z.of_nat (List.length (nodup Z.eq_dec s)).

Record WeekendOvertimeDistribution : Type := {
  saturdayDays : Z;
  sundayDays : Z;
  casualFixDays : Z;
  realOvertimeDays : Z
}.

Definition REAL_OVERTIME_THRESHOLD : Z := 3.

Definition zero : WeekendOvertimeDistribution :=
  {| saturdayDays := 0; sundayDays := 0; casualFixDays := 0; realOvertimeDays := 0 |}.

(** One day that passed the non-workday test: the three branches on
    [dayOfWeek] of the loop body. *)
Definition tally (acc : WeekendOvertimeDistribution) (dayOfWeek : Z) (item : DailyCommitHours)
    (countOtherDays : bool) : WeekendOvertimeDistribution :=
  let commitHours := size (hours item) in
  let isRealOvertime := (REAL_OVERTIME_THRESHOLD <=? commitHours)%Z in
  let judged (a : WeekendOvertimeDistribution) :=
    if isRealOvertime
    then {| saturdayDays := saturdayDays a; sundayDays := sundayDays a;
            casualFixDays := casualFixDays a;
            realOvertimeDays := realOvertimeDays a + 1 |}
    else {| saturdayDays := saturdayDays a; sundayDays := sundayDays a;
            casualFixDays := casualFixDays a + 1;
            realOvertimeDays := realOvertimeDays a |} in
  if (dayOfWeek =? 6)%Z then
    judged {| saturdayDays := saturdayDays acc + 1; sundayDays := sundayDays acc;
              casualFixDays := casualFixDays acc;
              realOvertimeDays := realOvertimeDays acc |}
  else if (dayOfWeek =? 0)%Z then
    judged {| saturdayDays := saturdayDays acc; sundayDays := sundayDays acc + 1;
              casualFixDays := casualFixDays acc;
              realOvertimeDays := realOvertimeDays acc |}
  else if countOtherDays then
    (* a public holiday on a weekday: "handled like a Saturday" *)
    judged {| saturdayDays := saturdayDays acc + 1; sundayDays := sundayDays acc;
              casualFixDays := casualFixDays acc;
              realOvertimeDays := realOvertimeDays acc |}
  else acc.

Section LocalTime.

Variable localTZA : Z -> Z.

Definition calculateWeekendOvertimeBasic (dailyCommitHours : list DailyCommitHours)
  : WeekendOvertimeDistribution :=
  fold_left
    (fun acc item =>
       let dayOfWeek := WorkdayChecker.getDay localTZA (date item) in
       if negb (dayOfWeek =? 0)%Z && negb (dayOfWeek =? 6)%Z then acc
       else tally acc dayOfWeek item false)
    dailyCommitHours zero.

(** [checker] is [None] when [getWorkdayChecker] throws; the [catch]
    then answers with the basic computation. *)
Definition calculateWeekendOvertime (checker : option WorkdayChecker.t)
    (dailyCommitHours : list DailyCommitHours) : WeekendOvertimeDistribution :=
  match checker with
  | Some c =>
      let dates := map date dailyCommitHours in
      let isHolidayResults := WorkdayChecker.isHolidayBatch localTZA c dates in
      fold_left
        (fun acc '(item, isHoliday) =>
           if negb isHoliday then acc
           else tally acc (WorkdayChecker.getDay localTZA (date item)) item true)
        (combine dailyCommitHours isHolidayResults) zero
  | None => calculateWeekendOvertimeBasic dailyCommitHours
  end.

End LocalTime.

(** An entry of [dayHourCommits].  [weekday] (1 Monday ... 7 Sunday) and
    [hour] are integers: the collectors build them with [parseInt] and
    check them. *)
Module DayHourCommit.
Record t : Type := { weekday : Z; hour : Z; count : num }.
End DayHourCommit.

Inductive DayName : Type := Monday | Tuesday | Wednesday | Thursday | Friday.

(** The object [overtimeCounts], in the order of its keys. *)
Record OvertimeCounts : Type := {
  monday : num;
  tuesday : num;
  wednesday : num;
  thursday : num;
  friday : num
}.

Record WeekdayOvertimeDistribution : Type := {
  counts : OvertimeCounts;
  peakDay : DayName;
  peakCount : num
}.

(** [overtimeCounts[dayNames[weekday - 1]] += count] for a weekday that
    passed the test [1 <= weekday <= 5]. *)
Definition add_to_day (c : OvertimeCounts) (weekday : Z) (n : num) : OvertimeCounts :=
  match weekday with
  | 1%Z => {| monday := add (monday c) n; tuesday := tuesday c; wednesday := wednesday c;
              thursday := thursday c; friday := friday c |}
  | 2%Z => {| monday := monday c; tuesday := add (tuesday c) n; wednesday := wednesday c;
              thursday := thursday c; friday := friday c |}
  | 3%Z => {| monday := monday c; tuesday := tuesday c; wednesday := add (wednesday c) n;
              thursday := thursday c; friday := friday c |}
  | 4%Z => {| monday := monday c; tuesday := tuesday c; wednesday := wednesday c;
              thursday := add (thursday c) n; friday := friday c |}
  | 5%Z => {| monday := monday c; tuesday := tuesday c; wednesday := wednesday c;
              thursday := thursday c; friday := add (friday c) n |}
  | _ => c
  end.

(** [Object.entries(overtimeCounts)]. *)
Definition entries (c : OvertimeCounts) : list (DayName * num) :=
  [(Monday, monday c); (Tuesday, tuesday c); (Wednesday, wednesday c);
   (Thursday, thursday c); (Friday, friday c)].

Definition calculateWeekdayOvertime (dayHourCommits : list DayHourCommit.t)
    (workTime : WorkTimeDetectionResult) : WeekdayOvertimeDistribution :=
  let endHour := Math_ceil (endHour workTime) in
  let overtimeCounts :=
    fold_left
      (fun acc commit =>
         if ((1 <=? DayHourCommit.weekday commit) && (DayHourCommit.weekday commit <=? 5))%Z
         then
           if ge (int (DayHourCommit.hour commit)) endHour
           then add_to_day acc (DayHourCommit.weekday commit) (DayHourCommit.count commit)
           else acc
         else acc)
      dayHourCommits
      {| monday := int 0; tuesday := int 0; wednesday := int 0;
         thursday := int 0; friday := int 0 |} in
  let maxEntry :=
    fold_left (fun max curr => if gt (snd curr) (snd max) then curr else max)
              (entries overtimeCounts) (Monday, monday overtimeCounts) in
  {| counts := overtimeCounts; peakDay := fst maxEntry; peakCount := snd maxEntry |}.

End OvertimeAnalyzer.

(** ** git/git-parser.ts, continued: the workday / weekend partition *)

Module WorkWeek.

(** One entry [{ date, count }] of [dailyCommitCounts]. *)
Module DailyCommitCount.
Record t : Type := { date : Z; count : num }.
End DailyCommitCount.

Definition calculateWorkWeekPlBasic (dayData : list TimeCount) : TimeCount * TimeCount :=
  let '(workDayCount, weekendCount) :=
    fold_left
      (fun '(workDayCount, weekendCount) item =>
         let day := JsString.parseInt (time item) in
         if ge day (int 1) && le day (int 5)
         then (add workDayCount (count item), weekendCount)
         else (workDayCount, add weekendCount (count item)))
      dayData (int 0, int 0) in
  ({| time := "workday"; count := workDayCount |},
   {| time := "weekend"; count := weekendCount |}).

(** [checker] is [None] when [getWorkdayChecker] throws; the [catch] then
    answers with the basic computation on [dayData]. *)
Definition calculateWorkWeekPl (localTZA : Z -> Z) (checker : option WorkdayChecker.t)
    (dayData : list TimeCount) (dailyCommitCounts : list DailyCommitCount.t)
    (hourData : list TimeCount) : TimeCount * TimeCount :=
  match dailyCommitCounts with
  | [] => calculateWorkWeekPlBasic dayData
  | _ :: _ =>
      match checker with
      | Some c =>
          let dates := map DailyCommitCount.date dailyCommitCounts in
          let isWorkdayResults := WorkdayChecker.isWorkdayBatch localTZA c dates in
          let '(workDayCount, weekendCount) :=
            fold_left
              (fun '(workDayCount, weekendCount) '(item, isWorkday) =>
                 if isWorkday : bool
                 then (add workDayCount (DailyCommitCount.count item), weekendCount)
                 else (workDayCount, add weekendCount (DailyCommitCount.count item)))
              (combine dailyCommitCounts isWorkdayResults) (int 0, int 0) in
          ({| time := "workday"; count := workDayCount |},
           {| time := "weekend"; count := weekendCount |})
      | None => calculateWorkWeekPlBasic dayData
      end
  end.

End WorkWeek.

(** ** core/project-classifier.ts *)

Module ProjectClassifier.

Inductive ProjectType : Type := CORPORATE | OPEN_SOURCE | UNCERTAIN.

Record WorkTimeRegularity : Type := {
  score : num;
  morningUptrend : bool;
  afternoonPeak : bool;
  eveningDowntrend : bool;
  nightLowActivity : bool
}.

Record WeekendActivity : Type := { ratio : num }.

Record MoonlightingPattern : Type := {
  isActive : bool;
  eveningToMorningRatio : num;
  nightRatio : num
}.

(** The pieces of the reasoning text. *)
Inductive Reason : Type :=
| RegularityVeryLow (score : num)
| RegularityLow (score : num)
| RegularityMedium (score : num)
| ContributorsMany (count : num)
| ContributorsMedium (count : num)
| WeekendHigh (ratio : num)
| WeekendFairlyHigh (ratio : num)
| WeekendMedium (ratio : num)
| EveningActive.

Inductive Reasoning : Type :=
| ManyContributors (count : num)
| NoRegularity (score : num)
| OpenSourceEvident (reasons : list Reason)
| Unclear (reasons : list Reason)
| CorporateLike.

Record Decision : Type := {
  projectType : ProjectType;
  confidence : num;
  reasoning : Reasoning
}.

Definition makeDecision (regularity : WorkTimeRegularity) (weekend : WeekendActivity)
    (moonlighting : MoonlightingPattern) (contributorsCount : num) : Decision :=
  if ge contributorsCount (int 50) then
    {| projectType := OPEN_SOURCE;
       confidence :=
         Math_min (int 95) (add (int 70) (Math_floor (div contributorsCount (int 10))));
       reasoning := ManyContributors contributorsCount |}
  else if le (score regularity) (int 25) then
    {| projectType := OPEN_SOURCE;
       confidence := int 90;
       reasoning := NoRegularity (score regularity) |}
  else
    let s := score regularity in
    let '(ossScore1, reasons1) :=
      if lt s (int 30) then (add (int 0) (int 60), [RegularityVeryLow s])
      else if lt s (int 50) then (add (int 0) (int 40), [RegularityLow s])
      else if lt s (int 75) then (add (int 0) (int 20), [RegularityMedium s])
      else (int 0, []) in
    let '(ossScore2, reasons2) :=
      if ge contributorsCount (int 20) && lt contributorsCount (int 50)
      then (add ossScore1 (int 20), reasons1 ++ [ContributorsMany contributorsCount])
      else if ge contributorsCount (int 10) && lt contributorsCount (int 20)
      then (add ossScore1 (int 10), reasons1 ++ [ContributorsMedium contributorsCount])
      else (ossScore1, reasons1) in
    let r := ratio weekend in
    let '(ossScore3, reasons3) :=
      if ge r (lit (30 # 100)) then (add ossScore2 (int 30), reasons2 ++ [WeekendHigh r])
      else if ge r (lit (20 # 100)) then (add ossScore2 (int 20), reasons2 ++ [WeekendFairlyHigh r])
      else if ge r (lit (15 # 100)) then (add ossScore2 (int 10), reasons2 ++ [WeekendMedium r])
      else (ossScore2, reasons2) in
    let '(ossScore, reasons) :=
      if isActive moonlighting then (add ossScore3 (int 20), reasons3 ++ [EveningActive])
      else (ossScore3, reasons3) in
    let '(projectType, confidence, reasoning) :=
      if ge ossScore (int 60)
      then (OPEN_SOURCE, Math_min (int 95) (add (int 50) (div ossScore (int 2))),
            OpenSourceEvident reasons)
      else if ge ossScore (int 40)
      then (UNCERTAIN, int 50, Unclear reasons)
      else (CORPORATE, Math_min (int 95) (sub (int 80) ossScore), CorporateLike) in
    {| projectType := projectType;
       confidence := Math_round confidence;
       reasoning := reasoning |}.

End ProjectClassifier.

(** ** git/collectors/commit-collector.ts *)

Module CommitCollector.

(** What [parseLocalTimestamp] extracts from one line of the log. *)
Record ParsedTimestamp : Type := { dateKey : Z; hour : Z; minute : Z }.

Record DailyLatestCommit : Type := { date : Z; minutesFromMidnight : Z }.

(** [Map<string, number>], in insertion order. *)
Definition DateMap : Type := list (Z * Z).

Fixpoint map_get (m : DateMap) (k : Z) : option Z :=
  match m with
  | [] => None
  | (k', v) :: r => if (k' =? k)%Z then Some v else map_get r k
  end.

Fixpoint map_set (m : DateMap) (k v : Z) : DateMap :=
  match m with
  | [] => [(k, v)]
  | (k', v') :: r => if (k' =? k)%Z then (k, v) :: r else (k', v') :: map_set r k v
  end.

(** The loop body for one commit that passed the author and time-zone
    filters and whose timestamp parsed. *)
Definition recordLatest (dailyLatest : DateMap) (parsed : ParsedTimestamp) : DateMap :=
  let '(effectiveDate, effectiveMinutes) :=
    if ((0 <=? hour parsed) && (hour parsed <? 6))%Z
    then ((dateKey parsed - 1)%Z, (hour parsed * 60 + minute parsed + 24 * 60)%Z)
    else (dateKey parsed, (hour parsed * 60 + minute parsed)%Z) in
  match map_get dailyLatest effectiveDate with
  | None => map_set dailyLatest effectiveDate effectiveMinutes
  | Some current =>
      if (current <? effectiveMinutes)%Z
      then map_set dailyLatest effectiveDate effectiveMinutes
      else dailyLatest
  end.

(** [.sort((a, b) => a.date.localeCompare(b.date))]. *)
Fixpoint insert_by_date (e : DailyLatestCommit) (l : list DailyLatestCommit)
  : list DailyLatestCommit :=
  match l with
  | [] => [e]
  | h :: t => if (date e <? date h)%Z then e :: l else h :: insert_by_date e t
  end.

Definition sort_by_date (l : list DailyLatestCommit) : list DailyLatestCommit :=
  fold_right insert_by_date [] l.

Definition getDailyLatestCommits (commits : list ParsedTimestamp) : list DailyLatestCommit :=
  let dailyLatest := fold_left recordLatest commits [] in
  sort_by_date
    (map (fun '(d, m) => {| date := d; minutesFromMidnight := m |}) dailyLatest).

End CommitCollector.

(** ** git/collectors/commit-collector.ts, continued: the first commit of
    each day *)

Module DailyFirst.

(** The loop body of [getDailyFirstCommits] for one parsed commit. *)
Definition recordEarliest (dailyEarliest : CommitCollector.DateMap)
    (parsed : CommitCollector.ParsedTimestamp) : CommitCollector.DateMap :=
  let minutesFromMidnight :=
    (CommitCollector.hour parsed * 60 + CommitCollector.minute parsed)%Z in
  match CommitCollector.map_get dailyEarliest (CommitCollector.dateKey parsed) with
  | None =>
      CommitCollector.map_set dailyEarliest (CommitCollector.dateKey parsed) minutesFromMidnight
  | Some current =>
      if (minutesFromMidnight <? current)%Z
      then CommitCollector.map_set dailyEarliest (CommitCollector.dateKey parsed)
             minutesFromMidnight
      else dailyEarliest
  end.

(** [.sort((a, b) => a.date.localeCompare(b.date))]. *)
Fixpoint insert_by_date (e : DailyFirstCommit) (l : list DailyFirstCommit)
  : list DailyFirstCommit :=
  match l with
  | [] => [e]
  | h :: t => if (date e <? date h)%Z then e :: l else h :: insert_by_date e t
  end.

Definition sort_by_date (l : list DailyFirstCommit) : list DailyFirstCommit :=
  fold_right insert_by_date [] l.

Definition getDailyFirstCommits (commits : list CommitCollector.ParsedTimestamp)
  : list DailyFirstCommit :=
  let dailyEarliest := fold_left recordEarliest commits [] in
  sort_by_date
    (map (fun '(d, m) => {| date := d; minutesFromMidnight := m |}) dailyEarliest).

End DailyFirst.

(** ** core/overtime-analyzer.ts, continued: late-night analysis *)

Module LateNight.

Record LateNightAnalysis : Type := {
  evening : Z;
  lateNight : Z;
  midnight : Z;
  dawn : Z;
  midnightDays : Z;
  totalWorkDays : Z;
  midnightRate : num;
  totalWeeks : num;
  totalMonths : num
}.

Definition Math_abs (a : num) : num :=
  match a with
  | NaN => NaN
  | PInf | NInf => PInf
  | Fin q => Fin (Qabs q)
  end.

(** The four counters and the dates of [midnightDaysSet]. *)
Record Tally : Type := {
  tEvening : Z;
  tLateNight : Z;
  tMidnight : Z;
  tDawn : Z;
  tMidnightDays : list Z
}.

Definition classify (endHour : num) (acc : Tally) (e : CommitCollector.DailyLatestCommit) : Tally :=
  let latestHour :=
    Math_floor (div (int (CommitCollector.minutesFromMidnight e)) (int 60)) in
  if ge latestHour endHour && lt latestHour (int 21) then
    {| tEvening := tEvening acc + 1; tLateNight := tLateNight acc; tMidnight := tMidnight acc;
       tDawn := tDawn acc; tMidnightDays := tMidnightDays acc |}
  else if ge latestHour (int 21) && lt latestHour (int 23) then
    {| tEvening := tEvening acc; tLateNight := tLateNight acc + 1; tMidnight := tMidnight acc;
       tDawn := tDawn acc; tMidnightDays := tMidnightDays acc |}
  else if ge latestHour (int 23) then
    {| tEvening := tEvening acc; tLateNight := tLateNight acc; tMidnight := tMidnight acc + 1;
       tDawn := tDawn acc; tMidnightDays := CommitCollector.date e :: tMidnightDays acc |}
  else if lt latestHour (int 6) then
    {| tEvening := tEvening acc; tLateNight := tLateNight acc; tMidnight := tMidnight acc;
       tDawn := tDawn acc + 1; tMidnightDays := CommitCollector.date e :: tMidnightDays acc |}
  else acc.

(** [size] of a [Set<string>] given by the dates added to it. *)
Definition set_size (dates : list Z) : Z := Z.of_nat (List.length (nodup Z.eq_dec dates)).

(** The dates of [workDaysSet]; [checker] is [None] when
    [getWorkdayChecker] throws. *)
Definition workDays (localTZA : Z -> Z) (checker : option WorkdayChecker.t)
    (dailyFirstCommits : list DailyFirstCommit) : list Z :=
  match checker with
  | Some c =>
      let dates := map date dailyFirstCommits in
      let isWorkdayResults := WorkdayChecker.isWorkdayBatch localTZA c dates in
      map (fun p => date (fst p))
          (filter (fun p => snd p) (combine dailyFirstCommits isWorkdayResults))
  | None =>
      map date
          (filter (fun commit =>
                     let dayOfWeek := WorkdayChecker.getDay localTZA (date commit) in
                     ((1 <=? dayOfWeek) && (dayOfWeek <=? 5))%Z)
                  dailyFirstCommits)
  end.

(** [since] and [until], when both are given and not empty, by the
    [getTime()] of their dates ([NaN] for a date that does not parse). *)
Definition calculateLateNightAnalysis (localTZA : Z -> Z) (checker : option WorkdayChecker.t)
    (dailyLatestCommits : list CommitCollector.DailyLatestCommit)
    (dailyFirstCommits : list DailyFirstCommit)
    (workTime : WorkTimeDetectionResult)
    (sinceUntil : option (num * num)) : LateNightAnalysis :=
  let endHour := Math_ceil (endHour workTime) in
  let t :=
    fold_left (classify endHour) dailyLatestCommits
      {| tEvening := 0; tLateNight := 0; tMidnight := 0; tDawn := 0; tMidnightDays := [] |} in
  let workDaysSet := workDays localTZA checker dailyFirstCommits in
  let midnightDays := set_size (tMidnightDays t) in
  let totalWorkDays := if (0 <? set_size workDaysSet)%Z then set_size workDaysSet else 1%Z in
  let midnightRate := mul (div (int midnightDays) (int totalWorkDays)) (int 100) in
  let '(totalWeeks, totalMonths) :=
    match sinceUntil with
    | Some (sinceTime, untilTime) =>
        let diffTime := Math_abs (sub untilTime sinceTime) in
        let diffDays :=
          Math_ceil (div diffTime (mul (mul (mul (int 1000) (int 60)) (int 60)) (int 24))) in
        (Math_max (int 1) (Math_floor (div diffDays (int 7))),
         Math_max (int 1) (Math_floor (div diffDays (int 30))))
    | None =>
        (Math_max (int 1) (Math_floor (div (int totalWorkDays) (int 5))),
         Math_max (int 1) (Math_floor (div (int totalWorkDays) (int 22))))
    end in
  {| evening := tEvening t;
     lateNight := tLateNight t;
     midnight := tMidnight t;
     dawn := tDawn t;
     midnightDays := midnightDays;
     totalWorkDays := totalWorkDays;
     midnightRate := midnightRate;
     totalWeeks := totalWeeks;
     totalMonths := totalMonths |}.

End LateNight.

(** ** core/trend-analyzer.ts *)

Module TrendAnalyzer.

Definition firstDate (c : DailyFirstCommit) : Z := date c.
Definition firstMinutes (c : DailyFirstCommit) : Z := minutesFromMidnight c.

Record DailyWorkSpan : Type := {
  date : Z;
  firstCommitMinutes : Z;
  lastCommitMinutes : Z;
  spanHours : num;
  commitCount : Z
}.

Definition calculateWorkSpansFromData (dailyFirstCommits : list DailyFirstCommit)
    (dailyLatestCommits : list CommitCollector.DailyLatestCommit) : list DailyWorkSpan :=
  let latestCommitMap :=
    fold_left
      (fun m commit =>
         CommitCollector.map_set m (CommitCollector.date commit)
           (CommitCollector.minutesFromMidnight commit))
      dailyLatestCommits [] in
  fold_left
    (fun spans firstCommit =>
       match CommitCollector.map_get latestCommitMap (firstDate firstCommit) with
       | None => spans
       | Some lastCommitMinutes =>
           let firstCommitMinutes := firstMinutes firstCommit in
           let spanHours := div (sub (int lastCommitMinutes) (int firstCommitMinutes)) (int 60) in
           if ge spanHours (int 0) && le spanHours (int 24)
           then spans ++ [{| date := firstDate firstCommit;
                             firstCommitMinutes := firstCommitMinutes;
                             lastCommitMinutes := lastCommitMinutes;
                             spanHours := spanHours;
                             commitCount := 1 |}]
           else spans
       end)
    dailyFirstCommits [].

End TrendAnalyzer.

(** ** utils/statistics.ts *)

Module Statistics.

(** An array element used as a number: [undefined] turns the arithmetic
    into [NaN]. *)
Definition to_number (v : option num) : num :=
  match v with
  | Some a => a
  | None => NaN
  end.

(** [None] is [undefined], the answer when the index is not an element
    of the array. *)
Definition calculatePercentile (sortedValues : list num) (percentile : num) : option num :=
  match sortedValues with
  | [] => Some (int 0)
  | _ :: _ =>
      let index :=
        mul (div percentile (int 100))
            (sub (int (Z.of_nat (List.length sortedValues))) (int 1)) in
      let lower := Math_floor index in
      let upper := Math_ceil index in
      let weight := sub index lower in
      if strict_eq lower upper then array_get sortedValues lower
      else
        Some (add (mul (to_number (array_get sortedValues lower)) (sub (int 1) weight))
                  (mul (to_number (array_get sortedValues upper)) weight))
  end.

End Statistics.

(** ** core/user-analyzer.ts *)

Module UserAnalyzer.

Definition buildWorkTimeData (timeDistribution dayDistribution : list TimeCount)
    (startHour endHour : num) : WorkTimeData :=
  let '(normalWork, overtime) :=
    fold_left
      (fun '(normalWork, overtime) item =>
         let hour := JsString.parseInt (time item) in
         if ge hour startHour && lt hour endHour
         then (add normalWork (count item), overtime)
         else (normalWork, add overtime (count item)))
      timeDistribution (int 0, int 0) in
  let '(workdayCommits, weekendCommits) :=
    fold_left
      (fun '(workdayCommits, weekendCommits) item =>
         let day := JsString.parseInt (time item) in
         if ge day (int 1) && le day (int 5)
         then (add workdayCommits (count item), weekendCommits)
         else if strict_eq day (int 6) || strict_eq day (int 7)
         then (workdayCommits, add weekendCommits (count item))
         else (workdayCommits, weekendCommits))
      dayDistribution (int 0, int 0) in
  {| workHourPl := ({| time := "work"; count := normalWork |},
                    {| time := "overtime"; count := overtime |});
     workWeekPl := ({| time := "workday"; count := workdayCommits |},
                    {| time := "weekend"; count := weekendCommits |});
     hourData := timeDistribution |}.

Record OvertimeStats : Type := {
  workdayOvertime : num;
  weekendOvertime : num;
  totalOvertime : num
}.

Definition calculateOvertimeStats (timeDistribution : list TimeCount)
    (startHour endHour : num) : OvertimeStats :=
  let totalOvertime :=
    fold_left
      (fun totalOvertime item =>
         let hour := JsString.parseInt (time item) in
         if lt hour startHour || ge hour endHour
         then add totalOvertime (count item)
         else totalOvertime)
      timeDistribution (int 0) in
  let workdayOvertime := Math_round (mul totalOvertime (lit (8 # 10))) in
  let weekendOvertime := sub totalOvertime workdayOvertime in
  {| workdayOvertime := workdayOvertime;
     weekendOvertime := weekendOvertime;
     totalOvertime := totalOvertime |}.

End UserAnalyzer.

(** ** git/git-data-merger.ts *)

Module GitDataMerger.

(** The loop body of [mergeDailyFirstCommits] for one item. *)
Definition mergeFirst (dailyMap : CommitCollector.DateMap) (item : DailyFirstCommit)
  : CommitCollector.DateMap :=
  match CommitCollector.map_get dailyMap (date item) with
  | None => CommitCollector.map_set dailyMap (date item) (minutesFromMidnight item)
  | Some current =>
      if (minutesFromMidnight item <? current)%Z
      then CommitCollector.map_set dailyMap (date item) (minutesFromMidnight item)
      else dailyMap
  end.

(** [dataList] holds the field [dailyFirstCommits] of each repository,
    [None] when it is [undefined]. *)
Definition mergeDailyFirstCommits (dataList : list (option (list DailyFirstCommit)))
  : option (list DailyFirstCommit) :=
  let dailyMap :=
    fold_left
      (fun m data =>
         match data with
         | None => m
         | Some items => fold_left mergeFirst items m
         end)
      dataList [] in
  match dailyMap with
  | [] => None
  | _ :: _ =>
      Some (DailyFirst.sort_by_date
              (map (fun '(d, m) => {| date := d; minutesFromMidnight := m |}) dailyMap))
  end.

(** The loop body of [mergeDailyLatestCommits] for one item. *)
Definition mergeLatest (dailyMap : CommitCollector.DateMap)
    (item : CommitCollector.DailyLatestCommit) : CommitCollector.DateMap :=
  match CommitCollector.map_get dailyMap (CommitCollector.date item) with
  | None =>
      CommitCollector.map_set dailyMap (CommitCollector.date item)
        (CommitCollector.minutesFromMidnight item)
  | Some current =>
      if (current <? CommitCollector.minutesFromMidnight item)%Z
      then CommitCollector.map_set dailyMap (CommitCollector.date item)
             (CommitCollector.minutesFromMidnight item)
      else dailyMap
  end.

Definition mergeDailyLatestCommits
    (dataList : list (option (list CommitCollector.DailyLatestCommit)))
  : option (list CommitCollector.DailyLatestCommit) :=
  let dailyMap :=
    fold_left
      (fun m data =>
         match data with
         | None => m
         | Some items => fold_left mergeLatest items m
         end)
      dataList [] in
  match dailyMap with
  | [] => None
  | _ :: _ =>
      Some (CommitCollector.sort_by_date
              (map (fun '(d, m) => {| CommitCollector.date := d;
                                      CommitCollector.minutesFromMidnight := m |}) dailyMap))
  end.

(** [Map<string, number>], in insertion order. *)
Definition CountMap : Type := list (string * num).

Fixpoint count_get (m : CountMap) (k : string) : option num :=
  match m with
  | [] => None
  | (k', v) :: r => if String.eqb k' k then Some v else count_get r k
  end.

Fixpoint count_set (m : CountMap) (k : string) (v : num) : CountMap :=
  match m with
  | [] => [(k, v)]
  | (k', v') :: r => if String.eqb k' k then (k, v) :: r else (k', v') :: count_set r k v
  end.

(** [map.get(k) || 0]. *)
Definition get_or_zero (m : CountMap) (k : string) : num :=
  match count_get m k with
  | Some v => TimeAggregator.or_zero v
  | None => int 0
  end.

(** [dataList] holds the field [byHour] of each repository. *)
Definition mergeByHour (dataList : list (list TimeCount)) : list TimeCount :=
  let initial :=
    fold_left
      (fun m i =>
         let hour := TimeAggregator.two_digits i in
         count_set (count_set m (hour ++ ":00") (int 0)) (hour ++ ":30") (int 0))
      (seq 0 24) [] in
  let halfHourMap :=
    fold_left
      (fun m data =>
         fold_left
           (fun m item =>
              let current := get_or_zero m (time item) in
              count_set m (time item) (add current (count item)))
           data m)
      dataList initial in
  flat_map
    (fun i =>
       let hour := TimeAggregator.two_digits i in
       [ {| time := hour ++ ":00"; count := get_or_zero halfHourMap (hour ++ ":00") |};
         {| time := hour ++ ":30"; count := get_or_zero halfHourMap (hour ++ ":30") |} ])
    (seq 0 24).

End GitDataMerger.

(** ** core/timezone-analyzer.ts *)

Module TimezoneAnalyzer.

(** One entry [{ offset, count }] of [timezones]. *)
Record TimezoneCount : Type := { tzOffset : string; tzCount : num }.

Record TimezoneData : Type := {
  totalCommits : num;
  timezones : list TimezoneCount
}.

Record TimezoneGroup : Type := {
  groupOffset : string;
  groupCount : num;
  groupRatio : num
}.

Record TimezoneAnalysisResult : Type := {
  isCrossTimezone : bool;
  crossTimezoneRatio : num;
  dominantTimezone : option string;
  dominantRatio : num;
  sleepPeriodRatio : num;
  confidence : num;
  timezoneGroups : option (list TimezoneGroup)
}.

Definition CROSS_TIMEZONE_THRESHOLD : num := lit (1 # 100).
Definition SLEEP_WINDOW_HOURS : nat := 5.
Definition SLEEP_RATIO_THRESHOLD : num := lit (1 # 100).

Record Diversity : Type := {
  divCrossTimezoneRatio : num;
  divDominantTimezone : option string;
  divDominantRatio : num;
  divGroups : list TimezoneGroup
}.

Definition calculateTimezoneDiversity (data : TimezoneData) : Diversity :=
  match timezones data with
  | [] =>
      {| divCrossTimezoneRatio := int 0; divDominantTimezone := None;
         divDominantRatio := int 0; divGroups := [] |}
  | dominantTz :: _ =>
      let dominantRatio := div (tzCount dominantTz) (totalCommits data) in
      let crossTimezoneRatio := sub (int 1) dominantRatio in
      let groups :=
        map (fun tz => {| groupOffset := tzOffset tz; groupCount := tzCount tz;
                          groupRatio := div (tzCount tz) (totalCommits data) |})
            (firstn 5 (timezones data)) in
      {| divCrossTimezoneRatio := crossTimezoneRatio;
         divDominantTimezone := Some (tzOffset dominantTz);
         divDominantRatio := dominantRatio;
         divGroups := groups |}
  end.

(** [hourCounts[hour] += item.count] for an in-range integer [hour]. *)
Fixpoint add_at (l : list num) (i : nat) (v : num) : list num :=
  match l, i with
  | [], _ => []
  | h :: t, O => add h v :: t
  | h :: t, S j => h :: add_at t j v
  end.

Definition aggregateToHourArray (hourData : list TimeCount) : list num :=
  fold_left
    (fun hourCounts item =>
       let hour :=
         JsString.parseInt (hd EmptyString (JsString.split ":"%char (time item))) in
       if negb (isNaN hour) && ge hour (int 0) && lt hour (int 24) then
         match hour with
         | Fin q => add_at hourCounts (Z.to_nat (Qfloor q)) (count item)
         | _ => hourCounts
         end
       else hourCounts)
    hourData (repeat (int 0) 24).

Definition sum (l : list num) : num := fold_left add l (int 0).

Definition windowSum (hourCounts : list num) (start : nat) : num :=
  fold_left
    (fun acc i => add acc (nth ((start + i) mod 24) hourCounts NaN))
    (seq 0 SLEEP_WINDOW_HOURS) (int 0).

Record SleepAnalysis : Type := { minSleepRatio : num; sleepWindow : list nat }.

Definition analyzeSleepPeriod (hourData : list TimeCount) : SleepAnalysis :=
  let hourCounts := aggregateToHourArray hourData in
  let total := sum hourCounts in
  if strict_eq total (int 0) then {| minSleepRatio := int 0; sleepWindow := [] |}
  else
    let '(minSum, minWindowStart) :=
      fold_left
        (fun '(minSum, minWindowStart) start =>
           let w := windowSum hourCounts start in
           if lt w minSum then (w, start) else (minSum, minWindowStart))
        (seq 0 24) (PInf, O) in
    {| minSleepRatio := div minSum total;
       sleepWindow := map (fun i => (minWindowStart + i) mod 24) (seq 0 SLEEP_WINDOW_HOURS) |}.

Definition calculateConfidence (crossTimezoneRatio minSleepRatio totalCommits : num) : num :=
  let baseConfidence :=
    if lt totalCommits (int 50) then int 30
    else if lt totalCommits (int 200) then int 50
    else if lt totalCommits (int 500) then int 70
    else int 85 in
  let bothMethodsAgree :=
    ge crossTimezoneRatio CROSS_TIMEZONE_THRESHOLD
    && ge minSleepRatio SLEEP_RATIO_THRESHOLD in
  let baseConfidence :=
    if bothMethodsAgree then Math_min (int 95) (add baseConfidence (int 15))
    else baseConfidence in
  Math_round baseConfidence.

Definition analyzeTimezone (timezoneData : TimezoneData) (hourData : list TimeCount)
  : TimezoneAnalysisResult :=
  if strict_eq (totalCommits timezoneData) (int 0) then
    {| isCrossTimezone := false;
       crossTimezoneRatio := int 0;
       dominantTimezone := None;
       dominantRatio := int 0;
       sleepPeriodRatio := int 0;
       confidence := int 0;
       timezoneGroups := None |}
  else
    let tzDiversity := calculateTimezoneDiversity timezoneData in
    let sleepAnalysis := analyzeSleepPeriod hourData in
    let isCrossTimezone :=
      ge (divCrossTimezoneRatio tzDiversity) CROSS_TIMEZONE_THRESHOLD
      || ge (minSleepRatio sleepAnalysis) SLEEP_RATIO_THRESHOLD in
    let confidence :=
      calculateConfidence (divCrossTimezoneRatio tzDiversity)
        (minSleepRatio sleepAnalysis) (totalCommits timezoneData) in
    {| isCrossTimezone := isCrossTimezone;
       crossTimezoneRatio := divCrossTimezoneRatio tzDiversity;
       dominantTimezone := divDominantTimezone tzDiversity;
       dominantRatio := divDominantRatio tzDiversity;
       sleepPeriodRatio := minSleepRatio sleepAnalysis;
       confidence := confidence;
       timezoneGroups := Some (divGroups tzDiversity) |}.

End TimezoneAnalyzer.

(** ** git/collectors/time-collector.ts *)

Module TimeCollector.

(** [data.find((item) => item.time === key)]. *)
Definition find_time (data : list TimeCount) (key : string) : option TimeCount :=
  find (fun item => String.eqb (time item) key) data.

(** [existing ? existing.count : 0]. *)
Definition count_or_zero (existing : option TimeCount) : num :=
  match existing with
  | Some e => count e
  | None => int 0
  end.

Definition fillMissingHalfHours (data : list TimeCount) : list TimeCount :=
  flat_map
    (fun i =>
       let hour := TimeAggregator.two_digits i in
       map (fun suffix =>
              let timeKey := (hour ++ ":" ++ suffix)%string in
              {| time := timeKey; count := count_or_zero (find_time data timeKey) |})
           ["00"%string; "30"%string])
    (seq 0 24).

(** [i.toString()] for a one-digit [i]. *)
Definition digit_string (i : nat) : string :=
  String (ascii_of_nat (48 + i)) EmptyString.

Definition fillMissingDays (data : list TimeCount) : list TimeCount :=
  map (fun i =>
         let day := digit_string i in
         {| time := day; count := count_or_zero (find_time data day) |})
      (seq 1 7).

End TimeCollector.

(** ** Inputs and reference formulas used in the statements *)

Module Statements.
Open Scope Q_scope.

(** Input of [calculate996Index] with [y] commits in normal hours, [x] in
    overtime hours, [m] on workdays and [n] on weekend days. *)
Definition workTimeData (y x m n : Z) (hourData : list TimeCount) : WorkTimeData :=
  {| workHourPl := ({| time := "work"; count := int y |},
                    {| time := "overtime"; count := int x |});
     workWeekPl := ({| time := "workday"; count := int m |},
                    {| time := "weekend"; count := int n |});
     hourData := hourData |}.

(** The ratio as the specification writes it, in exact arithmetic:
    ceil(round(x + y*n/(m+n)) / (x+y) * 100). *)
Definition spec_overtime_ratio (y x m n : Z) : Z :=
  let correction :=
    Qfloor (inject_Z x + inject_Z y * inject_Z n / inject_Z (m + n) + (1 # 2)) in
  Qceiling (inject_Z correction / inject_Z (x + y) * 100).

(** The day and the minute under which [getDailyLatestCommits] files one
    commit. *)
Definition effectiveDate (c : CommitCollector.ParsedTimestamp) : Z :=
  if ((0 <=? CommitCollector.hour c) && (CommitCollector.hour c <? 6))%Z
  then (CommitCollector.dateKey c - 1)%Z else CommitCollector.dateKey c.

Definition effectiveMinutes (c : CommitCollector.ParsedTimestamp) : Z :=
  if ((0 <=? CommitCollector.hour c) && (CommitCollector.hour c <? 6))%Z
  then (CommitCollector.hour c * 60 + CommitCollector.minute c + 24 * 60)%Z
  else (CommitCollector.hour c * 60 + CommitCollector.minute c)%Z.

(** Number of the elements of a list that pass a test. *)
Fixpoint countIf {A : Type} (p : A -> bool) (l : list A) : Z :=
  match l with
  | [] => 0%Z
  | a :: r => ((if p a then 1 else 0) + countIf p r)%Z
  end.

(** The weekday of a date, 0 = Sunday ... 6 = Saturday; day 0 is Thursday
    1970-01-01. *)
Definition weekdayOfDate (d : Z) : Z := ((d + 4) mod 7)%Z.

(** Saturday or Sunday. *)
Definition weekend (d : Z) : bool := ((weekdayOfDate d =? 0) || (weekdayOfDate d =? 6))%Z.

(** The non-workday test that [calculateWeekendOvertime] applies to a day:
    the holiday-aware check of the checker, or plain Saturday/Sunday when
    there is no checker. *)
Definition nonWorkday (checker : option WorkdayChecker.t) (d : Z) : bool :=
  match checker with
  | Some c =>
      if WorkdayChecker.enabled c
      then match WorkdayChecker.calendarIsHoliday c d with
           | Some b => b
           | None => weekend d
           end
      else weekend d
  | None => weekend d
  end.

Definition activeHours (item : OvertimeAnalyzer.DailyCommitHours) : Z :=
  OvertimeAnalyzer.size (OvertimeAnalyzer.hours item).

Definition weekdayOf (item : OvertimeAnalyzer.DailyCommitHours) : Z :=
  weekdayOfDate (OvertimeAnalyzer.date item).

(** The place of a character in a list, counted from [i]. *)
Fixpoint placeOf (c : ascii) (l : list ascii) (i : Z) : option Z :=
  match l with
  | [] => None
  | x :: r => if Ascii.eqb c x then Some i else placeOf c r (i + 1)%Z
  end.

(** The value of a decimal digit: its place among the ten digits. *)
Definition digitValue (c : ascii) : option Z :=
  placeOf c (list_ascii_of_string "0123456789") 0%Z.

Definition appendDigit (acc : option Z) (c : ascii) : option Z :=
  match acc, digitValue c with
  | Some a, Some d => Some (10 * a + d)%Z
  | _, _ => None
  end.

(** The number written by a string of decimal digits, the most significant
    first; nothing for the empty string and for a string with another
    character in it. *)
Definition digitString (s : list ascii) : option Z :=
  match s with
  | [] => None
  | _ :: _ => fold_left appendDigit s (Some 0%Z)
  end.

(** The text before and after the first [sep]. *)
Fixpoint cutAt (sep : ascii) (s : list ascii) : option (list ascii * list ascii) :=
  match s with
  | [] => None
  | c :: r =>
      if Ascii.eqb c sep then Some ([], r)
      else match cutAt sep r with
           | Some (a, b) => Some (c :: a, b)
           | None => None
           end
  end.

(** An hour as the override writes it: decimal digits, with an optional
    fraction after a point ("9", "18", "9.5"); its value. *)
Definition hourNumeral (s : list ascii) : option Q :=
  match cutAt "."%char s with
  | None => option_map inject_Z (digitString s)
  | Some (whole, fraction) =>
      match digitString whole, digitString fraction with
      | Some i, Some f =>
          Some (inject_Z i + inject_Z f / 10 ^ Z.of_nat (List.length fraction))%Q
      | _, _ => None
      end
  end.

(** A well-formed manual override "startHour-endHour": two hours around
    one '-'; the hours it writes.  Every other string is malformed. *)
Definition overridePair (s : string) : option (Q * Q) :=
  match cutAt "-"%char (list_ascii_of_string s) with
  | Some (a, b) =>
      match hourNumeral a, hourNumeral b with
      | Some x, Some y => Some (x, y)
      | _, _ => None
      end
  | None => None
  end.

(** The hours [a] to [b] of an override are in range (start within 0..23,
    end within 0..24) and the start is before the end. *)
Definition validHours (a b : num) : bool :=
  le (int 0) a && le a (int 23) && le (int 0) b && le b (int 24) && lt a b.

(** The minutes that survive [filterValidDailyCommits]. *)
Definition validSamples (dailyFirstCommits : list DailyFirstCommit) : list Z :=
  map minutesFromMidnight (WorkTimeAnalyzer.filterValidDailyCommits dailyFirstCommits).

(** Lower bound of the start range, in minutes, from the lower order
    statistic (already inside the band 300..720). *)
Definition startMinutes (lower : Z) : Z := (30 * (lower / 30))%Z.

(** Upper bound of the start range, in minutes. *)
Definition endMinutes (lower upper : Z) : Z :=
  let start := startMinutes lower in
  let sanitizedUpper := (30 * (Z.max upper (start + 30) / 30))%Z in
  Z.min (Z.min (Z.max sanitizedUpper (start + 30)) (start + 60)) 720.

(** [m / 60] as an exact number of hours. *)
Definition hoursOfMinutes (m : Z) : num := Fin (Qred (inject_Z m / 60)).

(** The percentile by linear interpolation between order statistics, as
    the specification words it: position (n - 1) * q in the sorted samples,
    interpolated between its two neighbours. *)
Definition spec_linear_quantile (sorted : list Z) (q : Q) : Q :=
  let pos := inject_Z (Z.of_nat (List.length sorted) - 1) * q in
  let lo := Qfloor pos in
  let hi := Qceiling pos in
  let vlo := inject_Z (nth (Z.to_nat lo) sorted 0%Z) in
  let vhi := inject_Z (nth (Z.to_nat hi) sorted 0%Z) in
  vlo + (pos - inject_Z lo) * (vhi - vlo).

(** The start range in minutes as the specification words it: 10th and
    20th percentile by linear interpolation, rounded down to 30 minutes,
    clamped to 300..720, at most 60 minutes wide. *)
Definition spec_startRangeMinutes (samples : list Z) : Z * Z :=
  let sorted := WorkTimeAnalyzer.sort_asc samples in
  let mark (p : Q) := Z.max 300 (Z.min (30 * Qfloor (p / 30)) 720) in
  let lower := mark (spec_linear_quantile sorted (1 # 10)) in
  let upper := mark (spec_linear_quantile sorted (2 # 10)) in
  (lower, Z.min upper (lower + 60)).

(** The weekend share of the normal-hour commits, rounded:
    round(y * n / (m + n)) in exact arithmetic. *)
Definition weekendShare (y m n : Z) : Z :=
  Qfloor (inject_Z (y * n) / inject_Z (m + n) + (1 # 2)).

(** The percentage the code computes from the corrected overtime count [a]
    and the total [t]: the quotient and its product with 100 are each
    rounded to binary64 before the ceiling is taken. *)
Definition ratioOf (a t : Z) : Z :=
  Qceiling (rnd_q (rnd_q (inject_Z a / inject_Z t) * 100)).

(** Number of buckets of [hourData] that have any activity. *)
Definition activeBuckets (hourData : list TimeCount) : nat :=
  List.length (filter (fun item => lt (int 0) (count item)) hourData).

(** The under-saturation ratio as the specification writes it, in exact
    arithmetic: the average is the number of commits per active hour-bucket,
    the synthetic 9-hour total is nine times the average, and the ratio is
    ceil(actual / synthetic * 100) - 100. *)
Definition spec_unsaturated_ratio (totalCount : Z) (active : nat) : Z :=
  let average := (inject_Z totalCount / inject_Z (Z.of_nat active))%Q in
  let synthetic := (average * 9)%Q in
  (Qceiling (inject_Z totalCount / synthetic * 100) - 100)%Z.

(** Rank of a description, from the healthiest to the most severe. *)
Definition severity (d : Description) : Z :=
  match d with
  | VeryHealthy => 0 | Healthy => 1 | Acceptable => 2 | Poor => 3
  | VeryPoor => 4 | Severe => 5 | Extreme => 6
  end%Z.

(** The description by bands of the ratio: the bands of the index divided
    by 3. *)
Definition descriptionOfRatio (p : Z) : Description :=
  (if p <=? 0 then VeryHealthy
   else if p <=? 7 then Healthy
   else if p <=? 16 then Acceptable
   else if p <=? 21 then Poor
   else if p <=? 33 then VeryPoor
   else if p <=? 43 then Severe
   else Extreme)%Z.

(** ceil(100 * l / 9) - 100, for a number [l] of entries. *)
Definition unsaturatedRatio (l : Z) : Z := ((100 * l + 8) / 9 - 100)%Z.

(** The confidence [estimateConfidence] computes from [n] sample days: the
    quotient 90 * n / (n + 50) is rounded to binary64 before [Math.round]. *)
Definition confidenceOf (n : Z) : Z :=
  if (n <=? 0)%Z then 0%Z
  else Qfloor (rnd_q (inject_Z (90 * n) / inject_Z (n + 50)) + (1 # 2)).

(** A list of buckets with integer counts. *)
Definition timeCounts (items : list (string * Z)) : list TimeCount :=
  map (fun '(t, c) => {| time := t; count := int c |}) items.

(** Sum of [f] over the elements that pass a test. *)
Fixpoint sumIf {A : Type} (p : A -> bool) (f : A -> Z) (l : list A) : Z :=
  match l with
  | [] => 0%Z
  | a :: r => ((if p a then f a else 0) + sumIf p f r)%Z
  end.

Definition sumAll {A : Type} (f : A -> Z) (l : list A) : Z := sumIf (fun _ => true) f l.

(** The count of the first bucket labelled [key], 0 when there is none. *)
Definition lookupCount (items : list (string * Z)) (key : string) : Z :=
  match find (fun it => String.eqb (fst it) key) items with
  | Some it => snd it
  | None => 0%Z
  end.

(** The update of a date map that keeps, for the day [key c], the better
    of the value held and [val c]; [better new current] tells when the new
    value replaces the one held. *)
Definition keepBest {C : Type} (key val : C -> Z) (better : Z -> Z -> bool)
    (m : CommitCollector.DateMap) (c : C) : CommitCollector.DateMap :=
  match CommitCollector.map_get m (key c) with
  | None => CommitCollector.map_set m (key c) (val c)
  | Some current =>
      if better (val c) current then CommitCollector.map_set m (key c) (val c) else m
  end.

(** Minute of the day of a commit. *)
Definition clockMinutes (c : CommitCollector.ParsedTimestamp) : Z :=
  (CommitCollector.hour c * 60 + CommitCollector.minute c)%Z.

(** Index of a weekday name in [dayNames], counted from 1 as [weekday]. *)
Definition dayIndex (d : OvertimeAnalyzer.DayName) : Z :=
  match d with
  | OvertimeAnalyzer.Monday => 1
  | OvertimeAnalyzer.Tuesday => 2
  | OvertimeAnalyzer.Wednesday => 3
  | OvertimeAnalyzer.Thursday => 4
  | OvertimeAnalyzer.Friday => 5
  end%Z.

(** Rows (weekday, hour, count) with integer counts. *)
Definition dayHourCommits (rows : list (Z * Z * Z)) : list OvertimeAnalyzer.DayHourCommit.t :=
  map (fun '(w, h, c) =>
         {| OvertimeAnalyzer.DayHourCommit.weekday := w;
            OvertimeAnalyzer.DayHourCommit.hour := h;
            OvertimeAnalyzer.DayHourCommit.count := int c |})
      rows.

(** Commits of the rows of weekday [d] whose hour is at least [e]. *)
Fixpoint overtimeOn (d e : Z) (rows : list (Z * Z * Z)) : Z :=
  match rows with
  | [] => 0%Z
  | (w, h, c) :: r => ((if (w =? d) && (e <=? h) then c else 0) + overtimeOn d e r)%Z
  end.

Fixpoint totalOfRows (rows : list (Z * Z * Z)) : Z :=
  match rows with
  | [] => 0%Z
  | (_, _, c) :: r => (c + totalOfRows r)%Z
  end.

(** Hour of the day of a latest-commit entry. *)
Definition latestHourOf (e : CommitCollector.DailyLatestCommit) : Z :=
  (CommitCollector.minutesFromMidnight e / 60)%Z.

(** The slot of the 24-hour array that [aggregateToHourArray] adds a
    bucket to, by the label of the bucket; [None] when the bucket is
    skipped. *)
Definition hourOfLabel (label : string) : option nat :=
  let hour := JsString.parseInt (hd EmptyString (JsString.split ":"%char label)) in
  if negb (isNaN hour) && ge hour (int 0) && lt hour (int 24) then
    match hour with
    | Fin q => Some (Z.to_nat (Qfloor q))
    | _ => None
    end
  else None.

(** Commits of the buckets that fall into slot [h]. *)
Definition hourTotal (items : list (string * Z)) (h : nat) : Z :=
  sumIf (fun it => match hourOfLabel (fst it) with
                   | Some k => Nat.eqb k h
                   | None => false
                   end) snd items.

(** Commits of the five hours from [s] on, around the clock. *)
Definition windowTotal (H : nat -> Z) (s : nat) : Z :=
  (H (s mod 24)%nat + H ((s + 1) mod 24)%nat + H ((s + 2) mod 24)%nat
   + H ((s + 3) mod 24)%nat + H ((s + 4) mod 24)%nat)%Z.

(** Sum of [H] over the hours below [n]. *)
Fixpoint sumBelow (H : nat -> Z) (n : nat) : Z :=
  match n with
  | O => 0%Z
  | S k => (sumBelow H k + H k)%Z
  end.

(** The 24 hourly buckets '00' ... '23' that [getUserTimeDistribution]
    builds, with the commits [c h] of hour [h]. *)
Definition hourlyBuckets (c : nat -> Z) : list TimeCount :=
  map (fun h => {| time := TimeAggregator.two_digits h; count := int (c h) |}) (seq 0 24).

End Statements.
Export Statements.

(* ================================================================== *)
(** * Part II — properties                                             *)
(* ================================================================== *)

(** ** Facts about binary64 rounding *)

Section Rounding.
Open Scope Q_scope.

Lemma Qfloor_bounds y : inject_Z (Qfloor y) <= y /\ y < inject_Z (Qfloor y) + 1.
Proof.
  split. apply Qfloor_le.
  pose proof (Qlt_floor y) as H. rewrite inject_Z_plus in H. exact H.
Qed.

Lemma Qfloor_unique y z : inject_Z z <= y -> y < inject_Z z + 1 -> Qfloor y = z.
Proof.
  intros H1 H2. destruct (Qfloor_bounds y) as [H3 H4].
  assert (A : inject_Z z < inject_Z (Qfloor y + 1)).
  { rewrite inject_Z_plus. change (inject_Z 1) with 1. lra. }
  assert (B : inject_Z (Qfloor y) < inject_Z (z + 1)).
  { rewrite inject_Z_plus. change (inject_Z 1) with 1. lra. }
  rewrite <- Zlt_Qlt in A, B. lia.
Qed.

Lemma Qceiling_bounds y : inject_Z (Qceiling y) - 1 < y /\ y <= inject_Z (Qceiling y).
Proof.
  split.
  - pose proof (Qceiling_lt y) as H. unfold Z.sub in H.
    rewrite inject_Z_plus in H. exact H.
  - apply Qle_ceiling.
Qed.

Lemma rne_cases y :
  let f := Qfloor y in
  (y - inject_Z f < 1 # 2 /\ rne y = f) \/
  (1 # 2 < y - inject_Z f /\ rne y = (f + 1)%Z) \/
  (y - inject_Z f == 1 # 2 /\ rne y = if Z.even f then f else (f + 1)%Z).
Proof.
  intros f. unfold rne. fold f.
  destruct (Qcompare (y - inject_Z f) (1 # 2)) eqn:E.
  - right; right. split; [apply (proj2 (Qeq_alt _ _) E) | reflexivity].
  - left. split; [apply (proj2 (Qlt_alt _ _) E) | reflexivity].
  - right; left. split; [apply (proj2 (Qgt_alt _ _) E) | reflexivity].
Qed.

Lemma rne_proper x y : x == y -> rne x = rne y.
Proof.
  intros H. unfold rne.
  assert (Hf : Qfloor x = Qfloor y) by (rewrite H; reflexivity).
  rewrite Hf.
  assert (Hc : Qcompare (x - inject_Z (Qfloor y)) (1 # 2)
               = Qcompare (y - inject_Z (Qfloor y)) (1 # 2)).
  { rewrite H. reflexivity. }
  rewrite Hc. reflexivity.
Qed.

Lemma rne_Z z : rne (inject_Z z) = z.
Proof.
  unfold rne. rewrite Qfloor_Z.
  assert (H : Qcompare (inject_Z z - inject_Z z) (1 # 2) = Lt).
  { apply (proj1 (Qlt_alt _ _)). lra. }
  rewrite H. reflexivity.
Qed.

Lemma rne_err y : inject_Z (rne y) - (1 # 2) <= y /\ y <= inject_Z (rne y) + (1 # 2).
Proof.
  destruct (Qfloor_bounds y) as [H1 H2].
  destruct (rne_cases y) as [[H R]|[[H R]|[H R]]]; rewrite R.
  - lra.
  - rewrite inject_Z_plus. change (inject_Z 1) with 1. lra.
  - destruct (Z.even (Qfloor y)).
    + lra.
    + rewrite inject_Z_plus. change (inject_Z 1) with 1. lra.
Qed.

Lemma rne_mono x y : x <= y -> (rne x <= rne y)%Z.
Proof.
  intros Hxy.
  pose proof (Qfloor_resp_le _ _ Hxy) as Hf.
  destruct (Qfloor_bounds x) as [Hx1 Hx2].
  destruct (Qfloor_bounds y) as [Hy1 Hy2].
  assert (Hlo : forall t, (Qfloor t <= rne t <= Qfloor t + 1)%Z).
  { intros t. destruct (rne_cases t) as [[_ R]|[[_ R]|[_ R]]]; rewrite R; try lia.
    destruct (Z.even (Qfloor t)); lia. }
  destruct (Z.eq_dec (Qfloor x) (Qfloor y)) as [E|NE].
  - destruct (rne_cases x) as [[Hx Rx]|[[Hx Rx]|[Hx Rx]]];
    destruct (rne_cases y) as [[Hy Ry]|[[Hy Ry]|[Hy Ry]]];
    rewrite Rx, Ry; rewrite E in *; try lia; try lra;
    destruct (Z.even (Qfloor y)); try lia; lra.
  - specialize (Hlo x) as Hlx. specialize (Hlo y) as Hly. lia.
Qed.

Lemma rne_opp y : rne (- y) = (- rne y)%Z.
Proof.
  destruct (Qfloor_bounds y) as [H1 H2].
  destruct (Qeq_dec y (inject_Z (Qfloor y))) as [E|NE].
  - rewrite (rne_proper y _ E). rewrite (rne_proper (- y) (inject_Z (- Qfloor y))).
    + rewrite !rne_Z. reflexivity.
    + rewrite inject_Z_opp. rewrite <- E. reflexivity.
  - assert (Hlt : inject_Z (Qfloor y) < y).
    { destruct (Qlt_le_dec (inject_Z (Qfloor y)) y); auto. exfalso. apply NE. lra. }
    assert (Hinj : inject_Z (- Qfloor y - 1) == - inject_Z (Qfloor y) - 1).
    { unfold Z.sub. rewrite inject_Z_plus, !inject_Z_opp. change (inject_Z 1) with 1. lra. }
    assert (Hfn : Qfloor (- y) = (- Qfloor y - 1)%Z).
    { apply Qfloor_unique; rewrite Hinj; lra. }
    destruct (rne_cases y) as [[Hy Ry]|[[Hy Ry]|[Hy Ry]]];
    destruct (rne_cases (- y)) as [[Hn Rn]|[[Hn Rn]|[Hn Rn]]];
    rewrite Hfn in *; rewrite Hinj in *; rewrite Ry, Rn; try lia; try lra.
    rewrite Z.even_sub, Z.even_opp. simpl.
    destruct (Z.even (Qfloor y)); simpl; lia.
Qed.

Lemma pow2_pos e : 0 < pow2 e.
Proof. apply Qpower_0_lt. reflexivity. Qed.

Lemma pow2_add a b : pow2 (a + b) == pow2 a * pow2 b.
Proof. apply Qpower_plus. discriminate. Qed.

Lemma pow2_le a b : (a <= b)%Z -> pow2 a <= pow2 b.
Proof. intros H. apply Qpower_le_compat_l; [exact H | discriminate]. Qed.

Lemma pow2_lt_inv a b : pow2 a < pow2 b -> (a < b)%Z.
Proof. intros H. apply (Qpower_lt_compat_l_inv 2); [exact H | reflexivity]. Qed.

Lemma pow2_Z n : (0 <= n)%Z -> pow2 n == inject_Z (2 ^ n).
Proof. intros H. unfold pow2. rewrite Zpower_Qpower by exact H. reflexivity. Qed.

Lemma pow2_0 : pow2 0 == 1.
Proof. reflexivity. Qed.

Lemma pow2_div a b : pow2 (a - b) == pow2 a / pow2 b.
Proof. apply Qpower_minus. discriminate. Qed.

Lemma pow2_succ a : pow2 (a + 1) == 2 * pow2 a.
Proof. rewrite pow2_add. change (pow2 1) with 2. ring. Qed.

Lemma ilog2_spec q : 0 < q -> pow2 (ilog2 q) <= q /\ q < pow2 (ilog2 q + 1).
Proof.
  intros Hq. destruct q as [n d].
  assert (Hn : (0 < n)%Z).
  { unfold Qlt in Hq. simpl in Hq. lia. }
  unfold ilog2. cbn [Qnum Qden].
  set (a := Z.log2 n). set (b := Z.log2 (Zpos d)).
  destruct (Z.log2_spec n Hn) as [Ha1 Ha2]. fold a in Ha1, Ha2.
  destruct (Z.log2_spec (Zpos d) (Pos2Z.is_pos d)) as [Hb1 Hb2]. fold b in Hb1, Hb2.
  assert (Ha0 : (0 <= a)%Z) by apply Z.log2_nonneg.
  assert (Hb0 : (0 <= b)%Z) by apply Z.log2_nonneg.
  assert (QA1 : pow2 a <= inject_Z n) by (rewrite pow2_Z by lia; rewrite <- Zle_Qle; exact Ha1).
  assert (QA2 : inject_Z n < pow2 (a + 1)).
  { rewrite pow2_Z by lia; rewrite <- Zlt_Qlt.
    replace (a + 1)%Z with (Z.succ a) by lia. exact Ha2. }
  assert (QB1 : pow2 b <= inject_Z (Zpos d)) by (rewrite pow2_Z by lia; rewrite <- Zle_Qle; exact Hb1).
  assert (QB2 : inject_Z (Zpos d) < pow2 (b + 1)).
  { rewrite pow2_Z by lia; rewrite <- Zlt_Qlt.
    replace (b + 1)%Z with (Z.succ b) by lia. exact Hb2. }
  assert (HD : 0 < inject_Z (Zpos d)) by (rewrite <- (Zlt_Qlt 0); lia).
  assert (Hq' : (n # d) * inject_Z (Zpos d) == inject_Z n).
  { rewrite Qmake_Qdiv. field. intros E. rewrite E in HD. discriminate. }
  set (q := n # d) in *. set (D := inject_Z (Zpos d)) in *. set (N := inject_Z n) in *.
  pose proof (pow2_pos a) as Pa. pose proof (pow2_pos b) as Pb.
  pose proof (pow2_pos (a - b)) as Pl.
  assert (E1 : pow2 (a - b) * pow2 b == pow2 a).
  { rewrite <- pow2_add. replace (a - b + b)%Z with a by lia. reflexivity. }
  rewrite pow2_succ in QA2, QB2.
  assert (Hup : q < 2 * pow2 (a - b)).
  { destruct (Qlt_le_dec q (2 * pow2 (a - b))) as [L|G]; [exact L|exfalso].
    assert (q * D >= 2 * pow2 (a - b) * pow2 b).
    { apply Qle_trans with (2 * pow2 (a - b) * D).
      - apply Qmult_le_l; [nra | exact QB1].
      - apply Qmult_le_compat_r; [exact G | lra]. }
    nra. }
  assert (Hlo : pow2 (a - b) < 2 * q).
  { destruct (Qlt_le_dec (pow2 (a - b)) (2 * q)) as [L|G]; [exact L|exfalso].
    assert (2 * q * D <= pow2 (a - b) * D).
    { apply Qmult_le_compat_r; [exact G | lra]. }
    assert (pow2 (a - b) * D < pow2 (a - b) * (2 * pow2 b)).
    { apply Qmult_lt_l; [exact Pl | exact QB2]. }
    nra. }
  destruct (Qle_bool (pow2 (a - b)) q) eqn:B.
  - apply Qle_bool_iff in B. split; [exact B|]. rewrite pow2_succ. exact Hup.
  - assert (B' : q < pow2 (a - b)).
    { destruct (Qlt_le_dec q (pow2 (a - b))) as [L|G]; [exact L|].
      apply Qle_bool_iff in G. congruence. }
    replace (a - b - 1 + 1)%Z with (a - b)%Z by lia.
    split; [|exact B'].
    assert (E2 : pow2 (a - b) == 2 * pow2 (a - b - 1)).
    { rewrite <- pow2_succ. replace (a - b - 1 + 1)%Z with (a - b)%Z by lia. reflexivity. }
    lra.
Qed.

Lemma ilog2_ge q k : 0 < q -> pow2 k <= q -> (k <= ilog2 q)%Z.
Proof.
  intros Hq Hk. destruct (ilog2_spec q Hq) as [_ H2].
  assert (H : pow2 k < pow2 (ilog2 q + 1)) by lra.
  apply pow2_lt_inv in H. lia.
Qed.

Lemma ilog2_lt q k : 0 < q -> q < pow2 k -> (ilog2 q < k)%Z.
Proof.
  intros Hq Hk. destruct (ilog2_spec q Hq) as [H1 _].
  assert (H : pow2 (ilog2 q) < pow2 k) by lra.
  apply pow2_lt_inv in H. lia.
Qed.

Lemma ilog2_mono p q : 0 < p -> p <= q -> (ilog2 p <= ilog2 q)%Z.
Proof.
  intros Hp Hpq. apply ilog2_ge; [lra|].
  destruct (ilog2_spec p Hp) as [H1 _]. lra.
Qed.

Lemma ilog2_proper p q : 0 < p -> p == q -> ilog2 p = ilog2 q.
Proof.
  intros Hp E. assert (H : 0 < q) by (rewrite <- E; exact Hp).
  pose proof (ilog2_mono p q Hp) as A. pose proof (ilog2_mono q p H) as B.
  assert (L1 : p <= q) by (rewrite E; apply Qle_refl).
  assert (L2 : q <= p) by (rewrite E; apply Qle_refl).
  specialize (A L1). specialize (B L2). lia.
Qed.

End Rounding.

Section RoundedValue.
Open Scope Q_scope.

Lemma rnd_q_unfold q : ~ q == 0 ->
  rnd_q q = Qred (inject_Z (rne (q / pow2 (ulp_exp q))) * pow2 (ulp_exp q)).
Proof.
  intros H. unfold rnd_q. destruct (Qeq_bool q 0) eqn:E.
  - apply Qeq_bool_iff in E. contradiction.
  - reflexivity.
Qed.

Lemma rnd_q_eq q : ~ q == 0 ->
  rnd_q q == inject_Z (rne (q / pow2 (ulp_exp q))) * pow2 (ulp_exp q).
Proof. intros H. rewrite rnd_q_unfold by exact H. apply Qred_correct. Qed.

Lemma rnd_q_0 q : q == 0 -> rnd_q q = 0.
Proof.
  intros H. unfold rnd_q. apply Qeq_bool_iff in H. rewrite H. reflexivity.
Qed.

Lemma rnd_q_red q : Qred (rnd_q q) = rnd_q q.
Proof.
  unfold rnd_q. destruct (Qeq_bool q 0).
  - reflexivity.
  - apply Qred_complete, Qred_correct.
Qed.

(** A value in lowest terms that the rounding is equal to is the very
    rational the rounding returns. *)
Lemma rnd_q_canon q r : rnd_q q == r -> Qred r = r -> rnd_q q = r.
Proof.
  intros E R. rewrite <- rnd_q_red, <- R. apply Qred_complete. exact E.
Qed.

Lemma Qabs_pos_lt q : ~ q == 0 -> 0 < Qabs q.
Proof.
  intros H. destruct (Qlt_le_dec 0 q) as [L|G].
  - rewrite Qabs_pos by lra. exact L.
  - rewrite Qabs_neg by exact G.
    destruct (Qlt_le_dec q 0) as [L'|G']; [lra|].
    exfalso. apply H. lra.
Qed.

Lemma ulp_exp_proper p q : ~ p == 0 -> p == q -> ulp_exp p = ulp_exp q.
Proof.
  intros Hp E. unfold ulp_exp.
  rewrite (ilog2_proper (Qabs p) (Qabs q)).
  - reflexivity.
  - apply Qabs_pos_lt. exact Hp.
  - rewrite E. reflexivity.
Qed.

Lemma rnd_q_proper p q : p == q -> rnd_q p = rnd_q q.
Proof.
  intros E. destruct (Qeq_dec p 0) as [Z|NZ].
  - rewrite (rnd_q_0 p Z). rewrite rnd_q_0; [reflexivity|]. rewrite <- E. exact Z.
  - assert (NZ' : ~ q == 0) by (rewrite <- E; exact NZ).
    rewrite !rnd_q_unfold by assumption.
    apply Qred_complete.
    rewrite (ulp_exp_proper p q NZ E).
    rewrite (rne_proper (p / pow2 (ulp_exp q)) (q / pow2 (ulp_exp q))).
    + reflexivity.
    + rewrite E. reflexivity.
Qed.

Lemma ulp_exp_opp q : ulp_exp (- q) = ulp_exp q.
Proof.
  destruct (Qeq_dec q 0) as [Z|NZ].
  - unfold ulp_exp.
    assert (E : Qabs (- q) = Qabs q).
    { destruct q as [n d]. unfold Qeq in Z. simpl in Z.
      assert (n = 0%Z) by lia. subst. reflexivity. }
    rewrite E. reflexivity.
  - unfold ulp_exp. rewrite (ilog2_proper (Qabs (- q)) (Qabs q)).
    + reflexivity.
    + apply Qabs_pos_lt. intros E. apply NZ. lra.
    + apply Qabs_opp.
Qed.

Lemma rnd_q_opp q : rnd_q (- q) == - rnd_q q.
Proof.
  destruct (Qeq_dec q 0) as [Z|NZ].
  - rewrite (rnd_q_0 q Z). rewrite rnd_q_0; [reflexivity|]. lra.
  - assert (NZ' : ~ - q == 0) by (intros E; apply NZ; lra).
    rewrite !rnd_q_eq by assumption.
    rewrite ulp_exp_opp.
    rewrite (rne_proper (- q / pow2 (ulp_exp q)) (- (q / pow2 (ulp_exp q)))).
    + rewrite rne_opp, inject_Z_opp. ring.
    + field. pose proof (pow2_pos (ulp_exp q)). lra.
Qed.

Lemma rnd_q_nonneg q : 0 <= q -> 0 <= rnd_q q.
Proof.
  intros H. destruct (Qeq_dec q 0) as [Z|NZ].
  - rewrite (rnd_q_0 q Z). apply Qle_refl.
  - rewrite rnd_q_eq by exact NZ.
    pose proof (pow2_pos (ulp_exp q)) as P.
    assert (H0 : 0 <= q / pow2 (ulp_exp q)).
    { apply Qle_shift_div_l; [exact P | lra]. }
    apply rne_mono in H0. change 0 with (inject_Z 0) in H0. rewrite rne_Z in H0.
    assert (0 <= inject_Z (rne (q / pow2 (ulp_exp q)))).
    { change 0 with (inject_Z 0). rewrite <- Zle_Qle. exact H0. }
    nra.
Qed.

Lemma ulp_exp_bounds q : 0 < q ->
  (ilog2 q - 52 <= ulp_exp q)%Z /\ (-1074 <= ulp_exp q)%Z /\
  (ulp_exp q = ilog2 q - 52 \/ ulp_exp q = -1074)%Z.
Proof.
  intros H. unfold ulp_exp.
  rewrite (ilog2_proper (Qabs q) q).
  - lia.
  - rewrite Qabs_pos by lra. exact H.
  - apply Qabs_pos. lra.
Qed.

Lemma rnd_q_upper q : 0 < q -> rnd_q q <= pow2 (ulp_exp q + 53).
Proof.
  intros H. assert (NZ : ~ q == 0) by lra.
  rewrite rnd_q_eq by exact NZ.
  destruct (ulp_exp_bounds q H) as (B1 & B2 & _).
  destruct (ilog2_spec q H) as [_ S2].
  set (e := ulp_exp q) in *.
  pose proof (pow2_pos e) as P.
  assert (Hq : q <= pow2 53 * pow2 e).
  { rewrite <- pow2_add. apply Qle_trans with (pow2 (ilog2 q + 1)); [lra|].
    apply pow2_le. lia. }
  apply (Qle_shift_div_r _ _ _ P) in Hq.
  apply rne_mono in Hq.
  rewrite (rne_proper (pow2 53) (inject_Z (2 ^ 53))) in Hq by (apply pow2_Z; lia).
  rewrite rne_Z in Hq.
  rewrite Z.add_comm, pow2_add.
  apply Qmult_le_compat_r; [|lra].
  rewrite (pow2_Z 53) by lia. rewrite <- Zle_Qle. exact Hq.
Qed.

Lemma rnd_q_lower q : 0 < q -> (-1074 < ulp_exp q)%Z -> pow2 (ulp_exp q + 52) <= rnd_q q.
Proof.
  intros H N. assert (NZ : ~ q == 0) by lra.
  rewrite rnd_q_eq by exact NZ.
  destruct (ulp_exp_bounds q H) as (B1 & B2 & B3).
  destruct (ilog2_spec q H) as [S1 _].
  set (e := ulp_exp q) in *.
  pose proof (pow2_pos e) as P.
  assert (Hq : pow2 52 * pow2 e <= q).
  { rewrite <- pow2_add. apply Qle_trans with (pow2 (ilog2 q)); [|lra].
    apply pow2_le. lia. }
  apply (Qle_shift_div_l _ _ _ P) in Hq.
  apply rne_mono in Hq.
  rewrite (rne_proper (pow2 52) (inject_Z (2 ^ 52))) in Hq by (apply pow2_Z; lia).
  rewrite rne_Z in Hq.
  rewrite Z.add_comm, pow2_add.
  apply Qmult_le_compat_r; [|lra].
  rewrite (pow2_Z 52) by lia. rewrite <- Zle_Qle. exact Hq.
Qed.

Lemma rnd_q_mono_pos p q : 0 < p -> p <= q -> rnd_q p <= rnd_q q.
Proof.
  intros Hp Hpq. assert (Hq : 0 < q) by lra.
  destruct (ulp_exp_bounds p Hp) as (P1 & P2 & P3).
  destruct (ulp_exp_bounds q Hq) as (Q1 & Q2 & Q3).
  pose proof (ilog2_mono p q Hp Hpq) as IL.
  destruct (Z.eq_dec (ulp_exp p) (ulp_exp q)) as [E|NE].
  - rewrite !rnd_q_eq by lra. rewrite E.
    pose proof (pow2_pos (ulp_exp q)) as P.
    apply Qmult_le_compat_r; [|lra].
    rewrite <- Zle_Qle. apply rne_mono.
    apply Qmult_le_compat_r; [exact Hpq|].
    apply Qlt_le_weak. apply Qinv_lt_0_compat. exact P.
  - assert (LT : (ulp_exp p < ulp_exp q)%Z) by lia.
    apply Qle_trans with (pow2 (ulp_exp p + 53)).
    + apply rnd_q_upper. exact Hp.
    + apply Qle_trans with (pow2 (ulp_exp q + 52)).
      * apply pow2_le. lia.
      * apply rnd_q_lower; [exact Hq | lia].
Qed.

(** Rounding is monotone. *)
Lemma rnd_q_mono p q : p <= q -> rnd_q p <= rnd_q q.
Proof.
  intros H.
  destruct (Qlt_le_dec 0 p) as [Pp|Pn].
  - apply rnd_q_mono_pos; assumption.
  - destruct (Qlt_le_dec q 0) as [Qn|Qp].
    + assert (A : rnd_q (- q) <= rnd_q (- p)) by (apply rnd_q_mono_pos; lra).
      rewrite !rnd_q_opp in A. lra.
    + pose proof (rnd_q_nonneg q Qp) as A.
      assert (B : 0 <= rnd_q (- p)) by (apply rnd_q_nonneg; lra).
      rewrite rnd_q_opp in B. lra.
Qed.

Lemma rnd_q_repr_pos q M E :
  q == inject_Z M * pow2 E -> (0 < M < 2 ^ 53)%Z -> (-1074 <= E)%Z -> rnd_q q == q.
Proof.
  intros Hq HM HE.
  pose proof (pow2_pos E) as PE.
  assert (M0 : 0 < inject_Z M) by (rewrite <- (Zlt_Qlt 0); lia).
  assert (M1 : inject_Z M < pow2 53).
  { rewrite (pow2_Z 53) by lia. rewrite <- Zlt_Qlt. lia. }
  assert (Pq : 0 < q) by (rewrite Hq; nra).
  rewrite rnd_q_eq by lra.
  destruct (ulp_exp_bounds q Pq) as (B1 & B2 & B3).
  assert (IL : (ilog2 q < 53 + E)%Z).
  { apply ilog2_lt; [exact Pq|]. rewrite pow2_add, Hq.
    apply Qmult_lt_compat_r; assumption. }
  set (e := ulp_exp q) in *.
  assert (Ee : (e <= E)%Z) by lia.
  pose proof (pow2_pos e) as Pe.
  assert (D : q / pow2 e == inject_Z (M * 2 ^ (E - e))).
  { rewrite inject_Z_mult, <- pow2_Z by lia. rewrite pow2_div, Hq.
    field; try split; lra. }
  rewrite (rne_proper _ _ D), rne_Z, <- D. field. lra.
Qed.

(** Rounding leaves a binary64 value unchanged: an integer mantissa below
    2^53 scaled by a power of two not under 2^-1074. *)
Lemma rnd_q_repr q M E :
  q == inject_Z M * pow2 E -> (Z.abs M < 2 ^ 53)%Z -> (-1074 <= E)%Z -> rnd_q q == q.
Proof.
  intros Hq HM HE.
  destruct (Z.lt_trichotomy M 0) as [N|[Z|P]].
  - assert (A : rnd_q (- q) == - q).
    { apply (rnd_q_repr_pos (- q) (- M) E); [|lia|exact HE].
      rewrite Hq, inject_Z_opp. ring. }
    rewrite rnd_q_opp in A. lra.
  - subst M. assert (H : q == 0) by (rewrite Hq; ring).
    rewrite (rnd_q_0 q H). symmetry. exact H.
  - apply (rnd_q_repr_pos q M E); [exact Hq|lia|exact HE].
Qed.

(** Half-ulp error bound. *)
Lemma rnd_q_err q :
  rnd_q q - (1 # 2) * pow2 (ulp_exp q) <= q /\ q <= rnd_q q + (1 # 2) * pow2 (ulp_exp q).
Proof.
  pose proof (pow2_pos (ulp_exp q)) as P.
  destruct (Qeq_dec q 0) as [Z|NZ].
  - rewrite (rnd_q_0 q Z). split; lra.
  - rewrite rnd_q_eq by exact NZ.
    destruct (rne_err (q / pow2 (ulp_exp q))) as [E1 E2].
    assert (D : q == q / pow2 (ulp_exp q) * pow2 (ulp_exp q)) by (field; lra).
    set (y := q / pow2 (ulp_exp q)) in *.
    set (r := inject_Z (rne y)) in *.
    split; nra.
Qed.

End RoundedValue.

(** ** Facts about the number operations *)

Section NumberFacts.
Open Scope Q_scope.

Lemma rnd_proper p q : p == q -> rnd p = rnd q.
Proof. intros E. unfold rnd. rewrite (rnd_q_proper p q E). reflexivity. Qed.

Lemma rnd_fin q : - pow2 1024 < rnd_q q -> rnd_q q < pow2 1024 -> rnd q = Fin (rnd_q q).
Proof.
  intros L U. unfold rnd. cbv zeta.
  destruct (Qle_bool (pow2 1024) (rnd_q q)) eqn:A.
  - apply Qle_bool_iff in A. lra.
  - destruct (Qle_bool (rnd_q q) (- pow2 1024)) eqn:B.
    + apply Qle_bool_iff in B. lra.
    + reflexivity.
Qed.

Lemma rnd_q_between q lo hi :
  representable lo -> representable hi -> lo <= q -> q <= hi ->
  lo <= rnd_q q /\ rnd_q q <= hi.
Proof.
  intros Rl Rh L H. unfold representable in *.
  pose proof (rnd_q_mono lo q L) as A. pose proof (rnd_q_mono q hi H) as B.
  rewrite Rl in A. rewrite Rh in B. split; assumption.
Qed.

Lemma representable_dyadic M E :
  (Z.abs M < 2 ^ 53)%Z -> (-1074 <= E)%Z -> representable (inject_Z M * pow2 E).
Proof.
  intros HM HE. unfold representable.
  apply (rnd_q_repr _ M E); [reflexivity | exact HM | exact HE].
Qed.

Lemma representable_Z z : (Z.abs z < 2 ^ 53)%Z -> representable (inject_Z z).
Proof.
  intros H. unfold representable.
  apply (rnd_q_repr _ z 0); [rewrite pow2_0; ring | exact H | lia].
Qed.

Lemma pow2_1024_big : inject_Z (2 ^ 53) < pow2 1024.
Proof. rewrite <- (pow2_Z 53) by lia. apply Qpower_lt_compat_l; [lia | reflexivity]. Qed.

(** A rounded value between two integers below 2^53 is finite. *)
Lemma rnd_fin_between q lo hi :
  (Z.abs lo < 2 ^ 53)%Z -> (Z.abs hi < 2 ^ 53)%Z ->
  inject_Z lo <= q -> q <= inject_Z hi ->
  rnd q = Fin (rnd_q q) /\ inject_Z lo <= rnd_q q /\ rnd_q q <= inject_Z hi.
Proof.
  intros Hl Hh L H.
  destruct (rnd_q_between q (inject_Z lo) (inject_Z hi)) as [A B];
    try apply representable_Z; try assumption.
  pose proof pow2_1024_big as P.
  assert (Bl : - inject_Z (2 ^ 53) < inject_Z lo).
  { rewrite <- inject_Z_opp, <- Zlt_Qlt. lia. }
  assert (Bh : inject_Z hi < inject_Z (2 ^ 53)).
  { rewrite <- Zlt_Qlt. lia. }
  split; [|split; assumption].
  apply rnd_fin; lra.
Qed.

Lemma Qred_inject_Z z : Qred (inject_Z z) = inject_Z z.
Proof.
  unfold Qred, inject_Z.
  pose proof (Z.ggcd_gcd z 1) as G.
  pose proof (Z.ggcd_correct_divisors z 1) as D.
  destruct (Z.ggcd z 1) as [g [aa bb]]. simpl in *.
  rewrite Z.gcd_1_r in G. subst g. destruct D as [D1 D2].
  assert (E1 : aa = z) by lia. assert (E2 : bb = 1%Z) by lia.
  rewrite E1, E2. reflexivity.
Qed.

Lemma rnd_int z : (Z.abs z < 2 ^ 53)%Z -> rnd (inject_Z z) = int z.
Proof.
  intros H.
  destruct (rnd_fin_between (inject_Z z) z z H H) as (F & _ & _); try apply Qle_refl.
  rewrite F. unfold int. f_equal.
  apply rnd_q_canon; [apply representable_Z; exact H | apply Qred_inject_Z].
Qed.

Lemma add_int a b : (Z.abs (a + b) < 2 ^ 53)%Z -> add (int a) (int b) = int (a + b).
Proof.
  intros H. unfold add, int.
  rewrite (rnd_proper _ (inject_Z (a + b))) by (rewrite inject_Z_plus; reflexivity).
  apply rnd_int. exact H.
Qed.

Lemma sub_int a b : (Z.abs (a - b) < 2 ^ 53)%Z -> sub (int a) (int b) = int (a - b).
Proof.
  intros H. unfold sub, add, neg, int.
  rewrite (rnd_proper _ (inject_Z (a - b))).
  - apply rnd_int. exact H.
  - unfold Z.sub. rewrite inject_Z_plus, inject_Z_opp. reflexivity.
Qed.

Lemma mul_int a b : (Z.abs (a * b) < 2 ^ 53)%Z -> mul (int a) (int b) = int (a * b).
Proof.
  intros H. unfold mul, int.
  rewrite (rnd_proper _ (inject_Z (a * b))) by (rewrite inject_Z_mult; reflexivity).
  apply rnd_int. exact H.
Qed.

Lemma Qle_bool_Z a b : Qle_bool (inject_Z a) (inject_Z b) = (a <=? b)%Z.
Proof.
  destruct (Z.leb_spec a b) as [H|H].
  - apply Qle_bool_iff. rewrite <- Zle_Qle. exact H.
  - destruct (Qle_bool (inject_Z a) (inject_Z b)) eqn:E; [|reflexivity].
    apply Qle_bool_iff in E. rewrite <- Zle_Qle in E. lia.
Qed.

Lemma le_int a b : le (int a) (int b) = (a <=? b)%Z.
Proof. apply Qle_bool_Z. Qed.

Lemma lt_int a b : lt (int a) (int b) = (a <? b)%Z.
Proof.
  unfold lt, int. rewrite Qle_bool_Z.
  destruct (Z.leb_spec b a); destruct (Z.ltb_spec a b); try reflexivity; lia.
Qed.

Lemma strict_eq_int a b : strict_eq (int a) (int b) = (a =? b)%Z.
Proof.
  unfold strict_eq, int.
  destruct (Z.eqb_spec a b) as [H|H].
  - subst. apply Qeq_bool_iff. reflexivity.
  - destruct (Qeq_bool (inject_Z a) (inject_Z b)) eqn:E; [|reflexivity].
    apply Qeq_bool_iff in E. apply (proj1 (inject_Z_injective _ _)) in E. contradiction.
Qed.

Lemma Math_min_int a b : Math_min (int a) (int b) = int (Z.min a b).
Proof.
  unfold Math_min. change (Fin (inject_Z b)) with (int b).
  change (Fin (inject_Z a)) with (int a). unfold int at 1 2. fold (int a). fold (int b).
  rewrite lt_int. destruct (Z.ltb_spec b a).
  - rewrite Z.min_r by lia. reflexivity.
  - rewrite Z.min_l by lia. reflexivity.
Qed.

Lemma Math_max_int a b : Math_max (int a) (int b) = int (Z.max a b).
Proof.
  unfold Math_max. unfold int at 1 2. fold (int a). fold (int b).
  rewrite lt_int. destruct (Z.ltb_spec a b).
  - rewrite Z.max_r by lia. reflexivity.
  - rewrite Z.max_l by lia. reflexivity.
Qed.

Lemma div_fin p q : ~ q == 0 -> div (Fin p) (Fin q) = rnd (p / q).
Proof.
  intros H. unfold div. destruct (Qeq_bool q 0) eqn:E; [|reflexivity].
  apply Qeq_bool_iff in E. contradiction.
Qed.

Lemma inject_Z_nonzero z : z <> 0%Z -> ~ inject_Z z == 0.
Proof.
  intros H E. change 0 with (inject_Z 0) in E.
  apply (proj1 (inject_Z_injective _ _)) in E. contradiction.
Qed.

Lemma div_int a b : b <> 0%Z -> div (int a) (int b) = rnd (inject_Z a / inject_Z b).
Proof. intros H. apply div_fin. apply inject_Z_nonzero. exact H. Qed.

Lemma Math_floor_int z : Math_floor (int z) = int z.
Proof. unfold Math_floor, int. rewrite Qfloor_Z. reflexivity. Qed.

(** [Math.floor(a / b)] on small non-negative integers is the integer
    quotient: the quotient is at most 31/32 above it, and so is its
    rounding. *)
Lemma floor_div_int a b :
  (0 <= a < 2 ^ 40)%Z -> (0 < b <= 32)%Z ->
  Math_floor (div (int a) (int b)) = int (a / b).
Proof.
  intros Ha Hb. rewrite div_int by lia.
  set (k := (a / b)%Z).
  assert (Hk : (0 <= k < 2 ^ 40)%Z).
  { unfold k. split.
    - apply Z.div_pos; lia.
    - apply Z.div_lt_upper_bound; nia. }
  assert (Hdiv : (b * k <= a /\ a <= b * k + (b - 1))%Z).
  { unfold k. pose proof (Z.mul_div_le a b ltac:(lia)).
    pose proof (Z.mul_succ_div_gt a b ltac:(lia)). lia. }
  assert (Pb : 0 < inject_Z b) by (rewrite <- (Zlt_Qlt 0); lia).
  assert (Bb : inject_Z b <= 32) by (change 32 with (inject_Z 32); rewrite <- Zle_Qle; lia).
  assert (L : inject_Z k <= inject_Z a / inject_Z b).
  { apply Qle_shift_div_l; [exact Pb|]. rewrite <- inject_Z_mult, <- Zle_Qle. lia. }
  assert (U : inject_Z a / inject_Z b <= inject_Z (32 * k + 31) * pow2 (-5)).
  { apply Qle_shift_div_r; [exact Pb|].
    assert (A1 : inject_Z a <= inject_Z b * inject_Z k + (inject_Z b - 1)).
    { change 1 with (inject_Z 1). unfold Qminus.
      rewrite <- inject_Z_opp, <- inject_Z_mult, <- !inject_Z_plus, <- Zle_Qle. lia. }
    assert (Pk : 0 <= inject_Z k) by (change 0 with (inject_Z 0); rewrite <- Zle_Qle; lia).
    rewrite inject_Z_plus, inject_Z_mult.
    change (pow2 (-5)) with (1 # 32). change (inject_Z 32) with 32. change (inject_Z 31) with 31.
    nra. }
  destruct (rnd_q_between (inject_Z a / inject_Z b) (inject_Z k)
              (inject_Z (32 * k + 31) * pow2 (-5))) as [A B].
  - apply representable_Z. lia.
  - apply representable_dyadic; lia.
  - exact L.
  - exact U.
  - assert (B' : rnd_q (inject_Z a / inject_Z b) < inject_Z k + 1).
    { eapply Qle_lt_trans; [exact B|].
      rewrite inject_Z_plus, inject_Z_mult.
      change (pow2 (-5)) with (1 # 32). change (inject_Z 32) with 32.
      change (inject_Z 31) with 31. lra. }
    assert (Pk : 0 <= inject_Z k) by (change 0 with (inject_Z 0); rewrite <- Zle_Qle; lia).
    assert (Bk : inject_Z k + 1 <= inject_Z (2 ^ 53)).
    { change 1 with (inject_Z 1). rewrite <- inject_Z_plus, <- Zle_Qle. lia. }
    pose proof pow2_1024_big as P.
    rewrite rnd_fin by lra.
    unfold Math_floor, int. f_equal. f_equal.
    apply Qfloor_unique; [exact A | exact B'].
Qed.

End NumberFacts.

(** ** The 996 index on concrete inputs *)

Section IndexExamples.
Open Scope Q_scope.

(** Example B of the specification: 100 commits in normal hours, none in
    overtime hours, 100 on workdays and 100 on weekend days give ratio 50,
    index 150 and the most severe description. *)
Lemma calculate996Index_example_B hourData :
  let r := Calculator.calculate996Index (workTimeData 100 0 100 100 hourData) in
  overTimeRadio r = int 50 /\ index996 r = int 150 /\ index996Str r = Extreme
  /\ spec_overtime_ratio 100 0 100 100 = 50%Z.
Proof.
  unfold Calculator.calculate996Index. cbn [workTimeData workHourPl workWeekPl fst snd count].
  assert (E : Calculator.primaryRadio (int 100) (int 0) (int 100) (int 100) = int 50)
    by (vm_compute; reflexivity).
  rewrite E. cbn [strict_eq int]. 
  replace (Qeq_bool (inject_Z 50) (inject_Z 0)) with false by reflexivity.
  cbn [andb overTimeRadio index996 index996Str].
  repeat split; vm_compute; reflexivity.
Qed.

(** C1 (evaluation at the failing input): with 93 commits in normal hours,
    7 in overtime hours, 100 on workdays and none on weekend days the
    corrected overtime count is 7 of 100, so the specified ratio is 7 and
    the index 21; the code computes [(7 / 100) * 100] in binary64, which is
    7.000000000000001, and [Math.ceil] makes it 8: ratio 8, index 24, and
    the description of the next tier. *)
Theorem calculate996Index_ceil_overshoot (hourData : list TimeCount) :
  let r := Calculator.calculate996Index (workTimeData 93 7 100 0 hourData) in
  spec_overtime_ratio 93 7 100 0 = 7%Z
  /\ overTimeRadio r = int 8
  /\ index996 r = int 24
  /\ index996Str r = Acceptable
  /\ Calculator.generateDescription (int (3 * 7)) = Healthy.
Proof.
  unfold Calculator.calculate996Index. cbn [workTimeData workHourPl workWeekPl fst snd count].
  assert (E : Calculator.primaryRadio (int 93) (int 7) (int 100) (int 0) = int 8)
    by (vm_compute; reflexivity).
  rewrite E. cbn [strict_eq int].
  replace (Qeq_bool (inject_Z 8) (inject_Z 0)) with false by reflexivity.
  cbn [andb overTimeRadio index996 index996Str].
  repeat split; vm_compute; reflexivity.
Qed.

(** The product that overshoots: 7/100 rounds to a binary64 value whose
    product with 100 rounds to 7 + 2^-50. *)
Lemma seven_percent_times_100 :
  mul (div (int 7) (int 100)) (int 100) = Fin (7881299347898369 # 1125899906842624)
  /\ 7 < 7881299347898369 # 1125899906842624.
Proof. split; vm_compute; reflexivity. Qed.

(** C6 (evaluation at the failing input): with no commit at all
    (x = y = m = n = 0) the weekend correction is 0/0; the ratio and the
    index are NaN, and the description chosen for a NaN index is the most
    severe one. *)
Theorem calculate996Index_all_zero_is_NaN (hourData : list TimeCount) :
  let r := Calculator.calculate996Index (workTimeData 0 0 0 0 hourData) in
  overTimeRadio r = NaN /\ index996 r = NaN /\ index996Str r = Extreme.
Proof.
  unfold Calculator.calculate996Index. cbn [workTimeData workHourPl workWeekPl fst snd count].
  assert (E : Calculator.primaryRadio (int 0) (int 0) (int 0) (int 0) = NaN)
    by (vm_compute; reflexivity).
  rewrite E. cbn [strict_eq andb overTimeRadio index996 index996Str].
  repeat split.
Qed.

(** The sibling path that does guard the empty case: [analyzeTimezone]
    answers the fixed default when there is no commit. *)
Lemma analyzeTimezone_no_commits timezones hourData :
  TimezoneAnalyzer.analyzeTimezone
    {| TimezoneAnalyzer.totalCommits := int 0; TimezoneAnalyzer.timezones := timezones |}
    hourData
  = {| TimezoneAnalyzer.isCrossTimezone := false;
       TimezoneAnalyzer.crossTimezoneRatio := int 0;
       TimezoneAnalyzer.dominantTimezone := None;
       TimezoneAnalyzer.dominantRatio := int 0;
       TimezoneAnalyzer.sleepPeriodRatio := int 0;
       TimezoneAnalyzer.confidence := int 0;
       TimezoneAnalyzer.timezoneGroups := None |}.
Proof. reflexivity. Qed.

End IndexExamples.

(** ** Project classifier: the contributor-count shortcut *)

Section ManyContributors.
Open Scope Q_scope.





End ManyContributors.

(** ** Commit collector: the latest commit of each day *)

Section DailyLatest.
Import CommitCollector.
Open Scope Z_scope.

Lemma map_get_set_same m k v : map_get (map_set m k v) k = Some v.
Proof.
  induction m as [|[k' v'] r IH]; simpl.
  - rewrite Z.eqb_refl. reflexivity.
  - destruct (k' =? k) eqn:E; simpl.
    + rewrite Z.eqb_refl. reflexivity.
    + rewrite E. exact IH.
Qed.

Lemma map_get_set_other m k v k' : k <> k' -> map_get (map_set m k v) k' = map_get m k'.
Proof.
  intros N. induction m as [|[k0 v0] r IH]; simpl.
  - destruct (Z.eqb_spec k k'); [contradiction | reflexivity].
  - destruct (Z.eqb_spec k0 k) as [E|E]; simpl.
    + subst k0. destruct (Z.eqb_spec k k'); [contradiction|].
      reflexivity.
    + destruct (Z.eqb_spec k0 k'); [reflexivity | exact IH].
Qed.

Lemma map_get_In m k v : map_get m k = Some v -> In (k, v) m.
Proof.
  induction m as [|[k0 v0] r IH]; simpl; [discriminate|].
  destruct (Z.eqb_spec k0 k) as [E|E].
  - intros H. injection H as H. subst. left. reflexivity.
  - intros H. right. apply IH. exact H.
Qed.

Lemma recordLatest_unfold m c :
  recordLatest m c =
  match map_get m (effectiveDate c) with
  | None => map_set m (effectiveDate c) (effectiveMinutes c)
  | Some current =>
      if current <? effectiveMinutes c
      then map_set m (effectiveDate c) (effectiveMinutes c)
      else m
  end.
Proof.
  unfold recordLatest, effectiveDate, effectiveMinutes.
  destruct ((0 <=? hour c) && (hour c <? 6))%bool; reflexivity.
Qed.

(** After a commit is recorded its day holds at least its minute. *)
Lemma recordLatest_same m c :
  exists v, map_get (recordLatest m c) (effectiveDate c) = Some v /\ effectiveMinutes c <= v.
Proof.
  rewrite recordLatest_unfold.
  destruct (map_get m (effectiveDate c)) as [cur|] eqn:G.
  - destruct (Z.ltb_spec cur (effectiveMinutes c)).
    + exists (effectiveMinutes c). rewrite map_get_set_same. split; [reflexivity | lia].
    + exists cur. split; [exact G | lia].
  - exists (effectiveMinutes c). rewrite map_get_set_same. split; [reflexivity | lia].
Qed.

(** Recording a commit never lowers the minute held for any day. *)
Lemma recordLatest_grows m c k v0 :
  map_get m k = Some v0 -> exists v, map_get (recordLatest m c) k = Some v /\ v0 <= v.
Proof.
  intros G. rewrite recordLatest_unfold.
  destruct (Z.eq_dec (effectiveDate c) k) as [E|N].
  - rewrite E, G. destruct (Z.ltb_spec v0 (effectiveMinutes c)).
    + exists (effectiveMinutes c). rewrite map_get_set_same. split; [reflexivity | lia].
    + exists v0. split; [exact G | lia].
  - destruct (map_get m (effectiveDate c)) as [cur|].
    + destruct (cur <? effectiveMinutes c).
      * exists v0. rewrite map_get_set_other by exact N. split; [exact G | lia].
      * exists v0. split; [exact G | lia].
    + exists v0. rewrite map_get_set_other by exact N. split; [exact G | lia].
Qed.

Lemma fold_recordLatest_grows commits : forall m k v0,
  map_get m k = Some v0 ->
  exists v, map_get (fold_left recordLatest commits m) k = Some v /\ v0 <= v.
Proof.
  induction commits as [|c r IH]; intros m k v0 G; simpl.
  - exists v0. split; [exact G | lia].
  - destruct (recordLatest_grows m c k v0 G) as (v1 & G1 & L1).
    destruct (IH _ _ _ G1) as (v & G2 & L2).
    exists v. split; [exact G2 | lia].
Qed.

Lemma fold_recordLatest_covers commits : forall m c,
  In c commits ->
  exists v, map_get (fold_left recordLatest commits m) (effectiveDate c) = Some v
            /\ effectiveMinutes c <= v.
Proof.
  induction commits as [|c0 r IH]; intros m c HIn; simpl; [contradiction|].
  destruct HIn as [E|HIn].
  - subst c0. destruct (recordLatest_same m c) as (v1 & G1 & L1).
    destruct (fold_recordLatest_grows r _ _ _ G1) as (v & G2 & L2).
    exists v. split; [exact G2 | lia].
  - apply IH. exact HIn.
Qed.

(** Every day held by the map was put there by one of the commits, with
    that commit's minute. *)
Lemma fold_recordLatest_origin commits : forall m k v,
  map_get (fold_left recordLatest commits m) k = Some v ->
  map_get m k = Some v
  \/ exists c, In c commits /\ effectiveDate c = k /\ effectiveMinutes c = v.
Proof.
  induction commits as [|c0 r IH]; intros m k v G; simpl in *.
  - left. exact G.
  - destruct (IH _ _ _ G) as [G1|(c & I & E1 & E2)].
    + rewrite recordLatest_unfold in G1.
      assert (S : forall m', m' = map_set m (effectiveDate c0) (effectiveMinutes c0) ->
                  map_get m' k = Some v ->
                  map_get m k = Some v
                  \/ exists c, (c0 = c \/ In c r) /\ effectiveDate c = k /\ effectiveMinutes c = v).
      { intros m' Em' G'. subst m'.
        destruct (Z.eq_dec (effectiveDate c0) k) as [E|N].
        - rewrite E, map_get_set_same in G'. injection G' as G'.
          right. exists c0. auto.
        - rewrite map_get_set_other in G' by exact N. left. exact G'. }
      destruct (map_get m (effectiveDate c0)) as [cur|].
      * destruct (cur <? effectiveMinutes c0).
        -- apply (S _ eq_refl G1).
        -- left. exact G1.
      * apply (S _ eq_refl G1).
    + right. exists c. auto.
Qed.

Lemma map_In_get (m : DateMap) k v :
  NoDup (map fst m) -> In (k, v) m -> map_get m k = Some v.
Proof.
  induction m as [|[k0 v0] r IH]; simpl; intros ND HIn; [contradiction|].
  inversion ND as [|? ? NI ND']; subst.
  destruct HIn as [E|HIn].
  - injection E as E1 E2. subst. rewrite Z.eqb_refl. reflexivity.
  - destruct (Z.eqb_spec k0 k) as [E|N].
    + subst k0. exfalso. apply NI. apply (in_map fst) in HIn. exact HIn.
    + apply IH; assumption.
Qed.

Lemma map_set_keys m k v :
  map fst (map_set m k v) = if existsb (Z.eqb k) (map fst m) then map fst m else map fst m ++ [k].
Proof.
  induction m as [|[k0 v0] r IH]; simpl; [reflexivity|].
  destruct (Z.eqb_spec k0 k) as [E|N]; simpl.
  - subst k0. rewrite Z.eqb_refl. reflexivity.
  - destruct (Z.eqb_spec k k0); [congruence|]. simpl.
    rewrite IH. destruct (existsb (Z.eqb k) (map fst r)); reflexivity.
Qed.

Lemma map_set_NoDup m k v : NoDup (map fst m) -> NoDup (map fst (map_set m k v)).
Proof.
  intros ND. rewrite map_set_keys.
  destruct (existsb (Z.eqb k) (map fst m)) eqn:E; [exact ND|].
  apply NoDup_app; [exact ND | repeat constructor; intros [] |].
  intros x Hx [Hk|[]]. subst x.
  assert (existsb (Z.eqb k) (map fst m) = true).
  { apply existsb_exists. exists k. split; [exact Hx | apply Z.eqb_refl]. }
  congruence.
Qed.

Lemma fold_recordLatest_NoDup commits : forall m,
  NoDup (map fst m) -> NoDup (map fst (fold_left recordLatest commits m)).
Proof.
  induction commits as [|c r IH]; intros m ND; simpl; [exact ND|].
  apply IH. rewrite recordLatest_unfold.
  destruct (map_get m (effectiveDate c)) as [cur|].
  - destruct (cur <? effectiveMinutes c); [apply map_set_NoDup|]; exact ND.
  - apply map_set_NoDup. exact ND.
Qed.

Lemma insert_by_date_In e x l : In e (insert_by_date x l) <-> e = x \/ In e l.
Proof.
  induction l as [|h t IH]; simpl.
  - intuition.
  - destruct (date x <? date h); simpl; [intuition|].
    rewrite IH. intuition.
Qed.

Lemma sort_by_date_In e l : In e (sort_by_date l) <-> In e l.
Proof.
  induction l as [|h t IH]; simpl; [reflexivity|].
  rewrite insert_by_date_In, IH. intuition.
Qed.

Lemma getDailyLatestCommits_In commits d v :
  In {| date := d; minutesFromMidnight := v |} (getDailyLatestCommits commits)
  <-> map_get (fold_left recordLatest commits []) d = Some v.
Proof.
  unfold getDailyLatestCommits. rewrite sort_by_date_In, in_map_iff. split.
  - intros ([k w] & E & HIn). injection E as E1 E2. subst.
    apply map_In_get; [|exact HIn].
    apply fold_recordLatest_NoDup. constructor.
  - intros G. exists (d, v). split; [reflexivity | apply map_get_In; exact G].
Qed.

(** C10: a commit made between 00:00 and 05:59 is filed under the previous
    calendar day with 1440 added to its minute of the day: the result has
    an entry for the day before the commit's date, that entry carries at
    least the commit's minute plus 1440 (so at least 1440, outside the
    documented range 0-1439), and the minute it carries is the minute plus
    1440 of a commit made on the following calendar day, not on the
    entry's own date. *)
Theorem getDailyLatestCommits_dawn_previous_day
    (commits : list ParsedTimestamp) (c : ParsedTimestamp) :
  In c commits -> 0 <= hour c < 6 -> 0 <= minute c ->
  (forall c', In c' commits -> hour c' * 60 + minute c' < 1440) ->
  exists e,
    In e (getDailyLatestCommits commits)
    /\ date e = dateKey c - 1
    /\ hour c * 60 + minute c + 1440 <= minutesFromMidnight e
    /\ 1440 <= minutesFromMidnight e
    /\ exists c', In c' commits /\ dateKey c' = date e + 1
                  /\ 0 <= hour c' < 6
                  /\ minutesFromMidnight e = hour c' * 60 + minute c' + 1440.
Proof.
  intros HIn Hh Hm Hday.
  assert (Dawn : ((0 <=? hour c) && (hour c <? 6))%bool = true).
  { apply andb_true_iff. split; [apply Z.leb_le | apply Z.ltb_lt]; lia. }
  destruct (fold_recordLatest_covers commits [] c HIn) as (v & G & L).
  unfold effectiveDate, effectiveMinutes in G, L. rewrite Dawn in G, L.
  exists {| date := dateKey c - 1; minutesFromMidnight := v |}.
  cbn [date minutesFromMidnight].
  split; [apply getDailyLatestCommits_In; exact G|].
  split; [reflexivity|]. split; [lia|]. split; [lia|].
  destruct (fold_recordLatest_origin commits [] _ _ G) as [A|(c' & I' & E1 & E2)];
    [discriminate|].
  exists c'. split; [exact I'|].
  unfold effectiveDate, effectiveMinutes in E1, E2.
  destruct ((0 <=? hour c') && (hour c' <? 6))%bool eqn:D'.
  - apply andb_true_iff in D'. destruct D' as [D1 D2].
    apply Z.leb_le in D1. apply Z.ltb_lt in D2. repeat split; lia.
  - specialize (Hday c' I'). lia.
Qed.

(** A single commit at 01:30 on day 100 is returned as day 99 with minute
    1530. *)
Lemma getDailyLatestCommits_dawn_previous_day_witness :
  exists e,
    In e (getDailyLatestCommits [{| dateKey := 100; hour := 1; minute := 30 |}])
    /\ date e = 99
    /\ 1530 <= minutesFromMidnight e
    /\ 1440 <= minutesFromMidnight e
    /\ exists c', In c' [{| dateKey := 100; hour := 1; minute := 30 |}]
                  /\ dateKey c' = date e + 1
                  /\ 0 <= hour c' < 6
                  /\ minutesFromMidnight e = hour c' * 60 + minute c' + 1440.
Proof.
  apply (getDailyLatestCommits_dawn_previous_day
           [{| dateKey := 100; hour := 1; minute := 30 |}]
           {| dateKey := 100; hour := 1; minute := 30 |}).
  - left. reflexivity.
  - simpl. lia.
  - simpl. lia.
  - intros c' [E|[]]. subst c'. simpl. lia.
Defined.

Lemma getDailyLatestCommits_example :
  getDailyLatestCommits
    [{| dateKey := 100; hour := 22; minute := 15 |};
     {| dateKey := 101; hour := 1; minute := 30 |};
     {| dateKey := 101; hour := 10; minute := 0 |}]
  = [{| date := 100; minutesFromMidnight := 1530 |};
     {| date := 101; minutesFromMidnight := 600 |}].
Proof. reflexivity. Qed.

End DailyLatest.

(** ** Weekend and holiday overtime *)

Lemma countIf_ext {A : Type} (p q : A -> bool) l :
  (forall a, p a = q a) -> countIf p l = countIf q l.
Proof.
  intros H. induction l as [|a l IH]; [reflexivity|].
  cbn [countIf]. rewrite H, IH. reflexivity.
Qed.

Section LocalWeekday.
Open Scope Z_scope.

Variable localTZA : Z -> Z.

(** At or east of UTC (and less than a day ahead of it), 00:00 UTC of a
    date falls on that date in local time. *)
Lemma getDay_east_of_UTC d :
  0 <= localTZA d < WorkdayChecker.msPerDay ->
  WorkdayChecker.getDay localTZA d = weekdayOfDate d.
Proof.
  intros H. unfold WorkdayChecker.getDay, weekdayOfDate, WorkdayChecker.msPerDay in *.
  rewrite Z.div_add_l by discriminate.
  rewrite (Z.div_small (localTZA d)) by lia.
  f_equal. lia.
Qed.

(** West of UTC (by a day at most), 00:00 UTC of a date still falls on the
    day before in local time. *)
Lemma getDay_west_of_UTC d :
  - WorkdayChecker.msPerDay <= localTZA d < 0 ->
  WorkdayChecker.getDay localTZA d = weekdayOfDate (d - 1).
Proof.
  intros H. unfold WorkdayChecker.getDay, weekdayOfDate, WorkdayChecker.msPerDay in *.
  replace (d * 86400000 + localTZA d)
    with ((d - 1) * 86400000 + (localTZA d + 86400000)) by lia.
  rewrite Z.div_add_l by discriminate.
  rewrite (Z.div_small (localTZA d + 86400000)) by lia.
  f_equal. lia.
Qed.

Lemma fallbackIsHoliday_east_of_UTC d :
  0 <= localTZA d < WorkdayChecker.msPerDay ->
  WorkdayChecker.fallbackIsHoliday localTZA d = weekend d.
Proof.
  intros H. unfold WorkdayChecker.fallbackIsHoliday, weekend.
  rewrite (getDay_east_of_UTC d H). reflexivity.
Qed.

Lemma isHoliday_east_of_UTC c d :
  0 <= localTZA d < WorkdayChecker.msPerDay ->
  WorkdayChecker.isHoliday localTZA c d = nonWorkday (Some c) d.
Proof.
  intros H. unfold WorkdayChecker.isHoliday, nonWorkday.
  rewrite (fallbackIsHoliday_east_of_UTC d H).
  destruct (WorkdayChecker.enabled c); reflexivity.
Qed.

End LocalWeekday.

Section WeekendOvertime.
Import OvertimeAnalyzer.
Open Scope Z_scope.

Lemma tally_fields acc dow item other :
  let r := tally acc dow item other in
  let counted := (dow =? 6) || (dow =? 0) || other in
  saturdayDays r
    = saturdayDays acc + (if counted && negb (dow =? 0) then 1 else 0)
  /\ sundayDays r = sundayDays acc + (if dow =? 0 then 1 else 0)
  /\ realOvertimeDays r
     = realOvertimeDays acc + (if counted && (3 <=? size (hours item)) then 1 else 0)
  /\ casualFixDays r
     = casualFixDays acc + (if counted && (size (hours item) <? 3) then 1 else 0).
Proof.
  unfold tally, REAL_OVERTIME_THRESHOLD.
  destruct (Z.eqb_spec dow 6) as [E6|N6]; [subst dow|];
    [|destruct (Z.eqb_spec dow 0) as [E0|N0]; [|destruct other]];
    cbn [Z.eqb orb andb negb];
    destruct (Z.leb_spec 3 (size (hours item)));
    destruct (Z.ltb_spec (size (hours item)) 3);
    try lia;
    cbn [saturdayDays sundayDays casualFixDays realOvertimeDays];
    repeat split; lia.
Qed.

Lemma fold_with_checker localTZA c l : forall acc,
  let r :=
    fold_left
      (fun acc '(item, isHoliday) =>
         if negb isHoliday then acc
         else tally acc (WorkdayChecker.getDay localTZA (date item)) item true)
      (combine l (WorkdayChecker.isHolidayBatch localTZA c (map date l))) acc in
  let holiday item := WorkdayChecker.isHoliday localTZA c (date item) in
  let localDay item := WorkdayChecker.getDay localTZA (date item) in
  saturdayDays r
    = saturdayDays acc + countIf (fun i => holiday i && negb (localDay i =? 0)) l
  /\ sundayDays r = sundayDays acc + countIf (fun i => holiday i && (localDay i =? 0)) l
  /\ realOvertimeDays r
     = realOvertimeDays acc + countIf (fun i => holiday i && (3 <=? activeHours i)) l
  /\ casualFixDays r
     = casualFixDays acc + countIf (fun i => holiday i && (activeHours i <? 3)) l.
Proof.
  induction l as [|a l IH]; intros acc; cbn zeta.
  - simpl. lia.
  - cbn [map WorkdayChecker.isHolidayBatch combine fold_left countIf].
    fold (WorkdayChecker.isHolidayBatch localTZA c (map date l)).
    specialize (IH (if negb (WorkdayChecker.isHoliday localTZA c (date a)) then acc
                    else tally acc (WorkdayChecker.getDay localTZA (date a)) a true)).
    cbn zeta in IH. destruct IH as (I1 & I2 & I3 & I4).
    rewrite I1, I2, I3, I4. clear I1 I2 I3 I4.
    unfold activeHours.
    destruct (WorkdayChecker.isHoliday localTZA c (date a)); cbn [negb andb].
    + destruct (tally_fields acc (WorkdayChecker.getDay localTZA (date a)) a true)
        as (T1 & T2 & T3 & T4).
      rewrite T1, T2, T3, T4. rewrite orb_true_r. cbn [andb]. lia.
    + lia.
Qed.

Lemma fold_basic localTZA l : forall acc,
  let r :=
    fold_left
      (fun acc item =>
         let dayOfWeek := WorkdayChecker.getDay localTZA (date item) in
         if negb (dayOfWeek =? 0) && negb (dayOfWeek =? 6) then acc
         else tally acc dayOfWeek item false)
      l acc in
  let holiday item := WorkdayChecker.fallbackIsHoliday localTZA (date item) in
  let localDay item := WorkdayChecker.getDay localTZA (date item) in
  saturdayDays r
    = saturdayDays acc + countIf (fun i => holiday i && negb (localDay i =? 0)) l
  /\ sundayDays r = sundayDays acc + countIf (fun i => holiday i && (localDay i =? 0)) l
  /\ realOvertimeDays r
     = realOvertimeDays acc + countIf (fun i => holiday i && (3 <=? activeHours i)) l
  /\ casualFixDays r
     = casualFixDays acc + countIf (fun i => holiday i && (activeHours i <? 3)) l.
Proof.
  induction l as [|a l IH]; intros acc; cbn zeta.
  - simpl. lia.
  - cbn [fold_left countIf].
    specialize (IH (if negb (WorkdayChecker.getDay localTZA (date a) =? 0)
                       && negb (WorkdayChecker.getDay localTZA (date a) =? 6) then acc
                    else tally acc (WorkdayChecker.getDay localTZA (date a)) a false)).
    cbn zeta in IH. destruct IH as (I1 & I2 & I3 & I4).
    rewrite I1, I2, I3, I4. clear I1 I2 I3 I4.
    unfold activeHours, WorkdayChecker.fallbackIsHoliday.
    destruct (tally_fields acc (WorkdayChecker.getDay localTZA (date a)) a false)
      as (T1 & T2 & T3 & T4).
    destruct (Z.eqb_spec (WorkdayChecker.getDay localTZA (date a)) 0) as [E0|N0];
      destruct (Z.eqb_spec (WorkdayChecker.getDay localTZA (date a)) 6) as [E6|N6];
      cbn [negb andb orb] in *; try rewrite T1, T2, T3, T4; try rewrite orb_false_r; try lia.
Qed.

(** The tallies in the code's own terms, whatever the time zone of the
    machine: the non-workday test is the checker's [isHoliday] (the plain
    weekend test without a checker), and the weekday is the one [getDay]
    reads. *)
Lemma calculateWeekendOvertime_local_tallies
    (localTZA : Z -> Z) (checker : option WorkdayChecker.t) (days : list DailyCommitHours) :
  let r := calculateWeekendOvertime localTZA checker days in
  let off i :=
    match checker with
    | Some c => WorkdayChecker.isHoliday localTZA c (date i)
    | None => WorkdayChecker.fallbackIsHoliday localTZA (date i)
    end in
  let localDay i := WorkdayChecker.getDay localTZA (date i) in
  realOvertimeDays r = countIf (fun i => off i && (3 <=? activeHours i)) days
  /\ casualFixDays r = countIf (fun i => off i && (activeHours i <? 3)) days
  /\ sundayDays r = countIf (fun i => off i && (localDay i =? 0)) days
  /\ saturdayDays r = countIf (fun i => off i && negb (localDay i =? 0)) days.
Proof.
  cbn zeta.
  destruct checker as [c|]; unfold calculateWeekendOvertime, calculateWeekendOvertimeBasic.
  - destruct (fold_with_checker localTZA c days zero) as (S1 & S2 & S3 & S4). cbn zeta in *.
    rewrite S1, S2, S3, S4. cbn [zero saturdayDays sundayDays casualFixDays realOvertimeDays].
    repeat split; lia.
  - destruct (fold_basic localTZA days zero) as (S1 & S2 & S3 & S4). cbn zeta in *.
    rewrite S1, S2, S3, S4. cbn [zero saturdayDays sundayDays casualFixDays realOvertimeDays].
    repeat split; lia.
Qed.

Lemma countIf_split {A : Type} (p q : A -> bool) l :
  countIf (fun i => p i && q i) l + countIf (fun i => p i && negb (q i)) l = countIf p l.
Proof.
  induction l as [|a l IH]; cbn [countIf]; [reflexivity|].
  destruct (p a); destruct (q a); cbn [andb negb]; lia.
Qed.

(** C7, as the code has it, on a machine whose time zone is at or east of
    UTC: every day that passes the non-workday test (the holiday calendar's
    answer, plain Saturday and Sunday where it has none) is judged by its
    number of distinct active hours, 3 or more making it a real-overtime day
    and fewer a quick-fix day; the day tallies are two: [sundayDays] counts
    the Sundays among these days and [saturdayDays] counts all the others,
    Saturdays and public holidays on weekdays together. *)
Theorem calculateWeekendOvertime_tallies
    (localTZA : Z -> Z) (checker : option WorkdayChecker.t) (days : list DailyCommitHours) :
  (forall d, 0 <= localTZA d < WorkdayChecker.msPerDay) ->
  let r := calculateWeekendOvertime localTZA checker days in
  let off i := nonWorkday checker (date i) in
  realOvertimeDays r = countIf (fun i => off i && (3 <=? activeHours i)) days
  /\ casualFixDays r = countIf (fun i => off i && (activeHours i <? 3)) days
  /\ sundayDays r = countIf (fun i => off i && (weekdayOf i =? 0)) days
  /\ saturdayDays r = countIf (fun i => off i && negb (weekdayOf i =? 0)) days
  /\ realOvertimeDays r + casualFixDays r = countIf off days
  /\ saturdayDays r + sundayDays r = countIf off days.
Proof.
  intros East. cbn zeta.
  destruct (calculateWeekendOvertime_local_tallies localTZA checker days)
    as (S1 & S2 & S3 & S4). cbn zeta in *.
  assert (Off : forall i,
             match checker with
             | Some c => WorkdayChecker.isHoliday localTZA c (date i)
             | None => WorkdayChecker.fallbackIsHoliday localTZA (date i)
             end = nonWorkday checker (date i)).
  { intros i. destruct checker as [c|].
    - apply isHoliday_east_of_UTC, East.
    - apply fallbackIsHoliday_east_of_UTC, East. }
  assert (Day : forall i, WorkdayChecker.getDay localTZA (date i) = weekdayOf i).
  { intros i. apply getDay_east_of_UTC, East. }
  rewrite S1, S2, S3, S4. clear S1 S2 S3 S4.
  rewrite (countIf_ext (fun i => _ && (3 <=? activeHours i))
             (fun i => nonWorkday checker (date i) && (3 <=? activeHours i)) days)
    by (intros i; cbv beta; rewrite Off; reflexivity).
  rewrite (countIf_ext (fun i => _ && (activeHours i <? 3))
             (fun i => nonWorkday checker (date i) && (activeHours i <? 3)) days)
    by (intros i; cbv beta; rewrite Off; reflexivity).
  rewrite (countIf_ext (fun i => _ && (WorkdayChecker.getDay localTZA (date i) =? 0))
             (fun i => nonWorkday checker (date i) && (weekdayOf i =? 0)) days)
    by (intros i; cbv beta; rewrite Off, Day; reflexivity).
  rewrite (countIf_ext (fun i => _ && negb (WorkdayChecker.getDay localTZA (date i) =? 0))
             (fun i => nonWorkday checker (date i) && negb (weekdayOf i =? 0)) days)
    by (intros i; cbv beta; rewrite Off, Day; reflexivity).
  assert (Neg : countIf (fun i => nonWorkday checker (date i) && (activeHours i <? 3)) days
                = countIf (fun i => nonWorkday checker (date i)
                                    && negb (3 <=? activeHours i)) days).
  { apply countIf_ext. intros i.
    destruct (Z.leb_spec 3 (activeHours i)); destruct (Z.ltb_spec (activeHours i) 3);
      try lia; reflexivity. }
  repeat split.
  - rewrite Neg. apply countIf_split.
  - rewrite Z.add_comm. apply countIf_split.
Qed.

(** Taipei time (UTC+8): a week of days of which the calendar reports the
    Wednesday (day 6) as a holiday and the Saturday (day 9) as a workday. *)
Lemma calculateWeekendOvertime_tallies_witness :
  let localTZA (_ : Z) := 8 * 3600000 in
  let calendar :=
    {| WorkdayChecker.calendarIsWorkday := fun d => Some (negb (d =? 6) && negb (d =? 10));
       WorkdayChecker.calendarIsHoliday := fun d => Some ((d =? 6) || (d =? 10));
       WorkdayChecker.enabled := true |} in
  let days :=
    [{| date := 5; hours := [9; 10; 11] |}; {| date := 6; hours := [9; 10; 11; 15] |};
     {| date := 9; hours := [10; 11; 12] |}; {| date := 10; hours := [21; 21] |}] in
  let r := calculateWeekendOvertime localTZA (Some calendar) days in
  let off i := nonWorkday (Some calendar) (date i) in
  r = {| saturdayDays := 1; sundayDays := 1; casualFixDays := 1; realOvertimeDays := 1 |}
  /\ realOvertimeDays r = countIf (fun i => off i && (3 <=? activeHours i)) days
  /\ casualFixDays r = countIf (fun i => off i && (activeHours i <? 3)) days
  /\ sundayDays r = countIf (fun i => off i && (weekdayOf i =? 0)) days
  /\ saturdayDays r = countIf (fun i => off i && negb (weekdayOf i =? 0)) days
  /\ realOvertimeDays r + casualFixDays r = countIf off days
  /\ saturdayDays r + sundayDays r = countIf off days.
Proof.
  intros localTZA calendar days.
  split; [vm_compute; reflexivity|].
  apply (calculateWeekendOvertime_tallies localTZA (Some calendar) days).
  intros d. vm_compute. split; [discriminate | reflexivity].
Defined.

(** C7, counterexample to the separate tally for other holidays: day 6
    (1970-01-07) is a Wednesday that the calendar reports as a holiday; with
    commits in three distinct hours it is tallied in [saturdayDays], though
    no Saturday is in the input.  So it is in Taipei (UTC+8) and in New
    York (UTC-5) alike. *)
Lemma calculateWeekendOvertime_holiday_in_saturday_tally :
  let taipei (_ : Z) := 8 * 3600000 in
  let newYork (_ : Z) := - 5 * 3600000 in
  let calendar :=
    {| WorkdayChecker.calendarIsWorkday := fun d => Some (negb (d =? 6));
       WorkdayChecker.calendarIsHoliday := fun d => Some (d =? 6);
       WorkdayChecker.enabled := true |} in
  let days := [{| date := 6; hours := [9; 10; 11] |}] in
  weekdayOfDate 6 = 3
  /\ countIf (fun i => nonWorkday (Some calendar) (date i) && (weekdayOf i =? 6)) days = 0
  /\ calculateWeekendOvertime taipei (Some calendar) days
     = {| saturdayDays := 1; sundayDays := 0; casualFixDays := 0; realOvertimeDays := 1 |}
  /\ calculateWeekendOvertime newYork (Some calendar) days
     = {| saturdayDays := 1; sundayDays := 0; casualFixDays := 0; realOvertimeDays := 1 |}.
Proof. repeat split. Qed.

(** Example D of the specification: a non-workday with commits in two
    distinct hours is a quick-fix day, with three a real-overtime day. *)
Lemma calculateWeekendOvertime_example_D :
  let localTZA (_ : Z) := 8 * 3600000 in
  calculateWeekendOvertime localTZA None [{| date := 2; hours := [9; 9; 14] |}]
  = {| saturdayDays := 1; sundayDays := 0; casualFixDays := 1; realOvertimeDays := 0 |}
  /\ calculateWeekendOvertime localTZA None [{| date := 2; hours := [9; 10; 14] |}]
     = {| saturdayDays := 1; sundayDays := 0; casualFixDays := 0; realOvertimeDays := 1 |}.
Proof. split; reflexivity. Qed.

(** West of UTC the weekday that [getDay] reads is the one of the day
    before: in New York the Saturday 1970-01-03 (day 2) counts as a Friday
    and is not tallied, and the Monday 1970-01-05 (day 4) counts as a
    Sunday. *)
Lemma calculateWeekendOvertime_west_of_UTC :
  let newYork (_ : Z) := - 5 * 3600000 in
  WorkdayChecker.getDay newYork 2 = 5
  /\ WorkdayChecker.getDay newYork 4 = 0
  /\ calculateWeekendOvertime newYork None
       [{| date := 2; hours := [9; 10; 14] |}; {| date := 4; hours := [9; 10; 14] |}]
     = {| saturdayDays := 0; sundayDays := 1; casualFixDays := 0; realOvertimeDays := 1 |}.
Proof. repeat split. Qed.

End WeekendOvertime.

(** ** Manual override of the working hours *)

Section ManualOverride.
Import GitParser.

(** *** Numerals and [parseFloat] *)

Lemma digitValue_digit_of c : digitValue c = JsString.digit_of c.
Proof. destruct c as [[] [] [] [] [] [] [] []]; reflexivity. Qed.

Lemma digit_code c d :
  JsString.digit_of c = Some d -> (48 <= nat_of_ascii c <= 57)%nat.
Proof.
  unfold JsString.digit_of. cbv zeta.
  destruct (Nat.leb_spec 48 (nat_of_ascii c)) as [L|L];
    destruct (Nat.leb_spec (nat_of_ascii c) 57) as [U|U];
    cbn [andb]; intros H; try discriminate H. lia.
Qed.

Lemma digit_is_not c d (x : ascii) :
  JsString.digit_of c = Some d -> (nat_of_ascii x < 48 \/ 57 < nat_of_ascii x)%nat -> c <> x.
Proof. intros H Hx E. subst x. apply digit_code in H. lia. Qed.

Lemma skip_spaces_digit c d r :
  JsString.digit_of c = Some d -> JsString.skip_spaces (c :: r) = c :: r.
Proof.
  intros H. apply digit_code in H.
  assert (S1 : JsString.is_space c = false).
  { unfold JsString.is_space. cbv zeta.
    destruct (Nat.eqb_spec (nat_of_ascii c) 32); [lia|].
    destruct (Nat.leb_spec 9 (nat_of_ascii c)); destruct (Nat.leb_spec (nat_of_ascii c) 13);
      try lia; reflexivity. }
  assert (S2 : forall c2, JsString.is_space2 c c2 = false).
  { intros c2. unfold JsString.is_space2.
    destruct (Nat.eqb_spec (nat_of_ascii c) 194); [lia | reflexivity]. }
  assert (S3 : forall c2 c3, JsString.is_space3 c c2 c3 = false).
  { intros c2 c3. unfold JsString.is_space3. cbv zeta.
    destruct (Nat.eqb_spec (nat_of_ascii c) 225); [lia|].
    destruct (Nat.eqb_spec (nat_of_ascii c) 226); [lia|].
    destruct (Nat.eqb_spec (nat_of_ascii c) 227); [lia|].
    destruct (Nat.eqb_spec (nat_of_ascii c) 239); [lia|].
    reflexivity. }
  cbn [JsString.skip_spaces]. rewrite S1.
  destruct r as [|c2 [|c3 r]]; [reflexivity | rewrite S2; reflexivity |].
  rewrite S2, S3. reflexivity.
Qed.

Lemma sign_prefix_other c r :
  c <> "-"%char -> c <> "+"%char -> JsString.sign_prefix (c :: r) = (false, c :: r).
Proof.
  intros N1 N2. destruct c as [[] [] [] [] [] [] [] []]; try reflexivity; congruence.
Qed.

Lemma starts_with_Infinity_other c r :
  c <> "I"%char -> JsString.starts_with_Infinity (c :: r) = false.
Proof.
  intros N. destruct c as [[] [] [] [] [] [] [] []]; try reflexivity; congruence.
Qed.

Lemma fold_appendDigit_None s : fold_left appendDigit s None = None.
Proof. induction s as [|c s IH]; [reflexivity | exact IH]. Qed.

(** On a string of digits [JsString.digits] reads them all, and to the
    value they write. *)
Lemma digits_of_digitString s : forall a v rest n,
  fold_left appendDigit s (Some a) = Some v ->
  JsString.digits (s ++ rest) a n = JsString.digits rest v (n + List.length s)%nat.
Proof.
  induction s as [|c s IH]; intros a v rest n H.
  - cbn in H. injection H as <-. cbn [app List.length]. rewrite Nat.add_0_r. reflexivity.
  - cbn [fold_left] in H. unfold appendDigit at 2 in H.
    destruct (digitValue c) as [d|] eqn:D; [|rewrite fold_appendDigit_None in H; discriminate].
    cbn [app JsString.digits]. rewrite <- digitValue_digit_of, D.
    rewrite (IH _ v rest (S n)); [|rewrite Z.mul_comm; exact H].
    cbn [List.length]. rewrite Nat.add_succ_r. reflexivity.
Qed.

Lemma digitString_digits s a v :
  fold_left appendDigit s (Some a) = Some v ->
  Forall (fun c => exists d, JsString.digit_of c = Some d) s.
Proof.
  revert a. induction s as [|c s IH]; intros a H; [constructor|].
  cbn [fold_left] in H. unfold appendDigit at 2 in H.
  destruct (digitValue c) as [d|] eqn:D; [|rewrite fold_appendDigit_None in H; discriminate].
  constructor; [exists d; rewrite <- digitValue_digit_of; exact D | exact (IH _ H)].
Qed.

Lemma digitString_inv s v :
  digitString s = Some v ->
  exists c r, s = c :: r /\ fold_left appendDigit s (Some 0%Z) = Some v
              /\ Forall (fun c => exists d, JsString.digit_of c = Some d) s.
Proof.
  destruct s as [|c r]; [discriminate|]. intros H. exists c, r.
  split; [reflexivity|]. split; [exact H|]. exact (digitString_digits _ _ _ H).
Qed.

Lemma cutAt_Some sep s a b :
  cutAt sep s = Some (a, b) -> s = a ++ sep :: b /\ ~ In sep a.
Proof.
  revert a. induction s as [|c s IH]; intros a H; [discriminate|].
  cbn [cutAt] in H. destruct (Ascii.eqb_spec c sep) as [E|N].
  - injection H as <- <-. subst c. split; [reflexivity | intros []].
  - destruct (cutAt sep s) as [[a' b']|]; [|discriminate].
    injection H as <- <-. destruct (IH a' eq_refl) as [E I]. subst s.
    split; [reflexivity|]. intros [F|F]; [congruence | exact (I F)].
Qed.

Lemma cutAt_None sep s : cutAt sep s = None -> ~ In sep s.
Proof.
  induction s as [|c s IH]; intros H; [intros []|].
  cbn [cutAt] in H. destruct (Ascii.eqb_spec c sep) as [E|N]; [discriminate|].
  destruct (cutAt sep s) as [[a' b']|]; [discriminate|].
  intros [F|F]; [congruence | exact (IH eq_refl F)].
Qed.

Lemma power_of_ten n : inject_Z (10 ^ Z.of_nat n) == 10 ^ Z.of_nat n.
Proof. apply (Zpower_Qpower 10 (Z.of_nat n)). lia. Qed.

Lemma power_of_ten_nonzero n : ~ (10 : Q) ^ Z.of_nat n == 0.
Proof. apply Qpower_not_0. discriminate. Qed.

(** [parseFloat] of an hour numeral is the double nearest to the value it
    writes. *)
Lemma parseFloat_hourNumeral s x :
  hourNumeral s = Some x -> JsString.parseFloat (string_of_list_ascii s) = lit x.
Proof.
  unfold hourNumeral. intros H.
  unfold JsString.parseFloat. rewrite list_ascii_of_string_of_list_ascii.
  assert (Head : forall c r d, JsString.digit_of c = Some d ->
            JsString.skip_spaces (c :: r) = c :: r
            /\ JsString.sign_prefix (c :: r) = (false, c :: r)
            /\ JsString.starts_with_Infinity (c :: r) = false).
  { intros c r d Hd. split; [exact (skip_spaces_digit c d r Hd)|].
    split.
    - apply sign_prefix_other; apply (digit_is_not c d _ Hd); cbn; lia.
    - apply starts_with_Infinity_other; apply (digit_is_not c d _ Hd); cbn; lia. }
  destruct (cutAt "." s) as [[whole fraction]|] eqn:Cut.
  - destruct (digitString whole) as [i|] eqn:Dw; [|discriminate].
    destruct (digitString fraction) as [f|] eqn:Df; [|discriminate].
    injection H as <-.
    destruct (cutAt_Some _ _ _ _ Cut) as [Es _]. subst s.
    destruct (digitString_inv _ _ Dw) as (c & r & Ew & Fw & Aw).
    destruct (digitString_inv _ _ Df) as (c' & r' & Ef & Ff & _).
    assert (Hc : exists d, JsString.digit_of c = Some d).
    { rewrite Ew in Aw. inversion Aw; assumption. }
    destruct Hc as [d Hd].
    destruct (Head c (r ++ "."%char :: fraction) d Hd) as (H1 & H2 & H3).
    change (c :: r ++ "."%char :: fraction) with ((c :: r) ++ "."%char :: fraction)
      in H1, H2, H3.
    rewrite <- Ew in H1, H2, H3.
    rewrite H1, H2. cbv beta iota. rewrite H3.
    rewrite (digits_of_digitString whole 0 i _ 0 Fw).
    cbn [JsString.digits JsString.digit_of]. change (JsString.digit_of ".") with (@None Z).
    cbv beta iota.
    rewrite <- (app_nil_r fraction) at 1.
    rewrite (digits_of_digitString fraction 0 f [] 0 Ff).
    cbn [JsString.digits]. cbv beta iota.
    rewrite Ef at 1. cbn [List.length Nat.add]. rewrite Nat.add_succ_r. cbv iota.
    change (JsString.exponent_part []) with 0%Z.
    unfold lit. apply rnd_proper.
    unfold JsString.pow10.
    rewrite inject_Z_plus, inject_Z_mult, power_of_ten.
    change ((10 : Q) ^ 0) with (1 : Q).
    pose proof (power_of_ten_nonzero (List.length fraction)) as NZ.
    field. exact NZ.
  - destruct (digitString s) as [i|] eqn:Ds; [|discriminate].
    cbn [option_map] in H. injection H as <-.
    destruct (digitString_inv _ _ Ds) as (c & r & Es & Fs & As).
    assert (Hc : exists d, JsString.digit_of c = Some d).
    { rewrite Es in As. inversion As; assumption. }
    destruct Hc as [d Hd].
    destruct (Head c r d Hd) as (H1 & H2 & H3).
    rewrite <- Es in H1, H2, H3.
    rewrite H1, H2. cbv beta iota. rewrite H3.
    rewrite <- (app_nil_r s) at 1.
    rewrite (digits_of_digitString s 0 i [] 0 Fs).
    cbn [JsString.digits]. cbv beta iota.
    rewrite Es at 1. cbn [List.length Nat.add]. cbv iota.
    change (JsString.exponent_part []) with 0%Z.
    unfold lit. apply rnd_proper.
    unfold JsString.pow10. change (Z.of_nat 0) with 0%Z.
    change ((10 : Q) ^ 0) with (1 : Q). change (10 ^ 0)%Z with 1%Z.
    rewrite Z.mul_1_r, Z.add_0_r. field.
Qed.

(** *** [split] *)

Lemma split_without_sep sep s :
  ~ In sep (list_ascii_of_string s) -> JsString.split sep s = [s].
Proof.
  induction s as [|c s IH]; intros H; [reflexivity|].
  cbn [JsString.split]. cbn [list_ascii_of_string] in H.
  destruct (Ascii.eqb_spec c sep) as [E|N]; [exfalso; apply H; left; exact E|].
  rewrite IH by (intros F; apply H; right; exact F). reflexivity.
Qed.

Lemma split_at_sep sep s a b :
  cutAt sep (list_ascii_of_string s) = Some (a, b) -> ~ In sep b ->
  JsString.split sep s = [string_of_list_ascii a; string_of_list_ascii b].
Proof.
  revert a. induction s as [|c s IH]; intros a H Nb; [discriminate|].
  cbn [list_ascii_of_string cutAt] in H. cbn [JsString.split].
  destruct (Ascii.eqb_spec c sep) as [E|N].
  - injection H as <- <-. rewrite split_without_sep by exact Nb.
    rewrite string_of_list_ascii_of_string. reflexivity.
  - destruct (cutAt sep (list_ascii_of_string s)) as [[a' b']|] eqn:C; [|discriminate].
    injection H as <- <-. rewrite (IH a' eq_refl Nb). reflexivity.
Qed.

Lemma hourNumeral_no_dash s x : hourNumeral s = Some x -> ~ In "-"%char s.
Proof.
  unfold hourNumeral. intros H.
  assert (D : forall l v, digitString l = Some v -> ~ In "-"%char l).
  { intros l v Hl I. destruct (digitString_inv _ _ Hl) as (_ & _ & _ & _ & A).
    rewrite Forall_forall in A. destruct (A _ I) as [d Hd]. discriminate Hd. }
  destruct (cutAt "." s) as [[whole fraction]|] eqn:Cut.
  - destruct (digitString whole) as [i|] eqn:Dw; [|discriminate].
    destruct (digitString fraction) as [f|] eqn:Df; [|discriminate].
    destruct (cutAt_Some _ _ _ _ Cut) as [Es _]. subst s.
    intros I. apply in_app_or in I. destruct I as [I|[I|I]].
    + exact (D _ _ Dw I).
    + discriminate I.
    + exact (D _ _ Df I).
  - destruct (digitString s) as [i|] eqn:Ds; [|discriminate]. exact (D _ _ Ds).
Qed.

(** *** Comparisons of numbers that are not [NaN] *)

Lemma rnd_not_NaN q : isNaN (rnd q) = false.
Proof.
  unfold rnd. cbv zeta.
  destruct (Qle_bool (pow2 1024) (rnd_q q)); [reflexivity|].
  destruct (Qle_bool (rnd_q q) (- pow2 1024)); reflexivity.
Qed.

Lemma lt_is_not_ge a b : isNaN a = false -> isNaN b = false -> lt a b = negb (le b a).
Proof.
  destruct a, b; try discriminate; try reflexivity.
Qed.

(** *** The override *)

(** A well-formed override within range is accepted with the hours it
    writes (as doubles), confidence 100 and method 'manual'; a well-formed
    override out of range, or whose start is not before its end, throws. *)
Lemma parseCustomWorkHours_well_formed (s : string) (x y : Q) :
  overridePair s = Some (x, y) ->
  if validHours (lit x) (lit y)
  then exists d,
         parseCustomWorkHours s = Returns d
         /\ startHour d = lit x /\ endHour d = lit y
         /\ confidence d = int 100
         /\ detectionMethod d = Manual
         /\ endDetectionMethod d = Some EndManual
  else exists e, parseCustomWorkHours s = Throws e.
Proof.
  unfold overridePair. intros H.
  destruct (cutAt "-" (list_ascii_of_string s)) as [[a b]|] eqn:Cut; [|discriminate].
  destruct (hourNumeral a) as [x'|] eqn:Ha; [|discriminate].
  destruct (hourNumeral b) as [y'|] eqn:Hb; [|discriminate].
  injection H as -> ->.
  unfold parseCustomWorkHours.
  rewrite (split_at_sep _ _ _ _ Cut (hourNumeral_no_dash _ _ Hb)).
  rewrite (parseFloat_hourNumeral _ _ Ha), (parseFloat_hourNumeral _ _ Hb).
  unfold validHours, gt, ge.
  pose proof (rnd_not_NaN x) as Nx. pose proof (rnd_not_NaN y) as Ny.
  fold (lit x) in Nx. fold (lit y) in Ny.
  rewrite Nx, Ny. cbn [orb].
  rewrite (lt_is_not_ge (lit x) (int 0) Nx eq_refl).
  rewrite (lt_is_not_ge (int 23) (lit x) eq_refl Nx).
  rewrite (lt_is_not_ge (lit y) (int 0) Ny eq_refl).
  rewrite (lt_is_not_ge (int 24) (lit y) eq_refl Ny).
  rewrite (lt_is_not_ge (lit x) (lit y) Nx Ny).
  destruct (le (int 0) (lit x)); cbn [negb orb andb]; [|eexists; reflexivity].
  destruct (le (lit x) (int 23)); cbn [negb orb andb]; [|eexists; reflexivity].
  destruct (le (int 0) (lit y)); cbn [negb orb andb]; [|eexists; reflexivity].
  destruct (le (lit y) (int 24)); cbn [negb orb andb]; [|eexists; reflexivity].
  destruct (le (lit y) (lit x)); cbn [negb]; [eexists; reflexivity|].
  eexists. split; [reflexivity|]. repeat split.
Qed.

(** With an override the detection is not run: the outcome does not depend
    on the commit data or on the end-hour detector, and a result that is
    returned has confidence 100 and method 'manual'. *)
Lemma manual_override_bypasses_detection
    (detectEndHourWindow : list TimeCount -> num -> num -> WorkTimeAnalyzer.EndHourWindow)
    (byHour : list TimeCount) (dailyFirstCommits : list DailyFirstCommit)
    (c : ascii) (rest : string) :
  let s := String c rest in
  workTimeDetection detectEndHourWindow byHour dailyFirstCommits (Some s)
  = parseCustomWorkHours s
  /\ forall d, parseCustomWorkHours s = Returns d ->
               confidence d = int 100 /\ detectionMethod d = Manual
               /\ isReliable d = true /\ endDetectionMethod d = Some EndManual.
Proof.
  intros s. split; [reflexivity|].
  intros d. unfold parseCustomWorkHours.
  destruct (JsString.split "-" s) as [|a [|b [|x r]]]; try discriminate.
  destruct (_ || _)%bool; [discriminate|].
  destruct (ge _ _); [discriminate|].
  intros H. injection H as <-. repeat split.
Qed.

(** The overrides "9-18" and "9.5-18.5". *)
Lemma parseCustomWorkHours_half_hours :
  overridePair "9-18" = Some (9, 18)%Q
  /\ overridePair "9.5-18.5" = Some (9 + 5 / 10 ^ 1, 18 + 5 / 10 ^ 1)%Q
  /\ (exists d, parseCustomWorkHours "9-18" = Returns d
                /\ startHour d = int 9 /\ endHour d = int 18
                /\ confidence d = int 100 /\ detectionMethod d = Manual)
  /\ (exists d, parseCustomWorkHours "9.5-18.5" = Returns d
                /\ startHour d = Fin (19 # 2) /\ endHour d = Fin (37 # 2)
                /\ confidence d = int 100 /\ detectionMethod d = Manual).
Proof.
  split; [reflexivity|]. split; [reflexivity|].
  split; eexists; (split; [vm_compute; reflexivity | repeat split]).
Qed.

(** Malformed overrides that are refused, and well-formed ones that are out
    of range or out of order. *)
Lemma parseCustomWorkHours_rejects :
  parseCustomWorkHours "918" = Throws InvalidFormat
  /\ parseCustomWorkHours "9-18-20" = Throws InvalidFormat
  /\ parseCustomWorkHours "nine-18" = Throws InvalidHours
  /\ parseCustomWorkHours "9-" = Throws InvalidHours
  /\ parseCustomWorkHours "9-25" = Throws InvalidHours
  /\ parseCustomWorkHours "24-24" = Throws InvalidHours
  /\ parseCustomWorkHours "18-9" = Throws StartNotBeforeEnd
  /\ parseCustomWorkHours "9-9" = Throws StartNotBeforeEnd.
Proof. repeat split; vm_compute; reflexivity. Qed.

(** White space before an hour is skipped by [parseFloat], the no-break
    space U+00A0 (bytes 194, 160) included. *)
Lemma parseCustomWorkHours_leading_space :
  let nbsp := String (ascii_of_nat 194) (String (ascii_of_nat 160) EmptyString) in
  exists d, parseCustomWorkHours (nbsp ++ "9- 18") = Returns d
            /\ startHour d = int 9 /\ endHour d = int 18.
Proof. eexists. split; [vm_compute; reflexivity | split; reflexivity]. Qed.

(** C5: the override "9abc-18" is malformed, its first part is not an
    hour; the specification has the operation throw.  [parseFloat] reads the
    numeric prefix 9 and ignores what follows, the test for [NaN] passes,
    and the override is accepted as 9 to 18 with confidence 100 and method
    'manual', whatever the commit data. *)
Theorem manual_override_numeric_prefix
    (detectEndHourWindow : list TimeCount -> num -> num -> WorkTimeAnalyzer.EndHourWindow)
    (byHour : list TimeCount) (dailyFirstCommits : list DailyFirstCommit) :
  overridePair "9abc-18" = None
  /\ hourNumeral (list_ascii_of_string "9abc") = None
  /\ JsString.parseFloat "9abc" = int 9
  /\ exists d,
       workTimeDetection detectEndHourWindow byHour dailyFirstCommits (Some "9abc-18"%string)
       = Returns d
       /\ startHour d = int 9 /\ endHour d = int 18
       /\ confidence d = int 100
       /\ detectionMethod d = Manual.
Proof.
  split; [reflexivity|]. split; [reflexivity|]. split; [vm_compute; reflexivity|].
  eexists. split; [vm_compute; reflexivity | repeat split].
Qed.

End ManualOverride.

(** ** Working hours: the nine-hour cap *)

Section WorkingHour.
Open Scope Q_scope.

Lemma ulp_exp_scale_60 s : ~ s == 0 -> (ulp_exp (s * 60) <= ulp_exp s + 6)%Z.
Proof.
  intros NZ. unfold ulp_exp.
  pose proof (Qabs_pos_lt s NZ) as P.
  assert (E : Qabs (s * 60) == Qabs s * 60).
  { rewrite Qabs_Qmult. rewrite (Qabs_pos 60) by discriminate. reflexivity. }
  assert (P' : 0 < Qabs (s * 60)) by (rewrite E; lra).
  destruct (ilog2_spec (Qabs s) P) as [_ U].
  assert (L : (ilog2 (Qabs (s * 60)) < ilog2 (Qabs s) + 1 + 6)%Z).
  { apply ilog2_lt; [exact P'|]. rewrite E, pow2_add.
    change (pow2 6) with 64. pose proof (pow2_pos (ilog2 (Qabs s) + 1)). nra. }
  lia.
Qed.

(** A binary64 value is an integer multiple of its unit in the last
    place. *)
Lemma representable_mantissa s :
  representable s -> ~ s == 0 ->
  s == inject_Z (rne (s / pow2 (ulp_exp s))) * pow2 (ulp_exp s).
Proof.
  intros R NZ. unfold representable in R. rewrite <- R at 1. apply rnd_q_eq. exact NZ.
Qed.

(** Multiplying by 60 is strict at an integer: a binary64 value above the
    integer [h] has a rounded product above [60 * h]. *)
Lemma mul_60_strict s h :
  representable s -> (Z.abs h <= 2 ^ 40)%Z -> inject_Z h < s ->
  inject_Z (60 * h) < rnd_q (s * 60).
Proof.
  intros R Hh Hs.
  destruct (Qlt_le_dec s (inject_Z (h + 1))) as [Near|Far].
  - assert (NZ : ~ s == 0).
    { intros Z0. rewrite Z0 in Hs, Near. change 0 with (inject_Z 0) in Hs, Near.
      rewrite <- Zlt_Qlt in Hs, Near. lia. }
    pose proof (representable_mantissa s R NZ) as Ms.
    set (E := ulp_exp s) in *. set (M := rne (s / pow2 E)) in *.
    pose proof (pow2_pos E) as PE.
    assert (NegE : (E < 0)%Z).
    { destruct (Z_lt_le_dec E 0) as [L|G]; [exact L|exfalso].
      assert (I : s == inject_Z (M * 2 ^ E)).
      { rewrite Ms, inject_Z_mult, <- pow2_Z by lia. reflexivity. }
      rewrite I in Hs, Near. rewrite <- Zlt_Qlt in Hs, Near. lia. }
    assert (Gap : inject_Z h + pow2 E <= s).
    { assert (Hh' : inject_Z h == inject_Z (h * 2 ^ (- E)) * pow2 E).
      { rewrite inject_Z_mult, <- pow2_Z by lia.
        rewrite <- Qmult_assoc, <- pow2_add.
        replace (- E + E)%Z with 0%Z by lia. rewrite pow2_0. ring. }
      assert (LtM : (h * 2 ^ (- E) < M)%Z).
      { rewrite Zlt_Qlt.
        apply Qmult_lt_r with (z := pow2 E); [exact PE|].
        rewrite <- Hh', <- Ms. exact Hs. }
      assert (LeM : inject_Z (h * 2 ^ (- E)) + 1 <= inject_Z M).
      { change 1 with (inject_Z 1). rewrite <- inject_Z_plus, <- Zle_Qle. lia. }
      rewrite Ms, Hh' at 1. nra. }
    destruct (rnd_q_err (s * 60)) as [_ Err].
    pose proof (ulp_exp_scale_60 s NZ) as Sc. fold E in Sc.
    assert (Ulp : pow2 (ulp_exp (s * 60)) <= 64 * pow2 E).
    { apply Qle_trans with (pow2 (E + 6)); [apply pow2_le; lia|].
      rewrite pow2_add. change (pow2 6) with 64. lra. }
    rewrite inject_Z_mult. change (inject_Z 60) with 60. lra.
  - assert (B : inject_Z (60 * (h + 1)) <= rnd_q (s * 60)).
    { assert (Rp : representable (inject_Z (60 * (h + 1)))).
      { apply representable_Z.
        change (2 ^ 40)%Z with 1099511627776%Z in Hh.
        change (2 ^ 53)%Z with 9007199254740992%Z. lia. }
      unfold representable in Rp. rewrite <- Rp. apply rnd_q_mono.
      rewrite inject_Z_mult. change (inject_Z 60) with 60. lra. }
    eapply Qlt_le_trans; [|exact B]. rewrite <- Zlt_Qlt. lia.
Qed.

Lemma mul_60_le s h :
  representable s -> (Z.abs h <= 2 ^ 40)%Z ->
  (rnd_q (s * 60) <= inject_Z (60 * h) <-> s <= inject_Z h).
Proof.
  intros R Hh. split.
  - intros L. destruct (Qlt_le_dec (inject_Z h) s) as [Lt|Le]; [|exact Le].
    pose proof (mul_60_strict s h R Hh Lt). lra.
  - intros L.
    assert (Rp : representable (inject_Z (60 * h))).
    { apply representable_Z.
      change (2 ^ 40)%Z with 1099511627776%Z in Hh.
      change (2 ^ 53)%Z with 9007199254740992%Z. lia. }
    unfold representable in Rp. rewrite <- Rp. apply rnd_q_mono.
    rewrite inject_Z_mult. change (inject_Z 60) with 60. lra.
Qed.

End WorkingHour.

Section WorkingHourNumbers.
Open Scope Q_scope.

Lemma rnd_q_mantissa_bound q : 0 < q -> (0 <= rne (q / pow2 (ulp_exp q)) <= 2 ^ 53)%Z.
Proof.
  intros H.
  pose proof (rnd_q_upper q H) as U. pose proof (rnd_q_nonneg q (Qlt_le_weak _ _ H)) as L.
  rewrite rnd_q_eq in U, L by lra.
  pose proof (pow2_pos (ulp_exp q)) as P.
  rewrite Z.add_comm, pow2_add in U.
  set (M := rne (q / pow2 (ulp_exp q))) in *.
  split.
  - rewrite Zle_Qle. change (inject_Z 0) with 0.
    destruct (Qlt_le_dec (inject_Z M) 0) as [N|G]; [exfalso; nra | exact G].
  - rewrite Zle_Qle, <- pow2_Z by lia.
    apply Qmult_le_r with (z := pow2 (ulp_exp q)); assumption.
Qed.

(** Rounding is idempotent. *)
Lemma rnd_q_idem_pos q : 0 < q -> representable (rnd_q q).
Proof.
  intros H. unfold representable.
  pose proof (rnd_q_mantissa_bound q H) as [M0 M1].
  destruct (ulp_exp_bounds q H) as (_ & B2 & _).
  pose proof (rnd_q_eq q ltac:(lra)) as E.
  set (M := rne (q / pow2 (ulp_exp q))) in *.
  destruct (Z.eq_dec M (2 ^ 53)) as [Top|Below].
  - apply (rnd_q_repr _ (2 ^ 52) (ulp_exp q + 1)); [|reflexivity|lia].
    rewrite E, Top, pow2_add. change (pow2 1) with 2.
    change (inject_Z (2 ^ 53)) with (inject_Z (2 ^ 52) * 2). ring.
  - apply (rnd_q_repr _ M (ulp_exp q)); [exact E|lia|exact B2].
Qed.

Lemma rnd_q_idem q : representable (rnd_q q).
Proof.
  destruct (Qlt_le_dec 0 q) as [P|N].
  - apply rnd_q_idem_pos. exact P.
  - destruct (Qeq_dec q 0) as [Z0|NZ].
    + rewrite (rnd_q_0 q Z0). unfold representable. rewrite rnd_q_0; reflexivity.
    + assert (P : 0 < - q) by (destruct (Qlt_le_dec q 0); [lra | exfalso; apply NZ; lra]).
      pose proof (rnd_q_idem_pos (- q) P) as R. unfold representable in *.
      rewrite (rnd_q_proper (rnd_q q) (- rnd_q (- q))) by (rewrite rnd_q_opp; ring).
      rewrite rnd_q_opp, R, rnd_q_opp. ring.
Qed.

Lemma is_double_fin s : is_double (Fin s) -> representable s.
Proof.
  unfold is_double, rnd. cbv zeta.
  destruct (Qle_bool (pow2 1024) (rnd_q s)); [discriminate|].
  destruct (Qle_bool (rnd_q s) (- pow2 1024)); [discriminate|].
  intros E. injection E as E. unfold representable. rewrite E. reflexivity.
Qed.

Lemma is_double_rnd q : is_double (rnd q).
Proof.
  unfold rnd. cbv zeta.
  destruct (Qle_bool (pow2 1024) (rnd_q q)) eqn:A; [exact I|].
  destruct (Qle_bool (rnd_q q) (- pow2 1024)) eqn:B; [exact I|].
  unfold is_double, rnd. cbv zeta.
  assert (E : rnd_q (rnd_q q) = rnd_q q).
  { apply rnd_q_canon; [apply rnd_q_idem | apply rnd_q_red]. }
  rewrite E, A, B. reflexivity.
Qed.

Lemma is_double_add a b : is_double (add a b).
Proof. destruct a, b; try exact I. apply is_double_rnd. Qed.

Lemma is_double_Math_min a b : is_double a -> is_double b -> is_double (Math_min a b).
Proof.
  intros Ha Hb. unfold Math_min.
  destruct a; try exact I; destruct b; try exact I; destruct (lt _ _); assumption.
Qed.

Lemma hour_bound h : (Z.abs h <= 2 ^ 40)%Z ->
  - pow2 1024 < inject_Z (60 * h) /\ inject_Z (60 * h) < pow2 1024.
Proof.
  intros H. pose proof pow2_1024_big as P.
  assert (A : - inject_Z (2 ^ 53) < inject_Z (60 * h)).
  { rewrite <- inject_Z_opp, <- Zlt_Qlt.
    change (2 ^ 40)%Z with 1099511627776%Z in H.
    change (2 ^ 53)%Z with 9007199254740992%Z. lia. }
  assert (B : inject_Z (60 * h) < inject_Z (2 ^ 53)).
  { rewrite <- Zlt_Qlt.
    change (2 ^ 40)%Z with 1099511627776%Z in H.
    change (2 ^ 53)%Z with 9007199254740992%Z. lia. }
  split; lra.
Qed.

Lemma Qle_bool_false p q : Qle_bool p q = false <-> q < p.
Proof.
  split.
  - intros H. destruct (Qlt_le_dec q p) as [L|G]; [exact L|].
    apply (proj2 (Qle_bool_iff _ _)) in G. congruence.
  - intros H. destruct (Qle_bool p q) eqn:E; [|reflexivity].
    apply Qle_bool_iff in E. lra.
Qed.

Lemma Qle_bool_ext p q p' q' : (p <= q <-> p' <= q') -> Qle_bool p q = Qle_bool p' q'.
Proof.
  intros H. destruct (Qle_bool p q) eqn:A; destruct (Qle_bool p' q') eqn:B; try reflexivity.
  - apply Qle_bool_iff in A. apply H in A. apply (proj2 (Qle_bool_iff _ _)) in A. congruence.
  - apply Qle_bool_iff in B. apply H in B. apply (proj2 (Qle_bool_iff _ _)) in B. congruence.
Qed.

(** Comparing minutes is comparing hours: [v * 60 <= h * 60] exactly when
    [v <= h], for a binary64 value [v] and an integer hour [h]. *)
Lemma le_mul_60 v h :
  is_double v -> (Z.abs h <= 2 ^ 40)%Z ->
  le (mul v (int 60)) (int (60 * h)) = le v (int h).
Proof.
  intros D Hh. destruct v as [| | |s]; try reflexivity.
  apply is_double_fin in D.
  pose proof (mul_60_le s h D Hh) as Iff.
  destruct (hour_bound h Hh) as [Lo Hi].
  change (mul (Fin s) (int 60)) with (rnd (s * 60)).
  unfold rnd. cbv zeta.
  destruct (Qle_bool (pow2 1024) (rnd_q (s * 60))) eqn:A.
  - apply Qle_bool_iff in A. cbn [le int]. symmetry. apply Qle_bool_false.
    destruct (Qlt_le_dec (inject_Z h) s) as [L|G]; [exact L|].
    apply Iff in G. lra.
  - destruct (Qle_bool (rnd_q (s * 60)) (- pow2 1024)) eqn:B.
    + apply Qle_bool_iff in B. cbn [le int]. symmetry. apply Qle_bool_iff.
      apply Iff. lra.
    + cbn [le int]. apply Qle_bool_ext. exact Iff.
Qed.

Lemma lt_mul_60 v h :
  is_double v -> (Z.abs h <= 2 ^ 40)%Z ->
  lt (int (60 * h)) (mul v (int 60)) = lt (int h) v.
Proof.
  intros D Hh. pose proof (le_mul_60 v h D Hh) as L.
  destruct v as [| | |s]; try reflexivity.
  change (mul (Fin s) (int 60)) with (rnd (s * 60)) in *.
  destruct (rnd (s * 60)) as [| | |r] eqn:R.
  - exfalso. unfold rnd in R. cbv zeta in R.
    destruct (Qle_bool _ _) in R; [discriminate|].
    destruct (Qle_bool _ _) in R; discriminate.
  - cbn [le lt int] in *. rewrite <- L. reflexivity.
  - cbn [le lt int] in *. rewrite <- L. reflexivity.
  - cbn [le lt int] in *. rewrite L. reflexivity.
Qed.

Lemma isNaN_mul_60 v : isNaN (mul v (int 60)) = isNaN v.
Proof.
  destruct v as [| | |s]; try reflexivity.
  change (mul (Fin s) (int 60)) with (rnd (s * 60)).
  unfold rnd. cbv zeta.
  destruct (Qle_bool _ _); [reflexivity|]. destruct (Qle_bool _ _); reflexivity.
Qed.

Lemma lt_Math_max a x y :
  lt (int a) (Math_max x y)
  = if isNaN x || isNaN y then false else lt (int a) x || lt (int a) y.
Proof.
  destruct x as [| | |p]; destruct y as [| | |q]; try reflexivity;
    cbn [Math_max lt isNaN orb int negb].
  - rewrite orb_true_r. reflexivity.
  - rewrite orb_false_r. reflexivity.
  - destruct (Qle_bool q p) eqn:A; cbn [negb].
    + destruct (Qle_bool p (inject_Z a)) eqn:B; cbn [negb orb]; [|reflexivity].
      apply Qle_bool_iff in A, B. symmetry. apply negb_false_iff. apply Qle_bool_iff. lra.
    + destruct (Qle_bool q (inject_Z a)) eqn:B; cbn [negb orb];
        [|rewrite orb_true_r; reflexivity].
      apply Qle_bool_false in A. apply Qle_bool_iff in B.
      rewrite orb_false_r. symmetry. apply negb_false_iff. apply Qle_bool_iff. lra.
Qed.

Lemma le_then_not_lt a v : le v (int a) = true -> lt (int a) v = false.
Proof.
  destruct v as [| | |s]; try discriminate; try reflexivity.
  cbn [le lt int]. intros H. rewrite H. reflexivity.
Qed.

Lemma lt_NaN_r a : lt a NaN = false.
Proof. destruct a; reflexivity. Qed.

End WorkingHourNumbers.

Section NineHourCap.
Open Scope Q_scope.

Lemma lt_Math_min_r a x y : lt (int a) (Math_min x y) = true -> lt (int a) y = true.
Proof.
  destruct x as [| | |p]; destruct y as [| | |q]; try discriminate; try (intros; reflexivity);
    cbn [Math_min lt int negb].
  - intros H. exact H.
  - destruct (Qle_bool p q) eqn:A; cbn [negb lt int].
    + intros H. apply negb_true_iff in H. apply Qle_bool_false in H.
      apply Qle_bool_iff in A.
      apply negb_true_iff. apply Qle_bool_false. lra.
    + intros H. exact H.
Qed.

Lemma list_min_exists (l : list Z) :
  l <> [] -> exists m, In m l /\ forall x, In x l -> (m <= x)%Z.
Proof.
  induction l as [|a l IH]; [congruence|]. intros _.
  destruct l as [|b l'].
  - exists a. split; [left; reflexivity|]. intros x [E|[]]. lia.
  - destruct IH as (m & Im & Hm); [discriminate|].
    destruct (Z_le_gt_dec a m) as [L|G].
    + exists a. split; [left; reflexivity|].
      intros x [E|Hx]; [lia|]. specialize (Hm x Hx). lia.
    + exists m. split; [right; exact Im|].
      intros x [E|Hx]; [lia|]. apply Hm. exact Hx.
Qed.

(** Distinct integers that lie less than 9 apart are at most 9. *)
Lemma short_span_length (l : list Z) :
  NoDup l -> (forall a b, In a l -> In b l -> (b < a + 9)%Z) -> (List.length l <= 9)%nat.
Proof.
  intros ND Span. destruct l as [|z l']; [simpl; lia|].
  destruct (list_min_exists (z :: l')) as (m & Im & Hm); [discriminate|].
  change 9%nat with (List.length (map (fun i => (m + Z.of_nat i)%Z) (seq 0 9))).
  apply NoDup_incl_length; [exact ND|].
  intros x Hx. specialize (Hm x Hx). specialize (Span m x Im Hx).
  apply in_map_iff. exists (Z.to_nat (x - m)). split; [lia|].
  apply in_seq. lia.
Qed.

Lemma working_hour_split d h :
  is_double (startHour d) -> is_double (endHour d) -> (Z.abs h <= 2 ^ 40)%Z ->
  WorkTimeAnalyzer.isWorkingHour (int h) d
  = le (startHour d) (int h)
    && lt (int h) (Math_min (endHour d) (add (startHour d) (int 9))).
Proof.
  intros DS DE Hh. unfold WorkTimeAnalyzer.isWorkingHour, WorkTimeAnalyzer.STANDARD_WORK_HOURS.
  set (S := startHour d) in *. set (E := endHour d) in *.
  set (C := Math_min E (add S (int 9))).
  assert (DC : is_double C) by (apply is_double_Math_min; [exact DE | apply is_double_add]).
  assert (Hm : mul (int h) (int 60) = int (60 * h)).
  { rewrite mul_int.
    - rewrite Z.mul_comm. reflexivity.
    - change (2 ^ 40)%Z with 1099511627776%Z in Hh.
      change (2 ^ 53)%Z with 9007199254740992%Z. lia. }
  rewrite Hm. unfold ge.
  rewrite (le_mul_60 S h DS Hh), lt_Math_max, !isNaN_mul_60.
  rewrite (lt_mul_60 S h DS Hh), (lt_mul_60 C h DC Hh).
  destruct (le S (int h)) eqn:L; [|reflexivity].
  rewrite (le_then_not_lt h S L). cbn [andb orb].
  destruct S as [| | |s]; try discriminate; cbn [isNaN orb];
    destruct C as [| | |c]; reflexivity.
Qed.

Lemma working_hours_close d k1 k2 :
  (Z.abs k1 <= 2 ^ 40)%Z ->
  le (startHour d) (int k1) = true ->
  lt (int k2) (Math_min (endHour d) (add (startHour d) (int 9))) = true ->
  (k2 < k1 + 9)%Z.
Proof.
  intros Hk L1 L2. apply lt_Math_min_r in L2.
  destruct (startHour d) as [| | |s]; try discriminate.
  cbn [le int] in L1. apply Qle_bool_iff in L1.
  change (add (Fin s) (int 9)) with (rnd (s + inject_Z 9)) in L2.
  assert (R : representable (inject_Z (k1 + 9))).
  { apply representable_Z.
    change (2 ^ 40)%Z with 1099511627776%Z in Hk.
    change (2 ^ 53)%Z with 9007199254740992%Z. lia. }
  assert (U : rnd_q (s + inject_Z 9) <= inject_Z (k1 + 9)).
  { unfold representable in R. rewrite <- R. apply rnd_q_mono.
    rewrite inject_Z_plus. lra. }
  unfold rnd in L2. cbv zeta in L2.
  destruct (Qle_bool (pow2 1024) (rnd_q (s + inject_Z 9))) eqn:A.
  - apply Qle_bool_iff in A. pose proof pow2_1024_big as P.
    assert (inject_Z (k1 + 9) < inject_Z (2 ^ 53)).
    { rewrite <- Zlt_Qlt.
      change (2 ^ 40)%Z with 1099511627776%Z in Hk.
      change (2 ^ 53)%Z with 9007199254740992%Z. lia. }
    lra.
  - destruct (Qle_bool (rnd_q (s + inject_Z 9)) (- pow2 1024)); [discriminate|].
    cbn [lt int] in L2. apply negb_true_iff in L2. apply Qle_bool_false in L2.
    rewrite Zlt_Qlt. lra.
Qed.

(** C3: [isWorkingHour(h, d)] holds exactly for the integer hours [h] in
    [[d.startHour, min(d.endHour, d.startHour + 9))], so among distinct
    one-hour buckets at most 9 are normal work, however late [d.endHour]
    is. *)
Theorem isWorkingHour_nine_hour_cap
    (d : WorkTimeDetectionResult) (h : Z) (hours : list Z) :
  is_double (startHour d) -> is_double (endHour d) ->
  (Z.abs h <= 2 ^ 40)%Z ->
  Forall (fun k => (Z.abs k <= 2 ^ 40)%Z) hours -> NoDup hours ->
  WorkTimeAnalyzer.isWorkingHour (int h) d
  = le (startHour d) (int h)
    && lt (int h) (Math_min (endHour d) (add (startHour d) (int 9)))
  /\ (List.length (filter (fun k => WorkTimeAnalyzer.isWorkingHour (int k) d) hours) <= 9)%nat.
Proof.
  intros DS DE Hh Hall ND. split; [apply working_hour_split; assumption|].
  apply short_span_length; [apply NoDup_filter; exact ND|].
  intros a b Ha Hb. apply filter_In in Ha, Hb.
  destruct Ha as [Ia Wa]. destruct Hb as [Ib Wb].
  rewrite Forall_forall in Hall.
  rewrite working_hour_split in Wa, Wb by auto.
  apply andb_true_iff in Wa, Wb.
  apply (working_hours_close d a b); [auto | apply Wa | apply Wb].
Qed.

(** A detected day from 09:00 to 20:00: hour 17 is normal work, and of the
    24 one-hour buckets at most 9 are. *)
Lemma isWorkingHour_nine_hour_cap_witness :
  let d :=
    {| startHour := int 9; endHour := int 20; isReliable := true;
       sampleCount := int 40; detectionMethod := QuantileWindow;
       confidence := int 40; startHourRange := None; endHourRange := None;
       endDetectionMethod := Some BackwardThreshold |} in
  let hours := map Z.of_nat (seq 0 24) in
  WorkTimeAnalyzer.isWorkingHour (int 17) d
  = le (startHour d) (int 17)
    && lt (int 17) (Math_min (endHour d) (add (startHour d) (int 9)))
  /\ (List.length (filter (fun k => WorkTimeAnalyzer.isWorkingHour (int k) d) hours) <= 9)%nat.
Proof.
  intros d hours.
  apply (isWorkingHour_nine_hour_cap d 17 hours).
  - vm_compute. reflexivity.
  - vm_compute. reflexivity.
  - vm_compute. discriminate.
  - unfold hours. apply Forall_forall. intros k Hk.
    apply in_map_iff in Hk. destruct Hk as (n & E & Hn). apply in_seq in Hn.
    change (2 ^ 40)%Z with 1099511627776%Z. lia.
  - unfold hours. apply Injective_map_NoDup; [|apply seq_NoDup].
    intros x y E. apply Nat2Z.inj. exact E.
Defined.

(** The same day evaluated: hours 9 to 17 are normal work, 18 and 19 are
    not, although the detected end is 20:00. *)
Lemma isWorkingHour_example :
  let d :=
    {| startHour := int 9; endHour := int 20; isReliable := true;
       sampleCount := int 40; detectionMethod := QuantileWindow;
       confidence := int 40; startHourRange := None; endHourRange := None;
       endDetectionMethod := Some BackwardThreshold |} in
  filter (fun k => WorkTimeAnalyzer.isWorkingHour (int k) d) (map Z.of_nat (seq 0 24))
  = [9; 10; 11; 12; 13; 14; 15; 16; 17]%Z.
Proof. vm_compute. reflexivity. Qed.

End NineHourCap.

(** ** Start-time detection *)

Section StartTime.
Import WorkTimeAnalyzer.
Open Scope Q_scope.

Lemma insert_asc_perm v l : Permutation (insert_asc v l) (v :: l).
Proof.
  induction l as [|h t IH]; simpl; [reflexivity|].
  destruct (v <=? h)%Z; [reflexivity|].
  rewrite IH. apply perm_swap.
Qed.

Lemma sort_asc_perm l : Permutation (sort_asc l) l.
Proof.
  induction l as [|h t IH]; simpl; [reflexivity|].
  rewrite insert_asc_perm. constructor. exact IH.
Qed.

Lemma insert_asc_sorted v l : Sorted Z.le l -> Sorted Z.le (insert_asc v l).
Proof.
  induction l as [|h t IH]; intros S; simpl.
  - repeat constructor.
  - destruct (Z.leb_spec v h) as [L|G].
    + constructor; [exact S | constructor; exact L].
    + inversion S as [|? ? St Hd]; subst.
      constructor; [apply IH; exact St|].
      destruct t as [|h' t']; simpl.
      * constructor. lia.
      * destruct (Z.leb_spec v h'); constructor; [lia|].
        inversion Hd; subst. assumption.
Qed.

Lemma sort_asc_sorted l : Sorted Z.le (sort_asc l).
Proof.
  induction l as [|h t IH]; simpl; [constructor | apply insert_asc_sorted; exact IH].
Qed.

Lemma sort_asc_length l : List.length (sort_asc l) = List.length l.
Proof. apply Permutation_length. apply sort_asc_perm. Qed.

Lemma valid_constants : MIN_VALID_MINUTES = int 300 /\ MAX_VALID_MINUTES = int 720.
Proof. split; vm_compute; reflexivity. Qed.

(** The samples kept by the filter lie in the band 05:00-12:00 and on
    Monday to Friday. *)
Lemma filterValidDailyCommits_spec dailyFirstCommits item :
  In item (filterValidDailyCommits dailyFirstCommits) <->
  In item dailyFirstCommits
  /\ (300 <= minutesFromMidnight item <= 720)%Z
  /\ (1 <= getUTCDay (date item) <= 5)%Z.
Proof.
  unfold filterValidDailyCommits. rewrite filter_In.
  destruct valid_constants as [E1 E2]. rewrite E1, E2. unfold gt. rewrite !lt_int.
  split; intros [HIn H]; (split; [exact HIn|]).
  - destruct (Z.ltb_spec (minutesFromMidnight item) 300); [discriminate|].
    destruct (Z.ltb_spec 720 (minutesFromMidnight item)); [discriminate|].
    cbn [orb] in H. apply andb_true_iff in H. destruct H as [A B].
    apply Z.leb_le in A, B. lia.
  - destruct H as [[A B] [C D]].
    destruct (Z.ltb_spec (minutesFromMidnight item) 300); [lia|].
    destruct (Z.ltb_spec 720 (minutesFromMidnight item)); [lia|].
    cbn [orb]. apply andb_true_iff. split; apply Z.leb_le; assumption.
Qed.

Lemma validSamples_band dailyFirstCommits m :
  In m (validSamples dailyFirstCommits) -> (300 <= m <= 720)%Z.
Proof.
  unfold validSamples. rewrite in_map_iff. intros (item & E & HIn).
  apply filterValidDailyCommits_spec in HIn. subst m. tauto.
Qed.

(** [Math.floor(a * t)] for a binary64 literal [t] just above [1 / b]
    is the integer quotient [a / b]. *)
Lemma floor_mul_reciprocal a b t :
  (0 <= a < 2 ^ 40)%Z -> (0 < b <= 32)%Z ->
  1 <= inject_Z b * t -> inject_Z b * t <= 1 + pow2 (-50) ->
  Math_floor (mul (int a) (Fin t)) = int (a / b).
Proof.
  intros Ha Hb T1 T2.
  change (mul (int a) (Fin t)) with (rnd (inject_Z a * t)).
  set (k := (a / b)%Z).
  assert (Hk : (0 <= k < 2 ^ 40)%Z).
  { unfold k. split; [apply Z.div_pos; lia | apply Z.div_lt_upper_bound; nia]. }
  assert (Hdiv : (b * k <= a /\ a <= b * k + (b - 1))%Z).
  { unfold k. pose proof (Z.mul_div_le a b ltac:(lia)).
    pose proof (Z.mul_succ_div_gt a b ltac:(lia)). lia. }
  assert (Pb : 0 < inject_Z b) by (rewrite <- (Zlt_Qlt 0); lia).
  assert (Bb : inject_Z b <= 32) by (change 32 with (inject_Z 32); rewrite <- Zle_Qle; lia).
  assert (Pk : 0 <= inject_Z k) by (change 0 with (inject_Z 0); rewrite <- Zle_Qle; lia).
  assert (Bk : inject_Z k <= pow2 40).
  { rewrite (pow2_Z 40) by lia. rewrite <- Zle_Qle. lia. }
  assert (Pa : 0 <= inject_Z a) by (change 0 with (inject_Z 0); rewrite <- Zle_Qle; lia).
  assert (A1 : inject_Z b * inject_Z k <= inject_Z a).
  { rewrite <- inject_Z_mult, <- Zle_Qle. lia. }
  assert (A2 : inject_Z a <= inject_Z b * inject_Z k + (inject_Z b - 1)).
  { change 1 with (inject_Z 1). unfold Qminus.
    rewrite <- inject_Z_opp, <- inject_Z_mult, <- !inject_Z_plus, <- Zle_Qle. lia. }
  change (pow2 (-50)) with (1 # 1125899906842624) in T2.
  change (pow2 40) with 1099511627776 in Bk.
  assert (L : inject_Z k <= inject_Z a * t).
  { apply Qmult_le_l with (z := inject_Z b); [exact Pb|]. nra. }
  assert (U : inject_Z a * t <= inject_Z (64 * k + 63) * pow2 (-6)).
  { apply Qmult_le_l with (z := inject_Z b); [exact Pb|].
    rewrite inject_Z_plus, inject_Z_mult.
    change (pow2 (-6)) with (1 # 64). change (inject_Z 64) with 64.
    change (inject_Z 63) with 63.
    assert (X : inject_Z b * (inject_Z a * t) <= inject_Z a * (1 + (1 # 1125899906842624))).
    { nra. }
    eapply Qle_trans; [exact X|]. nra. }
  destruct (rnd_q_between (inject_Z a * t) (inject_Z k)
              (inject_Z (64 * k + 63) * pow2 (-6))) as [A B].
  - apply representable_Z. lia.
  - apply representable_dyadic; lia.
  - exact L.
  - exact U.
  - assert (B' : rnd_q (inject_Z a * t) < inject_Z k + 1).
    { eapply Qle_lt_trans; [exact B|].
      rewrite inject_Z_plus, inject_Z_mult.
      change (pow2 (-6)) with (1 # 64). change (inject_Z 64) with 64.
      change (inject_Z 63) with 63. lra. }
    assert (Bk1 : inject_Z k + 1 <= inject_Z (2 ^ 53)).
    { change 1 with (inject_Z 1). rewrite <- inject_Z_plus, <- Zle_Qle. lia. }
    pose proof pow2_1024_big as P.
    rewrite rnd_fin by lra.
    unfold Math_floor, int. f_equal. f_equal.
    apply Qfloor_unique; [exact A | exact B'].
Qed.

Lemma array_get_int {A : Type} (l : list A) (i : Z) :
  (0 <= i)%Z -> array_get l (int i) = nth_error l (Z.to_nat i).
Proof.
  intros H. unfold array_get, int. rewrite Qfloor_Z.
  replace (Qeq_bool (inject_Z i) (inject_Z i)) with true
    by (symmetry; apply Qeq_bool_iff; reflexivity).
  replace (0 <=? i)%Z with true by (symmetry; apply Z.leb_le; exact H).
  reflexivity.
Qed.

(** The quantile read by the detector is the order statistic at index
    floor((n - 1) / b), for the literals 0.1 (b = 10) and 0.2 (b = 5). *)
Lemma calculateQuantile_order_statistic samples b t fallback :
  samples <> [] -> (Z.of_nat (List.length samples) < 2 ^ 40)%Z ->
  (0 < b <= 32)%Z -> 1 <= inject_Z b * t -> inject_Z b * t <= 1 + pow2 (-50) ->
  exists v,
    nth_error (sort_asc samples) (Z.to_nat ((Z.of_nat (List.length samples) - 1) / b)) = Some v
    /\ calculateQuantile samples (Fin t) fallback = int v.
Proof.
  intros NE Hn Hb T1 T2.
  unfold calculateQuantile. destruct samples as [|s0 rest]; [congruence|].
  set (samples := s0 :: rest) in *.
  rewrite sort_asc_length.
  set (n := Z.of_nat (List.length samples)) in *.
  assert (Hn1 : (1 <= n)%Z) by (unfold n, samples; simpl List.length; lia).
  rewrite sub_int by (change (2 ^ 40)%Z with 1099511627776%Z in Hn;
                      change (2 ^ 53)%Z with 9007199254740992%Z; lia).
  rewrite (floor_mul_reciprocal (n - 1) b t) by (try assumption; lia).
  assert (Hi : (0 <= (n - 1) / b < n)%Z).
  { split; [apply Z.div_pos; lia|].
    apply Z.le_lt_trans with (n - 1)%Z; [|lia].
    apply Z.div_le_upper_bound; [lia|]. nia. }
  rewrite array_get_int by lia.
  destruct (nth_error (sort_asc samples) (Z.to_nat ((n - 1) / b))) as [v|] eqn:E.
  - exists v. split; reflexivity.
  - exfalso. apply nth_error_None in E. rewrite sort_asc_length in E. fold n in E. lia.
Qed.

Lemma literal_tenth :
  lit (1 # 10) = Fin (3602879701896397 # 36028797018963968)
  /\ lit (2 # 10) = Fin (3602879701896397 # 18014398509481984).
Proof. split; vm_compute; reflexivity. Qed.

Lemma roundDownToHalfHour_int m :
  (0 <= m < 2 ^ 40)%Z -> roundDownToHalfHour (int m) = int (30 * (m / 30)).
Proof.
  intros H. unfold roundDownToHalfHour. rewrite floor_div_int by lia.
  rewrite mul_int.
  - rewrite Z.mul_comm. reflexivity.
  - assert (0 <= m / 30 <= m)%Z.
    { split; [apply Z.div_pos; lia|]. apply Z.div_le_upper_bound; lia. }
    change (2 ^ 40)%Z with 1099511627776%Z in H.
    change (2 ^ 53)%Z with 9007199254740992%Z. lia.
Qed.

(** Dividing a multiple of 30 minutes by 60 is exact. *)
Lemma div_60_exact m :
  (0 <= m <= 1440)%Z -> (m mod 30 = 0)%Z -> div (int m) (int 60) = hoursOfMinutes m.
Proof.
  intros Hm Hmod. rewrite div_int by lia. unfold hoursOfMinutes.
  assert (E : inject_Z m / inject_Z 60 == inject_Z (m / 30) * pow2 (-1)).
  { change (pow2 (-1)) with (1 # 2). change (inject_Z 60) with 60.
    assert (Em : m = (30 * (m / 30))%Z) by (apply Z.div_exact; lia).
    rewrite Em at 1. rewrite inject_Z_mult. change (inject_Z 30) with 30. field. }
  assert (R : representable (inject_Z m / inject_Z 60)).
  { unfold representable. apply (rnd_q_repr _ (m / 30) (-1)); [exact E| |lia].
    assert (0 <= m / 30 <= 48)%Z.
    { split; [apply Z.div_pos; lia | apply Z.div_le_upper_bound; lia]. }
    change (2 ^ 53)%Z with 9007199254740992%Z. lia. }
  assert (B : 0 <= inject_Z m / inject_Z 60 /\ inject_Z m / inject_Z 60 <= 24).
  { rewrite E. change (pow2 (-1)) with (1 # 2).
    assert (0 <= inject_Z (m / 30) /\ inject_Z (m / 30) <= 48).
    { change 0 with (inject_Z 0). change 48 with (inject_Z 48). rewrite <- !Zle_Qle.
      split; [apply Z.div_pos; lia | apply Z.div_le_upper_bound; lia]. }
    lra. }
  unfold representable in R.
  pose proof pow2_1024_big as P. change (inject_Z (2 ^ 53)) with 9007199254740992 in P.
  rewrite rnd_fin by lra.
  f_equal. apply rnd_q_canon; [|apply Qred_complete, Qred_correct].
  rewrite R. symmetry. apply Qred_correct.
Qed.

Lemma buildStartHourRange_int lower upper :
  (300 <= lower <= 720)%Z -> (300 <= upper <= 780)%Z ->
  buildStartHourRange (int lower) (int upper)
  = {| rangeStartHour := hoursOfMinutes (startMinutes lower);
       rangeEndHour := hoursOfMinutes (endMinutes lower (Z.min upper 720)) |}.
Proof.
  intros Hl Hu. unfold buildStartHourRange.
  destruct valid_constants as [E1 E2]. rewrite E1, E2.
  rewrite !Math_min_int, !Math_max_int.
  rewrite (Z.min_l lower 720), (Z.max_r 300 lower) by lia.
  rewrite (Z.max_r 300 (Z.min upper 720)) by lia.
  rewrite (roundDownToHalfHour_int lower)
    by (change (2 ^ 40)%Z with 1099511627776%Z; lia).
  fold (startMinutes lower). set (start := startMinutes lower).
  assert (Hs : (300 <= start <= 720 /\ start mod 30 = 0)%Z).
  { unfold start, startMinutes.
    pose proof (Z.mul_div_le lower 30 ltac:(lia)).
    assert (10 <= lower / 30)%Z by (apply Z.div_le_lower_bound; lia).
    split; [lia|]. rewrite Z.mul_comm. apply Z_mod_mult. }
  change (2 ^ 53)%Z with 9007199254740992%Z.
  rewrite add_int by (change (2 ^ 53)%Z with 9007199254740992%Z; lia).
  rewrite Math_max_int.
  rewrite roundDownToHalfHour_int by (change (2 ^ 40)%Z with 1099511627776%Z; lia).
  set (su := (30 * (Z.max (Z.min upper 720) (start + 30) / 30))%Z).
  assert (Hsu : (start + 30 <= su <= 750 /\ su mod 30 = 0)%Z).
  { unfold su.
    set (x := Z.max (Z.min upper 720) (start + 30)).
    assert (Hx : (start + 30 <= x <= 750)%Z) by (unfold x; lia).
    pose proof (Z.mul_div_le x 30 ltac:(lia)).
    destruct Hs as [Hs1 Hs2].
    assert (Es : (start + 30 = 30 * (start / 30 + 1))%Z).
    { assert (start = 30 * (start / 30))%Z by (apply Z.div_exact; lia). lia. }
    assert ((start / 30 + 1) <= x / 30)%Z by (apply Z.div_le_lower_bound; lia).
    split; [lia|]. rewrite Z.mul_comm. apply Z_mod_mult. }
  rewrite Math_min_int. rewrite (Z.min_l start su) by lia.
  rewrite !add_int by (change (2 ^ 53)%Z with 9007199254740992%Z; lia).
  rewrite Math_max_int, !Math_min_int.
  assert (Ee : Z.min (Z.min (Z.max su (start + 30)) (start + 60)) 720
               = endMinutes lower (Z.min upper 720)).
  { unfold endMinutes. fold start. fold su. reflexivity. }
  rewrite Ee.
  assert (He : (0 <= endMinutes lower (Z.min upper 720) <= 1440
                /\ endMinutes lower (Z.min upper 720) mod 30 = 0)%Z).
  { rewrite <- Ee. destruct Hs as [Hs1 Hs2]. destruct Hsu as [Hu1 Hu2].
    assert (Hs3 : (start = 30 * (start / 30))%Z) by (apply Z.div_exact; lia).
    assert (Hu3 : (su = 30 * (su / 30))%Z) by (apply Z.div_exact; lia).
    split; [lia|].
    replace (Z.min (Z.min (Z.max su (start + 30)) (start + 60)) 720)
      with (Z.min (Z.min (Z.max (su / 30) (start / 30 + 1)) (start / 30 + 2)) 24 * 30)%Z
      by lia.
    apply Z_mod_mult. }
  rewrite !div_60_exact by (try tauto; lia).
  reflexivity.
Qed.

End StartTime.

Section StartTimeDetection.
Import WorkTimeAnalyzer.
Open Scope Z_scope.

Lemma nth_error_valid_band dailyFirstCommits i v :
  nth_error (sort_asc (validSamples dailyFirstCommits)) i = Some v -> 300 <= v <= 720.
Proof.
  intros E. apply nth_error_In in E.
  apply (Permutation_in _ (sort_asc_perm _)) in E.
  apply validSamples_band in E. exact E.
Qed.

Lemma start_end_minutes_bounds lower upper :
  300 <= lower <= 720 -> 300 <= upper <= 720 ->
  300 <= startMinutes lower <= lower
  /\ lower < startMinutes lower + 30
  /\ startMinutes lower mod 30 = 0
  /\ startMinutes lower <= endMinutes lower upper <= startMinutes lower + 60
  /\ endMinutes lower upper <= 720
  /\ endMinutes lower upper mod 30 = 0.
Proof.
  intros Hl Hu. unfold endMinutes. unfold startMinutes.
  set (a := lower / 30).
  assert (Ha : 30 * a <= lower < 30 * a + 30).
  { unfold a. pose proof (Z.mul_div_le lower 30 ltac:(lia)).
    pose proof (Z.mul_succ_div_gt lower 30 ltac:(lia)). lia. }
  set (b := Z.max upper (30 * a + 30) / 30).
  assert (Hb : 30 * b <= Z.max upper (30 * a + 30) < 30 * b + 30).
  { unfold b. pose proof (Z.mul_div_le (Z.max upper (30 * a + 30)) 30 ltac:(lia)).
    pose proof (Z.mul_succ_div_gt (Z.max upper (30 * a + 30)) 30 ltac:(lia)). lia. }
  assert (E : Z.min (Z.min (Z.max (30 * b) (30 * a + 30)) (30 * a + 60)) 720
              = Z.min (Z.min (Z.max b (a + 1)) (a + 2)) 24 * 30) by lia.
  rewrite E.
  repeat split; try lia.
  - rewrite Z.mul_comm. apply Z_mod_mult.
  - apply Z_mod_mult.
Qed.

(** C4, as the code has it: the detector takes the two order statistics at
    the indices floor((n - 1) / 10) and floor((n - 1) / 5) of the sorted
    weekday samples of the band 05:00-12:00, without interpolating; the
    lower one rounded down to a 30-minute mark is the start of the range
    and [startHour]; the range ends on a 30-minute mark taken from the
    upper one, not before the start, at most 60 minutes after it and never
    after 12:00.  With no sample the range is 09:00-09:30. *)
Theorem detectStartRange_order_statistics (dailyFirstCommits : list DailyFirstCommit) :
  let samples := validSamples dailyFirstCommits in
  let n := Z.of_nat (List.length samples) in
  n < 2 ^ 40 ->
  match samples with
  | [] =>
      detectStartRange dailyFirstCommits
      = ({| rangeStartHour := int 9; rangeEndHour := Fin (19 # 2) |}, DefaultMethod)
  | _ :: _ =>
      exists lower upper,
        nth_error (sort_asc samples) (Z.to_nat ((n - 1) / 10)) = Some lower
        /\ nth_error (sort_asc samples) (Z.to_nat ((n - 1) / 5)) = Some upper
        /\ detectStartRange dailyFirstCommits
           = ({| rangeStartHour := hoursOfMinutes (startMinutes lower);
                 rangeEndHour := hoursOfMinutes (endMinutes lower upper) |},
              QuantileWindow)
        /\ 300 <= startMinutes lower <= lower
        /\ lower < startMinutes lower + 30
        /\ startMinutes lower mod 30 = 0
        /\ startMinutes lower <= endMinutes lower upper <= startMinutes lower + 60
        /\ endMinutes lower upper <= 720
        /\ endMinutes lower upper mod 30 = 0
  end.
Proof.
  cbv zeta. intros Hn. unfold detectStartRange.
  change (map minutesFromMidnight (filterValidDailyCommits dailyFirstCommits))
    with (validSamples dailyFirstCommits).
  remember (validSamples dailyFirstCommits) as samples eqn:Es.
  destruct samples as [|s0 rest].
  - vm_compute. reflexivity.
  - destruct literal_tenth as [T1 T2]. rewrite T1, T2.
    assert (NE : s0 :: rest <> []) by discriminate.
    destruct (calculateQuantile_order_statistic (s0 :: rest) 10
                (3602879701896397 # 36028797018963968) (mul (int 9) (int 60)) NE Hn)
      as (lower & Nl & Ql); [lia | vm_compute; discriminate | vm_compute; discriminate |].
    rewrite Ql.
    destruct (calculateQuantile_order_statistic (s0 :: rest) 5
                (3602879701896397 # 18014398509481984) (add (int lower) (int 60)) NE Hn)
      as (upper & Nu & Qu); [lia | vm_compute; discriminate | vm_compute; discriminate |].
    rewrite Qu.
    assert (Bl : 300 <= lower <= 720).
    { rewrite Es in Nl. apply (nth_error_valid_band _ _ _ Nl). }
    assert (Bu : 300 <= upper <= 720).
    { rewrite Es in Nu. apply (nth_error_valid_band _ _ _ Nu). }
    exists lower, upper.
    split; [exact Nl|]. split; [exact Nu|].
    split.
    + rewrite buildStartHourRange_int by lia. rewrite Z.min_l by lia. reflexivity.
    + apply start_end_minutes_bounds; assumption.
Qed.

(** Seven weekday mornings: the order statistics of rank 0 and 1 are 08:51
    and 09:05, the range is 08:30-09:00. *)
Lemma detectStartRange_order_statistics_witness :
  let dailyFirstCommits :=
    map (fun '(d, m) => {| date := d; minutesFromMidnight := m |})
        [(4, 545); (5, 600); (6, 531); (7, 720); (8, 700); (11, 560); (12, 580)] in
  exists lower upper,
    nth_error (sort_asc (validSamples dailyFirstCommits)) 0%nat = Some lower
    /\ nth_error (sort_asc (validSamples dailyFirstCommits)) 1%nat = Some upper
    /\ detectStartRange dailyFirstCommits
       = ({| rangeStartHour := hoursOfMinutes (startMinutes lower);
             rangeEndHour := hoursOfMinutes (endMinutes lower upper) |},
          QuantileWindow)
    /\ 300 <= startMinutes lower <= lower
    /\ lower < startMinutes lower + 30
    /\ startMinutes lower mod 30 = 0
    /\ startMinutes lower <= endMinutes lower upper <= startMinutes lower + 60
    /\ endMinutes lower upper <= 720
    /\ endMinutes lower upper mod 30 = 0.
Proof.
  intros dailyFirstCommits.
  apply (detectStartRange_order_statistics dailyFirstCommits).
  vm_compute. reflexivity.
Defined.

Lemma detectStartRange_example :
  detectStartRange
    (map (fun '(d, m) => {| date := d; minutesFromMidnight := m |})
         [(4, 545); (5, 600); (6, 531); (7, 720); (8, 700); (11, 560); (12, 580)])
  = ({| rangeStartHour := Fin (17 # 2); rangeEndHour := int 9 |}, QuantileWindow).
Proof. vm_compute. reflexivity. Qed.

(** C4, counterexample to the linear interpolation: with the two samples
    05:00 and 12:00 (a Monday and a Tuesday) the interpolated 10th and 20th
    percentiles are 05:42 and 06:24, which give the range 05:30-06:00; the
    code reads the first order statistic twice and answers 05:00-05:30. *)
Lemma detectStartRange_no_interpolation :
  let dailyFirstCommits :=
    [{| date := 4; minutesFromMidnight := 300 |};
     {| date := 5; minutesFromMidnight := 720 |}] in
  validSamples dailyFirstCommits = [300; 720]
  /\ Qeq (spec_linear_quantile [300; 720] (1 # 10)) 342
  /\ Qeq (spec_linear_quantile [300; 720] (2 # 10)) 384
  /\ spec_startRangeMinutes (validSamples dailyFirstCommits) = (330, 360)
  /\ fst (detectStartRange dailyFirstCommits)
     = {| rangeStartHour := hoursOfMinutes 300; rangeEndHour := hoursOfMinutes 330 |}
  /\ hoursOfMinutes 300 <> hoursOfMinutes 330.
Proof.
  repeat split; try (vm_compute; reflexivity).
  vm_compute. discriminate.
Qed.

(** [detectWorkingHours] reports the range of [detectStartRange] and takes
    its lower bound as [startHour], whatever the end-hour detector says. *)
Lemma detectWorkingHours_start
    (detectEndHourWindow : list TimeCount -> num -> num -> EndHourWindow)
    (hourData : list TimeCount) (dailyFirstCommits : list DailyFirstCommit) :
  let d := detectWorkingHours detectEndHourWindow hourData dailyFirstCommits in
  let startRange := fst (detectStartRange dailyFirstCommits) in
  startHour d = rangeStartHour startRange
  /\ startHourRange d = Some startRange
  /\ detectionMethod d = snd (detectStartRange dailyFirstCommits).
Proof.
  cbv zeta. unfold detectWorkingHours.
  destruct (detectStartRange dailyFirstCommits) as [startRange method].
  repeat split.
Qed.

End StartTimeDetection.

(** ** The 996 index on commit counts *)

Section IndexOnCounts.
Open Scope Q_scope.

Lemma inject_Z_nonneg z : (0 <= z)%Z -> 0 <= inject_Z z.
Proof. intros H. change 0 with (inject_Z 0). rewrite <- Zle_Qle. exact H. Qed.

Lemma inject_Z_pos z : (0 < z)%Z -> 0 < inject_Z z.
Proof. intros H. change 0 with (inject_Z 0). rewrite <- Zlt_Qlt. exact H. Qed.

Lemma weekendShare_bounds y m n :
  (0 <= y)%Z -> (0 <= m)%Z -> (0 <= n)%Z -> (0 < m + n)%Z ->
  (0 <= weekendShare y m n <= y)%Z.
Proof.
  intros Hy Hm Hn Hs. unfold weekendShare.
  pose proof (inject_Z_pos _ Hs) as PS.
  assert (P0 : 0 <= inject_Z (y * n) / inject_Z (m + n)).
  { apply Qle_shift_div_l; [exact PS|]. rewrite Qmult_0_l. apply inject_Z_nonneg. nia. }
  assert (P1 : inject_Z (y * n) / inject_Z (m + n) <= inject_Z y).
  { apply Qle_shift_div_r; [exact PS|]. rewrite <- inject_Z_mult, <- Zle_Qle. nia. }
  split.
  - rewrite <- (Qfloor_Z 0). apply Qfloor_resp_le. change (inject_Z 0) with 0. lra.
  - assert (Qfloor (inject_Z (y * n) / inject_Z (m + n) + (1 # 2)) < y + 1)%Z; [|lia].
    rewrite Zlt_Qlt. eapply Qle_lt_trans; [apply Qfloor_le|].
    rewrite (inject_Z_plus y 1). change (inject_Z 1) with 1. lra.
Qed.

(** The corrected overtime count: [Math.round(x + (y * n) / (m + n))] is
    [x] plus the rounded weekend share, for counts below 2^24. *)
Lemma overTimeAmendCount_value y x m n :
  (0 <= y < 2 ^ 24)%Z -> (0 <= x < 2 ^ 24)%Z -> (0 <= m < 2 ^ 24)%Z -> (0 <= n < 2 ^ 24)%Z ->
  (0 < m + n)%Z ->
  Math_round (add (int x) (div (mul (int y) (int n)) (add (int m) (int n))))
  = int (x + weekendShare y m n).
Proof.
  intros Hy Hx Hm Hn Hs.
  change (2 ^ 24)%Z with 16777216%Z in *.
  pose proof (weekendShare_bounds y m n ltac:(lia) ltac:(lia) ltac:(lia) Hs) as Hk.
  rewrite mul_int by (change (2 ^ 53)%Z with 9007199254740992%Z; nia).
  rewrite add_int by (change (2 ^ 53)%Z with 9007199254740992%Z; lia).
  rewrite div_int by lia.
  unfold weekendShare in *.
  pose proof (inject_Z_pos _ Hs) as PS.
  assert (BS : inject_Z (m + n) <= 33554432).
  { change 33554432 with (inject_Z 33554432). rewrite <- Zle_Qle. lia. }
  set (P := (y * n)%Z) in *. set (S := (m + n)%Z) in *.
  set (q := inject_Z P / inject_Z S) in *.
  set (k := Qfloor (q + (1 # 2))) in *.
  destruct (Qfloor_bounds (q + (1 # 2))) as [K1 K2]. fold k in K1, K2.
  assert (Eq : inject_Z P == q * inject_Z S) by (unfold q; field; lra).
  assert (Hdy : forall j : Z,
             inject_Z (2 * j - 1) * pow2 (-1) == inject_Z j - (1 # 2)
             /\ inject_Z ((2 * j + 1) * 2 ^ 25 - 1) * pow2 (-26)
                == inject_Z j + (1 # 2) - (1 # 67108864)).
  { intros j. change (pow2 (-1)) with (1 # 2). change (pow2 (-26)) with (1 # 67108864).
    unfold Z.sub. rewrite !inject_Z_plus, !inject_Z_mult, inject_Z_plus, inject_Z_mult.
    change (inject_Z 2) with 2. change (inject_Z 1) with 1.
    change (inject_Z (2 ^ 25)) with 33554432. change (inject_Z (- (1))) with (-1).
    split; ring. }
  assert (Rep : forall j : Z, (0 <= j <= 33554432)%Z ->
             representable (inject_Z (2 * j - 1) * pow2 (-1))
             /\ representable (inject_Z ((2 * j + 1) * 2 ^ 25 - 1) * pow2 (-26))).
  { intros j Hj. split; apply representable_dyadic;
      change (2 ^ 53)%Z with 9007199254740992%Z; change (2 ^ 25)%Z with 33554432%Z; lia. }
  (* the quotient stays 2^-26 away from the next half-integer *)
  assert (Gap : q <= inject_Z k + (1 # 2) - (1 # 67108864)).
  { assert (Z1 : (2 * P < (2 * k + 1) * S)%Z).
    { rewrite Zlt_Qlt, !inject_Z_mult, inject_Z_plus, inject_Z_mult.
      change (inject_Z 2) with 2. change (inject_Z 1) with 1.
      rewrite Eq. nra. }
    assert (Z2 : (2 * P + 1 <= (2 * k + 1) * S)%Z) by lia.
    rewrite Zle_Qle, inject_Z_plus, !inject_Z_mult, inject_Z_plus, inject_Z_mult in Z2.
    change (inject_Z 2) with 2 in Z2. change (inject_Z 1) with 1 in Z2.
    rewrite Eq in Z2.
    destruct (Qlt_le_dec (inject_Z k + (1 # 2) - (1 # 67108864)) q) as [Bad|Ok];
      [exfalso; nra | exact Ok]. }
  assert (Low : inject_Z k - (1 # 2) <= q) by lra.
  destruct (Hdy k) as [D1 D2]. destruct (Rep k ltac:(lia)) as [R1 R2].
  destruct (rnd_q_between q _ _ R1 R2) as [F1 F2]; [rewrite D1; exact Low | rewrite D2; exact Gap|].
  rewrite D1 in F1. rewrite D2 in F2.
  set (f := rnd_q q) in *.
  assert (Kq : inject_Z k <= 16777216).
  { change 16777216 with (inject_Z 16777216). rewrite <- Zle_Qle. lia. }
  assert (Kq0 : 0 <= inject_Z k) by (apply inject_Z_nonneg; lia).
  pose proof pow2_1024_big as Big. change (inject_Z (2 ^ 53)) with 9007199254740992 in Big.
  rewrite rnd_fin by (fold f; lra). fold f.
  change (add (int x) (Fin f)) with (rnd (inject_Z x + f)).
  set (t := (x + k)%Z).
  assert (Xq0 : 0 <= inject_Z x) by (apply inject_Z_nonneg; lia).
  assert (Xq : inject_Z x <= 16777216).
  { change 16777216 with (inject_Z 16777216). rewrite <- Zle_Qle. lia. }
  assert (Et : inject_Z t == inject_Z x + inject_Z k)
    by (unfold t; rewrite inject_Z_plus; reflexivity).
  destruct (Hdy t) as [D3 D4]. destruct (Rep t ltac:(unfold t; lia)) as [R3 R4].
  destruct (rnd_q_between (inject_Z x + f) _ _ R3 R4) as [G1 G2];
    [rewrite D3; lra | rewrite D4; lra|].
  rewrite D3 in G1. rewrite D4 in G2.
  set (g := rnd_q (inject_Z x + f)) in *.
  rewrite rnd_fin by (fold g; lra). fold g.
  unfold Math_round, int. f_equal. f_equal.
  apply Qfloor_unique; lra.
Qed.

End IndexOnCounts.

Section IndexRatio.
Open Scope Q_scope.

Lemma rnd_zero q : q == 0 -> rnd q = Fin 0.
Proof. intros H. rewrite (rnd_proper q 0 H). reflexivity. Qed.

Lemma unit_quotient a t : (0 <= a <= t)%Z -> (0 < t)%Z ->
  0 <= inject_Z a / inject_Z t /\ inject_Z a / inject_Z t <= 1.
Proof.
  intros Ha Ht. pose proof (inject_Z_pos t Ht) as Pt. split.
  - apply Qle_shift_div_l; [exact Pt|]. rewrite Qmult_0_l. apply inject_Z_nonneg. lia.
  - apply Qle_shift_div_r; [exact Pt|]. rewrite Qmult_1_l, <- Zle_Qle. lia.
Qed.

Lemma rnd_q_unit q : 0 <= q -> q <= 1 -> 0 <= rnd_q q /\ rnd_q q <= 1.
Proof.
  intros L U.
  apply (rnd_q_between q 0 1); try assumption.
  - apply (representable_Z 0). reflexivity.
  - apply (representable_Z 1). reflexivity.
Qed.

Lemma rnd_q_percent c : 0 <= c -> c <= 1 -> 0 <= rnd_q (c * 100) /\ rnd_q (c * 100) <= 100.
Proof.
  intros L U.
  apply (rnd_q_between (c * 100) 0 100); try lra.
  - apply (representable_Z 0). reflexivity.
  - apply (representable_Z 100). reflexivity.
Qed.

Lemma div_pos_zero p : 0 < p -> div (Fin p) (int 0) = PInf.
Proof.
  intros H. unfold div, int.
  replace (Qeq_bool (inject_Z 0) 0) with true by reflexivity.
  replace (Qcompare p 0) with Gt by (symmetry; apply (proj1 (Qgt_alt _ _)); exact H).
  reflexivity.
Qed.

(** [Math.ceil((a / t) * 100)] on counts is [ratioOf a t], between 0 and
    100. *)
Lemma ratio_value a t :
  (0 <= a <= t)%Z -> (0 < t)%Z ->
  Math_ceil (mul (div (int a) (int t)) (int 100)) = int (ratioOf a t)
  /\ (0 <= ratioOf a t <= 100)%Z.
Proof.
  intros Ha Ht.
  destruct (unit_quotient a t Ha Ht) as [Q0 Q1].
  destruct (rnd_q_unit _ Q0 Q1) as [C0 C1].
  destruct (rnd_q_percent _ C0 C1) as [V0 V1].
  pose proof pow2_1024_big as Big. change (inject_Z (2 ^ 53)) with 9007199254740992 in Big.
  split.
  - rewrite div_int by lia. rewrite rnd_fin by lra.
    change (mul (Fin ?c) (int 100)) with (rnd (c * 100)).
    rewrite rnd_fin by lra. reflexivity.
  - unfold ratioOf. split.
    + rewrite <- (Qceiling_Z 0). apply Qceiling_resp_le. exact V0.
    + rewrite <- (Qceiling_Z 100). apply Qceiling_resp_le. exact V1.
Qed.

Lemma ratioOf_mono a1 t1 a2 t2 :
  (0 < t1)%Z -> (0 < t2)%Z -> (a1 * t2 <= a2 * t1)%Z -> (ratioOf a1 t1 <= ratioOf a2 t2)%Z.
Proof.
  intros H1 H2 H. unfold ratioOf.
  apply Qceiling_resp_le, rnd_q_mono.
  apply Qmult_le_compat_r; [|discriminate].
  apply rnd_q_mono.
  pose proof (inject_Z_pos t1 H1) as P1. pose proof (inject_Z_pos t2 H2) as P2.
  apply Qle_shift_div_l; [exact P2|].
  assert (E : inject_Z a1 / inject_Z t1 * inject_Z t2
              == inject_Z a1 * inject_Z t2 / inject_Z t1) by (field; lra).
  rewrite E. apply Qle_shift_div_r; [exact P1|].
  rewrite <- !inject_Z_mult, <- Zle_Qle. exact H.
Qed.

Lemma ratioOf_0 t : (0 < t)%Z -> ratioOf 0 t = 0%Z.
Proof.
  intros Ht. unfold ratioOf.
  assert (E1 : inject_Z 0 / inject_Z t == 0).
  { unfold Qdiv. change (inject_Z 0) with 0. ring. }
  rewrite (rnd_q_proper _ _ E1), (rnd_q_0 0) by reflexivity.
  rewrite (rnd_q_0 (0 * 100)) by reflexivity. reflexivity.
Qed.

Lemma ratioOf_pos a t : (1 <= a <= t)%Z -> (t < 2 ^ 26)%Z -> (1 <= ratioOf a t)%Z.
Proof.
  intros Ha Ht. unfold ratioOf.
  assert (Pt : 0 < inject_Z t) by (apply inject_Z_pos; lia).
  assert (Bt : inject_Z t <= 67108864).
  { change 67108864 with (inject_Z 67108864). rewrite <- Zle_Qle.
    change (2 ^ 26)%Z with 67108864%Z in Ht. lia. }
  assert (Pa : 1 <= inject_Z a) by (change 1 with (inject_Z 1); rewrite <- Zle_Qle; lia).
  assert (L1 : inject_Z 1 * pow2 (-26) <= inject_Z a / inject_Z t).
  { change (inject_Z 1 * pow2 (-26)) with (1 # 67108864).
    apply Qle_shift_div_l; [exact Pt|]. lra. }
  pose proof (rnd_q_mono _ _ L1) as M1.
  pose proof (representable_dyadic 1 (-26) ltac:(reflexivity) ltac:(lia)) as R1.
  unfold representable in R1. rewrite R1 in M1.
  change (inject_Z 1 * pow2 (-26)) with (1 # 67108864) in M1.
  set (c := rnd_q (inject_Z a / inject_Z t)) in *.
  assert (L2 : inject_Z 1 * pow2 (-20) <= c * 100).
  { change (inject_Z 1 * pow2 (-20)) with (1 # 1048576). lra. }
  pose proof (rnd_q_mono _ _ L2) as M2.
  pose proof (representable_dyadic 1 (-20) ltac:(reflexivity) ltac:(lia)) as R2.
  unfold representable in R2. rewrite R2 in M2.
  change (inject_Z 1 * pow2 (-20)) with (1 # 1048576) in M2.
  destruct (Qceiling_bounds (rnd_q (c * 100))) as [_ Cb].
  assert (0 < inject_Z (Qceiling (rnd_q (c * 100)))) by lra.
  change 0 with (inject_Z 0) in H. rewrite <- Zlt_Qlt in H. lia.
Qed.

(** The ratio before the sparse-data substitution, on counts. *)
Lemma primaryRadio_value y x m n :
  (0 <= y < 2 ^ 24)%Z -> (0 <= x < 2 ^ 24)%Z -> (0 <= m < 2 ^ 24)%Z -> (0 <= n < 2 ^ 24)%Z ->
  (0 < m + n)%Z -> (0 < y + x)%Z ->
  Calculator.primaryRadio (int y) (int x) (int m) (int n)
  = int (ratioOf (x + weekendShare y m n) (y + x)).
Proof.
  intros Hy Hx Hm Hn Hs Ht. unfold Calculator.primaryRadio.
  rewrite overTimeAmendCount_value by assumption.
  pose proof (weekendShare_bounds y m n ltac:(lia) ltac:(lia) ltac:(lia) Hs) as Hk.
  change (2 ^ 24)%Z with 16777216%Z in *.
  rewrite add_int by (change (2 ^ 53)%Z with 9007199254740992%Z; lia).
  apply ratio_value; lia.
Qed.

(** Without any commit on the week axis, or without any on the hour axis,
    the ratio is NaN. *)
Lemma primaryRadio_NaN y x m n :
  (0 <= y < 2 ^ 24)%Z -> (0 <= x < 2 ^ 24)%Z -> (0 <= m < 2 ^ 24)%Z -> (0 <= n < 2 ^ 24)%Z ->
  (m + n = 0 \/ y + x = 0)%Z ->
  Calculator.primaryRadio (int y) (int x) (int m) (int n) = NaN.
Proof.
  intros Hy Hx Hm Hn H. unfold Calculator.primaryRadio.
  destruct (Z.eq_dec (m + n) 0) as [Es|Ns].
  - assert (m = 0%Z) by lia. assert (n = 0%Z) by lia. subst m n.
    rewrite mul_int by (rewrite Z.mul_0_r; reflexivity).
    rewrite Z.mul_0_r. reflexivity.
  - destruct H as [H|H]; [contradiction|].
    assert (y = 0%Z) by lia. assert (x = 0%Z) by lia. subst y x.
    rewrite overTimeAmendCount_value by (try assumption; lia).
    pose proof (weekendShare_bounds 0 m n ltac:(lia) ltac:(lia) ltac:(lia) ltac:(lia)) as Hk.
    replace (0 + weekendShare 0 m n)%Z with 0%Z by lia.
    reflexivity.
Qed.

(** The substituted ratio is a negative integer. *)
Lemma getUn996Radio_negative hourData t :
  (1 <= t < 2 ^ 25)%Z -> (List.length hourData < 9)%nat ->
  exists u, Calculator.getUn996Radio hourData (int t) = int u /\ (-100 <= u <= -6)%Z.
Proof.
  intros Ht Hl. unfold Calculator.getUn996Radio.
  change (2 ^ 25)%Z with 33554432%Z in Ht.
  set (l := Z.of_nat (List.length hourData)).
  assert (Hl' : (0 <= l <= 8)%Z) by (unfold l; lia).
  pose proof (inject_Z_pos t ltac:(lia)) as Pt.
  assert (Bt : inject_Z t <= 33554432).
  { change 33554432 with (inject_Z 33554432). rewrite <- Zle_Qle. lia. }
  pose proof pow2_1024_big as Big. change (inject_Z (2 ^ 53)) with 9007199254740992 in Big.
  destruct (Z.eq_dec l 0) as [E0|N0].
  - rewrite E0. exists (-100)%Z. split; [|lia].
    change (int t) with (Fin (inject_Z t)).
    rewrite (div_pos_zero (inject_Z t) Pt). reflexivity.
  - assert (Pl : 0 < inject_Z l) by (apply inject_Z_pos; lia).
    assert (Bl : inject_Z l <= 8).
    { change 8 with (inject_Z 8). rewrite <- Zle_Qle. lia. }
    rewrite div_int by exact N0.
    (* average >= t / 8 *)
    assert (A1 : inject_Z t * pow2 (-3) <= inject_Z t / inject_Z l).
    { change (pow2 (-3)) with (1 # 8). apply Qle_shift_div_l; [exact Pl|]. nra. }
    assert (A2 : inject_Z t / inject_Z l <= inject_Z t).
    { apply Qle_shift_div_r; [exact Pl|].
      assert (1 <= inject_Z l) by (change 1 with (inject_Z 1); rewrite <- Zle_Qle; lia).
      nra. }
    destruct (rnd_q_between (inject_Z t / inject_Z l) _ _
                (representable_dyadic t (-3)
                   ltac:(change (2 ^ 53)%Z with 9007199254740992%Z; lia) ltac:(lia))
                (representable_Z t ltac:(change (2 ^ 53)%Z with 9007199254740992%Z; lia))
                A1 A2) as [B1 B2].
    change (pow2 (-3)) with (1 # 8) in B1.
    set (a := rnd_q (inject_Z t / inject_Z l)) in *.
    rewrite rnd_fin by (fold a; lra). fold a.
    change (mul (Fin a) (int 9)) with (rnd (a * 9)).
    assert (M1 : inject_Z (9 * t) * pow2 (-3) <= a * 9).
    { rewrite inject_Z_mult. change (inject_Z 9) with 9. change (pow2 (-3)) with (1 # 8). lra. }
    assert (M2 : a * 9 <= inject_Z (9 * t)).
    { rewrite inject_Z_mult. change (inject_Z 9) with 9. lra. }
    destruct (rnd_q_between (a * 9) _ _
                (representable_dyadic (9 * t) (-3)
                   ltac:(change (2 ^ 53)%Z with 9007199254740992%Z; lia) ltac:(lia))
                (representable_Z (9 * t) ltac:(change (2 ^ 53)%Z with 9007199254740992%Z; lia))
                M1 M2) as [C1 C2].
    rewrite inject_Z_mult in C1, C2. change (inject_Z 9) with 9 in C1, C2.
    change (pow2 (-3)) with (1 # 8) in C1.
    set (b := rnd_q (a * 9)) in *.
    rewrite rnd_fin by (fold b; lra). fold b.
    assert (Pb : 0 < b) by lra.
    change (int t) with (Fin (inject_Z t)).
    rewrite div_fin by lra.
    assert (D1 : 0 <= inject_Z t / b).
    { apply Qle_shift_div_l; [exact Pb|]. lra. }
    assert (D2 : inject_Z t / b <= inject_Z 15 * pow2 (-4)).
    { change (inject_Z 15 * pow2 (-4)) with (15 # 16).
      apply Qle_shift_div_r; [exact Pb|]. lra. }
    destruct (rnd_q_between (inject_Z t / b) 0 _
                (representable_Z 0 ltac:(reflexivity))
                (representable_dyadic 15 (-4) ltac:(reflexivity) ltac:(lia))
                D1 D2) as [E1 E2].
    change (inject_Z 15 * pow2 (-4)) with (15 # 16) in E2.
    set (c := rnd_q (inject_Z t / b)) in *.
    rewrite rnd_fin by (fold c; lra). fold c.
    change (mul (Fin c) (int 100)) with (rnd (c * 100)).
    assert (V1 : inject_Z 0 <= c * 100) by (change (inject_Z 0) with 0; lra).
    assert (V2 : c * 100 <= inject_Z 375 * pow2 (-2)).
    { change (inject_Z 375 * pow2 (-2)) with (375 # 4). lra. }
    destruct (rnd_q_between (c * 100) _ _
                (representable_Z 0 ltac:(reflexivity))
                (representable_dyadic 375 (-2) ltac:(reflexivity) ltac:(lia))
                V1 V2) as [W1 W2].
    change (inject_Z 0) with 0 in W1.
    change (inject_Z 375 * pow2 (-2)) with (375 # 4) in W2.
    set (v := rnd_q (c * 100)) in *.
    rewrite rnd_fin by (fold v; lra). fold v.
    unfold Math_ceil.
    assert (Hc : (0 <= Qceiling v <= 94)%Z).
    { split.
      - rewrite <- (Qceiling_Z 0). apply Qceiling_resp_le. exact W1.
      - destruct (Qceiling_bounds v) as [Cl _].
        assert (inject_Z (Qceiling v) < inject_Z 95) by (change (inject_Z 95) with 95; lra).
        rewrite <- Zlt_Qlt in H. lia. }
    exists (Qceiling v - 100)%Z. split; [|lia].
    apply sub_int. change (2 ^ 53)%Z with 9007199254740992%Z. lia.
Qed.

End IndexRatio.

Section IndexTheorems.
Open Scope Z_scope.

Lemma strict_eq_zero_is_number p : strict_eq p (int 0) = true -> p <> NaN.
Proof. intros H E. subst p. discriminate. Qed.

Lemma calculate996Index_fields y x m n hourData :
  let r := Calculator.calculate996Index (workTimeData y x m n hourData) in
  let p := Calculator.primaryRadio (int y) (int x) (int m) (int n) in
  overTimeRadio r
  = (if strict_eq p (int 0) && (List.length hourData <? 9)%nat
     then Calculator.getUn996Radio hourData (add (int y) (int x)) else p)
  /\ index996 r = mul (overTimeRadio r) (int 3).
Proof. split; reflexivity. Qed.

(** The test of the code: the substitution takes place exactly when the
    primary ratio is 0 and the array [hourData] has fewer than 9 entries
    (its length, whatever the counts in it); the substituted ratio is
    [getUn996Radio], a negative integer between -100 and -6, and it goes
    into the result and into the index (three times the ratio) with its
    sign; otherwise the primary ratio is the result. *)
Lemma calculate996Index_sparse_substitution
    (y x m n : Z) (hourData : list TimeCount) :
  0 <= y < 2 ^ 24 -> 0 <= x < 2 ^ 24 -> 0 <= m < 2 ^ 24 -> 0 <= n < 2 ^ 24 ->
  let r := Calculator.calculate996Index (workTimeData y x m n hourData) in
  let p := Calculator.primaryRadio (int y) (int x) (int m) (int n) in
  if strict_eq p (int 0) && (List.length hourData <? 9)%nat
  then exists u,
         overTimeRadio r = Calculator.getUn996Radio hourData (int (y + x))
         /\ overTimeRadio r = int u
         /\ -100 <= u <= -6
         /\ index996 r = int (3 * u)
  else overTimeRadio r = p.
Proof.
  intros Hy Hx Hm Hn. cbv zeta.
  destruct (calculate996Index_fields y x m n hourData) as [Er Ei]. cbv zeta in Er, Ei.
  rewrite Ei, Er.
  destruct (strict_eq _ (int 0) && (List.length hourData <? 9)%nat)%bool eqn:C;
    [|reflexivity].
  apply andb_true_iff in C. destruct C as [C1 C2].
  apply Nat.ltb_lt in C2.
  assert (Hs : 0 < m + n /\ 0 < y + x).
  { destruct (Z_lt_le_dec 0 (m + n)) as [A|A]; destruct (Z_lt_le_dec 0 (y + x)) as [B|B];
      try (split; assumption); exfalso; apply (strict_eq_zero_is_number _ C1);
      apply primaryRadio_NaN; try assumption; lia. }
  change (2 ^ 24) with 16777216 in *.
  rewrite add_int by (change (2 ^ 53) with 9007199254740992; lia).
  destruct (getUn996Radio_negative hourData (y + x)) as (u & Eu & Bu);
    [change (2 ^ 25) with 33554432; lia | exact C2 |].
  exists u. rewrite Eu. split; [reflexivity|]. split; [reflexivity|]. split; [lia|].
  rewrite mul_int by (change (2 ^ 53) with 9007199254740992; lia).
  rewrite Z.mul_comm. reflexivity.
Qed.

(** Thirty commits in normal hours spread over three entries of
    [hourData]: the ratio is -66 and the index -198. *)
Lemma calculate996Index_sparse_substitution_witness :
  let hourData := map (fun c => {| time := "10"; count := int c |}) [10; 10; 10] in
  let r := Calculator.calculate996Index (workTimeData 30 0 30 0 hourData) in
  exists u,
    overTimeRadio r = Calculator.getUn996Radio hourData (int 30)
    /\ overTimeRadio r = int u
    /\ -100 <= u <= -6
    /\ index996 r = int (3 * u).
Proof.
  intros hourData.
  apply (calculate996Index_sparse_substitution 30 0 30 0 hourData);
    (split; [discriminate | reflexivity]).
Defined.

(** The substituted ratio for 30 commits and 0 to 8 entries. *)
Lemma getUn996Radio_values :
  map (fun l => Calculator.getUn996Radio
                  (repeat {| time := "10"; count := int 1 |} l) (int 30))
      (seq 0 9)
  = map int [-100; -88; -77; -66; -55; -44; -33; -22; -11].
Proof. vm_compute. reflexivity. Qed.

(** An array of 9 entries or more is never substituted for, whatever the
    counts in it: the primary ratio is the result. *)
Lemma calculate996Index_full_day_not_substituted y x m n hourData :
  (9 <= List.length hourData)%nat ->
  overTimeRadio (Calculator.calculate996Index (workTimeData y x m n hourData))
  = Calculator.primaryRadio (int y) (int x) (int m) (int n).
Proof.
  intros H. destruct (calculate996Index_fields y x m n hourData) as [Er _].
  cbv zeta in Er. rewrite Er.
  destruct (Nat.ltb_spec (List.length hourData) 9) as [L|L]; [lia|].
  rewrite andb_false_r. reflexivity.
Qed.

(** C2: the hour histogram of a project whose 30 commits all fall in the
    three hour-buckets 09, 10 and 11 of workdays, zero-filled to 24 entries
    as the collectors build it.  Three buckets have activity, fewer than 9,
    and the primary ratio is 0, so the specification has the under-saturation
    ratio substituted: with 10 commits per active hour and a synthetic
    9-hour total of 90 it is ceil(30 / 90 * 100) - 100 = -66.  The code tests
    the length of the array, 24, substitutes nothing, and answers ratio 0
    and index 0. *)
Theorem calculate996Index_zero_filled_not_substituted :
  let hourData :=
    map (fun '(h, c) => {| time := h; count := int c |})
        [("00", 0); ("01", 0); ("02", 0); ("03", 0); ("04", 0); ("05", 0);
         ("06", 0); ("07", 0); ("08", 0); ("09", 10); ("10", 10); ("11", 10);
         ("12", 0); ("13", 0); ("14", 0); ("15", 0); ("16", 0); ("17", 0);
         ("18", 0); ("19", 0); ("20", 0); ("21", 0); ("22", 0); ("23", 0)]%string in
  let r := Calculator.calculate996Index (workTimeData 30 0 30 0 hourData) in
  List.length hourData = 24%nat
  /\ activeBuckets hourData = 3%nat
  /\ Calculator.primaryRadio (int 30) (int 0) (int 30) (int 0) = int 0
  /\ spec_unsaturated_ratio 30 (activeBuckets hourData) = -66
  /\ overTimeRadio r = int 0
  /\ index996 r = int 0.
Proof. repeat split; vm_compute; reflexivity. Qed.

Lemma index_of_counts y x m n hourData :
  0 <= y < 2 ^ 24 -> 0 <= x < 2 ^ 24 -> 0 <= m < 2 ^ 24 -> 0 <= n < 2 ^ 24 ->
  0 < m + n -> 0 < y + x ->
  exists r,
    index996 (Calculator.calculate996Index (workTimeData y x m n hourData)) = int (3 * r)
    /\ (if x + weekendShare y m n =? 0 then -100 <= r <= 0
        else r = ratioOf (x + weekendShare y m n) (y + x) /\ 1 <= r).
Proof.
  intros Hy Hx Hm Hn Hs Ht.
  destruct (calculate996Index_fields y x m n hourData) as [Er Ei]. cbv zeta in Er, Ei.
  rewrite Ei, Er. clear Er Ei.
  rewrite primaryRadio_value by assumption.
  pose proof (weekendShare_bounds y m n ltac:(lia) ltac:(lia) ltac:(lia) Hs) as Hk.
  set (k := weekendShare y m n) in *.
  rewrite strict_eq_int.
  change (2 ^ 24) with 16777216 in *.
  destruct (Z.eqb_spec (x + k) 0) as [A0|A1].
  - rewrite A0, ratioOf_0 by lia. cbn [Z.eqb andb].
    destruct (Nat.ltb_spec (List.length hourData) 9) as [L|L].
    + rewrite add_int by (change (2 ^ 53) with 9007199254740992; lia).
      destruct (getUn996Radio_negative hourData (y + x)) as (u & Eu & Bu);
        [change (2 ^ 25) with 33554432; lia | exact L |].
      exists u. rewrite Eu.
      rewrite mul_int by (change (2 ^ 53) with 9007199254740992; lia).
      rewrite Z.mul_comm. split; [reflexivity | lia].
    + exists 0. split; [vm_compute; reflexivity | lia].
  - assert (P : 1 <= ratioOf (x + k) (y + x)).
    { apply ratioOf_pos; [lia|]. change (2 ^ 26) with 67108864. lia. }
    destruct (ratio_value (x + k) (y + x) ltac:(lia) ltac:(lia)) as [_ B].
    destruct (Z.eqb_spec (ratioOf (x + k) (y + x)) 0) as [E|_]; [lia|].
    cbn [andb].
    exists (ratioOf (x + k) (y + x)).
    rewrite mul_int by (change (2 ^ 53) with 9007199254740992; lia).
    rewrite Z.mul_comm. split; [reflexivity | split; [reflexivity | exact P]].
Qed.

Lemma index_without_commits y x m n hourData :
  0 <= y < 2 ^ 24 -> 0 <= x < 2 ^ 24 -> 0 <= m < 2 ^ 24 -> 0 <= n < 2 ^ 24 ->
  m + n = 0 \/ y + x = 0 ->
  index996 (Calculator.calculate996Index (workTimeData y x m n hourData)) = NaN.
Proof.
  intros Hy Hx Hm Hn H.
  destruct (calculate996Index_fields y x m n hourData) as [Er Ei]. cbv zeta in Er, Ei.
  rewrite Ei, Er. rewrite primaryRadio_NaN by assumption. reflexivity.
Qed.

(** C9: with the normal-hour count [y] and the weekday and weekend counts
    [m] and [n] fixed, more overtime-hour commits never lower the index:
    the index for [x2 >= x1] is not below the index for [x1], and it is at
    least that index whenever the latter is a number (it is NaN when there
    is no commit on one of the two axes).  The step from the substituted
    negative ratio to the primary ratio is included, and when [x2] is
    strictly larger the hour data of the two calls may differ. *)
Theorem index996_monotone_in_overtime
    (y m n x1 x2 : Z) (hourData1 hourData2 : list TimeCount) :
  0 <= y < 2 ^ 24 -> 0 <= m < 2 ^ 24 -> 0 <= n < 2 ^ 24 ->
  0 <= x1 -> x1 <= x2 -> x2 < 2 ^ 24 ->
  (x1 = x2 -> hourData1 = hourData2) ->
  let i1 := index996 (Calculator.calculate996Index (workTimeData y x1 m n hourData1)) in
  let i2 := index996 (Calculator.calculate996Index (workTimeData y x2 m n hourData2)) in
  lt i2 i1 = false /\ (le i1 i2 = true \/ i1 = NaN).
Proof.
  intros Hy Hm Hn H1 H12 H2 Hh. cbv zeta.
  assert (Hx1 : 0 <= x1 < 2 ^ 24) by lia.
  assert (Hx2 : 0 <= x2 < 2 ^ 24) by lia.
  destruct (Z_lt_le_dec 0 (m + n)) as [Hs|Hs];
    [|rewrite (index_without_commits y x1) by (try assumption; lia);
      split; [apply lt_NaN_r | right; reflexivity]].
  destruct (Z_lt_le_dec 0 (y + x1)) as [Ht|Ht];
    [|rewrite (index_without_commits y x1) by (try assumption; lia);
      split; [apply lt_NaN_r | right; reflexivity]].
  destruct (Z.eq_dec x1 x2) as [E|N].
  - rewrite <- (Hh E). subst x2.
    destruct (index_of_counts y x1 m n hourData1 Hy Hx1 Hm Hn Hs Ht) as (r & Er & _).
    rewrite Er, lt_int, le_int.
    split; [apply Z.ltb_irrefl | left; apply Z.leb_refl].
  - destruct (index_of_counts y x1 m n hourData1 Hy Hx1 Hm Hn Hs Ht) as (r1 & E1 & P1).
    destruct (index_of_counts y x2 m n hourData2 Hy Hx2 Hm Hn Hs ltac:(lia)) as (r2 & E2 & P2).
    rewrite E1, E2, lt_int, le_int.
    pose proof (weekendShare_bounds y m n ltac:(lia) ltac:(lia) ltac:(lia) Hs) as Hk.
    set (k := weekendShare y m n) in *.
    assert (R : r1 <= r2).
    { destruct (Z.eqb_spec (x2 + k) 0) as [A2|A2]; [lia|].
      destruct P2 as [P2 Q2].
      destruct (Z.eqb_spec (x1 + k) 0) as [A1|A1]; [lia|].
      destruct P1 as [P1 Q1]. subst r1 r2.
      apply ratioOf_mono; [lia | lia | nia]. }
    split; [apply Z.ltb_ge; lia | left; apply Z.leb_le; lia].
Qed.

(** With 100 commits in normal hours on 100 workdays: no overtime commit
    and 3 entries of hour data give index -198, five overtime commits give
    index 15. *)
Lemma index996_monotone_in_overtime_witness :
  let hourData1 := map (fun c => {| time := "10"; count := int c |}) [40; 30; 30] in
  let hourData2 := map (fun c => {| time := "10"; count := int c |}) [40; 30; 30; 5] in
  let i1 := index996 (Calculator.calculate996Index (workTimeData 100 0 100 0 hourData1)) in
  let i2 := index996 (Calculator.calculate996Index (workTimeData 100 5 100 0 hourData2)) in
  lt i2 i1 = false /\ (le i1 i2 = true \/ i1 = NaN).
Proof.
  intros hourData1 hourData2.
  apply (index996_monotone_in_overtime 100 100 0 0 5 hourData1 hourData2);
    first [split; [discriminate | reflexivity] | discriminate | reflexivity].
Defined.

Lemma index996_across_the_switch :
  let hourData := map (fun c => {| time := "10"; count := int c |}) [40; 30; 30] in
  map (fun x => index996 (Calculator.calculate996Index (workTimeData 100 x 100 0 hourData)))
      [0; 1; 5; 50]
  = map int [-198; 3; 15; 102].
Proof. vm_compute. reflexivity. Qed.

End IndexTheorems.

(** ** The index on counts: value, range and description *)

Section UnderSaturation.
Open Scope Q_scope.

(** Relative error of one rounding, away from the subnormal range. *)
Lemma rnd_q_near q : (1 # 1024) <= q ->
  q * (999999 # 1000000) <= rnd_q q /\ rnd_q q <= q * (1000001 # 1000000).
Proof.
  intros H. assert (P : 0 < q) by lra.
  destruct (rnd_q_err q) as [E1 E2].
  destruct (ilog2_spec q P) as [I1 _].
  assert (G : (-10 <= ilog2 q)%Z).
  { apply ilog2_ge; [exact P|]. change (pow2 (-10)) with (1 # 1024). exact H. }
  destruct (ulp_exp_bounds q P) as (U1 & U2 & U3).
  assert (U : ulp_exp q = (ilog2 q + -52)%Z) by lia.
  assert (PE : pow2 (ulp_exp q) <= q * (1 # 4503599627370496)).
  { rewrite U, pow2_add. change (pow2 (-52)) with (1 # 4503599627370496). nra. }
  split; lra.
Qed.

Lemma Qceiling_unique v k : inject_Z k - 1 < v -> v <= inject_Z k -> Qceiling v = k.
Proof.
  intros L U. destruct (Qceiling_bounds v) as [C1 C2].
  assert (A : inject_Z (Qceiling v) < inject_Z (k + 1)) by (rewrite inject_Z_plus; change (inject_Z 1) with 1; lra).
  assert (B : inject_Z k < inject_Z (Qceiling v + 1)) by (rewrite inject_Z_plus; change (inject_Z 1) with 1; lra).
  rewrite <- Zlt_Qlt in A, B. lia.
Qed.

Ltac under_saturation_case L :=
  let K := eval cbv in ((100 * L + 8) / 9)%Z in
  let inv := eval cbv in (/ inject_Z L) in
  match goal with
  | Lt : 1 <= inject_Z ?t, Bt : inject_Z ?t <= 33554432, Big : _ < pow2 1024 |- _ =>
      rewrite (div_int t L) by discriminate;
      assert (Q1 : inject_Z t / inject_Z L == inject_Z t * inv) by reflexivity;
      set (q1 := inject_Z t / inject_Z L) in *;
      destruct (rnd_q_near q1 ltac:(lra)) as [A1 A2];
      set (a := rnd_q q1) in *;
      rewrite (rnd_fin q1) by (fold a; lra); fold a;
      change (mul (Fin a) (int 9)) with (rnd (a * 9));
      destruct (rnd_q_near (a * 9) ltac:(lra)) as [B1 B2];
      set (b := rnd_q (a * 9)) in *;
      rewrite (rnd_fin (a * 9)) by (fold b; lra); fold b;
      assert (Pb : 0 < b) by lra;
      change (int t) with (Fin (inject_Z t));
      rewrite (div_fin (inject_Z t) b) by lra;
      assert (D1 : (L # 9) * (999997 # 1000000) <= inject_Z t / b)
        by (apply Qle_shift_div_l; [exact Pb | lra]);
      assert (D2 : inject_Z t / b <= (L # 9) * (1000003 # 1000000))
        by (apply Qle_shift_div_r; [exact Pb | lra]);
      set (q3 := inject_Z t / b) in *;
      destruct (rnd_q_near q3 ltac:(lra)) as [C1 C2];
      set (c := rnd_q q3) in *;
      rewrite (rnd_fin q3) by (fold c; lra); fold c;
      change (mul (Fin c) (int 100)) with (rnd (c * 100));
      destruct (rnd_q_near (c * 100) ltac:(lra)) as [V1 V2];
      set (v := rnd_q (c * 100)) in *;
      rewrite (rnd_fin (c * 100)) by (fold v; lra); fold v;
      unfold Math_ceil;
      rewrite (Qceiling_unique v K)
        by (unfold inject_Z; lra);
      reflexivity
  end.

(** The substituted ratio in closed form: it is ceil(100 * l / 9) - 100
    for [l] entries, whatever the number of commits. *)
Lemma getUn996Radio_value hourData t :
  (1 <= t < 2 ^ 25)%Z -> (List.length hourData < 9)%nat ->
  Calculator.getUn996Radio hourData (int t)
  = int (unsaturatedRatio (Z.of_nat (List.length hourData))).
Proof.
  intros Ht Hl. unfold Calculator.getUn996Radio.
  change (2 ^ 25)%Z with 33554432%Z in Ht.
  pose proof (inject_Z_pos t ltac:(lia)) as Pt.
  assert (Bt : inject_Z t <= 33554432).
  { change 33554432 with (inject_Z 33554432). rewrite <- Zle_Qle. lia. }
  pose proof pow2_1024_big as Big. change (inject_Z (2 ^ 53)) with 9007199254740992 in Big.
  assert (Lt : 1 <= inject_Z t).
  { change 1 with (inject_Z 1). rewrite <- Zle_Qle. lia. }
  remember (Z.of_nat (List.length hourData)) as l eqn:El.
  assert (Hc : (l = 0 \/ l = 1 \/ l = 2 \/ l = 3 \/ l = 4 \/ l = 5 \/ l = 6 \/ l = 7 \/ l = 8)%Z)
    by lia.
  clear El Hl.
  destruct Hc as [E|[E|[E|[E|[E|[E|[E|[E|E]]]]]]]]; subst l.
  - change (int t) with (Fin (inject_Z t)).
    rewrite (div_pos_zero (inject_Z t) Pt). reflexivity.
  - clear Pt. under_saturation_case 1%Z.
  - clear Pt. under_saturation_case 2%Z.
  - clear Pt. under_saturation_case 3%Z.
  - clear Pt. under_saturation_case 4%Z.
  - clear Pt. under_saturation_case 5%Z.
  - clear Pt. under_saturation_case 6%Z.
  - clear Pt. under_saturation_case 7%Z.
  - clear Pt. under_saturation_case 8%Z.
Qed.

End UnderSaturation.

Section IndexOnCountsValue.
Open Scope Z_scope.

Lemma generateDescription_int z :
  Calculator.generateDescription (int z)
  = if z <=? 0 then VeryHealthy
    else if z <=? 21 then Healthy
    else if z <=? 48 then Acceptable
    else if z <=? 63 then Poor
    else if z <=? 100 then VeryPoor
    else if z <=? 130 then Severe
    else Extreme.
Proof. unfold Calculator.generateDescription. rewrite !le_int. reflexivity. Qed.

Lemma description_of_index p :
  Calculator.generateDescription (int (3 * p)) = descriptionOfRatio p.
Proof.
  rewrite generateDescription_int. unfold descriptionOfRatio.
  repeat match goal with
         | |- context [Z.leb ?a ?b] => destruct (Z.leb_spec a b)
         end; try reflexivity; lia.
Qed.

Lemma unsaturatedRatio_range l : 0 <= l <= 8 -> -100 <= unsaturatedRatio l <= -11.
Proof.
  intros H. unfold unsaturatedRatio.
  pose proof (Z.div_mod (100 * l + 8) 9 ltac:(discriminate)) as E.
  pose proof (Z.mod_pos_bound (100 * l + 8) 9 ltac:(reflexivity)) as B.
  lia.
Qed.

(** X1: on commit counts with at least one commit on each axis, the ratio
    that [calculate996Index] returns is an integer between -100 and 100:
    ceil(100 * l / 9) - 100 when the corrected overtime count is 0 and
    [hourData] has [l < 9] entries, and otherwise the percentage of the
    corrected overtime count; the index is three times the ratio, and the
    description follows the ratio bands <= 0, 1-7, 8-16, 17-21, 22-33,
    34-43 and >= 44. *)
Theorem calculate996Index_on_counts (y x m n : Z) (hourData : list TimeCount) :
  0 <= y < 2 ^ 24 -> 0 <= x < 2 ^ 24 -> 0 <= m < 2 ^ 24 -> 0 <= n < 2 ^ 24 ->
  0 < m + n -> 0 < y + x ->
  let r := Calculator.calculate996Index (workTimeData y x m n hourData) in
  let a := x + weekendShare y m n in
  let p := if (a =? 0) && (List.length hourData <? 9)%nat
           then unsaturatedRatio (Z.of_nat (List.length hourData))
           else ratioOf a (y + x) in
  overTimeRadio r = int p
  /\ index996 r = int (3 * p)
  /\ -100 <= p <= 100
  /\ index996Str r = descriptionOfRatio p.
Proof.
  intros Hy Hx Hm Hn Hs Ht. cbv zeta.
  assert (Es : index996Str (Calculator.calculate996Index (workTimeData y x m n hourData))
               = Calculator.generateDescription
                   (index996 (Calculator.calculate996Index (workTimeData y x m n hourData))))
    by reflexivity.
  rewrite Es. clear Es.
  destruct (calculate996Index_fields y x m n hourData) as [Er Ei]. cbv zeta in Er, Ei.
  rewrite Ei, Er. clear Er Ei.
  rewrite primaryRadio_value by assumption.
  pose proof (weekendShare_bounds y m n ltac:(lia) ltac:(lia) ltac:(lia) Hs) as Hk.
  set (k := weekendShare y m n) in *.
  rewrite strict_eq_int.
  change (2 ^ 24) with 16777216 in *.
  assert (V : forall p, -100 <= p <= 100 ->
              int p = int p /\ mul (int p) (int 3) = int (3 * p) /\ -100 <= p <= 100
              /\ Calculator.generateDescription (mul (int p) (int 3)) = descriptionOfRatio p).
  { intros p Hp.
    assert (E : mul (int p) (int 3) = int (3 * p)).
    { rewrite mul_int by (change (2 ^ 53) with 9007199254740992; lia).
      rewrite Z.mul_comm. reflexivity. }
    rewrite E. repeat split; try lia. apply description_of_index. }
  destruct (Z.eqb_spec (x + k) 0) as [A0|A1].
  - rewrite A0, ratioOf_0 by lia. cbn [Z.eqb andb].
    destruct (Nat.ltb_spec (List.length hourData) 9) as [L|L].
    + rewrite add_int by (change (2 ^ 53) with 9007199254740992; lia).
      rewrite getUn996Radio_value by (change (2 ^ 25) with 33554432; lia).
      apply V.
      pose proof (unsaturatedRatio_range (Z.of_nat (List.length hourData)) ltac:(lia)). lia.
    + apply V. lia.
  - assert (P : 1 <= ratioOf (x + k) (y + x)).
    { apply ratioOf_pos; [lia|]. change (2 ^ 26) with 67108864. lia. }
    destruct (ratio_value (x + k) (y + x) ltac:(lia) ltac:(lia)) as [_ B].
    destruct (Z.eqb_spec (ratioOf (x + k) (y + x)) 0) as [E|_]; [lia|].
    cbn [andb]. apply V. lia.
Qed.

(** A hundred commits in normal hours on workdays and three entries of
    hour data: ratio ceil(300 / 9) - 100 = -66, index -198. *)
Lemma calculate996Index_on_counts_witness :
  let hourData := map (fun c => {| time := "10"; count := int c |}) [40; 30; 30] in
  let r := Calculator.calculate996Index (workTimeData 100 0 100 0 hourData) in
  overTimeRadio r = int (-66)
  /\ index996 r = int (3 * -66)
  /\ -100 <= -66 <= 100
  /\ index996Str r = descriptionOfRatio (-66).
Proof.
  intros hourData.
  apply (calculate996Index_on_counts 100 0 100 0 hourData);
    first [split; [discriminate | reflexivity] | reflexivity].
Defined.

Lemma le_trans_num a b c : le a b = true -> le b c = true -> le a c = true.
Proof.
  destruct a as [| | |p], b as [| | |q], c as [| | |r]; simpl;
    try discriminate; try reflexivity.
  intros H1 H2. apply Qle_bool_iff in H1. apply Qle_bool_iff in H2.
  apply Qle_bool_iff. apply (Qle_trans _ q); assumption.
Qed.

(** X2: the descriptions are ordered like the index: between two numbers
    [a <= b] (the infinities included) the description of [b] is at least
    as severe as the description of [a]. *)
Theorem generateDescription_monotone (a b : num) :
  le a b = true ->
  severity (Calculator.generateDescription a) <= severity (Calculator.generateDescription b).
Proof.
  intros H.
  assert (T : forall k, le b (int k) = true -> le a (int k) = true)
    by (intros k Hk; apply (le_trans_num a b (int k)); assumption).
  pose proof (T 0) as T0. pose proof (T 21) as T21. pose proof (T 48) as T48.
  pose proof (T 63) as T63. pose proof (T 100) as T100. pose proof (T 130) as T130.
  clear T. unfold Calculator.generateDescription.
  repeat match goal with
         | |- context [if le ?x ?k then _ else _] => destruct (le x k) eqn:?
         end; cbn [severity]; first [lia | exfalso; intuition congruence].
Qed.

Lemma generateDescription_monotone_witness :
  severity (Calculator.generateDescription (int 10))
  <= severity (Calculator.generateDescription (int 50)).
Proof. apply (generateDescription_monotone (int 10) (int 50)). reflexivity. Defined.

End IndexOnCountsValue.

(** ** Work-time detection: confidence, standard shift, quantiles *)

Section DetectionConfidence.
Open Scope Q_scope.

Lemma confidence_quotient n : (1 <= n)%Z ->
  0 <= inject_Z (90 * n) / inject_Z (n + 50) /\ inject_Z (90 * n) / inject_Z (n + 50) <= 90.
Proof.
  intros H. pose proof (inject_Z_pos (n + 50) ltac:(lia)) as P. split.
  - apply Qle_shift_div_l; [exact P|]. rewrite Qmult_0_l. apply inject_Z_nonneg. lia.
  - apply Qle_shift_div_r; [exact P|].
    change 90 with (inject_Z 90). rewrite <- inject_Z_mult, <- Zle_Qle. lia.
Qed.

Lemma estimateConfidence_int n :
  (0 <= n < 2 ^ 40)%Z ->
  WorkTimeAnalyzer.estimateConfidence (int n) = int (confidenceOf n).
Proof.
  intros H. unfold WorkTimeAnalyzer.estimateConfidence, confidenceOf.
  rewrite le_int. destruct (Z.leb_spec n 0) as [L|L]; [reflexivity|].
  change (2 ^ 40)%Z with 1099511627776%Z in H.
  rewrite mul_int by (change (2 ^ 53)%Z with 9007199254740992%Z; lia).
  rewrite add_int by (change (2 ^ 53)%Z with 9007199254740992%Z; lia).
  rewrite div_int by lia.
  destruct (confidence_quotient n ltac:(lia)) as [Q0 Q1].
  destruct (rnd_fin_between _ 0 90 ltac:(reflexivity) ltac:(reflexivity) Q0 Q1) as (E & _ & _).
  rewrite E. reflexivity.
Qed.

Lemma confidenceOf_mono n1 n2 : (1 <= n1 <= n2)%Z -> (confidenceOf n1 <= confidenceOf n2)%Z.
Proof.
  intros H. unfold confidenceOf.
  destruct (Z.leb_spec n1 0) as [L1|L1]; [lia|].
  destruct (Z.leb_spec n2 0) as [L2|L2]; [lia|].
  apply Qfloor_resp_le. apply Qplus_le_compat; [|apply Qle_refl].
  apply rnd_q_mono.
  pose proof (inject_Z_pos (n1 + 50) ltac:(lia)) as P1.
  pose proof (inject_Z_pos (n2 + 50) ltac:(lia)) as P2.
  apply Qle_shift_div_l; [exact P2|].
  assert (E : inject_Z (90 * n1) / inject_Z (n1 + 50) * inject_Z (n2 + 50)
              == inject_Z (90 * n1) * inject_Z (n2 + 50) / inject_Z (n1 + 50)) by (field; lra).
  rewrite E. apply Qle_shift_div_r; [exact P1|].
  rewrite <- !inject_Z_mult, <- Zle_Qle. nia.
Qed.

Lemma confidenceOf_le_90 n : (confidenceOf n <= 90)%Z.
Proof.
  unfold confidenceOf. destruct (Z.leb_spec n 0) as [L|L]; [lia|].
  destruct (confidence_quotient n ltac:(lia)) as [Q0 Q1].
  destruct (rnd_q_between _ 0 90 (representable_Z 0 ltac:(reflexivity))
              (representable_Z 90 ltac:(reflexivity)) Q0 Q1) as [_ V].
  change (inject_Z 90) with 90 in V.
  set (v := rnd_q _) in *.
  destruct (Qfloor_bounds (v + (1 # 2))) as [F _].
  assert (A : inject_Z (Qfloor (v + (1 # 2))) < inject_Z 91) by (change (inject_Z 91) with 91; lra).
  rewrite <- Zlt_Qlt in A. lia.
Qed.

Lemma confidenceOf_values :
  confidenceOf 1 = 2%Z /\ confidenceOf 97 = 59%Z /\ confidenceOf 98 = 60%Z
  /\ confidenceOf 8949 = 89%Z /\ confidenceOf 8950 = 90%Z.
Proof. repeat split; vm_compute; reflexivity. Qed.

(** X3: the detection counts the weekday samples of the band 05:00-12:00;
    with [n] of them its confidence is an integer between 0 and 90, it is 0
    exactly without samples and it does reach 90, from 8950 samples on; the
    result is reliable (confidence >= 60) exactly from 98 samples on, and
    the method is 'default' exactly without samples.  The end-hour detector
    has no part in these fields. *)
Theorem detectWorkingHours_reliability
    (detectEndHourWindow : list TimeCount -> num -> num -> WorkTimeAnalyzer.EndHourWindow)
    (hourData : list TimeCount) (dailyFirstCommits : list DailyFirstCommit) :
  let n := Z.of_nat (List.length (WorkTimeAnalyzer.filterValidDailyCommits dailyFirstCommits)) in
  (n < 2 ^ 40)%Z ->
  let d := WorkTimeAnalyzer.detectWorkingHours detectEndHourWindow hourData dailyFirstCommits in
  sampleCount d = int n
  /\ detectionMethod d = (if (n =? 0)%Z then DefaultMethod else QuantileWindow)
  /\ exists c,
       confidence d = int c
       /\ (0 <= c <= 90)%Z
       /\ (c = 0 <-> n = 0)%Z
       /\ (c = 90 <-> 8950 <= n)%Z
       /\ isReliable d = (98 <=? n)%Z.
Proof.
  cbv zeta. intros Hn.
  set (n := Z.of_nat (List.length (WorkTimeAnalyzer.filterValidDailyCommits dailyFirstCommits))) in *.
  assert (Hn0 : (0 <= n)%Z) by (unfold n; lia).
  unfold WorkTimeAnalyzer.detectWorkingHours.
  assert (Em : snd (WorkTimeAnalyzer.detectStartRange dailyFirstCommits)
               = if (n =? 0)%Z then DefaultMethod else QuantileWindow).
  { unfold WorkTimeAnalyzer.detectStartRange, n.
    destruct (WorkTimeAnalyzer.filterValidDailyCommits dailyFirstCommits); reflexivity. }
  destruct (WorkTimeAnalyzer.detectStartRange dailyFirstCommits) as [startRange method].
  cbn [snd] in Em. cbn [sampleCount detectionMethod confidence isReliable].
  fold n. rewrite (estimateConfidence_int n) by lia.
  split; [reflexivity|]. split; [exact Em|].
  exists (confidenceOf n).
  destruct confidenceOf_values as (V1 & V97 & V98 & V8949 & V8950).
  pose proof (confidenceOf_le_90 n) as U.
  assert (Z0 : confidenceOf 0 = 0%Z) by reflexivity.
  split; [reflexivity|].
  split.
  { split; [|exact U].
    destruct (Z.eq_dec n 0) as [->|N]; [lia|].
    pose proof (confidenceOf_mono 1 n ltac:(lia)). lia. }
  split.
  { split; intros H.
    - destruct (Z.eq_dec n 0) as [E|N]; [exact E|].
      pose proof (confidenceOf_mono 1 n ltac:(lia)). lia.
    - rewrite H. exact Z0. }
  split.
  { split; intros H.
    - destruct (Z_lt_le_dec n 8950) as [L|L]; [|exact L].
      destruct (Z.eq_dec n 0) as [E|N]; [rewrite E in H; discriminate|].
      pose proof (confidenceOf_mono n 8949 ltac:(lia)). lia.
    - pose proof (confidenceOf_mono 8950 n ltac:(lia)). lia. }
  unfold ge. rewrite le_int.
  destruct (Z.leb_spec 98 n) as [L|L].
  - pose proof (confidenceOf_mono 98 n ltac:(lia)). apply Z.leb_le. lia.
  - apply Z.leb_gt.
    destruct (Z.eq_dec n 0) as [E|N]; [rewrite E, Z0; lia|].
    pose proof (confidenceOf_mono n 97 ltac:(lia)). lia.
Qed.

(** A hundred valid weekday mornings: confidence 60, reliable. *)
Lemma detectWorkingHours_reliability_witness :
  let detectEndHourWindow (_ : list TimeCount) (startHour endHour : num) :=
    {| WorkTimeAnalyzer.windowEndHour := endHour;
       WorkTimeAnalyzer.windowRange := {| rangeStartHour := startHour; rangeEndHour := endHour |};
       WorkTimeAnalyzer.windowBackwardThreshold := false |} in
  let dailyFirstCommits :=
    map (fun i => {| date := 4 + 7 * Z.of_nat i; minutesFromMidnight := 540 |}) (seq 0 100) in
  let n := Z.of_nat (List.length (WorkTimeAnalyzer.filterValidDailyCommits dailyFirstCommits)) in
  let d := WorkTimeAnalyzer.detectWorkingHours detectEndHourWindow [] dailyFirstCommits in
  sampleCount d = int n
  /\ detectionMethod d = (if (n =? 0)%Z then DefaultMethod else QuantileWindow)
  /\ exists c,
       confidence d = int c
       /\ (0 <= c <= 90)%Z
       /\ (c = 0 <-> n = 0)%Z
       /\ (c = 90 <-> 8950 <= n)%Z
       /\ isReliable d = (98 <=? n)%Z.
Proof.
  intros detectEndHourWindow dailyFirstCommits.
  apply (detectWorkingHours_reliability detectEndHourWindow [] dailyFirstCommits).
  vm_compute. reflexivity.
Defined.

End DetectionConfidence.

Section StandardShift.
Import WorkTimeAnalyzer.
Open Scope Z_scope.

(** The start of the detected range is a 30-minute mark between 05:00
    and 12:00. *)
Lemma detectStartRange_marks dailyFirstCommits :
  Z.of_nat (List.length (validSamples dailyFirstCommits)) < 2 ^ 40 ->
  exists s e,
    fst (detectStartRange dailyFirstCommits)
    = {| rangeStartHour := hoursOfMinutes s; rangeEndHour := hoursOfMinutes e |}
    /\ 300 <= s <= 720 /\ s mod 30 = 0.
Proof.
  intros Hn. unfold detectStartRange.
  change (map minutesFromMidnight (filterValidDailyCommits dailyFirstCommits))
    with (validSamples dailyFirstCommits).
  remember (validSamples dailyFirstCommits) as samples eqn:Es.
  destruct samples as [|s0 rest].
  - exists 540, 570. split; [vm_compute; reflexivity|]. split; [lia | reflexivity].
  - destruct literal_tenth as [T1 T2]. rewrite T1, T2.
    assert (NE : s0 :: rest <> []) by discriminate.
    destruct (calculateQuantile_order_statistic (s0 :: rest) 10
                (3602879701896397 # 36028797018963968) (mul (int 9) (int 60)) NE Hn)
      as (lower & Nl & Ql); [lia | vm_compute; discriminate | vm_compute; discriminate |].
    rewrite Ql.
    destruct (calculateQuantile_order_statistic (s0 :: rest) 5
                (3602879701896397 # 18014398509481984) (add (int lower) (int 60)) NE Hn)
      as (upper & Nu & Qu); [lia | vm_compute; discriminate | vm_compute; discriminate |].
    rewrite Qu.
    assert (Bl : 300 <= lower <= 720).
    { rewrite Es in Nl. apply (nth_error_valid_band _ _ _ Nl). }
    assert (Bu : 300 <= upper <= 720).
    { rewrite Es in Nu. apply (nth_error_valid_band _ _ _ Nu). }
    cbn [fst]. rewrite buildStartHourRange_int by lia.
    exists (startMinutes lower), (endMinutes lower (Z.min upper 720)).
    split; [reflexivity|].
    destruct (start_end_minutes_bounds lower upper Bl Bu) as (B1 & _ & B3 & _).
    split; [lia | exact B3].
Qed.

Lemma half_hour_marks s :
  300 <= s <= 720 -> s mod 30 = 0 -> In s (map (fun k => 30 * Z.of_nat k) (seq 10 15)).
Proof.
  intros B M.
  assert (E : s = 30 * (s / 30)) by (apply Z.div_exact; [discriminate | exact M]).
  apply in_map_iff. exists (Z.to_nat (s / 30)). split.
  - rewrite Z2Nat.id by lia. lia.
  - apply in_seq. lia.
Qed.

Lemma standard_shift_values s :
  In s (map (fun k => 30 * Z.of_nat k) (seq 10 15)) ->
  Math_min (add (hoursOfMinutes s) STANDARD_WORK_HOURS) (int 24) = hoursOfMinutes (s + 540)
  /\ buildEndHourRange (hoursOfMinutes s) (hoursOfMinutes (s + 540))
     = {| rangeStartHour := hoursOfMinutes (s + 480);
          rangeEndHour := hoursOfMinutes (s + 540) |}.
Proof.
  intros H. cbn [seq map] in H.
  repeat (destruct H as [<-|H]; [split; vm_compute; reflexivity|]).
  contradiction.
Qed.

(** X4: the detected working day starts at a 30-minute mark between 05:00
    and 12:00, and its end is decided by the answer of the end-hour
    detector on the call the code makes (hourly data, the start hour, the
    hour nine hours later): when that answer is by backward threshold, the
    end hour and the end range are the detector's, and the method is
    "backward-threshold"; otherwise the end hour is exactly nine hours
    after the start (so between 14:00 and 21:00), the end range is the
    last hour before it, and the method is "standard-shift". *)
Theorem detectWorkingHours_standard_shift
    (detectEndHourWindow : list TimeCount -> num -> num -> EndHourWindow)
    (hourData : list TimeCount) (dailyFirstCommits : list DailyFirstCommit) :
  Z.of_nat (List.length (validSamples dailyFirstCommits)) < 2 ^ 40 ->
  let d := detectWorkingHours detectEndHourWindow hourData dailyFirstCommits in
  let hourDataForAnalysis :=
    match TimeAggregator.detectGranularity hourData with
    | TimeAggregator.HalfHourly => TimeAggregator.aggregateToHour hourData
    | TimeAggregator.Hourly => hourData
    end in
  exists s,
    300 <= s <= 720 /\ s mod 30 = 0
    /\ startHour d = hoursOfMinutes s
    /\ let observedEndWindow :=
         detectEndHourWindow hourDataForAnalysis (hoursOfMinutes s)
                             (hoursOfMinutes (s + 540)) in
       if windowBackwardThreshold observedEndWindow
       then endHour d = windowEndHour observedEndWindow
            /\ endHourRange d = Some (windowRange observedEndWindow)
            /\ endDetectionMethod d = Some BackwardThreshold
       else endHour d = hoursOfMinutes (s + 540)
            /\ endHourRange d
               = Some {| rangeStartHour := hoursOfMinutes (s + 480);
                         rangeEndHour := hoursOfMinutes (s + 540) |}
            /\ endDetectionMethod d = Some StandardShift.
Proof.
  intros Hn. cbv zeta.
  destruct (detectStartRange_marks dailyFirstCommits Hn) as (s & e & Er & Bs & Ms).
  destruct (standard_shift_values s (half_hour_marks s Bs Ms)) as [V1 V2].
  exists s. split; [exact Bs|]. split; [exact Ms|].
  unfold detectWorkingHours.
  destruct (detectStartRange dailyFirstCommits) as [startRange method].
  cbn [fst] in Er. subst startRange.
  cbn [startHour endHour endHourRange endDetectionMethod rangeStartHour].
  rewrite !V1, V2. split; [reflexivity|].
  destruct (windowBackwardThreshold _); repeat split; reflexivity.
Qed.

(** A detector that answers by backward threshold as soon as some hour of
    the data holds more than three commits, run on a quiet and on a busy
    day profile. *)
Lemma detectWorkingHours_standard_shift_witness :
  let detectEndHourWindow (hourData : list TimeCount) (startHour endHour : num) :=
    {| windowEndHour := add endHour (int 1);
       windowRange := {| rangeStartHour := endHour; rangeEndHour := add endHour (int 1) |};
       windowBackwardThreshold := existsb (fun item => lt (int 3) (count item)) hourData |} in
  let dailyFirstCommits :=
    map (fun '(d, m) => {| date := d; minutesFromMidnight := m |})
        [(4, 545); (5, 600); (6, 531); (7, 720); (8, 700); (11, 560); (12, 580)] in
  let quiet := [{| time := "09"; count := int 2 |}; {| time := "20"; count := int 1 |}] in
  let busy := [{| time := "09"; count := int 2 |}; {| time := "20"; count := int 7 |}] in
  let d0 := detectWorkingHours detectEndHourWindow quiet dailyFirstCommits in
  let d1 := detectWorkingHours detectEndHourWindow busy dailyFirstCommits in
  (startHour d0 = lit 8.5 /\ endHour d0 = lit 17.5)
  /\ (startHour d1 = lit 8.5 /\ endHour d1 = lit 18.5)
  /\ (exists s,
        300 <= s <= 720 /\ s mod 30 = 0
        /\ startHour d0 = hoursOfMinutes s
        /\ endHour d0 = hoursOfMinutes (s + 540)
        /\ endHourRange d0
           = Some {| rangeStartHour := hoursOfMinutes (s + 480);
                     rangeEndHour := hoursOfMinutes (s + 540) |}
        /\ endDetectionMethod d0 = Some StandardShift)
  /\ (exists s,
        300 <= s <= 720 /\ s mod 30 = 0
        /\ startHour d1 = hoursOfMinutes s
        /\ endHour d1 = add (hoursOfMinutes (s + 540)) (int 1)
        /\ endDetectionMethod d1 = Some BackwardThreshold).
Proof.
  intros detectEndHourWindow dailyFirstCommits quiet busy d0 d1.
  split; [split; vm_compute; reflexivity|].
  split; [split; vm_compute; reflexivity|].
  split.
  - destruct (detectWorkingHours_standard_shift detectEndHourWindow quiet dailyFirstCommits)
      as (s & Bs & Ms & Es & H); [vm_compute; reflexivity|].
    exists s. cbv zeta in H.
    change (windowBackwardThreshold _) with false in H. cbv iota in H.
    repeat split; try tauto.
  - destruct (detectWorkingHours_standard_shift detectEndHourWindow busy dailyFirstCommits)
      as (s & Bs & Ms & Es & H); [vm_compute; reflexivity|].
    exists s. cbv zeta in H.
    change (windowBackwardThreshold _) with true in H. cbv iota in H.
    repeat split; try tauto.
Defined.

End StandardShift.

Section QuantileEdges.
Import WorkTimeAnalyzer.
Open Scope Z_scope.

Lemma sorted_head_min x l v : Sorted Z.le (x :: l) -> In v (x :: l) -> x <= v.
Proof.
  intros S [<-|H]; [lia|].
  pose proof (Sorted_extends Z.le_trans S) as F.
  rewrite Forall_forall in F. apply F. exact H.
Qed.

Lemma sorted_last_max l : Sorted Z.le l ->
  forall hi v, nth_error l (List.length l - 1) = Some hi -> In v l -> v <= hi.
Proof.
  induction l as [|x l IH]; intros S hi v N I; [contradiction|].
  destruct l as [|y l'].
  - cbn in N. injection N as <-. destruct I as [<-|[]]. lia.
  - assert (S' : Sorted Z.le (y :: l')) by (inversion S; assumption).
    assert (N' : nth_error (y :: l') (List.length (y :: l') - 1) = Some hi).
    { cbn [List.length] in N |- *. rewrite Nat.sub_succ, Nat.sub_0_r in N.
      rewrite Nat.sub_succ, Nat.sub_0_r. exact N. }
    destruct I as [<-|I].
    + pose proof (sorted_head_min x (y :: l') y S (or_intror (or_introl eq_refl))).
      pose proof (IH S' hi y N' (or_introl eq_refl)). lia.
    + apply (IH S' hi v N' I).
Qed.

Lemma quantile_index samples q fallback :
  samples <> [] ->
  calculateQuantile samples q fallback
  = match array_get (sort_asc samples)
            (Math_floor (mul (sub (int (Z.of_nat (List.length samples))) (int 1)) q)) with
    | None => fallback
    | Some value => int value
    end.
Proof.
  intros NE. unfold calculateQuantile. rewrite sort_asc_length.
  destruct samples; [contradiction | reflexivity].
Qed.

(** X5: [calculateQuantile] at its edges: quantile 0 gives the smallest
    sample and quantile 1 the largest; the fallback is returned for an
    empty sample, for a NaN quantile, and when the index falls behind the
    last sample (quantile 2 with two samples or more). *)
Theorem calculateQuantile_edges (samples : list Z) (fallback : num) :
  samples <> [] -> Z.of_nat (List.length samples) < 2 ^ 52 ->
  (exists lo hi,
      calculateQuantile samples (int 0) fallback = int lo
      /\ calculateQuantile samples (int 1) fallback = int hi
      /\ In lo samples /\ In hi samples
      /\ forall v, In v samples -> lo <= v <= hi)
  /\ calculateQuantile samples NaN fallback = fallback
  /\ (2 <= Z.of_nat (List.length samples) -> calculateQuantile samples (int 2) fallback = fallback)
  /\ forall q, calculateQuantile [] q fallback = fallback.
Proof.
  intros NE Hn. change (2 ^ 52) with 4503599627370496 in Hn.
  set (n := Z.of_nat (List.length samples)) in *.
  assert (Hn1 : 1 <= n).
  { unfold n. destruct samples; [contradiction | cbn [List.length]; lia]. }
  assert (Es : sub (int n) (int 1) = int (n - 1))
    by (apply sub_int; change (2 ^ 53) with 9007199254740992; lia).
  pose proof (sort_asc_sorted samples) as S.
  pose proof (sort_asc_perm samples) as P.
  pose proof (sort_asc_length samples) as L.
  split; [|split; [|split]].
  - destruct (nth_error (sort_asc samples) 0) as [lo|] eqn:N0;
      [|apply nth_error_None in N0; lia].
    destruct (nth_error (sort_asc samples) (List.length (sort_asc samples) - 1)) as [hi|] eqn:N1;
      [|apply nth_error_None in N1; lia].
    exists lo, hi.
    assert (I0 : In lo (sort_asc samples)) by (apply (nth_error_In _ _ N0)).
    assert (I1 : In hi (sort_asc samples)) by (apply (nth_error_In _ _ N1)).
    split.
    { rewrite quantile_index by exact NE. fold n. rewrite Es.
      rewrite mul_int by (rewrite Z.mul_0_r; reflexivity).
      rewrite Z.mul_0_r, Math_floor_int, array_get_int by lia.
      change (Z.to_nat 0) with 0%nat. rewrite N0. reflexivity. }
    split.
    { rewrite quantile_index by exact NE. fold n. rewrite Es.
      rewrite mul_int by (rewrite Z.mul_1_r; change (2 ^ 53) with 9007199254740992; lia).
      rewrite Z.mul_1_r, Math_floor_int, array_get_int by lia.
      replace (Z.to_nat (n - 1)) with (List.length (sort_asc samples) - 1)%nat
        by (unfold n; lia).
      rewrite N1. reflexivity. }
    split; [apply (Permutation_in _ P I0)|].
    split; [apply (Permutation_in _ P I1)|].
    intros v Iv. apply (Permutation_in _ (Permutation_sym P)) in Iv. split.
    + destruct (sort_asc samples) as [|x l] eqn:E; [contradiction|].
      cbn in N0. injection N0 as <-. apply (sorted_head_min x l v S Iv).
    + apply (sorted_last_max _ S hi v N1 Iv).
  - rewrite quantile_index by exact NE. fold n. rewrite Es. reflexivity.
  - intros H2. rewrite quantile_index by exact NE. fold n. rewrite Es.
    rewrite mul_int by (change (2 ^ 53) with 9007199254740992; lia).
    rewrite Math_floor_int, array_get_int by lia.
    replace (nth_error (sort_asc samples) (Z.to_nat ((n - 1) * 2))) with (@None Z);
      [reflexivity|].
    symmetry. apply nth_error_None. unfold n in *. lia.
  - intros q. reflexivity.
Qed.

Lemma calculateQuantile_edges_witness :
  (exists lo hi,
      calculateQuantile [560; 531; 600] (int 0) (int 540) = int lo
      /\ calculateQuantile [560; 531; 600] (int 1) (int 540) = int hi
      /\ In lo [560; 531; 600] /\ In hi [560; 531; 600]
      /\ forall v, In v [560; 531; 600] -> lo <= v <= hi)
  /\ calculateQuantile [560; 531; 600] NaN (int 540) = int 540
  /\ (2 <= Z.of_nat (List.length [560; 531; 600]) ->
      calculateQuantile [560; 531; 600] (int 2) (int 540) = int 540)
  /\ forall q, calculateQuantile [] q (int 540) = int 540.
Proof.
  apply (calculateQuantile_edges [560; 531; 600] (int 540)).
  - discriminate.
  - reflexivity.
Defined.

End QuantileEdges.

(** ** Partitions of the commit counts: by hour and by day *)

Section CountPartitions.
Open Scope Z_scope.

Lemma fold_left_map {A B C : Type} (f : C -> B -> C) (g : A -> B) l : forall acc,
  fold_left f (map g l) acc = fold_left (fun acc x => f acc (g x)) l acc.
Proof. induction l as [|a l IH]; intros acc; [reflexivity | apply IH]. Qed.

Lemma fold_left_ext {A B : Type} (f g : A -> B -> A) l :
  (forall a b, f a b = g a b) -> forall acc, fold_left f l acc = fold_left g l acc.
Proof.
  intros H. induction l as [|b l IH]; intros acc; [reflexivity|].
  cbn [fold_left]. rewrite H. apply IH.
Qed.

Lemma sumIf_split {A : Type} (p : A -> bool) (f : A -> Z) l :
  sumIf p f l + sumIf (fun a => negb (p a)) f l = sumAll f l.
Proof.
  unfold sumAll. induction l as [|a l IH]; [reflexivity|].
  cbn [sumIf]. destruct (p a); cbn [negb]; lia.
Qed.

Lemma sumIf_nonneg {A : Type} (p : A -> bool) (f : A -> Z) l :
  Forall (fun a => 0 <= f a) l -> 0 <= sumIf p f l.
Proof.
  induction 1 as [|a l Ha Hl IH]; [reflexivity|].
  cbn [sumIf]. destruct (p a); lia.
Qed.

Lemma sumIf_le_all {A : Type} (p : A -> bool) (f : A -> Z) l :
  Forall (fun a => 0 <= f a) l -> sumIf p f l <= sumAll f l.
Proof.
  intros H. pose proof (sumIf_split p f l).
  pose proof (sumIf_nonneg (fun a => negb (p a)) f l H). lia.
Qed.

(** A loop that adds each count to one of two counters. *)
Lemma fold_partition {A : Type} (test : A -> bool) (cnt : A -> num) (cz : A -> Z) l :
  Forall (fun a => cnt a = int (cz a) /\ 0 <= cz a) l ->
  forall w e, 0 <= w -> 0 <= e -> w + e + sumAll cz l < 2 ^ 53 ->
  fold_left
    (fun '(w, e) a => if test a then (add w (cnt a), e) else (w, add e (cnt a)))
    l (int w, int e)
  = (int (w + sumIf test cz l), int (e + sumIf (fun a => negb (test a)) cz l)).
Proof.
  induction 1 as [|a l [Ea Ha] Hl IH]; intros w e Hw He Hs.
  - cbn [fold_left sumIf]. rewrite !Z.add_0_r. reflexivity.
  - unfold sumAll in Hs. cbn [sumIf] in Hs. fold (sumAll cz l) in Hs.
    assert (Hr : 0 <= sumAll cz l).
    { apply sumIf_nonneg. apply (Forall_impl _ (fun a H => proj2 H) Hl). }
    cbn [fold_left sumIf]. rewrite Ea.
    destruct (test a); cbn [negb].
    + rewrite add_int by lia. rewrite IH by lia.
      f_equal; f_equal; lia.
    + rewrite add_int by lia. rewrite IH by lia.
      f_equal; f_equal; lia.
Qed.

(** X6: [calculateWorkHourPl] adds every bucket to exactly one of its two
    counts: the normal-hours count is the sum of the buckets whose label,
    read by [parseInt], is a working hour, the overtime count is the sum
    of all the others (a label that is not a number included), and the
    two add up to the total. *)
Theorem calculateWorkHourPl_partition
    (items : list (string * Z)) (d : WorkTimeDetectionResult) :
  Forall (fun it => 0 <= snd it) items -> sumAll snd items < 2 ^ 53 ->
  let working it := WorkTimeAnalyzer.isWorkingHour (JsString.parseInt (fst it)) d in
  let r := GitParser.calculateWorkHourPl (timeCounts items) d in
  count (fst r) = int (sumIf working snd items)
  /\ count (snd r) = int (sumIf (fun it => negb (working it)) snd items)
  /\ sumIf working snd items + sumIf (fun it => negb (working it)) snd items
     = sumAll snd items.
Proof.
  intros Hc Hs. cbv zeta.
  set (working := fun it : string * Z =>
                    WorkTimeAnalyzer.isWorkingHour (JsString.parseInt (fst it)) d).
  unfold GitParser.calculateWorkHourPl, timeCounts.
  rewrite fold_left_map.
  rewrite (fold_left_ext _
             (fun '(w, e) (a : string * Z) =>
                if working a then (add w (int (snd a)), e) else (w, add e (int (snd a)))))
    by (intros [w e] [t c]; reflexivity).
  rewrite (fold_partition working (fun it => int (snd it)) snd items
             ltac:(apply (Forall_impl _ (fun a H => conj eq_refl H) Hc))
             0 0 ltac:(lia) ltac:(lia) ltac:(lia)).
  cbn [fst snd count]. repeat split. apply sumIf_split.
Qed.

End CountPartitions.

Section CountPartitionsWitness.
Open Scope Z_scope.

(** Manual hours 9-18: the buckets 09:00 and 09:30 are normal work, the
    bucket 20:00 and a bucket with a label that is not a number are
    overtime. *)
Lemma calculateWorkHourPl_partition_witness :
  let items := [("09:00"%string, 5); ("09:30"%string, 3); ("20:00"%string, 2); ("x"%string, 1)] in
  let d :=
    {| startHour := int 9; endHour := int 18; isReliable := true;
       sampleCount := int (-1); detectionMethod := Manual;
       confidence := int 100; startHourRange := None; endHourRange := None;
       endDetectionMethod := Some EndManual |} in
  let working (it : string * Z) :=
    WorkTimeAnalyzer.isWorkingHour (JsString.parseInt (fst it)) d in
  let r := GitParser.calculateWorkHourPl (timeCounts items) d in
  count (fst r) = int (sumIf working snd items)
  /\ count (snd r) = int (sumIf (fun it => negb (working it)) snd items)
  /\ sumIf working snd items + sumIf (fun it => negb (working it)) snd items
     = sumAll snd items.
Proof.
  intros items d.
  apply (calculateWorkHourPl_partition items d).
  - repeat constructor; discriminate.
  - reflexivity.
Defined.

End CountPartitionsWitness.

(** ** Half-hour buckets: filling, aggregation, classification *)

Section HalfHourBuckets.
Open Scope Z_scope.

Lemma parseInt_half_hour_key i suffix :
  (i < 24)%nat -> In suffix ["00"%string; "30"%string] ->
  JsString.parseInt (TimeAggregator.two_digits i ++ ":" ++ suffix) = int (Z.of_nat i).
Proof.
  intros Hi Hs.
  do 24 (destruct i as [|i];
         [destruct Hs as [<-|[<-|[]]]; vm_compute; reflexivity|]).
  lia.
Qed.

(** X7: a half-hour bucket is classified by its hour alone: the buckets
    HH:00 and HH:30 are normal work exactly when
    startHour <= HH < min(endHour, startHour + 9).  So with a start hour
    of HH.5 the bucket HH:30 is overtime, and with an end hour of HH.5 the
    bucket HH:30 is normal work. *)
Theorem isWorkingHour_half_hour_bucket
    (d : WorkTimeDetectionResult) (i : nat) (suffix : string) :
  is_double (startHour d) -> is_double (endHour d) ->
  (i < 24)%nat -> In suffix ["00"%string; "30"%string] ->
  WorkTimeAnalyzer.isWorkingHour
    (JsString.parseInt (TimeAggregator.two_digits i ++ ":" ++ suffix)) d
  = le (startHour d) (int (Z.of_nat i))
    && lt (int (Z.of_nat i)) (Math_min (endHour d) (add (startHour d) (int 9))).
Proof.
  intros Hs He Hi Hx.
  rewrite (parseInt_half_hour_key i suffix Hi Hx).
  apply working_hour_split; try assumption.
  change (2 ^ 40) with 1099511627776. lia.
Qed.

(** Hours 9.5 to 18.5: the bucket 09:30 is not normal work, the bucket
    18:30 is. *)
Lemma isWorkingHour_half_hour_bucket_witness :
  let d :=
    {| startHour := Fin (19 # 2); endHour := Fin (37 # 2); isReliable := true;
       sampleCount := int (-1); detectionMethod := Manual;
       confidence := int 100; startHourRange := None; endHourRange := None;
       endDetectionMethod := Some EndManual |} in
  (WorkTimeAnalyzer.isWorkingHour (JsString.parseInt "09:30") d
   = le (startHour d) (int 9)
     && lt (int 9) (Math_min (endHour d) (add (startHour d) (int 9))))
  /\ WorkTimeAnalyzer.isWorkingHour (JsString.parseInt "09:30") d = false
  /\ WorkTimeAnalyzer.isWorkingHour (JsString.parseInt "18:30") d = true.
Proof.
  intros d. split; [|split; vm_compute; reflexivity].
  apply (isWorkingHour_half_hour_bucket d 9 "30").
  - vm_compute. reflexivity.
  - vm_compute. reflexivity.
  - lia.
  - right. left. reflexivity.
Defined.

Lemma count_of_lookup items key :
  TimeCollector.count_or_zero (TimeCollector.find_time (timeCounts items) key)
  = int (lookupCount items key).
Proof.
  unfold TimeCollector.find_time, lookupCount, timeCounts.
  induction items as [|[t c] items IH]; [reflexivity|].
  cbn [map find fst snd time]. destruct (String.eqb t key); [reflexivity | exact IH].
Qed.

Lemma lookupCount_bounds items key lo hi :
  lo <= 0 <= hi -> Forall (fun it => lo <= snd it <= hi) items ->
  lo <= lookupCount items key <= hi.
Proof.
  intros H0 H. unfold lookupCount.
  destruct (find _ items) as [it|] eqn:E; [|exact H0].
  apply find_some in E. destruct E as [I _].
  rewrite Forall_forall in H. apply (H it I).
Qed.

Lemma aggregate_symbolic (c : string -> num) :
  TimeAggregator.aggregateToHour
    (flat_map
       (fun i =>
          map (fun suffix =>
                 {| time := TimeAggregator.two_digits i ++ ":" ++ suffix;
                    count := c (TimeAggregator.two_digits i ++ ":" ++ suffix)%string |})
              ["00"%string; "30"%string])
       (seq 0 24))
  = map (fun h =>
           {| time := TimeAggregator.two_digits h;
              count :=
                TimeAggregator.or_zero
                  (add (TimeAggregator.or_zero
                          (add (TimeAggregator.or_zero (int 0))
                               (c (TimeAggregator.two_digits h ++ ":" ++ "00")%string)))
                       (c (TimeAggregator.two_digits h ++ ":" ++ "30")%string)) |})
        (seq 0 24).
Proof. cbv - [add TimeAggregator.or_zero int]. reflexivity. Qed.

Lemma hour_total a b :
  0 <= a < 2 ^ 52 -> 0 <= b < 2 ^ 52 ->
  TimeAggregator.or_zero
    (add (TimeAggregator.or_zero (add (TimeAggregator.or_zero (int 0)) (int a))) (int b))
  = int (a + b).
Proof.
  intros Ha Hb. change (2 ^ 52) with 4503599627370496 in *.
  change (TimeAggregator.or_zero (int 0)) with (int 0).
  rewrite add_int by (change (2 ^ 53) with 9007199254740992; lia).
  change (TimeAggregator.or_zero (int (0 + a))) with (int (0 + a)).
  rewrite add_int by (change (2 ^ 53) with 9007199254740992; lia).
  reflexivity.
Qed.

(** X8: the 48 half-hour buckets that [fillMissingHalfHours] builds are
    detected as half-hour data, and [aggregateToHour] turns them into the
    24 hourly buckets '00' ... '23', detected as hourly data, in which the
    count of an hour is the sum of its two half hours; the count of a half
    hour is the count of the first input bucket with its label, 0 when
    there is none. *)
Theorem aggregateToHour_of_half_hours (items : list (string * Z)) :
  Forall (fun it => 0 <= snd it <= 2 ^ 52 - 1) items ->
  let halfHours := TimeCollector.fillMissingHalfHours (timeCounts items) in
  TimeAggregator.aggregateToHour halfHours
  = map (fun h =>
           {| time := TimeAggregator.two_digits h;
              count := int (lookupCount items (TimeAggregator.two_digits h ++ ":00")
                            + lookupCount items (TimeAggregator.two_digits h ++ ":30")) |})
        (seq 0 24)
  /\ TimeAggregator.detectGranularity halfHours = TimeAggregator.HalfHourly
  /\ TimeAggregator.detectGranularity (TimeAggregator.aggregateToHour halfHours)
     = TimeAggregator.Hourly.
Proof.
  intros H. cbv zeta.
  assert (E : TimeCollector.fillMissingHalfHours (timeCounts items)
              = flat_map
                  (fun i =>
                     map (fun suffix =>
                            {| time := TimeAggregator.two_digits i ++ ":" ++ suffix;
                               count := int (lookupCount items
                                               (TimeAggregator.two_digits i ++ ":" ++ suffix)%string) |})
                         ["00"%string; "30"%string])
                  (seq 0 24)).
  { unfold TimeCollector.fillMissingHalfHours.
    apply flat_map_ext. intros i. apply map_ext. intros suffix.
    rewrite count_of_lookup. reflexivity. }
  rewrite E.
  rewrite (aggregate_symbolic (fun key => int (lookupCount items key))).
  split; [|split; reflexivity].
  apply map_ext. intros h. f_equal.
  pose proof (lookupCount_bounds items (TimeAggregator.two_digits h ++ ":00") 0 (2 ^ 52 - 1)
                ltac:(split; [reflexivity | discriminate]) H) as B0.
  pose proof (lookupCount_bounds items (TimeAggregator.two_digits h ++ ":30") 0 (2 ^ 52 - 1)
                ltac:(split; [reflexivity | discriminate]) H) as B1.
  apply hour_total; lia.
Qed.

Lemma aggregateToHour_of_half_hours_witness :
  let items := [("09:00"%string, 5); ("09:30"%string, 3); ("20:30"%string, 2); ("9:15"%string, 7)] in
  let halfHours := TimeCollector.fillMissingHalfHours (timeCounts items) in
  TimeAggregator.aggregateToHour halfHours
  = map (fun h =>
           {| time := TimeAggregator.two_digits h;
              count := int (lookupCount items (TimeAggregator.two_digits h ++ ":00")
                            + lookupCount items (TimeAggregator.two_digits h ++ ":30")) |})
        (seq 0 24)
  /\ TimeAggregator.detectGranularity halfHours = TimeAggregator.HalfHourly
  /\ TimeAggregator.detectGranularity (TimeAggregator.aggregateToHour halfHours)
     = TimeAggregator.Hourly.
Proof.
  intros items.
  apply (aggregateToHour_of_half_hours items).
  repeat constructor; discriminate.
Defined.

End HalfHourBuckets.

(** ** The workday / weekend partition *)

Section WeekPartition.
Import WorkWeek.
Open Scope Z_scope.

Lemma combine_with_map {A B : Type} (f : A -> B) (l : list A) :
  combine l (map f l) = map (fun a => (a, f a)) l.
Proof. induction l as [|a l IH]; [reflexivity|]. cbn [map combine]. rewrite IH. reflexivity. Qed.

(** X9: with per-day counts and a workday checker, [calculateWorkWeekPl]
    adds the count of every day to exactly one side: to the workdays when
    the checker says the date is a workday (a Saturday worked in exchange
    for a holiday included), to the weekend otherwise; the weekday
    histogram [dayData] plays no part.  Without per-day counts, or when the
    checker cannot be built, the answer is the basic partition of
    [dayData]. *)
Theorem calculateWorkWeekPl_partition
    (localTZA : Z -> Z) (c : WorkdayChecker.t) (dayData hourData : list TimeCount) (days : list (Z * Z)) :
  days <> [] -> Forall (fun it => 0 <= snd it) days -> sumAll snd days < 2 ^ 53 ->
  let dailyCommitCounts :=
    map (fun '(d, n) => {| DailyCommitCount.date := d; DailyCommitCount.count := int n |}) days in
  let workday (it : Z * Z) := WorkdayChecker.isWorkday localTZA c (fst it) in
  let r := calculateWorkWeekPl localTZA (Some c) dayData dailyCommitCounts hourData in
  count (fst r) = int (sumIf workday snd days)
  /\ count (snd r) = int (sumIf (fun it => negb (workday it)) snd days)
  /\ sumIf workday snd days + sumIf (fun it => negb (workday it)) snd days = sumAll snd days
  /\ calculateWorkWeekPl localTZA None dayData dailyCommitCounts hourData
     = calculateWorkWeekPlBasic dayData
  /\ calculateWorkWeekPl localTZA (Some c) dayData [] hourData = calculateWorkWeekPlBasic dayData.
Proof.
  intros NE Hc Hs. cbv zeta.
  set (workday := fun it : Z * Z => WorkdayChecker.isWorkday localTZA c (fst it)).
  set (mk := fun '(d, n) => {| DailyCommitCount.date := d; DailyCommitCount.count := int n |}).
  assert (R : calculateWorkWeekPl localTZA (Some c) dayData (map mk days) hourData
              = ({| time := "workday"; count := int (sumIf workday snd days) |},
                 {| time := "weekend";
                    count := int (sumIf (fun it => negb (workday it)) snd days) |})).
  { unfold calculateWorkWeekPl.
    destruct days as [|d0 days']; [contradiction|].
    remember (d0 :: days') as l eqn:El.
    destruct (map mk l) as [|x xs] eqn:Em; [rewrite El in Em; discriminate|].
    rewrite <- Em. clear Em x xs.
    unfold WorkdayChecker.isWorkdayBatch.
    rewrite map_map, combine_with_map, !fold_left_map.
    rewrite (fold_left_ext _
               (fun '(w, e) (a : Z * Z) =>
                  if workday a then (add w (int (snd a)), e) else (w, add e (int (snd a)))))
      by (intros [w e] [t n]; reflexivity).
    rewrite (fold_partition workday (fun it => int (snd it)) snd l
               ltac:(apply (Forall_impl _ (fun a H => conj eq_refl H) Hc))
               0 0 ltac:(lia) ltac:(lia) ltac:(lia)).
    reflexivity. }
  rewrite R. cbn [fst snd count].
  split; [reflexivity|]. split; [reflexivity|]. split; [apply sumIf_split|].
  split; [|reflexivity].
  unfold calculateWorkWeekPl. destruct days as [|[d0 n0] days']; [contradiction | reflexivity].
Qed.

(** Day 2 (1970-01-03) is a Saturday that the calendar declares a workday:
    its commits count as workday commits. *)
Lemma calculateWorkWeekPl_partition_witness :
  let localTZA (_ : Z) := 8 * 3600000 in
  let c :=
    {| WorkdayChecker.calendarIsWorkday := fun d => Some ((d =? 2) || (d =? 4));
       WorkdayChecker.calendarIsHoliday := fun d => Some (negb ((d =? 2) || (d =? 4)));
       WorkdayChecker.enabled := true |} in
  let days := [(2, 10); (3, 4); (4, 6)] in
  let dailyCommitCounts :=
    map (fun '(d, n) => {| DailyCommitCount.date := d; DailyCommitCount.count := int n |}) days in
  let workday (it : Z * Z) := WorkdayChecker.isWorkday localTZA c (fst it) in
  let r := calculateWorkWeekPl localTZA (Some c) [] dailyCommitCounts [] in
  count (fst r) = int (sumIf workday snd days)
  /\ count (snd r) = int (sumIf (fun it => negb (workday it)) snd days)
  /\ sumIf workday snd days + sumIf (fun it => negb (workday it)) snd days = sumAll snd days
  /\ calculateWorkWeekPl localTZA None [] dailyCommitCounts [] = calculateWorkWeekPlBasic []
  /\ calculateWorkWeekPl localTZA (Some c) [] [] [] = calculateWorkWeekPlBasic [].
Proof.
  intros localTZA c days.
  apply (calculateWorkWeekPl_partition localTZA c [] [] days).
  - discriminate.
  - repeat constructor; discriminate.
  - reflexivity.
Defined.

Lemma day_bucket_test (i : nat) :
  (1 <= i <= 7)%nat ->
  ge (JsString.parseInt (TimeCollector.digit_string i)) (int 1)
  && le (JsString.parseInt (TimeCollector.digit_string i)) (int 5)
  = (i <=? 5)%nat.
Proof.
  intros H.
  do 8 (destruct i as [|i]; [try lia; vm_compute; reflexivity|]).
  lia.
Qed.

Lemma week_symbolic (c : string -> num) :
  calculateWorkWeekPlBasic
    (map (fun i =>
            {| time := TimeCollector.digit_string i;
               count := c (TimeCollector.digit_string i) |})
         (seq 1 7))
  = ({| time := "workday";
        count := add (add (add (add (add (int 0) (c "1"%string)) (c "2"%string))
                               (c "3"%string)) (c "4"%string)) (c "5"%string) |},
     {| time := "weekend"; count := add (add (int 0) (c "6"%string)) (c "7"%string) |}).
Proof.
  unfold calculateWorkWeekPlBasic.
  cbn [map seq fold_left time count].
  rewrite !day_bucket_test by lia.
  reflexivity.
Qed.

(** X10: on the seven weekday buckets that [fillMissingDays] builds
    ('1' Monday ... '7' Sunday), the basic partition counts the buckets
    '1' to '5' as workdays and '6' and '7' as weekend; input buckets with
    any other label are dropped by the filling, and of several buckets
    with one label the first is kept. *)
Theorem calculateWorkWeekPlBasic_of_days (items : list (string * Z)) :
  Forall (fun it => 0 <= snd it <= 2 ^ 50) items ->
  let day (k : string) := lookupCount items k in
  calculateWorkWeekPlBasic (TimeCollector.fillMissingDays (timeCounts items))
  = ({| time := "workday";
        count := int (day "1"%string + day "2"%string + day "3"%string
                      + day "4"%string + day "5"%string) |},
     {| time := "weekend"; count := int (day "6"%string + day "7"%string) |}).
Proof.
  intros H. cbv zeta.
  assert (E : TimeCollector.fillMissingDays (timeCounts items)
              = map (fun i =>
                       {| time := TimeCollector.digit_string i;
                          count := int (lookupCount items (TimeCollector.digit_string i)) |})
                    (seq 1 7)).
  { unfold TimeCollector.fillMissingDays. apply map_ext. intros i.
    rewrite count_of_lookup. reflexivity. }
  rewrite E, (week_symbolic (fun key => int (lookupCount items key))).
  assert (B : forall k, 0 <= lookupCount items k <= 2 ^ 50).
  { intros k. apply lookupCount_bounds; [|exact H]. split; [reflexivity | discriminate]. }
  pose proof (B "1"%string). pose proof (B "2"%string). pose proof (B "3"%string).
  pose proof (B "4"%string). pose proof (B "5"%string). pose proof (B "6"%string).
  pose proof (B "7"%string).
  change (2 ^ 50) with 1125899906842624 in *.
  rewrite !add_int by (change (2 ^ 53) with 9007199254740992; lia).
  reflexivity.
Qed.

Lemma calculateWorkWeekPlBasic_of_days_witness :
  let items := [("1"%string, 30); ("6"%string, 4); ("7"%string, 1); ("0"%string, 9); ("1"%string, 2)] in
  let day (k : string) := lookupCount items k in
  calculateWorkWeekPlBasic (TimeCollector.fillMissingDays (timeCounts items))
  = ({| time := "workday";
        count := int (day "1"%string + day "2"%string + day "3"%string
                      + day "4"%string + day "5"%string) |},
     {| time := "weekend"; count := int (day "6"%string + day "7"%string) |}).
Proof.
  intros items.
  apply (calculateWorkWeekPlBasic_of_days items).
  repeat constructor; discriminate.
Defined.

End WeekPartition.

(** ** Weekend overtime without the holiday calendar *)

Section HolidayModeOff.
Import OvertimeAnalyzer.
Open Scope Z_scope.

Lemma distribution_ext (a b : WeekendOvertimeDistribution) :
  saturdayDays a = saturdayDays b -> sundayDays a = sundayDays b ->
  casualFixDays a = casualFixDays b -> realOvertimeDays a = realOvertimeDays b -> a = b.
Proof. destruct a, b; cbn; intros; subst; reflexivity. Qed.

(** X11: with the holiday mode switched off, or with a calendar that has
    no data for any date (every query fails), [calculateWeekendOvertime]
    answers exactly as the basic Saturday/Sunday computation does, which is
    also its answer when the checker cannot be built. *)
Theorem calculateWeekendOvertime_without_calendar
    (localTZA : Z -> Z) (c : WorkdayChecker.t) (days : list DailyCommitHours) :
  WorkdayChecker.enabled c = false \/ (forall d, WorkdayChecker.calendarIsHoliday c d = None) ->
  calculateWeekendOvertime localTZA (Some c) days
  = calculateWeekendOvertimeBasic localTZA days
  /\ calculateWeekendOvertime localTZA None days
     = calculateWeekendOvertimeBasic localTZA days.
Proof.
  intros H. split; [|reflexivity].
  assert (E : forall d, WorkdayChecker.isHoliday localTZA c d
                     = WorkdayChecker.fallbackIsHoliday localTZA d).
  { intros d. unfold WorkdayChecker.isHoliday. destruct H as [H|H].
    - rewrite H. reflexivity.
    - rewrite H. destruct (negb (WorkdayChecker.enabled c)); reflexivity. }
  pose proof (fold_with_checker localTZA c days zero) as F. cbv zeta in F.
  pose proof (fold_basic localTZA days zero) as G. cbv zeta in G.
  destruct F as (F1 & F2 & F3 & F4). destruct G as (G1 & G2 & G3 & G4).
  unfold calculateWeekendOvertime, calculateWeekendOvertimeBasic.
  apply distribution_ext.
  - rewrite F1, G1. f_equal. apply countIf_ext. intros i. rewrite E. reflexivity.
  - rewrite F2, G2. f_equal. apply countIf_ext. intros i. rewrite E. reflexivity.
  - rewrite F4, G4. f_equal. apply countIf_ext. intros i. rewrite E. reflexivity.
  - rewrite F3, G3. f_equal. apply countIf_ext. intros i. rewrite E. reflexivity.
Qed.

(** A calendar that would call every day a holiday, switched off: only
    the Saturday counts. *)
Lemma calculateWeekendOvertime_without_calendar_witness :
  let localTZA (_ : Z) := 8 * 3600000 in
  let c :=
    {| WorkdayChecker.calendarIsWorkday := fun _ => Some false;
       WorkdayChecker.calendarIsHoliday := fun _ => Some true;
       WorkdayChecker.enabled := false |} in
  let days := [{| date := 2; hours := [9; 10; 14] |}; {| date := 4; hours := [9] |}] in
  calculateWeekendOvertime localTZA (Some c) days
  = calculateWeekendOvertimeBasic localTZA days
  /\ calculateWeekendOvertime localTZA None days
     = calculateWeekendOvertimeBasic localTZA days.
Proof.
  intros localTZA c days.
  apply (calculateWeekendOvertime_without_calendar localTZA c days).
  left. reflexivity.
Defined.

End HolidayModeOff.

(** ** The latest and the first commit of each day *)

Section DailyExtremes.
Import CommitCollector.
Open Scope Z_scope.

Lemma insert_by_date_perm e l : Permutation (insert_by_date e l) (e :: l).
Proof.
  induction l as [|h t IH]; [reflexivity|].
  cbn [insert_by_date]. destruct (date e <? date h); [reflexivity|].
  rewrite IH. apply perm_swap.
Qed.

Lemma sort_by_date_perm l : Permutation (sort_by_date l) l.
Proof.
  induction l as [|e l IH]; [reflexivity|].
  cbn [sort_by_date fold_right]. fold (sort_by_date l).
  rewrite insert_by_date_perm. constructor. exact IH.
Qed.

Lemma insert_by_date_sorted e l :
  Sorted (fun a b => date a <= date b) l ->
  Sorted (fun a b => date a <= date b) (insert_by_date e l).
Proof.
  induction l as [|h t IH]; intros S; [repeat constructor|].
  cbn [insert_by_date]. destruct (Z.ltb_spec (date e) (date h)) as [L|L].
  - constructor; [exact S|]. constructor. lia.
  - inversion S as [|? ? St Hh]; subst. constructor; [apply IH; exact St|].
    destruct t as [|h' t']; cbn [insert_by_date].
    + constructor. exact L.
    + destruct (date e <? date h'); constructor; [exact L|].
      inversion Hh; assumption.
Qed.

Lemma sort_by_date_sorted l : Sorted (fun a b => date a <= date b) (sort_by_date l).
Proof.
  induction l as [|e l IH]; [constructor|].
  cbn [sort_by_date fold_right]. apply insert_by_date_sorted. exact IH.
Qed.

Lemma strictly_sorted (l : list DailyLatestCommit) :
  Sorted (fun a b => date a <= date b) l -> NoDup (map date l) ->
  StronglySorted (fun a b => date a < date b) l.
Proof.
  intros S N.
  assert (T : Transitive (fun a b : DailyLatestCommit => date a <= date b))
    by (intros x y z; lia).
  apply (Sorted_StronglySorted T) in S.
  induction S as [|a l Sl IH Fa]; [constructor|].
  cbn [map] in N. inversion N as [|? ? Na Nl]; subst.
  constructor; [apply IH; exact Nl|].
  rewrite Forall_forall in Fa |- *. intros b Ib.
  pose proof (Fa b Ib) as Le.
  assert (date a <> date b); [|lia].
  intros E. apply Na. rewrite E. apply in_map. exact Ib.
Qed.

Lemma entries_NoDup (m : DateMap) :
  NoDup (map fst m) ->
  NoDup (map date (map (fun '(d, v) => {| date := d; minutesFromMidnight := v |}) m)).
Proof.
  intros N. rewrite map_map.
  replace (map (fun x : Z * Z => date (let '(d, v) := x in
                                       {| date := d; minutesFromMidnight := v |})) m)
    with (map fst m); [exact N|].
  apply map_ext. intros [d v]. reflexivity.
Qed.

(** X12: [getDailyLatestCommits] returns one entry per effective day, in
    strictly increasing order of the dates; a day has an entry exactly when
    some commit is filed under it, and the entry carries the largest
    effective minute of these commits. *)
Theorem getDailyLatestCommits_latest_per_day (commits : list ParsedTimestamp) :
  StronglySorted (fun a b => date a < date b) (getDailyLatestCommits commits)
  /\ forall d v,
       In {| date := d; minutesFromMidnight := v |} (getDailyLatestCommits commits)
       <-> (exists c, In c commits /\ effectiveDate c = d /\ effectiveMinutes c = v)
           /\ (forall c, In c commits -> effectiveDate c = d -> effectiveMinutes c <= v).
Proof.
  split.
  - unfold getDailyLatestCommits. apply strictly_sorted.
    + apply sort_by_date_sorted.
    + apply (Permutation_NoDup (Permutation_map date (Permutation_sym (sort_by_date_perm _)))).
      apply entries_NoDup. apply fold_recordLatest_NoDup. constructor.
  - intros d v. rewrite getDailyLatestCommits_In. split.
    + intros G. split.
      * destruct (fold_recordLatest_origin commits [] d v G) as [G0|H]; [discriminate | exact H].
      * intros c Ic Ec.
        destruct (fold_recordLatest_covers commits [] c Ic) as (v' & G' & Le).
        rewrite Ec, G in G'. injection G' as <-. exact Le.
    + intros [(c & Ic & Ec & Ev) Hmax].
      destruct (fold_recordLatest_covers commits [] c Ic) as (v' & G' & Le).
      rewrite Ec in G'.
      destruct (fold_recordLatest_origin commits [] d v' G') as [G0|(c' & Ic' & Ec' & Ev')];
        [discriminate|].
      pose proof (Hmax c' Ic' Ec'). replace v with v' by lia. exact G'.
Qed.

End DailyExtremes.

(** ** Date maps that keep the best value of each day *)

Section KeepBest.
Import CommitCollector.
Open Scope Z_scope.

Variable C : Type.
Variables key val : C -> Z.
Variable R : Z -> Z -> Prop.
Variable better : Z -> Z -> bool.
Hypothesis R_refl : forall x, R x x.
Hypothesis R_trans : forall x y z, R x y -> R y z -> R x z.
Hypothesis better_true : forall new cur, better new cur = true -> R new cur.
Hypothesis better_false : forall new cur, better new cur = false -> R cur new.

Lemma keepBest_same m c :
  exists v, map_get (keepBest key val better m c) (key c) = Some v /\ R v (val c).
Proof.
  unfold keepBest. destruct (map_get m (key c)) as [cur|] eqn:G.
  - destruct (better (val c) cur) eqn:B.
    + exists (val c). rewrite map_get_set_same. split; [reflexivity | apply R_refl].
    + exists cur. split; [exact G | apply better_false; exact B].
  - exists (val c). rewrite map_get_set_same. split; [reflexivity | apply R_refl].
Qed.

Lemma keepBest_improves m c k v0 :
  map_get m k = Some v0 ->
  exists v, map_get (keepBest key val better m c) k = Some v /\ R v v0.
Proof.
  intros G. unfold keepBest.
  destruct (Z.eq_dec (key c) k) as [E|N].
  - rewrite E, G. destruct (better (val c) v0) eqn:B.
    + exists (val c). rewrite map_get_set_same. split; [reflexivity | apply better_true; exact B].
    + exists v0. split; [exact G | apply R_refl].
  - destruct (map_get m (key c)) as [cur|].
    + destruct (better (val c) cur).
      * exists v0. rewrite map_get_set_other by exact N. split; [exact G | apply R_refl].
      * exists v0. split; [exact G | apply R_refl].
    + exists v0. rewrite map_get_set_other by exact N. split; [exact G | apply R_refl].
Qed.

Lemma fold_keepBest_improves l : forall m k v0,
  map_get m k = Some v0 ->
  exists v, map_get (fold_left (keepBest key val better) l m) k = Some v /\ R v v0.
Proof.
  induction l as [|c r IH]; intros m k v0 G; cbn [fold_left].
  - exists v0. split; [exact G | apply R_refl].
  - destruct (keepBest_improves m c k v0 G) as (v1 & G1 & L1).
    destruct (IH _ _ _ G1) as (v & G2 & L2).
    exists v. split; [exact G2 | apply (R_trans _ _ _ L2 L1)].
Qed.

Lemma fold_keepBest_covers l : forall m c,
  In c l ->
  exists v, map_get (fold_left (keepBest key val better) l m) (key c) = Some v /\ R v (val c).
Proof.
  induction l as [|c0 r IH]; intros m c HIn; cbn [fold_left]; [contradiction|].
  destruct HIn as [E|HIn].
  - subst c0. destruct (keepBest_same m c) as (v1 & G1 & L1).
    destruct (fold_keepBest_improves r _ _ _ G1) as (v & G2 & L2).
    exists v. split; [exact G2 | apply (R_trans _ _ _ L2 L1)].
  - apply IH. exact HIn.
Qed.

Lemma fold_keepBest_origin l : forall m k v,
  map_get (fold_left (keepBest key val better) l m) k = Some v ->
  map_get m k = Some v \/ exists c, In c l /\ key c = k /\ val c = v.
Proof.
  induction l as [|c0 r IH]; intros m k v G; cbn [fold_left] in G.
  - left. exact G.
  - destruct (IH _ _ _ G) as [G1|(c & I & E1 & E2)].
    + unfold keepBest in G1.
      assert (S : map_get (map_set m (key c0) (val c0)) k = Some v ->
                  map_get m k = Some v
                  \/ exists c, In c (c0 :: r) /\ key c = k /\ val c = v).
      { intros G'. destruct (Z.eq_dec (key c0) k) as [E|N].
        - rewrite E, map_get_set_same in G'. injection G' as G'.
          right. exists c0. split; [left; reflexivity | split; assumption].
        - rewrite map_get_set_other in G' by exact N. left. exact G'. }
      destruct (map_get m (key c0)) as [cur|].
      * destruct (better (val c0) cur); [apply S; exact G1 | left; exact G1].
      * apply S. exact G1.
    + right. exists c. split; [right; exact I | split; assumption].
Qed.

Lemma fold_keepBest_NoDup l : forall m,
  NoDup (map fst m) -> NoDup (map fst (fold_left (keepBest key val better) l m)).
Proof.
  induction l as [|c r IH]; intros m ND; cbn [fold_left]; [exact ND|].
  apply IH. unfold keepBest.
  destruct (map_get m (key c)) as [cur|].
  - destruct (better (val c) cur); [apply map_set_NoDup|]; exact ND.
  - apply map_set_NoDup. exact ND.
Qed.

(** The map after the loop: a day is held exactly when an element is
    filed under it, with the best value of these elements. *)
Lemma fold_keepBest_spec l k v :
  (forall x y, R x y -> R y x -> x = y) ->
  map_get (fold_left (keepBest key val better) l []) k = Some v
  <-> (exists c, In c l /\ key c = k /\ val c = v)
      /\ (forall c, In c l -> key c = k -> R v (val c)).
Proof.
  intros R_anti. split.
  - intros G. split.
    + destruct (fold_keepBest_origin l [] k v G) as [G0|H]; [discriminate | exact H].
    + intros c Ic Ec.
      destruct (fold_keepBest_covers l [] c Ic) as (v' & G' & Le).
      rewrite Ec, G in G'. injection G' as <-. exact Le.
  - intros [(c & Ic & Ec & Ev) Hbest].
    destruct (fold_keepBest_covers l [] c Ic) as (v' & G' & Le).
    rewrite Ec in G'.
    destruct (fold_keepBest_origin l [] k v' G') as [G0|(c' & Ic' & Ec' & Ev')];
      [discriminate|].
    pose proof (Hbest c' Ic' Ec') as B. rewrite Ev' in B. rewrite Ev in Le.
    rewrite (R_anti v v' B Le). exact G'.
Qed.

End KeepBest.

Section DailyFirstCommits.
Import DailyFirst.
Open Scope Z_scope.

Lemma recordEarliest_keepBest :
  recordEarliest
  = keepBest CommitCollector.dateKey clockMinutes (fun new cur => new <? cur).
Proof. reflexivity. Qed.

Lemma earliest_insert_perm e l : Permutation (insert_by_date e l) (e :: l).
Proof.
  induction l as [|h t IH]; [reflexivity|].
  cbn [insert_by_date]. destruct (date e <? date h); [reflexivity|].
  rewrite IH. apply perm_swap.
Qed.

Lemma earliest_sort_perm l : Permutation (sort_by_date l) l.
Proof.
  induction l as [|e l IH]; [reflexivity|].
  cbn [sort_by_date fold_right]. fold (sort_by_date l).
  rewrite earliest_insert_perm. constructor. exact IH.
Qed.

Lemma earliest_insert_sorted e l :
  Sorted (fun a b => date a <= date b) l ->
  Sorted (fun a b => date a <= date b) (insert_by_date e l).
Proof.
  induction l as [|h t IH]; intros S; [repeat constructor|].
  cbn [insert_by_date]. destruct (Z.ltb_spec (date e) (date h)) as [L|L].
  - constructor; [exact S|]. constructor. lia.
  - inversion S as [|? ? St Hh]; subst. constructor; [apply IH; exact St|].
    destruct t as [|h' t']; cbn [insert_by_date].
    + constructor. exact L.
    + destruct (date e <? date h'); constructor; [exact L|].
      inversion Hh; assumption.
Qed.

Lemma earliest_sort_sorted l : Sorted (fun a b => date a <= date b) (sort_by_date l).
Proof.
  induction l as [|e l IH]; [constructor|].
  cbn [sort_by_date fold_right]. apply earliest_insert_sorted. exact IH.
Qed.

Lemma earliest_strictly_sorted (l : list DailyFirstCommit) :
  Sorted (fun a b => date a <= date b) l -> NoDup (map date l) ->
  StronglySorted (fun a b => date a < date b) l.
Proof.
  intros S N.
  assert (T : Transitive (fun a b : DailyFirstCommit => date a <= date b))
    by (intros x y z; lia).
  apply (Sorted_StronglySorted T) in S.
  induction S as [|a l Sl IH Fa]; [constructor|].
  cbn [map] in N. inversion N as [|? ? Na Nl]; subst.
  constructor; [apply IH; exact Nl|].
  rewrite Forall_forall in Fa |- *. intros b Ib.
  pose proof (Fa b Ib) as Le.
  assert (date a <> date b); [|lia].
  intros E. apply Na. rewrite E. apply in_map. exact Ib.
Qed.

Lemma earliest_entries_NoDup (m : CommitCollector.DateMap) :
  NoDup (map fst m) ->
  NoDup (map date (map (fun '(d, v) => {| date := d; minutesFromMidnight := v |}) m)).
Proof.
  intros N. rewrite map_map.
  replace (map (fun x : Z * Z => date (let '(d, v) := x in
                                       {| date := d; minutesFromMidnight := v |})) m)
    with (map fst m); [exact N|].
  apply map_ext. intros [d v]. reflexivity.
Qed.

Lemma earliest_sort_In e l : In e (sort_by_date l) <-> In e l.
Proof.
  split; apply Permutation_in;
    [apply earliest_sort_perm | apply Permutation_sym, earliest_sort_perm].
Qed.

Lemma getDailyFirstCommits_In commits d v :
  In {| date := d; minutesFromMidnight := v |} (getDailyFirstCommits commits)
  <-> CommitCollector.map_get (fold_left recordEarliest commits []) d = Some v.
Proof.
  unfold getDailyFirstCommits. rewrite earliest_sort_In, in_map_iff. split.
  - intros ([k w] & E & HIn). injection E as E1 E2. subst.
    apply map_In_get; [|exact HIn].
    rewrite recordEarliest_keepBest. apply fold_keepBest_NoDup. constructor.
  - intros G. exists (d, v). split; [reflexivity | apply map_get_In; exact G].
Qed.

Lemma earliest_of_day commits d v :
  In {| date := d; minutesFromMidnight := v |} (getDailyFirstCommits commits)
  <-> (exists c, In c commits /\ CommitCollector.dateKey c = d /\ clockMinutes c = v)
      /\ (forall c, In c commits -> CommitCollector.dateKey c = d -> v <= clockMinutes c).
Proof.
  rewrite getDailyFirstCommits_In, recordEarliest_keepBest.
  apply (fold_keepBest_spec _ _ _ Z.le).
  - intros x. lia.
  - intros x y z. lia.
  - intros new cur H. apply Z.ltb_lt in H. lia.
  - intros new cur H. apply Z.ltb_ge in H. exact H.
  - intros x y. lia.
Qed.

Lemma latest_of_day commits d v :
  In {| CommitCollector.date := d; CommitCollector.minutesFromMidnight := v |}
     (CommitCollector.getDailyLatestCommits commits)
  -> (exists c, In c commits /\ effectiveDate c = d /\ effectiveMinutes c = v)
     /\ (forall c, In c commits -> effectiveDate c = d -> effectiveMinutes c <= v).
Proof.
  rewrite getDailyLatestCommits_In. intros G. split.
  - destruct (fold_recordLatest_origin commits [] d v G) as [G0|H]; [discriminate | exact H].
  - intros c Ic Ec.
    destruct (fold_recordLatest_covers commits [] c Ic) as (v' & G' & Le).
    rewrite Ec, G in G'. injection G' as <-. exact Le.
Qed.

(** X13: [getDailyFirstCommits] returns one entry per calendar day, in
    strictly increasing order of the dates; a day has an entry exactly when
    some commit was made on it, and the entry carries the smallest minute
    of the day of these commits (no shift of the hours before 06:00). *)
Theorem getDailyFirstCommits_earliest_per_day
    (commits : list CommitCollector.ParsedTimestamp) :
  StronglySorted (fun a b => date a < date b) (getDailyFirstCommits commits)
  /\ forall d v,
       In {| date := d; minutesFromMidnight := v |} (getDailyFirstCommits commits)
       <-> (exists c, In c commits /\ CommitCollector.dateKey c = d
                      /\ CommitCollector.hour c * 60 + CommitCollector.minute c = v)
           /\ (forall c, In c commits -> CommitCollector.dateKey c = d ->
                         v <= CommitCollector.hour c * 60 + CommitCollector.minute c).
Proof.
  split.
  - unfold getDailyFirstCommits. apply earliest_strictly_sorted.
    + apply earliest_sort_sorted.
    + apply (Permutation_NoDup (Permutation_map date (Permutation_sym (earliest_sort_perm _)))).
      apply earliest_entries_NoDup. rewrite recordEarliest_keepBest.
      apply fold_keepBest_NoDup. constructor.
  - intros d v. apply earliest_of_day.
Qed.

(** X14: on the two daily lists built from one list of commits with clock
    times in range, the first commit of a day is never after the latest
    one of the same day; the latest minute lies between 06:00 and 29:59,
    so a day's span is below 30 hours. *)
Theorem first_commit_not_after_latest
    (commits : list CommitCollector.ParsedTimestamp) (d f l : Z) :
  (forall c, In c commits ->
     0 <= CommitCollector.hour c < 24 /\ 0 <= CommitCollector.minute c < 60) ->
  In {| date := d; minutesFromMidnight := f |} (getDailyFirstCommits commits) ->
  In {| CommitCollector.date := d; CommitCollector.minutesFromMidnight := l |}
     (CommitCollector.getDailyLatestCommits commits) ->
  0 <= f <= l /\ 360 <= l < 1800 /\ f < 1440.
Proof.
  intros Hclock Hf Hl.
  apply earliest_of_day in Hf. destruct Hf as [(c1 & I1 & D1 & V1) Hmin].
  apply latest_of_day in Hl. destruct Hl as [(c2 & I2 & D2 & V2) Hmax].
  pose proof (Hclock c1 I1) as K1. pose proof (Hclock c2 I2) as K2.
  pose proof (Hmax c1 I1) as M1. pose proof (Hmin c2 I2) as M2.
  unfold effectiveDate, effectiveMinutes, clockMinutes in *.
  destruct (Z.leb_spec 0 (CommitCollector.hour c1));
    destruct (Z.ltb_spec (CommitCollector.hour c1) 6);
    destruct (Z.leb_spec 0 (CommitCollector.hour c2));
    destruct (Z.ltb_spec (CommitCollector.hour c2) 6);
    cbn [andb] in *; lia.
Qed.

Lemma first_commit_not_after_latest_witness :
  0 <= 125 <= 1470 /\ 360 <= 1470 < 1800 /\ 125 < 1440.
Proof.
  apply (first_commit_not_after_latest
           [ {| CommitCollector.dateKey := 7; CommitCollector.hour := 22;
                CommitCollector.minute := 10 |};
             {| CommitCollector.dateKey := 7; CommitCollector.hour := 2;
                CommitCollector.minute := 5 |};
             {| CommitCollector.dateKey := 8; CommitCollector.hour := 0;
                CommitCollector.minute := 30 |} ] 7 125 1470).
  - intros c [<-|[<-|[<-|[]]]]; cbn; lia.
  - vm_compute. left. reflexivity.
  - vm_compute. right. left. reflexivity.
Defined.

End DailyFirstCommits.

(** ** Work spans of the trend analysis *)

Section WorkSpans.
Import TrendAnalyzer.
Open Scope Q_scope.

(** [(last - first) / 60] lies in [0, 24] exactly when the difference in
    minutes lies in [0, 1440]. *)
Lemma span_hours_test (f l : Z) :
  (Z.abs (l - f) < 2 ^ 40)%Z ->
  (let spanHours := div (sub (int l) (int f)) (int 60) in
   ge spanHours (int 0) && le spanHours (int 24))
  = ((f <=? l) && (l - f <=? 1440))%Z.
Proof.
  intros H. cbv zeta. rewrite sub_int by lia. rewrite div_int by lia.
  set (d := (l - f)%Z) in *.
  replace (f <=? l)%Z with (0 <=? d)%Z
    by (unfold d; destruct (Z.leb_spec 0 (l - f)); destruct (Z.leb_spec f l); try reflexivity; lia).
  set (q := inject_Z d / inject_Z 60).
  assert (Bq : inject_Z (- 2 ^ 40) <= q /\ q <= inject_Z (2 ^ 40)).
  { unfold q. split.
    - apply Qle_shift_div_l; [reflexivity|].
      rewrite <- inject_Z_mult, <- Zle_Qle. lia.
    - apply Qle_shift_div_r; [reflexivity|].
      rewrite <- inject_Z_mult, <- Zle_Qle. lia. }
  destruct (rnd_fin_between q (- 2 ^ 40) (2 ^ 40)) as (F & _ & _); try lia; try tauto.
  rewrite F. unfold ge, le, int.
  destruct (Z.leb_spec 0 d) as [P|N].
  - assert (L0 : 0 <= q).
    { unfold q. apply Qle_shift_div_l; [reflexivity|].
      change (0 * inject_Z 60) with (inject_Z 0). rewrite <- Zle_Qle. exact P. }
    destruct (rnd_q_between q (inject_Z 0) (inject_Z (2 ^ 40))) as [A _];
      [apply representable_Z; lia | apply representable_Z; lia | exact L0 | tauto |].
    replace (Qle_bool (inject_Z 0) (rnd_q q)) with true
      by (symmetry; apply Qle_bool_iff; exact A).
    cbn [andb].
    destruct (Z.leb_spec d 1440) as [U|U].
    + assert (L1 : q <= inject_Z 24).
      { unfold q. apply Qle_shift_div_r; [reflexivity|].
        rewrite <- inject_Z_mult, <- Zle_Qle. lia. }
      destruct (rnd_q_between q (inject_Z 0) (inject_Z 24)) as [_ B];
        [apply representable_Z; lia | apply representable_Z; lia | exact L0 | exact L1 |].
      apply Qle_bool_iff. exact B.
    + assert (L1 : inject_Z 1537 * pow2 (-6) <= q).
      { unfold q. apply Qle_shift_div_l; [reflexivity|].
        change (pow2 (-6)) with (1 # 64).
        assert (inject_Z 1441 <= inject_Z d) by (rewrite <- Zle_Qle; lia).
        change (inject_Z 1537) with 1537. change (inject_Z 60) with 60.
        change (inject_Z 1441) with 1441 in *. lra. }
      destruct (rnd_q_between q (inject_Z 1537 * pow2 (-6)) (inject_Z (2 ^ 40))) as [B _];
        [apply representable_dyadic; lia | apply representable_Z; lia | exact L1 | tauto |].
      destruct (Qle_bool (rnd_q q) (inject_Z 24)) eqn:E; [|reflexivity].
      apply Qle_bool_iff in E. change (pow2 (-6)) with (1 # 64) in B.
      change (inject_Z 1537) with 1537 in B. change (inject_Z 24) with 24 in E. lra.
  - assert (L1 : q <= inject_Z (-1) * pow2 (-6)).
    { unfold q. apply Qle_shift_div_r; [reflexivity|].
      change (pow2 (-6)) with (1 # 64).
      assert (inject_Z d <= inject_Z (-1)) by (rewrite <- Zle_Qle; lia).
      change (inject_Z (-1)) with (-1) in *. change (inject_Z 60) with 60. lra. }
    destruct (rnd_q_between q (inject_Z (- 2 ^ 40)) (inject_Z (-1) * pow2 (-6))) as [_ B];
      [apply representable_Z; lia | apply representable_dyadic; lia | tauto | exact L1 |].
    destruct (Qle_bool (inject_Z 0) (rnd_q q)) eqn:E; [|reflexivity].
    apply Qle_bool_iff in E. change (pow2 (-6)) with (1 # 64) in B.
    change (inject_Z (-1)) with (-1) in B. change (inject_Z 0) with 0 in E. lra.
Qed.

Lemma keepBest_always {C : Type} (key val : C -> Z) m c :
  keepBest key val (fun _ _ => true) m c = CommitCollector.map_set m (key c) (val c).
Proof. unfold keepBest. destruct (CommitCollector.map_get m (key c)); reflexivity. Qed.

Lemma NoDup_map_inj {A B : Type} (f : A -> B) (l : list A) a b :
  NoDup (map f l) -> In a l -> In b l -> f a = f b -> a = b.
Proof.
  induction l as [|x l IH]; intros N Ia Ib E; [contradiction|].
  cbn [map] in N. inversion N as [|? ? Nx Nl]; subst.
  destruct Ia as [<-|Ia]; destruct Ib as [<-|Ib].
  - reflexivity.
  - exfalso. apply Nx. rewrite E. apply in_map. exact Ib.
  - exfalso. apply Nx. rewrite <- E. apply in_map. exact Ia.
  - apply IH; assumption.
Qed.

(** The map [latestCommitMap] holds the entries of the list when no date
    occurs twice in it. *)
Lemma latestCommitMap_get (latests : list CommitCollector.DailyLatestCommit) d l :
  NoDup (map CommitCollector.date latests) ->
  CommitCollector.map_get
    (fold_left
       (fun m commit =>
          CommitCollector.map_set m (CommitCollector.date commit)
            (CommitCollector.minutesFromMidnight commit))
       latests []) d = Some l
  <-> In {| CommitCollector.date := d; CommitCollector.minutesFromMidnight := l |} latests.
Proof.
  intros N.
  rewrite (fold_left_ext _
             (keepBest CommitCollector.date CommitCollector.minutesFromMidnight
                (fun _ _ => true)))
    by (intros m c; symmetry; apply keepBest_always).
  split.
  - intros G.
    destruct (fold_keepBest_origin _ _ _ _ latests [] d l G) as [G0|(c & I & E1 & E2)];
      [discriminate|].
    destruct c as [cd cm]. cbn in E1, E2. subst. exact I.
  - intros I.
    destruct (fold_keepBest_covers _ CommitCollector.date CommitCollector.minutesFromMidnight
                (fun _ _ => True) (fun _ _ => true)
                (fun _ => Logic.I) (fun _ _ _ _ _ => Logic.I)
                (fun _ _ _ => Logic.I) (fun _ _ _ => Logic.I) latests [] _ I)
      as (v & G & _).
    cbn in G.
    destruct (fold_keepBest_origin _ _ _ _ latests [] d v G) as [G0|(c & Ic & E1 & E2)];
      [discriminate|].
    assert (E : c = {| CommitCollector.date := d; CommitCollector.minutesFromMidnight := l |}).
    { apply (NoDup_map_inj CommitCollector.date latests); [exact N | exact Ic | exact I | exact E1]. }
    subst c. cbn in E2. rewrite G, <- E2. reflexivity.
Qed.

Lemma fold_left_append {A B : Type} (g : A -> list B) l : forall acc,
  fold_left (fun spans x => spans ++ g x) l acc = acc ++ flat_map g l.
Proof.
  induction l as [|x l IH]; intros acc; cbn [fold_left flat_map].
  - rewrite app_nil_r. reflexivity.
  - rewrite IH, app_assoc. reflexivity.
Qed.

(** X15: when no date occurs twice among the latest commits, the work
    spans are exactly the days that have a first and a latest entry with
    [0 <= latest - first <= 1440] minutes; each span carries the two
    minutes of its day, their difference in hours and a commit count of 1,
    and there are at most as many spans as first entries. *)
Theorem calculateWorkSpansFromData_spans
    (firsts : list DailyFirstCommit) (latests : list CommitCollector.DailyLatestCommit) :
  NoDup (map CommitCollector.date latests) ->
  (forall e, In e firsts -> (0 <= firstMinutes e < 2 ^ 39)%Z) ->
  (forall e, In e latests -> (0 <= CommitCollector.minutesFromMidnight e < 2 ^ 39)%Z) ->
  (List.length (calculateWorkSpansFromData firsts latests) <= List.length firsts)%nat
  /\ forall s,
       In s (calculateWorkSpansFromData firsts latests)
       <-> exists fc l,
             In fc firsts
             /\ In {| CommitCollector.date := firstDate fc;
                      CommitCollector.minutesFromMidnight := l |} latests
             /\ (firstMinutes fc <= l <= firstMinutes fc + 1440)%Z
             /\ s = {| date := firstDate fc;
                       firstCommitMinutes := firstMinutes fc;
                       lastCommitMinutes := l;
                       spanHours := div (sub (int l) (int (firstMinutes fc))) (int 60);
                       commitCount := 1 |}.
Proof.
  intros N Hf Hl.
  set (latestCommitMap :=
         fold_left
           (fun m commit =>
              CommitCollector.map_set m (CommitCollector.date commit)
                (CommitCollector.minutesFromMidnight commit))
           latests []).
  set (g := fun fc : DailyFirstCommit =>
              match CommitCollector.map_get latestCommitMap (firstDate fc) with
              | None => []
              | Some l =>
                  if ((firstMinutes fc <=? l) && (l - firstMinutes fc <=? 1440))%Z
                  then [{| date := firstDate fc;
                           firstCommitMinutes := firstMinutes fc;
                           lastCommitMinutes := l;
                           spanHours := div (sub (int l) (int (firstMinutes fc))) (int 60);
                           commitCount := 1 |}]
                  else []
              end).
  assert (Hget : forall d l, CommitCollector.map_get latestCommitMap d = Some l ->
                   In {| CommitCollector.date := d; CommitCollector.minutesFromMidnight := l |}
                      latests).
  { intros d l G. apply latestCommitMap_get; assumption. }
  assert (E : calculateWorkSpansFromData firsts latests = flat_map g firsts).
  { unfold calculateWorkSpansFromData. fold latestCommitMap.
    assert (S : forall l acc,
               (forall e, In e l -> In e firsts) ->
               fold_left
                 (fun spans firstCommit =>
                    match CommitCollector.map_get latestCommitMap (firstDate firstCommit) with
                    | None => spans
                    | Some lastCommitMinutes =>
                        let firstCommitMinutes := firstMinutes firstCommit in
                        let spanHours :=
                          div (sub (int lastCommitMinutes) (int firstCommitMinutes)) (int 60) in
                        if ge spanHours (int 0) && le spanHours (int 24)
                        then spans ++ [{| date := firstDate firstCommit;
                                          firstCommitMinutes := firstCommitMinutes;
                                          lastCommitMinutes := lastCommitMinutes;
                                          spanHours := spanHours;
                                          commitCount := 1 |}]
                        else spans
                    end) l acc
               = acc ++ flat_map g l).
    { induction l as [|x l IH]; intros acc Sub; cbn [fold_left flat_map].
      - rewrite app_nil_r. reflexivity.
      - rewrite IH by (intros e I; apply Sub; right; exact I).
        rewrite app_assoc. f_equal. unfold g.
        destruct (CommitCollector.map_get latestCommitMap (firstDate x)) as [l0|] eqn:G;
          [|rewrite app_nil_r; reflexivity].
        cbv zeta. rewrite span_hours_test.
        + destruct ((firstMinutes x <=? l0) && (l0 - firstMinutes x <=? 1440))%Z;
            [reflexivity | rewrite app_nil_r; reflexivity].
        + pose proof (Hf x (Sub x (or_introl eq_refl))) as B1.
          pose proof (Hl _ (Hget _ _ G)) as B2. cbn in B2.
          change (2 ^ 39)%Z with 549755813888%Z in *.
          change (2 ^ 40)%Z with 1099511627776%Z. lia. }
    apply (S firsts []). intros e I. exact I. }
  rewrite E. split.
  - clear. induction firsts as [|x l IH]; cbn [flat_map List.length]; [lia|].
    rewrite length_app. unfold g at 1.
    destruct (CommitCollector.map_get latestCommitMap (firstDate x)) as [l0|];
      [destruct ((firstMinutes x <=? l0) && (l0 - firstMinutes x <=? 1440))%Z|];
      cbn [List.length]; lia.
  - intros s. rewrite in_flat_map. split.
    + intros (fc & I & Is). unfold g in Is.
      destruct (CommitCollector.map_get latestCommitMap (firstDate fc)) as [l0|] eqn:G;
        [|contradiction].
      destruct ((firstMinutes fc <=? l0) && (l0 - firstMinutes fc <=? 1440))%Z eqn:T;
        [|contradiction].
      destruct Is as [<-|[]]. exists fc, l0.
      apply andb_prop in T. destruct T as [T1 T2].
      apply Z.leb_le in T1, T2.
      split; [exact I|]. split; [apply Hget; exact G|]. split; [lia | reflexivity].
    + intros (fc & l0 & I & Il & R & ->). exists fc. split; [exact I|].
      unfold g. apply latestCommitMap_get in Il; [|exact N].
      fold latestCommitMap in Il. rewrite Il.
      replace ((firstMinutes fc <=? l0) && (l0 - firstMinutes fc <=? 1440))%Z with true.
      * left. reflexivity.
      * symmetry. apply andb_true_intro. split; apply Z.leb_le; lia.
Qed.

Lemma calculateWorkSpansFromData_spans_witness :
  let firsts := [ Build_DailyFirstCommit 7 125; Build_DailyFirstCommit 8 540 ] in
  let latests :=
    [ {| CommitCollector.date := 6; CommitCollector.minutesFromMidnight := 1565 |};
      {| CommitCollector.date := 7; CommitCollector.minutesFromMidnight := 1470 |} ] in
  (List.length (calculateWorkSpansFromData firsts latests) <= List.length firsts)%nat.
Proof.
  intros firsts latests.
  refine (proj1 (calculateWorkSpansFromData_spans firsts latests _ _ _)).
  - repeat constructor; cbn; intuition discriminate.
  - intros e [<-|[<-|[]]]; cbn; lia.
  - intros e [<-|[<-|[]]]; cbn; lia.
Defined.

End WorkSpans.

(** ** Overtime per weekday *)

Section WeekdayOvertime.
Import OvertimeAnalyzer.
Open Scope Z_scope.

Lemma overtimeOn_bounds d e rows :
  Forall (fun row => 0 <= snd row) rows ->
  0 <= overtimeOn d e rows <= totalOfRows rows.
Proof.
  induction 1 as [|[[w h] c] r Hc _ IH]; cbn [overtimeOn totalOfRows]; [lia|].
  cbn [snd] in Hc. destruct ((w =? d) && (e <=? h)); lia.
Qed.

(** The loop over the rows, from counters that hold integers. *)
Lemma weekday_loop (e : Z) (rows : list (Z * Z * Z)) : forall a1 a2 a3 a4 a5,
  Forall (fun row => 0 <= snd row) rows ->
  0 <= a1 -> 0 <= a2 -> 0 <= a3 -> 0 <= a4 -> 0 <= a5 ->
  a1 + a2 + a3 + a4 + a5 + totalOfRows rows < 2 ^ 53 ->
  fold_left
    (fun acc commit =>
       if (1 <=? DayHourCommit.weekday commit) && (DayHourCommit.weekday commit <=? 5)
       then
         if ge (int (DayHourCommit.hour commit)) (int e)
         then add_to_day acc (DayHourCommit.weekday commit) (DayHourCommit.count commit)
         else acc
       else acc)
    (dayHourCommits rows)
    {| monday := int a1; tuesday := int a2; wednesday := int a3;
       thursday := int a4; friday := int a5 |}
  = {| monday := int (a1 + overtimeOn 1 e rows);
       tuesday := int (a2 + overtimeOn 2 e rows);
       wednesday := int (a3 + overtimeOn 3 e rows);
       thursday := int (a4 + overtimeOn 4 e rows);
       friday := int (a5 + overtimeOn 5 e rows) |}.
Proof.
  induction rows as [|[[w h] c] r IH]; intros a1 a2 a3 a4 a5 Hc P1 P2 P3 P4 P5 B.
  - cbn [dayHourCommits map fold_left overtimeOn]. rewrite !Z.add_0_r. reflexivity.
  - inversion Hc as [|? ? Hc0 Hr]; subst. cbn [snd] in Hc0.
    cbn [totalOfRows] in B.
    pose proof (overtimeOn_bounds 1 e r Hr) as T1.
    cbn [dayHourCommits map fold_left overtimeOn
         DayHourCommit.weekday DayHourCommit.hour DayHourCommit.count].
    fold (dayHourCommits r).
    unfold ge. rewrite le_int.
    destruct (Z.leb_spec e h) as [Eh|Eh]; rewrite ?andb_true_r, ?andb_false_r.
    + destruct (Z.eq_dec w 1) as [->|N1];
        [|destruct (Z.eq_dec w 2) as [->|N2];
          [|destruct (Z.eq_dec w 3) as [->|N3];
            [|destruct (Z.eq_dec w 4) as [->|N4];
              [|destruct (Z.eq_dec w 5) as [->|N5]]]]].
      1-5: cbn [Z.leb Z.compare Pos.compare Pos.compare_cont andb add_to_day Z.eqb Pos.eqb
                monday tuesday wednesday thursday friday];
           rewrite add_int by lia; rewrite IH by (try assumption; lia);
           rewrite ?Z.add_0_l; f_equal; f_equal; lia.
      replace (w =? 1) with false by (symmetry; apply Z.eqb_neq; exact N1).
      replace (w =? 2) with false by (symmetry; apply Z.eqb_neq; exact N2).
      replace (w =? 3) with false by (symmetry; apply Z.eqb_neq; exact N3).
      replace (w =? 4) with false by (symmetry; apply Z.eqb_neq; exact N4).
      replace (w =? 5) with false by (symmetry; apply Z.eqb_neq; exact N5).
      rewrite !Z.add_0_l.
      destruct ((1 <=? w) && (w <=? 5)) eqn:T.
      * apply andb_prop in T. destruct T as [T1' T2']. apply Z.leb_le in T1', T2'. lia.
      * apply IH; try assumption. lia.
    + rewrite !Z.add_0_l.
      destruct ((1 <=? w) && (w <=? 5)); apply IH; try assumption; lia.
Qed.

(** The [reduce] that picks the entry with the largest count, the first
    one on ties. *)
Lemma peak_of_counts (v1 v2 v3 v4 v5 : Z) :
  let c := {| monday := int v1; tuesday := int v2; wednesday := int v3;
              thursday := int v4; friday := int v5 |} in
  let value d := match d with
                 | Monday => v1 | Tuesday => v2 | Wednesday => v3
                 | Thursday => v4 | Friday => v5
                 end in
  let maxEntry :=
    fold_left (fun max curr => if gt (snd curr) (snd max) then curr else max)
              (entries c) (Monday, monday c) in
  snd maxEntry = int (value (fst maxEntry))
  /\ forall d, value d <= value (fst maxEntry)
               /\ (value d = value (fst maxEntry) -> dayIndex (fst maxEntry) <= dayIndex d).
Proof.
  cbv zeta. unfold entries. cbn [fold_left monday tuesday wednesday thursday friday snd fst].
  unfold gt. rewrite !lt_int.
  replace (v1 <? v1) with false by (symmetry; apply Z.ltb_irrefl).
  cbn [snd fst]. rewrite ?lt_int.
  repeat (match goal with
          | |- context [if (?a <? ?b) then _ else _] =>
              is_var a; is_var b; destruct (Z.ltb_spec a b)
          end; cbn [snd fst]; rewrite ?lt_int).
  all: split; [reflexivity|]; intros []; cbn [dayIndex]; lia.
Qed.

(** X16: with integer counts, each weekday counter of
    [calculateWeekdayOvertime] is the number of commits of that weekday
    whose hour is at least the end hour rounded up to a whole hour (rows
    with a weekday outside 1..5 are ignored; neither the start hour nor
    the nine-hour cap of the working span takes part); the peak day is the
    first weekday, from Monday, that reaches the largest counter. *)
Theorem calculateWeekdayOvertime_sums
    (rows : list (Z * Z * Z)) (workTime : WorkTimeDetectionResult) (q : Q) :
  endHour workTime = Fin q ->
  Forall (fun row => 0 <= snd row) rows ->
  totalOfRows rows < 2 ^ 53 ->
  let r := calculateWeekdayOvertime (dayHourCommits rows) workTime in
  let on d := overtimeOn (dayIndex d) (Qceiling q) rows in
  counts r = {| monday := int (on Monday); tuesday := int (on Tuesday);
                wednesday := int (on Wednesday); thursday := int (on Thursday);
                friday := int (on Friday) |}
  /\ peakCount r = int (on (peakDay r))
  /\ forall d, on d <= on (peakDay r)
               /\ (on d = on (peakDay r) -> dayIndex (peakDay r) <= dayIndex d).
Proof.
  intros He Hc B. cbv zeta.
  unfold calculateWeekdayOvertime. rewrite He. cbn [Math_ceil].
  rewrite (weekday_loop (Qceiling q) rows 0 0 0 0 0) by (try assumption; lia).
  rewrite !Z.add_0_l.
  cbn [counts peakDay peakCount dayIndex].
  split; [reflexivity|].
  pose proof (peak_of_counts (overtimeOn 1 (Qceiling q) rows) (overtimeOn 2 (Qceiling q) rows)
                (overtimeOn 3 (Qceiling q) rows) (overtimeOn 4 (Qceiling q) rows)
                (overtimeOn 5 (Qceiling q) rows)) as P.
  cbv zeta in P. destruct P as [P1 P2].
  set (m := fold_left _ _ _) in *.
  split.
  - rewrite P1. destruct (fst m); reflexivity.
  - intros d. specialize (P2 d).
    destruct d; destruct (fst m); cbn [dayIndex] in *; exact P2.
Qed.

Lemma calculateWeekdayOvertime_sums_witness :
  let rows := [(1, 19, 4); (1, 17, 9); (3, 20, 4); (6, 22, 50); (3, 18, 0)] in
  let workTime :=
    {| startHour := Fin (19 # 2); endHour := Fin (37 # 2); isReliable := true;
       sampleCount := int (-1); detectionMethod := Manual;
       confidence := int 100; startHourRange := None; endHourRange := None;
       endDetectionMethod := Some EndManual |} in
  let r := calculateWeekdayOvertime (dayHourCommits rows) workTime in
  peakCount r = int (overtimeOn (dayIndex (peakDay r)) (Qceiling (37 # 2)) rows).
Proof.
  intros rows workTime.
  refine (proj1 (proj2 (calculateWeekdayOvertime_sums rows workTime (37 # 2) _ _ _))).
  - reflexivity.
  - repeat constructor; cbn; lia.
  - vm_compute. reflexivity.
Defined.

End WeekdayOvertime.

(** ** Late-night analysis *)

Section LateNightTallies.
Import LateNight.

(** [Math.floor(minutes / 60)] is the integer quotient: the quotient is at
    most 59/60 above it, and so is its rounding. *)
Lemma floor_div_60 (a : Z) :
  (0 <= a < 2 ^ 40)%Z -> Math_floor (div (int a) (int 60)) = int (a / 60).
Proof.
  intros Ha. rewrite div_int by lia.
  set (k := (a / 60)%Z).
  assert (Hk : (0 <= k < 2 ^ 40)%Z).
  { unfold k. split.
    - apply Z.div_pos; lia.
    - apply Z.div_lt_upper_bound; lia. }
  assert (Hdiv : (60 * k <= a /\ a <= 60 * k + 59)%Z).
  { unfold k. pose proof (Z.mul_div_le a 60 ltac:(lia)).
    pose proof (Z.mul_succ_div_gt a 60 ltac:(lia)). lia. }
  assert (A1 : inject_Z 60 * inject_Z k <= inject_Z a
               /\ inject_Z a <= inject_Z 60 * inject_Z k + inject_Z 59).
  { rewrite <- inject_Z_mult, <- inject_Z_plus, <- !Zle_Qle. exact Hdiv. }
  assert (Pk : 0 <= inject_Z k) by (change 0 with (inject_Z 0); rewrite <- Zle_Qle; lia).
  change (inject_Z 60) with 60 in *. change (inject_Z 59) with 59 in *.
  assert (L : inject_Z k <= inject_Z a / 60).
  { apply Qle_shift_div_l; [reflexivity|]. lra. }
  assert (U : inject_Z a / 60 <= inject_Z (64 * k + 63) * pow2 (-6)).
  { apply Qle_shift_div_r; [reflexivity|].
    rewrite inject_Z_plus, inject_Z_mult.
    change (pow2 (-6)) with (1 # 64). change (inject_Z 64) with 64. change (inject_Z 63) with 63.
    lra. }
  destruct (rnd_q_between (inject_Z a / 60) (inject_Z k)
              (inject_Z (64 * k + 63) * pow2 (-6))) as [A B].
  - apply representable_Z. lia.
  - apply representable_dyadic; lia.
  - exact L.
  - exact U.
  - assert (B' : rnd_q (inject_Z a / 60) < inject_Z k + 1).
    { eapply Qle_lt_trans; [exact B|].
      rewrite inject_Z_plus, inject_Z_mult.
      change (pow2 (-6)) with (1 # 64). change (inject_Z 64) with 64.
      change (inject_Z 63) with 63. lra. }
    assert (Bk : inject_Z k + 1 <= inject_Z (2 ^ 53)).
    { change 1 with (inject_Z 1). rewrite <- inject_Z_plus, <- Zle_Qle. lia. }
    pose proof pow2_1024_big as P.
    rewrite rnd_fin by lra.
    unfold Math_floor, int. f_equal. f_equal.
    apply Qfloor_unique; [exact A | exact B'].
Qed.

Open Scope Z_scope.

(** One step of the loop, on the hour of the entry. *)
Lemma classify_step (e : Z) (acc : Tally) (c : CommitCollector.DailyLatestCommit) :
  0 <= CommitCollector.minutesFromMidnight c < 2 ^ 40 ->
  let h := latestHourOf c in
  classify (int e) acc c
  = if (e <=? h) && (h <? 21) then
      {| tEvening := tEvening acc + 1; tLateNight := tLateNight acc;
         tMidnight := tMidnight acc; tDawn := tDawn acc; tMidnightDays := tMidnightDays acc |}
    else if (21 <=? h) && (h <? 23) then
      {| tEvening := tEvening acc; tLateNight := tLateNight acc + 1;
         tMidnight := tMidnight acc; tDawn := tDawn acc; tMidnightDays := tMidnightDays acc |}
    else if 23 <=? h then
      {| tEvening := tEvening acc; tLateNight := tLateNight acc;
         tMidnight := tMidnight acc + 1; tDawn := tDawn acc;
         tMidnightDays := CommitCollector.date c :: tMidnightDays acc |}
    else if h <? 6 then
      {| tEvening := tEvening acc; tLateNight := tLateNight acc;
         tMidnight := tMidnight acc; tDawn := tDawn acc + 1;
         tMidnightDays := CommitCollector.date c :: tMidnightDays acc |}
    else acc.
Proof.
  intros B. cbv zeta. unfold classify, latestHourOf.
  rewrite floor_div_60 by exact B.
  unfold ge. rewrite !le_int, !lt_int. reflexivity.
Qed.

Lemma hour_tests (e m : Z) :
  0 <= m ->
  (e <=? m / 60) = (e * 60 <=? m) /\ (m / 60 <? 21) = (m <? 1260)
  /\ (21 <=? m / 60) = (1260 <=? m) /\ (m / 60 <? 23) = (m <? 1380)
  /\ (23 <=? m / 60) = (1380 <=? m) /\ (m / 60 <? 6) = (m <? 360).
Proof.
  intros P. pose proof (Z.div_mod m 60 ltac:(lia)) as D.
  pose proof (Z.mod_pos_bound m 60 ltac:(lia)) as R.
  repeat split;
    match goal with
    | |- (?a <=? ?b) = (?c <=? ?d) =>
        destruct (Z.leb_spec a b); destruct (Z.leb_spec c d); try reflexivity; lia
    | |- (?a <? ?b) = (?c <? ?d) =>
        destruct (Z.ltb_spec a b); destruct (Z.ltb_spec c d); try reflexivity; lia
    end.
Qed.

Lemma countIf_length {A : Type} (p : A -> bool) l :
  countIf p l = Z.of_nat (List.length (filter p l)).
Proof.
  induction l as [|a l IH]; cbn [countIf filter]; [reflexivity|].
  destruct (p a); cbn [List.length]; lia.
Qed.

Lemma NoDup_map_filter {A B : Type} (f : A -> B) (p : A -> bool) l :
  NoDup (map f l) -> NoDup (map f (filter p l)).
Proof.
  induction l as [|a l IH]; cbn [map filter]; intros N; [exact N|].
  inversion N as [|? ? Na Nl]; subst.
  destruct (p a); [|apply IH; exact Nl].
  cbn [map]. constructor; [|apply IH; exact Nl].
  intros I. apply Na. apply in_map_iff in I. destruct I as (x & E & Ix).
  apply filter_In in Ix. apply in_map_iff. exists x. tauto.
Qed.

(** The loop over the latest commits, by the minute of each entry. *)
Lemma late_night_loop (e : Z) (l : list CommitCollector.DailyLatestCommit) : forall acc,
  (forall c, In c l -> 0 <= CommitCollector.minutesFromMidnight c < 2 ^ 40) ->
  let m := CommitCollector.minutesFromMidnight in
  let t := fold_left (classify (int e)) l acc in
  tEvening t = tEvening acc + countIf (fun c => (e * 60 <=? m c) && (m c <? 1260)) l
  /\ tLateNight t = tLateNight acc + countIf (fun c => (1260 <=? m c) && (m c <? 1380)) l
  /\ tMidnight t = tMidnight acc + countIf (fun c => 1380 <=? m c) l
  /\ tDawn t = tDawn acc + countIf (fun c => (m c <? 360) && (m c <? e * 60)) l
  /\ tMidnightDays t
     = rev (map CommitCollector.date
              (filter (fun c => (1380 <=? m c) || ((m c <? 360) && (m c <? e * 60))) l))
       ++ tMidnightDays acc.
Proof.
  induction l as [|c l IH]; intros acc B; cbv zeta.
  - cbn [fold_left countIf filter map rev app]. repeat split; lia.
  - cbn [fold_left countIf filter].
    assert (Bc := B c (or_introl eq_refl)).
    specialize (IH (classify (int e) acc c) (fun x I => B x (or_intror I))).
    cbv zeta in IH. destruct IH as (I1 & I2 & I3 & I4 & I5).
    rewrite I1, I2, I3, I4, I5. clear I1 I2 I3 I4 I5.
    rewrite (classify_step e acc c Bc). cbv zeta. unfold latestHourOf.
    destruct (hour_tests e (CommitCollector.minutesFromMidnight c) ltac:(lia))
      as (T1 & T2 & T3 & T4 & T5 & T6).
    rewrite T1, T2, T3, T4, T5, T6.
    set (mc := CommitCollector.minutesFromMidnight c).
    destruct (Z.leb_spec (e * 60) mc); destruct (Z.ltb_spec mc 1260);
      destruct (Z.leb_spec 1260 mc); destruct (Z.ltb_spec mc 1380);
      destruct (Z.leb_spec 1380 mc); destruct (Z.ltb_spec mc 360);
      destruct (Z.ltb_spec mc (e * 60)); try lia;
      cbn [andb orb tEvening tLateNight tMidnight tDawn tMidnightDays map rev];
      rewrite <- ?app_assoc; cbn [app]; repeat split; lia.
Qed.

(** X17: [calculateLateNightAnalysis] classifies each day by the minute of
    its latest commit: evening from the end hour (rounded up) to 20:59,
    late night 21:00-22:59, midnight from 23:00 on, which includes every
    latest commit filed after midnight (minute 1440 and above), and dawn
    only below 06:00 and below the end hour.  On the latest commits that
    the collector builds (minute at least 360) the dawn counter stays 0.
    With distinct dates the number of midnight days is midnight + dawn,
    and the number of work days is at least 1. *)
Theorem calculateLateNightAnalysis_bands
    (localTZA : Z -> Z) (checker : option WorkdayChecker.t)
    (latests : list CommitCollector.DailyLatestCommit) (firsts : list DailyFirstCommit)
    (workTime : WorkTimeDetectionResult) (sinceUntil : option (num * num)) (q : Q) :
  endHour workTime = Fin q ->
  (forall c, In c latests -> 0 <= CommitCollector.minutesFromMidnight c < 2 ^ 40) ->
  NoDup (map CommitCollector.date latests) ->
  let r := calculateLateNightAnalysis localTZA checker latests firsts workTime sinceUntil in
  let m := CommitCollector.minutesFromMidnight in
  let e := Qceiling q in
  evening r = countIf (fun c => (e * 60 <=? m c) && (m c <? 1260)) latests
  /\ lateNight r = countIf (fun c => (1260 <=? m c) && (m c <? 1380)) latests
  /\ midnight r = countIf (fun c => 1380 <=? m c) latests
  /\ dawn r = countIf (fun c => (m c <? 360) && (m c <? e * 60)) latests
  /\ ((forall c, In c latests -> 360 <= m c) -> dawn r = 0)
  /\ midnightDays r = midnight r + dawn r
  /\ 1 <= totalWorkDays r.
Proof.
  intros He B N. cbv zeta.
  unfold calculateLateNightAnalysis. rewrite He. cbn [Math_ceil].
  set (t := fold_left _ latests _).
  set (s := set_size (workDays localTZA checker firsts)).
  destruct sinceUntil as [[sinceTime untilTime]|];
    cbn [evening lateNight midnight dawn midnightDays totalWorkDays].
  all: destruct (late_night_loop (Qceiling q) latests
                   {| tEvening := 0; tLateNight := 0; tMidnight := 0; tDawn := 0;
                      tMidnightDays := [] |} B) as (I1 & I2 & I3 & I4 & I5);
    fold t in I1, I2, I3, I4, I5;
    cbn [tEvening tLateNight tMidnight tDawn tMidnightDays] in I1, I2, I3, I4, I5;
    rewrite app_nil_r in I5;
    (split; [lia|]); (split; [lia|]); (split; [lia|]); (split; [lia|]);
    (split; [|split]).
  1,4: intros L; rewrite I4; cbn [Z.add];
       clear - L; induction latests as [|c l IH]; [reflexivity|];
       cbn [countIf]; rewrite IH by (intros x I; apply L; right; exact I);
       pose proof (L c (or_introl eq_refl));
       destruct (Z.ltb_spec (CommitCollector.minutesFromMidnight c) 360); [lia | reflexivity].
  1,3: unfold set_size; rewrite I5, I3, I4;
       rewrite nodup_fixed_point
         by (apply NoDup_rev; apply NoDup_map_filter; exact N);
       rewrite length_rev, length_map, <- countIf_length;
       clear; induction latests as [|c l IH]; [reflexivity|];
       cbn [countIf]; rewrite IH;
       destruct (Z.leb_spec 1380 (CommitCollector.minutesFromMidnight c));
         destruct (Z.ltb_spec (CommitCollector.minutesFromMidnight c) 360);
         destruct (Z.ltb_spec (CommitCollector.minutesFromMidnight c) (Qceiling q * 60));
         cbn [andb orb]; lia.
  all: destruct (Z.ltb_spec 0 s); lia.
Qed.

Lemma calculateLateNightAnalysis_bands_witness :
  let localTZA (_ : Z) := 8 * 3600000 in
  let latests :=
    [ {| CommitCollector.date := 6; CommitCollector.minutesFromMidnight := 1565 |};
      {| CommitCollector.date := 7; CommitCollector.minutesFromMidnight := 1150 |};
      {| CommitCollector.date := 8; CommitCollector.minutesFromMidnight := 1390 |} ] in
  let workTime :=
    {| startHour := Fin (19 # 2); endHour := Fin (37 # 2); isReliable := true;
       sampleCount := int (-1); detectionMethod := Manual;
       confidence := int 100; startHourRange := None; endHourRange := None;
       endDetectionMethod := Some EndManual |} in
  1 <= totalWorkDays (calculateLateNightAnalysis localTZA None latests [] workTime None).
Proof.
  intros localTZA latests workTime.
  refine (proj2 (proj2 (proj2 (proj2 (proj2 (proj2
            (calculateLateNightAnalysis_bands localTZA None latests [] workTime None (37 # 2)
               _ _ _))))))).
  - reflexivity.
  - intros c [<-|[<-|[<-|[]]]]; cbn; lia.
  - repeat constructor; cbn; intuition discriminate.
Defined.

End LateNightTallies.

(** ** Merging the daily extremes of several repositories *)

Section SortedLists.

Variable A : Type.
Variable R : A -> A -> Prop.
Hypothesis R_asym : forall x y, R x y -> R y x -> False.

(** A strictly sorted list is determined by its elements. *)
Lemma strictly_sorted_ext (l1 : list A) : forall l2,
  StronglySorted R l1 -> StronglySorted R l2 ->
  (forall x, In x l1 <-> In x l2) -> l1 = l2.
Proof.
  induction l1 as [|a t IH]; intros l2 S1 S2 H.
  - destruct l2 as [|b u]; [reflexivity|].
    exfalso. apply (proj2 (H b)). left. reflexivity.
  - destruct l2 as [|b u].
    + exfalso. apply (proj1 (H a)). left. reflexivity.
    + inversion S1 as [|? ? St Fa]; subst. inversion S2 as [|? ? Su Fb]; subst.
      rewrite Forall_forall in Fa, Fb.
      assert (E : a = b).
      { destruct (proj1 (H a) (or_introl eq_refl)) as [E|Ia]; [symmetry; exact E|].
        destruct (proj2 (H b) (or_introl eq_refl)) as [E|Ib]; [exact E|].
        exfalso. apply (R_asym a b); [apply Fa; exact Ib | apply Fb; exact Ia]. }
      subst b. f_equal. apply IH; [exact St | exact Su|].
      intros x. split; intros I.
      * destruct (proj1 (H x) (or_intror I)) as [E|I']; [|exact I'].
        subst x. exfalso. apply (R_asym a a); apply Fa; exact I.
      * destruct (proj2 (H x) (or_intror I)) as [E|I']; [|exact I'].
        subst x. exfalso. apply (R_asym a a); apply Fb; exact I.
Qed.

End SortedLists.

Section MergeGeneric.

Variables C E : Type.
Variables key val : C -> Z.
Variables ekey eval : E -> Z.
Variable R : Z -> Z -> Prop.
Variable f : list C -> list E.
Hypothesis R_trans : forall x y z, R x y -> R y z -> R x z.
Hypothesis R_anti : forall x y, R x y -> R y x -> x = y.
Hypothesis f_origin : forall cs e, In e (f cs) ->
  (exists c, In c cs /\ key c = ekey e /\ val c = eval e).
Hypothesis f_covers : forall cs c, In c cs ->
  exists e, In e (f cs) /\ ekey e = key c /\ R (eval e) (val c).

(** The best value per day over the entries collected per repository is
    the best value per day over all the commits. *)
Lemma merged_best (repos : list (list C)) d v :
  ((exists e, In e (flat_map f repos) /\ ekey e = d /\ eval e = v)
   /\ (forall e, In e (flat_map f repos) -> ekey e = d -> R v (eval e)))
  <-> ((exists c, In c (List.concat repos) /\ key c = d /\ val c = v)
       /\ (forall c, In c (List.concat repos) -> key c = d -> R v (val c))).
Proof.
  split.
  - intros [(e & Ie & Ed & Ev) Hbest]. apply in_flat_map in Ie. destruct Ie as (cs & Ics & Ie).
    split.
    + destruct (f_origin cs e Ie) as (c & Ic & Kc & Vc).
      exists c. split; [apply in_concat; exists cs; tauto|]. split; congruence.
    + intros c Ic Kc. apply in_concat in Ic. destruct Ic as (cs' & Ics' & Ic).
      destruct (f_covers cs' c Ic) as (e' & Ie' & Ke' & Le').
      apply (R_trans _ (eval e')); [|exact Le'].
      apply Hbest; [apply in_flat_map; exists cs'; tauto | congruence].
  - intros [(c & Ic & Kc & Vc) Hbest]. apply in_concat in Ic. destruct Ic as (cs & Ics & Ic).
    destruct (f_covers cs c Ic) as (e & Ie & Ke & Le).
    destruct (f_origin cs e Ie) as (c' & Ic' & Kc' & Vc').
    assert (Ev : eval e = v).
    { apply R_anti; [rewrite <- Vc; exact Le|].
      rewrite <- Vc'. apply Hbest; [apply in_concat; exists cs; tauto | congruence]. }
    split.
    + exists e. split; [apply in_flat_map; exists cs; tauto|]. split; congruence.
    + intros e' Ie' Ke'. apply in_flat_map in Ie'. destruct Ie' as (cs' & Ics' & Ie').
      destruct (f_origin cs' e' Ie') as (c'' & Ic'' & Kc'' & Vc'').
      rewrite <- Vc''. apply Hbest; [apply in_concat; exists cs'; tauto | congruence].
Qed.

End MergeGeneric.

Section MergeOfCollected.
Open Scope Z_scope.

Lemma fold_per_repository {A B M : Type} (step : M -> A -> M) (f : B -> list A)
    (repos : list B) : forall m,
  fold_left
    (fun m data => match data with None => m | Some items => fold_left step items m end)
    (map (fun cs => Some (f cs)) repos) m
  = fold_left step (flat_map f repos) m.
Proof.
  induction repos as [|cs r IH]; intros m; cbn [map fold_left flat_map]; [reflexivity|].
  rewrite fold_left_app. apply IH.
Qed.

Lemma concat_nil_flat_map {A B : Type} (f : list A -> list B) (repos : list (list A)) :
  f [] = [] -> List.concat repos = [] -> flat_map f repos = [].
Proof.
  intros F. induction repos as [|cs r IH]; cbn [List.concat flat_map]; [reflexivity|].
  intros H. apply app_eq_nil in H. destruct H as [-> H].
  rewrite F, (IH H). reflexivity.
Qed.

Lemma mergeFirst_keepBest :
  GitDataMerger.mergeFirst = keepBest date minutesFromMidnight (fun new cur => new <? cur).
Proof. reflexivity. Qed.

Lemma mergeLatest_keepBest :
  GitDataMerger.mergeLatest
  = keepBest CommitCollector.date CommitCollector.minutesFromMidnight
      (fun new cur => cur <? new).
Proof. reflexivity. Qed.

Lemma fold_min_spec {C : Type} (key val : C -> Z) l k v :
  CommitCollector.map_get
    (fold_left (keepBest key val (fun new cur => new <? cur)) l []) k = Some v
  <-> (exists c, In c l /\ key c = k /\ val c = v)
      /\ (forall c, In c l -> key c = k -> v <= val c).
Proof.
  apply (fold_keepBest_spec _ _ _ Z.le).
  - intros x. lia.
  - intros x y z. lia.
  - intros new cur H. apply Z.ltb_lt in H. lia.
  - intros new cur H. apply Z.ltb_ge in H. exact H.
  - intros x y. lia.
Qed.

Lemma fold_max_spec {C : Type} (key val : C -> Z) l k v :
  CommitCollector.map_get
    (fold_left (keepBest key val (fun new cur => cur <? new)) l []) k = Some v
  <-> (exists c, In c l /\ key c = k /\ val c = v)
      /\ (forall c, In c l -> key c = k -> v >= val c).
Proof.
  apply (fold_keepBest_spec _ _ _ Z.ge).
  - intros x. lia.
  - intros x y z. lia.
  - intros new cur H. apply Z.ltb_lt in H. lia.
  - intros new cur H. apply Z.ltb_ge in H. lia.
  - intros x y. lia.
Qed.

Lemma first_entries_In (m : CommitCollector.DateMap) d v :
  NoDup (map fst m) ->
  In {| date := d; minutesFromMidnight := v |}
     (DailyFirst.sort_by_date
        (map (fun '(d, v) => {| date := d; minutesFromMidnight := v |}) m))
  <-> CommitCollector.map_get m d = Some v.
Proof.
  intros N. rewrite earliest_sort_In, in_map_iff. split.
  - intros ([k w] & E & HIn). injection E as E1 E2. subst.
    apply map_In_get; assumption.
  - intros G. exists (d, v). split; [reflexivity | apply map_get_In; exact G].
Qed.

Lemma first_entries_sorted (m : CommitCollector.DateMap) :
  NoDup (map fst m) ->
  StronglySorted (fun a b => date a < date b)
    (DailyFirst.sort_by_date
       (map (fun '(d, v) => {| date := d; minutesFromMidnight := v |}) m)).
Proof.
  intros N. apply earliest_strictly_sorted.
  - apply earliest_sort_sorted.
  - apply (Permutation_NoDup (Permutation_map date (Permutation_sym (earliest_sort_perm _)))).
    apply earliest_entries_NoDup. exact N.
Qed.

Lemma latest_entries_In (m : CommitCollector.DateMap) d v :
  NoDup (map fst m) ->
  In {| CommitCollector.date := d; CommitCollector.minutesFromMidnight := v |}
     (CommitCollector.sort_by_date
        (map (fun '(d, v) => {| CommitCollector.date := d;
                                CommitCollector.minutesFromMidnight := v |}) m))
  <-> CommitCollector.map_get m d = Some v.
Proof.
  intros N. rewrite sort_by_date_In, in_map_iff. split.
  - intros ([k w] & E & HIn). injection E as E1 E2. subst.
    apply map_In_get; assumption.
  - intros G. exists (d, v). split; [reflexivity | apply map_get_In; exact G].
Qed.

Lemma latest_entries_sorted (m : CommitCollector.DateMap) :
  NoDup (map fst m) ->
  StronglySorted (fun a b => CommitCollector.date a < CommitCollector.date b)
    (CommitCollector.sort_by_date
       (map (fun '(d, v) => {| CommitCollector.date := d;
                               CommitCollector.minutesFromMidnight := v |}) m)).
Proof.
  intros N. apply strictly_sorted.
  - apply sort_by_date_sorted.
  - apply (Permutation_NoDup
             (Permutation_map CommitCollector.date (Permutation_sym (sort_by_date_perm _)))).
    apply entries_NoDup. exact N.
Qed.

Lemma recordLatest_keepBest commits m :
  fold_left CommitCollector.recordLatest commits m
  = fold_left (keepBest effectiveDate effectiveMinutes (fun new cur => cur <? new)) commits m.
Proof.
  apply fold_left_ext. intros a c. rewrite recordLatest_unfold. reflexivity.
Qed.

Lemma earliest_covers cs c :
  In c cs ->
  exists e, In e (DailyFirst.getDailyFirstCommits cs)
            /\ date e = CommitCollector.dateKey c
            /\ minutesFromMidnight e <= clockMinutes c.
Proof.
  intros I.
  destruct (fold_keepBest_covers _ CommitCollector.dateKey clockMinutes Z.le
              (fun new cur => new <? cur)
              ltac:(intros; lia) ltac:(intros; lia)
              ltac:(intros new cur H; apply Z.ltb_lt in H; lia)
              ltac:(intros new cur H; apply Z.ltb_ge in H; exact H)
              cs [] c I) as (v & G & L).
  exists {| date := CommitCollector.dateKey c; minutesFromMidnight := v |}.
  split; [|split; [reflexivity | exact L]].
  apply getDailyFirstCommits_In. rewrite recordEarliest_keepBest. exact G.
Qed.

Lemma latest_covers cs c :
  In c cs ->
  exists e, In e (CommitCollector.getDailyLatestCommits cs)
            /\ CommitCollector.date e = effectiveDate c
            /\ CommitCollector.minutesFromMidnight e >= effectiveMinutes c.
Proof.
  intros I.
  destruct (fold_recordLatest_covers cs [] c I) as (v & G & L).
  exists {| CommitCollector.date := effectiveDate c;
            CommitCollector.minutesFromMidnight := v |}.
  split; [|split; [reflexivity | cbn; lia]].
  apply getDailyLatestCommits_In. exact G.
Qed.

(** X18: merging the daily first commits that were collected repository
    by repository gives the daily first commits of all the commits taken
    together, and the same holds for the daily latest commits; the merge
    answers [undefined] exactly when there is no commit at all. *)
Theorem merge_daily_extremes_of_collected
    (repos : list (list CommitCollector.ParsedTimestamp)) :
  GitDataMerger.mergeDailyFirstCommits
    (map (fun cs => Some (DailyFirst.getDailyFirstCommits cs)) repos)
  = match List.concat repos with
    | [] => None
    | _ :: _ => Some (DailyFirst.getDailyFirstCommits (List.concat repos))
    end
  /\ GitDataMerger.mergeDailyLatestCommits
       (map (fun cs => Some (CommitCollector.getDailyLatestCommits cs)) repos)
     = match List.concat repos with
       | [] => None
       | _ :: _ => Some (CommitCollector.getDailyLatestCommits (List.concat repos))
       end.
Proof.
  split.
  - unfold GitDataMerger.mergeDailyFirstCommits.
    rewrite (fold_per_repository GitDataMerger.mergeFirst DailyFirst.getDailyFirstCommits).
    rewrite mergeFirst_keepBest.
    set (dailyMap :=
           fold_left (keepBest date minutesFromMidnight (fun new cur => new <? cur))
             (flat_map DailyFirst.getDailyFirstCommits repos) []).
    assert (N : NoDup (map fst dailyMap)) by (apply fold_keepBest_NoDup; constructor).
    assert (Hmem : forall d v,
               CommitCollector.map_get dailyMap d = Some v
               <-> In {| date := d; minutesFromMidnight := v |}
                      (DailyFirst.getDailyFirstCommits (List.concat repos))).
    { intros d v. unfold dailyMap. rewrite fold_min_spec, earliest_of_day.
      apply (merged_best _ _ CommitCollector.dateKey clockMinutes date minutesFromMidnight
               Z.le DailyFirst.getDailyFirstCommits).
      - intros x y z. lia.
      - intros x y. lia.
      - intros cs [ed ev] Ie. apply earliest_of_day in Ie. exact (proj1 Ie).
      - intros cs c Ic. apply earliest_covers. exact Ic. }
    destruct (List.concat repos) as [|c0 rest] eqn:Ec.
    + assert (E0 : dailyMap = []).
      { unfold dailyMap. rewrite (concat_nil_flat_map _ repos eq_refl Ec). reflexivity. }
      rewrite E0. reflexivity.
    + destruct dailyMap as [|p m'] eqn:Ed.
      * exfalso. destruct (earliest_covers (c0 :: rest) c0 (or_introl eq_refl))
          as ([ed ev] & Ie & _). apply Hmem in Ie. discriminate.
      * f_equal.
        apply (strictly_sorted_ext _ (fun a b => date a < date b)).
        -- intros x y. lia.
        -- apply first_entries_sorted. exact N.
        -- unfold DailyFirst.getDailyFirstCommits. apply first_entries_sorted.
           rewrite recordEarliest_keepBest. apply fold_keepBest_NoDup. constructor.
        -- intros [d v]. rewrite first_entries_In by exact N. apply Hmem.
  - unfold GitDataMerger.mergeDailyLatestCommits.
    rewrite (fold_per_repository GitDataMerger.mergeLatest
               CommitCollector.getDailyLatestCommits).
    rewrite mergeLatest_keepBest.
    set (dailyMap :=
           fold_left
             (keepBest CommitCollector.date CommitCollector.minutesFromMidnight
                (fun new cur => cur <? new))
             (flat_map CommitCollector.getDailyLatestCommits repos) []).
    assert (N : NoDup (map fst dailyMap)) by (apply fold_keepBest_NoDup; constructor).
    assert (Hspec : forall cs d v,
               In {| CommitCollector.date := d; CommitCollector.minutesFromMidnight := v |}
                  (CommitCollector.getDailyLatestCommits cs)
               <-> (exists c, In c cs /\ effectiveDate c = d /\ effectiveMinutes c = v)
                   /\ (forall c, In c cs -> effectiveDate c = d -> v >= effectiveMinutes c)).
    { intros cs d v. rewrite getDailyLatestCommits_In, recordLatest_keepBest.
      apply fold_max_spec. }
    assert (Hmem : forall d v,
               CommitCollector.map_get dailyMap d = Some v
               <-> In {| CommitCollector.date := d; CommitCollector.minutesFromMidnight := v |}
                      (CommitCollector.getDailyLatestCommits (List.concat repos))).
    { intros d v. unfold dailyMap. rewrite fold_max_spec, Hspec.
      apply (merged_best _ _ effectiveDate effectiveMinutes CommitCollector.date
               CommitCollector.minutesFromMidnight Z.ge CommitCollector.getDailyLatestCommits).
      - intros x y z. lia.
      - intros x y. lia.
      - intros cs [ed ev] Ie. apply Hspec in Ie. exact (proj1 Ie).
      - intros cs c Ic. apply latest_covers. exact Ic. }
    destruct (List.concat repos) as [|c0 rest] eqn:Ec.
    + assert (E0 : dailyMap = []).
      { unfold dailyMap. rewrite (concat_nil_flat_map _ repos eq_refl Ec). reflexivity. }
      rewrite E0. reflexivity.
    + destruct dailyMap as [|p m'] eqn:Ed.
      * exfalso. destruct (latest_covers (c0 :: rest) c0 (or_introl eq_refl))
          as ([ed ev] & Ie & _). apply Hmem in Ie. discriminate.
      * f_equal.
        apply (strictly_sorted_ext _
                 (fun a b => CommitCollector.date a < CommitCollector.date b)).
        -- intros x y. lia.
        -- apply latest_entries_sorted. exact N.
        -- unfold CommitCollector.getDailyLatestCommits. apply latest_entries_sorted.
           apply fold_recordLatest_NoDup. constructor.
        -- intros [d v]. rewrite latest_entries_In by exact N. apply Hmem.
Qed.

End MergeOfCollected.

(** ** Project classifier: the combined decision *)

Section CombinedDecision.
Import ProjectClassifier.
Open Scope Z_scope.

(** X19: below 50 contributors (or with a count that is not a number) the
    decision always carries an integer confidence between 50 and 95, a
    multiple of 5, whatever the three dimensions are, NaN included:
    'uncertain' always comes with 50, 'corporate' with 50 to 80, and
    'open source' with at least 80. *)
Theorem makeDecision_confidence_range
    (regularity : WorkTimeRegularity) (weekend : WeekendActivity)
    (moonlighting : MoonlightingPattern) (contributorsCount : num) :
  ge contributorsCount (int 50) = false ->
  let d := makeDecision regularity weekend moonlighting contributorsCount in
  exists c,
    confidence d = int c /\ 50 <= c <= 95 /\ c mod 5 = 0
    /\ match projectType d with
       | UNCERTAIN => c = 50
       | CORPORATE => c <= 80
       | OPEN_SOURCE => 80 <= c
       end.
Proof.
  intros H. cbv zeta. unfold makeDecision. rewrite H.
  set (b1 := le (score regularity) (int 25)).
  set (b2 := lt (score regularity) (int 30)).
  set (b3 := lt (score regularity) (int 50)).
  set (b4 := lt (score regularity) (int 75)).
  set (c1 := ge contributorsCount (int 20) && lt contributorsCount (int 50)).
  set (c2 := ge contributorsCount (int 10) && lt contributorsCount (int 20)).
  set (w1 := ge (ratio weekend) (lit (30 # 100))).
  set (w2 := ge (ratio weekend) (lit (20 # 100))).
  set (w3 := ge (ratio weekend) (lit (15 # 100))).
  set (m := isActive moonlighting).
  clearbody b1 b2 b3 b4 c1 c2 w1 w2 w3 m.
  destruct b1; [exists 90; cbn; repeat split; lia|].
  destruct b2, b3, b4, c1, c2, w1, w2, w3, m;
    match goal with
    | |- exists c, confidence ?d = int c /\ _ =>
        let v := eval vm_compute in (confidence d) in
        match v with
        | Fin (?z # 1) => exists z
        end
    end;
    (split; [vm_compute; reflexivity|]);
    (split; [lia|]); (split; [reflexivity|]);
    vm_compute; try reflexivity; discriminate.
Qed.

Lemma makeDecision_confidence_range_witness :
  let regularity :=
    {| score := int 50; morningUptrend := true; afternoonPeak := true;
       eveningDowntrend := false; nightLowActivity := false |} in
  let weekend := {| ratio := lit (22 # 100) |} in
  let moonlighting :=
    {| isActive := false; eveningToMorningRatio := int 0; nightRatio := int 0 |} in
  let d := makeDecision regularity weekend moonlighting (int 12) in
  exists c,
    confidence d = int c /\ 50 <= c <= 95 /\ c mod 5 = 0
    /\ match projectType d with
       | UNCERTAIN => c = 50
       | CORPORATE => c <= 80
       | OPEN_SOURCE => 80 <= c
       end.
Proof.
  intros regularity weekend moonlighting.
  apply (makeDecision_confidence_range regularity weekend moonlighting (int 12)).
  vm_compute. reflexivity.
Defined.

End CombinedDecision.

(** ** The quietest five hours of the day *)

Section SleepPeriod.
Import TimezoneAnalyzer.
Open Scope Z_scope.

Lemma add_at_map (f : nat -> Z) (c : Z) (n : nat) : forall a i,
  (i < n)%nat -> Z.abs (f (a + i)%nat + c) < 2 ^ 53 ->
  add_at (map (fun h => int (f h)) (seq a n)) i (int c)
  = map (fun h => int (if Nat.eqb h (a + i) then f h + c else f h)) (seq a n).
Proof.
  induction n as [|n IH]; intros a i Hi B; [lia|].
  cbn [seq map]. destruct i as [|i]; cbn [add_at].
  - rewrite Nat.add_0_r in *. rewrite Nat.eqb_refl. rewrite add_int by exact B.
    f_equal. apply map_ext_in. intros h Ih. apply in_seq in Ih.
    replace (Nat.eqb h a) with false by (symmetry; apply Nat.eqb_neq; lia). reflexivity.
  - replace (Nat.eqb a (a + S i)) with false by (symmetry; apply Nat.eqb_neq; lia).
    f_equal. replace (a + S i)%nat with (S a + i)%nat in * by lia.
    apply IH; [lia | exact B].
Qed.

Lemma hourOfLabel_range label k : hourOfLabel label = Some k -> (k < 24)%nat.
Proof.
  unfold hourOfLabel.
  destruct (JsString.parseInt _) as [| | |q]; cbn [isNaN negb andb]; try discriminate;
    try (destruct (ge _ _ && lt _ _); discriminate).
  unfold ge, le, lt, int.
  destruct (Qle_bool (inject_Z 0) q) eqn:A; cbn [andb]; [|discriminate].
  destruct (Qle_bool (inject_Z 24) q) eqn:B; cbn [negb]; [discriminate|].
  intros E. injection E as <-.
  apply Qle_bool_iff in A.
  assert (B' : (q < inject_Z 24)%Q).
  { apply Qnot_le_lt. intros C. apply Qle_bool_iff in C. congruence. }
  assert (0 <= Qfloor q).
  { rewrite <- (Qfloor_Z 0). apply Qfloor_resp_le. exact A. }
  assert (Qfloor q < 24).
  { apply Z.lt_nge. intros C. apply (Qlt_not_le _ _ B').
    eapply Qle_trans; [|apply Qfloor_le]. rewrite <- Zle_Qle. exact C. }
  lia.
Qed.

Lemma hourTotal_bounds items h :
  Forall (fun it => 0 <= snd it) items ->
  0 <= hourTotal items h <= sumAll snd items.
Proof.
  intros H. unfold hourTotal. split; [apply sumIf_nonneg | apply sumIf_le_all]; exact H.
Qed.

(** The loop of [aggregateToHourArray], from an array of integers. *)
Lemma aggregate_loop (items : list (string * Z)) : forall (f : nat -> Z) (B : Z),
  Forall (fun it => 0 <= snd it) items ->
  (forall h, 0 <= f h <= B) -> B + sumAll snd items < 2 ^ 53 ->
  fold_left
    (fun hourCounts item =>
       if negb (isNaN (JsString.parseInt
                         (hd EmptyString (JsString.split ":"%char (time item)))))
          && ge (JsString.parseInt (hd EmptyString (JsString.split ":"%char (time item))))
                (int 0)
          && lt (JsString.parseInt (hd EmptyString (JsString.split ":"%char (time item))))
                (int 24)
       then
         match JsString.parseInt (hd EmptyString (JsString.split ":"%char (time item))) with
         | Fin q => add_at hourCounts (Z.to_nat (Qfloor q)) (count item)
         | _ => hourCounts
         end
       else hourCounts)
    (timeCounts items) (map (fun h => int (f h)) (seq 0 24))
  = map (fun h => int (f h + hourTotal items h)) (seq 0 24).
Proof.
  induction items as [|[label c] r IH]; intros f B Hc Hf HB.
  - cbn [timeCounts map fold_left]. apply map_ext. intros h.
    unfold hourTotal. cbn [sumIf]. rewrite Z.add_0_r. reflexivity.
  - inversion Hc as [|? ? Hc0 Hr]; subst. cbn [snd] in Hc0.
    unfold sumAll in HB. cbn [sumIf snd] in HB. fold (sumAll snd r) in HB.
    cbn [timeCounts map fold_left time count]. fold (timeCounts r).
    assert (Hstep : forall h,
               hourTotal ((label, c) :: r) h
               = (match hourOfLabel label with
                  | Some k => if Nat.eqb k h then c else 0
                  | None => 0
                  end) + hourTotal r h).
    { intros h. unfold hourTotal. cbn [sumIf fst snd].
      destruct (hourOfLabel label) as [k|]; [destruct (Nat.eqb k h)|]; reflexivity. }
    pose proof (hourOfLabel_range label) as Hrange.
    pose proof (hourTotal_bounds r 0%nat Hr) as Hsum.
    unfold hourOfLabel in Hstep, Hrange. cbv zeta in Hstep, Hrange |- *.
    set (hour := JsString.parseInt (hd EmptyString (JsString.split ":"%char label))) in *.
    destruct (negb (isNaN hour) && ge hour (int 0) && lt hour (int 24)) eqn:T.
    + destruct hour as [| | |q] eqn:Eh.
      1-3: rewrite (IH f B) by (try assumption; lia);
           apply map_ext; intros h; rewrite Hstep; f_equal; lia.
      specialize (Hrange _ eq_refl).
      rewrite (add_at_map f c 24 0 (Z.to_nat (Qfloor q)) Hrange)
        by (cbn [Nat.add]; specialize (Hf (Z.to_nat (Qfloor q))); lia).
      cbn [Nat.add].
      rewrite (IH (fun h => if Nat.eqb h (Z.to_nat (Qfloor q)) then f h + c else f h) (B + c)).
      * apply map_ext. intros h. rewrite Hstep. rewrite (Nat.eqb_sym h).
        destruct (Nat.eqb (Z.to_nat (Qfloor q)) h); f_equal; lia.
      * exact Hr.
      * intros h. specialize (Hf h). destruct (Nat.eqb h _); lia.
      * lia.
    + rewrite (IH f B) by (try assumption; lia).
      apply map_ext. intros h. rewrite Hstep. f_equal; lia.
Qed.

Lemma aggregateToHourArray_totals (items : list (string * Z)) :
  Forall (fun it => 0 <= snd it) items -> sumAll snd items < 2 ^ 53 ->
  aggregateToHourArray (timeCounts items)
  = map (fun h => int (hourTotal items h)) (seq 0 24).
Proof.
  intros Hc HB.
  exact (aggregate_loop items (fun _ => 0) 0 Hc ltac:(intros; lia) ltac:(lia)).
Qed.

Lemma sumBelow_plus (g f : nat -> Z) n :
  sumBelow (fun h => g h + f h) n = sumBelow g n + sumBelow f n.
Proof. induction n as [|n IH]; cbn [sumBelow]; lia. Qed.

Lemma sumBelow_ext (g f : nat -> Z) n :
  (forall h, (h < n)%nat -> g h = f h) -> sumBelow g n = sumBelow f n.
Proof.
  induction n as [|n IH]; intros E; cbn [sumBelow]; [reflexivity|].
  rewrite IH by (intros h Hh; apply E; lia). rewrite (E n) by lia. reflexivity.
Qed.

Lemma sumBelow_single (k : nat) (c : Z) n :
  sumBelow (fun h => if Nat.eqb k h then c else 0) n = if (k <? n)%nat then c else 0.
Proof.
  induction n as [|n IH]; cbn [sumBelow]; [reflexivity|]. rewrite IH.
  destruct (Nat.ltb_spec k n); destruct (Nat.ltb_spec k (S n)); destruct (Nat.eqb_spec k n);
    lia.
Qed.

Lemma sumBelow_lower (w : nat -> Z) (m : Z) n :
  (forall j, (j < n)%nat -> m <= w j) -> Z.of_nat n * m <= sumBelow w n.
Proof.
  induction n as [|n IH]; intros L; cbn [sumBelow]; [lia|].
  specialize (IH (fun j Hj => L j (Nat.lt_lt_succ_r _ _ Hj))).
  specialize (L n (Nat.lt_succ_diag_r n)). lia.
Qed.

(** Every bucket falls into at most one slot. *)
Lemma hourTotals_le_all items :
  Forall (fun it => 0 <= snd it) items ->
  0 <= sumBelow (hourTotal items) 24 <= sumAll snd items.
Proof.
  induction 1 as [|[label c] r Hc0 Hr IH].
  - unfold hourTotal, sumAll. cbn. lia.
  - cbn [snd] in Hc0.
    rewrite (sumBelow_ext _ (fun h => (match hourOfLabel label with
                                       | Some k => if Nat.eqb k h then c else 0
                                       | None => 0
                                       end) + hourTotal r h)).
    + rewrite sumBelow_plus. unfold sumAll in *. cbn [sumIf snd].
      destruct (hourOfLabel label) as [k|].
      * rewrite sumBelow_single. destruct (k <? 24)%nat; lia.
      * replace (sumBelow (fun _ => 0) 24) with 0 by reflexivity. lia.
    + intros h _. unfold hourTotal. cbn [sumIf fst snd].
      destruct (hourOfLabel label) as [k|]; [destruct (Nat.eqb k h)|]; reflexivity.
Qed.

Lemma sum_of_ints (H : nat -> Z) n : forall a,
  (forall h, 0 <= H h) -> 0 <= a -> a + sumBelow H n < 2 ^ 53 ->
  fold_left add (map (fun h => int (H h)) (seq 0 n)) (int a) = int (a + sumBelow H n).
Proof.
  induction n as [|n IH]; intros a P Pa B.
  - cbn. rewrite Z.add_0_r. reflexivity.
  - rewrite seq_S, map_app, fold_left_app. cbn [sumBelow] in *.
    pose proof (P n).
    assert (0 <= sumBelow H n).
    { clear - P. induction n as [|n IH]; cbn [sumBelow]; [lia|]. specialize (P n). lia. }
    rewrite IH by (try assumption; lia).
    cbn [Nat.add map fold_left]. rewrite add_int by lia. f_equal. lia.
Qed.

Lemma nth_map_seq {A : Type} (g : nat -> A) (d : A) n k :
  (k < n)%nat -> nth k (map g (seq 0 n)) d = g k.
Proof.
  intros Hk. rewrite (nth_indep _ d (g 0%nat)) by (rewrite length_map, length_seq; exact Hk).
  rewrite (map_nth g). rewrite seq_nth by exact Hk. reflexivity.
Qed.

Lemma windowSum_int (H : nat -> Z) (s : nat) :
  (forall h, 0 <= H h < 2 ^ 50) ->
  windowSum (map (fun h => int (H h)) (seq 0 24)) s = int (windowTotal H s).
Proof.
  intros B. unfold windowSum, SLEEP_WINDOW_HOURS, windowTotal.
  change (seq 0 5) with [0; 1; 2; 3; 4]%nat.
  cbn [fold_left]. rewrite Nat.add_0_r.
  rewrite !nth_map_seq by (apply Nat.mod_upper_bound; discriminate).
  pose proof (B (s mod 24)%nat). pose proof (B ((s + 1) mod 24)%nat).
  pose proof (B ((s + 2) mod 24)%nat). pose proof (B ((s + 3) mod 24)%nat).
  pose proof (B ((s + 4) mod 24)%nat).
  change (2 ^ 50) with 1125899906842624 in *.
  rewrite !add_int by (change (2 ^ 53) with 9007199254740992; lia).
  reflexivity.
Qed.

Lemma fold_left_ext_in {A B : Type} (f g : A -> B -> A) l :
  (forall a b, In b l -> f a b = g a b) -> forall acc, fold_left f l acc = fold_left g l acc.
Proof.
  induction l as [|b l IH]; intros E acc; [reflexivity|].
  cbn [fold_left]. rewrite (E acc b (or_introl eq_refl)).
  apply IH. intros a b' I. apply E. right. exact I.
Qed.

(** The sliding-window loop keeps the first window with the least sum. *)
Lemma quietest_loop (w : nat -> Z) (n : nat) :
  exists s, (s < S n)%nat
    /\ fold_left
         (fun '(minSum, minWindowStart) start =>
            if lt (int (w start)) minSum then (int (w start), start)
            else (minSum, minWindowStart))
         (seq 0 (S n)) (PInf, O)
       = (int (w s), s)
    /\ (forall j, (j < S n)%nat -> w s <= w j)
    /\ (forall j, (j < s)%nat -> w s < w j).
Proof.
  induction n as [|n (s & Hs & E & L & F)].
  - exists O. cbn [seq fold_left lt int]. repeat split; try lia.
    intros j Hj. replace j with O by lia. lia.
  - rewrite seq_S, fold_left_app, E. cbn [Nat.add fold_left]. rewrite lt_int.
    destruct (Z.ltb_spec (w (S n)) (w s)) as [C|C].
    + exists (S n). repeat split; try lia.
      * intros j Hj. destruct (Nat.eq_dec j (S n)) as [->|N]; [lia|].
        specialize (L j ltac:(lia)). lia.
      * intros j Hj. specialize (L j ltac:(lia)). lia.
    + exists s. repeat split; try lia; [|exact F].
      intros j Hj. destruct (Nat.eq_dec j (S n)) as [->|N]; [lia|].
      apply L. lia.
Qed.

Lemma windows_cover (H : nat -> Z) :
  sumBelow (windowTotal H) 24 = 5 * sumBelow H 24.
Proof. unfold windowTotal. cbn - [Z.mul Z.add]. lia. Qed.

(** X20: from buckets with integer counts, [analyzeSleepPeriod] finds the
    first five-hour window, around the clock, that holds the fewest
    commits: no window holds fewer and no earlier window as few; its share
    of all the commits that fall into the 24 hours is returned, and it is
    never above 5/24.  Without such commits the share is 0 and the window
    is empty. *)
Theorem analyzeSleepPeriod_quietest_window (items : list (string * Z)) :
  Forall (fun it => 0 <= snd it) items -> sumAll snd items < 2 ^ 50 ->
  let H := hourTotal items in
  let T := sumBelow H 24 in
  let r := analyzeSleepPeriod (timeCounts items) in
  (T = 0 -> minSleepRatio r = int 0 /\ sleepWindow r = [])
  /\ (0 < T ->
      exists s, (s < 24)%nat
        /\ sleepWindow r = map (fun i => ((s + i) mod 24)%nat) (seq 0 5)
        /\ minSleepRatio r = div (int (windowTotal H s)) (int T)
        /\ (forall j, (j < 24)%nat -> windowTotal H s <= windowTotal H j)
        /\ (forall j, (j < s)%nat -> windowTotal H s < windowTotal H j)
        /\ 24 * windowTotal H s <= 5 * T).
Proof.
  intros Hc HB. cbv zeta.
  pose proof (hourTotals_le_all items Hc) as HT.
  assert (HH : forall h, 0 <= hourTotal items h < 2 ^ 50).
  { intros h. pose proof (hourTotal_bounds items h Hc). lia. }
  change (2 ^ 50) with 1125899906842624 in *.
  unfold analyzeSleepPeriod.
  rewrite aggregateToHourArray_totals
    by (try assumption; change (2 ^ 53) with 9007199254740992; lia).
  unfold sum.
  rewrite (sum_of_ints (hourTotal items) 24 0)
    by (try (intros h; apply HH); change (2 ^ 53) with 9007199254740992; lia).
  rewrite Z.add_0_l, strict_eq_int.
  set (T := sumBelow (hourTotal items) 24) in *.
  destruct (Z.eqb_spec T 0) as [E0|N0].
  - split; [intros _; split; reflexivity | lia].
  - split; [intros E; contradiction|]. intros PT.
    rewrite (fold_left_ext_in _
               (fun '(minSum, minWindowStart) start =>
                  if lt (int (windowTotal (hourTotal items) start)) minSum
                  then (int (windowTotal (hourTotal items) start), start)
                  else (minSum, minWindowStart))).
    + destruct (quietest_loop (windowTotal (hourTotal items)) 23) as (s & Hs & E & L & F).
      rewrite E. exists s. cbn [minSleepRatio sleepWindow].
      split; [exact Hs|]. split; [reflexivity|]. split; [reflexivity|].
      split; [exact L|]. split; [exact F|].
      pose proof (sumBelow_lower (windowTotal (hourTotal items))
                    (windowTotal (hourTotal items) s) 24 L) as P.
      rewrite windows_cover in P. fold T in P. lia.
    + intros [minSum minWindowStart] start _. cbv zeta.
      rewrite windowSum_int by (change (2 ^ 50) with 1125899906842624; exact HH).
      reflexivity.
Qed.

Lemma analyzeSleepPeriod_quietest_window_witness :
  let items := [("09:00"%string, 4); ("09:30"%string, 2); ("14"%string, 7);
                ("23:30"%string, 1); ("xx"%string, 5)] in
  let H := hourTotal items in
  let T := sumBelow H 24 in
  let r := analyzeSleepPeriod (timeCounts items) in
  exists s, (s < 24)%nat
    /\ sleepWindow r = map (fun i => ((s + i) mod 24)%nat) (seq 0 5)
    /\ minSleepRatio r = div (int (windowTotal H s)) (int T)
    /\ (forall j, (j < 24)%nat -> windowTotal H s <= windowTotal H j)
    /\ (forall j, (j < s)%nat -> windowTotal H s < windowTotal H j)
    /\ 24 * windowTotal H s <= 5 * T.
Proof.
  intros items.
  refine (proj2 (analyzeSleepPeriod_quietest_window items _ _) _).
  - repeat constructor; cbn; lia.
  - vm_compute. reflexivity.
  - vm_compute. reflexivity.
Defined.

End SleepPeriod.

(** ** The working window of one contributor *)

Section UserWindow.
Import UserAnalyzer.
Open Scope Z_scope.

Lemma parseInt_two_digits (h : nat) :
  (h < 24)%nat -> JsString.parseInt (TimeAggregator.two_digits h) = int (Z.of_nat h).
Proof.
  intros Hh.
  do 24 (destruct h as [|h]; [vm_compute; reflexivity|]).
  lia.
Qed.

Lemma lt_Math_min_l a x y : lt (int a) (Math_min x y) = true -> lt (int a) x = true.
Proof.
  destruct x as [| | |p]; destruct y as [| | |q]; try discriminate; try (intros; reflexivity);
    cbn [Math_min lt int negb].
  - intros H. exact H.
  - destruct (Qle_bool p q) eqn:A; cbn [negb lt int].
    + intros H. exact H.
    + intros H. apply negb_true_iff in H. apply Qle_bool_false in H.
      apply Qle_bool_false in A.
      apply negb_true_iff. apply Qle_bool_false. apply (Qlt_trans _ q); assumption.
Qed.

Lemma sumIf_mono {A : Type} (p q : A -> bool) (f : A -> Z) l :
  Forall (fun a => 0 <= f a) l ->
  (forall a, In a l -> p a = true -> q a = true) ->
  sumIf p f l <= sumIf q f l.
Proof.
  induction 1 as [|a l Ha Hl IH]; intros M; [reflexivity|].
  cbn [sumIf].
  specialize (IH (fun x I => M x (or_intror I))).
  pose proof (M a (or_introl eq_refl)) as Ma.
  destruct (p a); destruct (q a); try lia.
Qed.

Lemma fold_single {A : Type} (test : A -> bool) (cz : A -> Z) l :
  Forall (fun a => 0 <= cz a) l ->
  forall t, 0 <= t -> t + sumAll cz l < 2 ^ 53 ->
  fold_left (fun acc a => if test a then add acc (int (cz a)) else acc) l (int t)
  = int (t + sumIf test cz l).
Proof.
  induction 1 as [|a l Ha Hl IH]; intros t Ht Hs.
  - cbn [fold_left sumIf]. rewrite Z.add_0_r. reflexivity.
  - unfold sumAll in Hs. cbn [sumIf] in Hs. fold (sumAll cz l) in Hs.
    assert (Hr : 0 <= sumAll cz l) by (apply sumIf_nonneg; exact Hl).
    cbn [fold_left sumIf].
    destruct (test a).
    + rewrite add_int by lia. rewrite IH by lia. f_equal; lia.
    + rewrite IH by lia. f_equal; lia.
Qed.

(** X21: on the 24 hourly buckets of one contributor, with integer counts
    and a start and an end hour that are numbers, [buildWorkTimeData]
    counts as normal work the commits of the hours [h] with
    [startHour <= h < endHour], without the nine-hour cap of
    [isWorkingHour]: its normal count is never below the one that
    [calculateWorkHourPl] gives for the same buckets and hours, the two
    counts of each add up to all the commits, and the overtime total of
    [calculateOvertimeStats] is the overtime count of [buildWorkTimeData]. *)
Theorem buildWorkTimeData_uncapped_window
    (c : nat -> Z) (dayDistribution : list TimeCount) (d : WorkTimeDetectionResult)
    (qs qe : Q) :
  (forall h, 0 <= c h) -> sumAll c (seq 0 24) < 2 ^ 53 ->
  startHour d = Fin qs -> endHour d = Fin qe ->
  is_double (startHour d) -> is_double (endHour d) ->
  let inWindow (h : nat) :=
    le (startHour d) (int (Z.of_nat h)) && lt (int (Z.of_nat h)) (endHour d) in
  let user :=
    buildWorkTimeData (hourlyBuckets c) dayDistribution (startHour d) (endHour d) in
  let project := GitParser.calculateWorkHourPl (hourlyBuckets c) d in
  let total := sumAll c (seq 0 24) in
  exists capped,
    count (fst (workHourPl user)) = int (sumIf inWindow c (seq 0 24))
    /\ count (snd (workHourPl user)) = int (total - sumIf inWindow c (seq 0 24))
    /\ count (fst project) = int capped
    /\ count (snd project) = int (total - capped)
    /\ 0 <= capped <= sumIf inWindow c (seq 0 24)
    /\ sumIf inWindow c (seq 0 24) <= total
    /\ totalOvertime (calculateOvertimeStats (hourlyBuckets c) (startHour d) (endHour d))
       = count (snd (workHourPl user)).
Proof.
  intros Hc HB Es Ee Ds De. cbv zeta.
  set (inWindow := fun h : nat =>
                     le (startHour d) (int (Z.of_nat h)) && lt (int (Z.of_nat h)) (endHour d)).
  set (working := fun h : nat => WorkTimeAnalyzer.isWorkingHour (int (Z.of_nat h)) d).
  assert (Fc : Forall (fun h => 0 <= c h) (seq 0 24)).
  { apply Forall_forall. intros h _. apply Hc. }
  assert (Fc' : Forall (fun h => int (c h) = int (c h) /\ 0 <= c h) (seq 0 24)).
  { apply Forall_forall. intros h _. split; [reflexivity | apply Hc]. }
  pose proof (sumIf_split inWindow c (seq 0 24)) as S1.
  pose proof (sumIf_split working c (seq 0 24)) as S2.
  pose proof (sumIf_nonneg inWindow c (seq 0 24) Fc) as P1.
  pose proof (sumIf_nonneg working c (seq 0 24) Fc) as P2.
  pose proof (sumIf_le_all inWindow c (seq 0 24) Fc) as P3.
  assert (M : sumIf working c (seq 0 24) <= sumIf inWindow c (seq 0 24)).
  { apply sumIf_mono; [exact Fc|]. intros h Ih W. apply in_seq in Ih.
    unfold working in W. rewrite working_hour_split in W
      by (try assumption; change (2 ^ 40) with 1099511627776; lia).
    apply andb_true_iff in W. destruct W as [W1 W2].
    unfold inWindow. rewrite W1. cbn [andb]. apply (lt_Math_min_l _ _ _ W2). }
  exists (sumIf working c (seq 0 24)).
  assert (U : fold_left
                (fun '(normalWork, overtime) item =>
                   let hour := JsString.parseInt (time item) in
                   if ge hour (startHour d) && lt hour (endHour d)
                   then (add normalWork (count item), overtime)
                   else (normalWork, add overtime (count item)))
                (hourlyBuckets c) (int 0, int 0)
              = (int (sumIf inWindow c (seq 0 24)),
                 int (sumIf (fun h => negb (inWindow h)) c (seq 0 24)))).
  { unfold hourlyBuckets. rewrite fold_left_map.
    rewrite (fold_left_ext_in _
               (fun '(w, e) (h : nat) =>
                  if inWindow h then (add w (int (c h)), e) else (w, add e (int (c h))))).
    - rewrite (fold_partition inWindow (fun h => int (c h)) c (seq 0 24) Fc'
                 0 0 ltac:(lia) ltac:(lia) ltac:(lia)).
      reflexivity.
    - intros [w e] h Ih. apply in_seq in Ih. cbv zeta. cbn [time count].
      rewrite parseInt_two_digits by lia. reflexivity. }
  assert (P : fold_left
                (fun '(workCount, overtimeCount) item =>
                   let hour := JsString.parseInt (time item) in
                   if WorkTimeAnalyzer.isWorkingHour hour d
                   then (add workCount (count item), overtimeCount)
                   else (workCount, add overtimeCount (count item)))
                (hourlyBuckets c) (int 0, int 0)
              = (int (sumIf working c (seq 0 24)),
                 int (sumIf (fun h => negb (working h)) c (seq 0 24)))).
  { unfold hourlyBuckets. rewrite fold_left_map.
    rewrite (fold_left_ext_in _
               (fun '(w, e) (h : nat) =>
                  if working h then (add w (int (c h)), e) else (w, add e (int (c h))))).
    - rewrite (fold_partition working (fun h => int (c h)) c (seq 0 24) Fc'
                 0 0 ltac:(lia) ltac:(lia) ltac:(lia)).
      reflexivity.
    - intros [w e] h Ih. apply in_seq in Ih. cbv zeta. cbn [time count].
      rewrite parseInt_two_digits by lia. reflexivity. }
  assert (O : fold_left
                (fun totalOvertime item =>
                   let hour := JsString.parseInt (time item) in
                   if lt hour (startHour d) || ge hour (endHour d)
                   then add totalOvertime (count item)
                   else totalOvertime)
                (hourlyBuckets c) (int 0)
              = int (sumIf (fun h => negb (inWindow h)) c (seq 0 24))).
  { unfold hourlyBuckets. rewrite fold_left_map.
    rewrite (fold_left_ext_in _
               (fun acc (h : nat) =>
                  if negb (inWindow h) then add acc (int (c h)) else acc)).
    - rewrite (fold_single (fun h => negb (inWindow h)) c (seq 0 24) Fc 0) by lia.
      reflexivity.
    - intros acc h Ih. apply in_seq in Ih. cbv zeta. cbn [time count].
      rewrite parseInt_two_digits by lia.
      unfold inWindow. rewrite Es, Ee. unfold ge, le, lt, int.
      destruct (Qle_bool qs (inject_Z (Z.of_nat h)));
        destruct (Qle_bool qe (inject_Z (Z.of_nat h))); reflexivity. }
  unfold buildWorkTimeData, GitParser.calculateWorkHourPl, calculateOvertimeStats.
  cbv zeta in U, P, O |- *. rewrite U, P, O.
  destruct (fold_left _ dayDistribution _) as [wd we].
  cbn [workHourPl fst snd count totalOvertime].
  replace (sumAll c (seq 0 24) - sumIf inWindow c (seq 0 24))
    with (sumIf (fun h => negb (inWindow h)) c (seq 0 24)) by lia.
  replace (sumAll c (seq 0 24) - sumIf working c (seq 0 24))
    with (sumIf (fun h => negb (working h)) c (seq 0 24)) by lia.
  repeat split; try reflexivity; lia.
Qed.

Lemma buildWorkTimeData_uncapped_window_witness :
  let c (h : nat) := if (Nat.leb 9 h && Nat.leb h 20)%bool then 3 else 0 in
  let d :=
    {| startHour := int 9; endHour := int 20; isReliable := true;
       sampleCount := int (-1); detectionMethod := Manual;
       confidence := int 100; startHourRange := None; endHourRange := None;
       endDetectionMethod := Some EndManual |} in
  let inWindow (h : nat) :=
    le (startHour d) (int (Z.of_nat h)) && lt (int (Z.of_nat h)) (endHour d) in
  let user := buildWorkTimeData (hourlyBuckets c) [] (startHour d) (endHour d) in
  let project := GitParser.calculateWorkHourPl (hourlyBuckets c) d in
  let total := sumAll c (seq 0 24) in
  exists capped,
    count (fst (workHourPl user)) = int (sumIf inWindow c (seq 0 24))
    /\ count (snd (workHourPl user)) = int (total - sumIf inWindow c (seq 0 24))
    /\ count (fst project) = int capped
    /\ count (snd project) = int (total - capped)
    /\ 0 <= capped <= sumIf inWindow c (seq 0 24)
    /\ sumIf inWindow c (seq 0 24) <= total
    /\ totalOvertime (calculateOvertimeStats (hourlyBuckets c) (startHour d) (endHour d))
       = count (snd (workHourPl user)).
Proof.
  intros c d.
  apply (buildWorkTimeData_uncapped_window c [] d 9 20).
  - intros h. unfold c. destruct (Nat.leb 9 h && Nat.leb h 20)%bool; lia.
  - vm_compute. reflexivity.
  - reflexivity.
  - reflexivity.
  - vm_compute. reflexivity.
  - vm_compute. reflexivity.
Defined.

End UserWindow.

(** ** The one-percent threshold of the time-zone check *)

Section CrossTimezoneThreshold.
Import TimezoneAnalyzer.
Open Scope Q_scope.

Lemma threshold_value : CROSS_TIMEZONE_THRESHOLD = Fin (rnd_q (1 # 100)).
Proof.
  unfold CROSS_TIMEZONE_THRESHOLD, lit.
  destruct (rnd_fin_between (1 # 100) 0 1) as (F & _ & _); try reflexivity; try lra.
  - unfold Qle. cbn. lia.
  - unfold Qle. cbn. lia.
Qed.

Lemma threshold_reached :
  Qle_bool (rnd_q (1 # 100)) (rnd_q (inject_Z 1 + - rnd_q (99 # 100))) = true.
Proof. vm_compute. reflexivity. Qed.

Lemma threshold_missed :
  Qle_bool (rnd_q (1 # 100))
           (rnd_q (inject_Z 1 + - rnd_q (4252017624 # 4294967296))) = false.
Proof. vm_compute. reflexivity. Qed.

(** X22: for integer counts below 2^24, the share of commits outside the
    first (dominant) time zone reaches the threshold of [analyzeTimezone]
    exactly when it is at least 1 % in exact arithmetic: the roundings of
    the division, of the subtraction and of the literal 0.01 never move
    the decision.  Then the project is reported as cross-time-zone,
    whatever the sleep analysis says.  When all commits are in the first
    time zone the two ratios are exactly 1 and 0. *)
Theorem analyzeTimezone_one_percent
    (data : TimezoneData) (hourData : list TimeCount)
    (tz : TimezoneCount) (rest : list TimezoneCount) (d T : Z) :
  timezones data = tz :: rest ->
  tzCount tz = int d -> totalCommits data = int T ->
  (0 < T < 2 ^ 24)%Z -> (0 <= d < 2 ^ 24)%Z ->
  let r := analyzeTimezone data hourData in
  dominantTimezone r = Some (tzOffset tz)
  /\ ge (crossTimezoneRatio r) CROSS_TIMEZONE_THRESHOLD = (T <=? 100 * (T - d))%Z
  /\ ((T <= 100 * (T - d))%Z -> isCrossTimezone r = true)
  /\ (d = T -> dominantRatio r = int 1 /\ crossTimezoneRatio r = int 0).
Proof.
  intros Etz Ed ET HT Hd. cbv zeta.
  change (2 ^ 24)%Z with 16777216%Z in *.
  unfold analyzeTimezone. rewrite ET, strict_eq_int.
  replace (T =? 0)%Z with false by (symmetry; apply Z.eqb_neq; lia).
  unfold calculateTimezoneDiversity. rewrite Etz, Ed, ET.
  cbn [divCrossTimezoneRatio divDominantTimezone divDominantRatio
       isCrossTimezone crossTimezoneRatio dominantTimezone dominantRatio].
  rewrite div_int by lia.
  set (x := inject_Z d / inject_Z T).
  assert (PT : 0 < inject_Z T) by (rewrite <- (Zlt_Qlt 0); lia).
  assert (Bx : inject_Z 0 <= x /\ x <= inject_Z 16777216).
  { unfold x. split.
    - apply Qle_shift_div_l; [exact PT|]. rewrite <- inject_Z_mult, <- Zle_Qle. lia.
    - apply Qle_shift_div_r; [exact PT|]. rewrite <- inject_Z_mult, <- Zle_Qle. nia. }
  destruct (rnd_fin_between x 0 16777216) as (Fx & Lx & Ux); try lia; try tauto.
  rewrite Fx. unfold sub, neg, add. cbn [int].
  set (y := inject_Z 1 + - rnd_q x).
  assert (By : inject_Z (-16777216) <= y /\ y <= inject_Z 1).
  { unfold y. change (inject_Z (-16777216)) with (-16777216).
    change (inject_Z 16777216) with 16777216 in Ux.
    change (inject_Z 0) with 0 in Lx. change (inject_Z 1) with 1. split; lra. }
  destruct (rnd_fin_between y (-16777216) 1) as (Fy & _ & _); try lia; try tauto.
  rewrite Fy, threshold_value. unfold ge, le.
  split; [reflexivity|].
  assert (Dec : Qle_bool (rnd_q (1 # 100)) (rnd_q y) = (T <=? 100 * (T - d))%Z).
  { destruct (Z.leb_spec T (100 * (T - d))) as [A|B].
    - assert (X : x <= 99 # 100).
      { unfold x. apply Qle_shift_div_r; [exact PT|].
        assert (inject_Z (100 * d) <= inject_Z (99 * T)) by (rewrite <- Zle_Qle; lia).
        rewrite !inject_Z_mult in H. change (inject_Z 100) with 100 in H.
        change (inject_Z 99) with 99 in H. lra. }
      pose proof (rnd_q_mono _ _ X) as M1.
      assert (Y : inject_Z 1 + - rnd_q (99 # 100) <= y) by (unfold y; lra).
      pose proof (rnd_q_mono _ _ Y) as M2.
      pose proof threshold_reached as R. apply Qle_bool_iff in R.
      apply Qle_bool_iff. lra.
    - assert (X : (4252017624 # 4294967296) <= x).
      { unfold x. apply Qle_shift_div_l; [exact PT|].
        assert (inject_Z (425201762400 * T) <= inject_Z (429496729600 * d))
          by (rewrite <- Zle_Qle; lia).
        rewrite !inject_Z_mult in H.
        change (inject_Z 425201762400) with 425201762400 in H.
        change (inject_Z 429496729600) with 429496729600 in H.
        lra. }
      pose proof (rnd_q_mono _ _ X) as M1.
      assert (Y : y <= inject_Z 1 + - rnd_q (4252017624 # 4294967296)) by (unfold y; lra).
      pose proof (rnd_q_mono _ _ Y) as M2.
      pose proof threshold_missed as R. apply Qle_bool_false in R.
      apply Qle_bool_false. lra. }
  rewrite Dec. split; [reflexivity|]. split.
  - intros A. replace (T <=? 100 * (T - d))%Z with true by (symmetry; apply Z.leb_le; exact A).
    reflexivity.
  - intros ->. rewrite <- Fx, <- Fy. unfold y.
    assert (E1 : x == inject_Z 1).
    { unfold x. field. intros C. rewrite C in PT. lra. }
    assert (R1 : rnd x = int 1) by (rewrite (rnd_proper _ _ E1); apply rnd_int; lia).
    split; [exact R1|].
    rewrite R1 in Fx. injection Fx as Fx. rewrite <- Fx.
    rewrite (rnd_proper _ (inject_Z 0)) by (change (inject_Z 0) with 0; change (inject_Z 1) with 1; ring).
    apply rnd_int. lia.
Qed.

Lemma analyzeTimezone_one_percent_witness :
  let data :=
    {| totalCommits := int 200;
       timezones := [ {| tzOffset := "+0800"; tzCount := int 198 |};
                      {| tzOffset := "+0000"; tzCount := int 2 |} ] |} in
  isCrossTimezone (analyzeTimezone data []) = true.
Proof.
  intros data.
  refine (proj1 (proj2 (proj2
            (analyzeTimezone_one_percent data [] {| tzOffset := "+0800"; tzCount := int 198 |}
               [ {| tzOffset := "+0000"; tzCount := int 2 |} ] 198 200 _ _ _ _ _))) _).
  - reflexivity.
  - reflexivity.
  - reflexivity.
  - split; [reflexivity | reflexivity].
  - split; [discriminate | reflexivity].
  - discriminate.
Defined.

End CrossTimezoneThreshold.

(** ** Percentiles *)

Section Percentiles.
Import Statistics.
Open Scope Q_scope.

(** A dyadic value of small magnitude is computed exactly. *)
Lemma rnd_exact q M :
  q == inject_Z M * (1 # 2) -> (Z.abs M < 2 ^ 52)%Z ->
  exists q', rnd q = Fin q' /\ q' == q.
Proof.
  intros Hq HM.
  assert (R : rnd_q q == q).
  { apply (rnd_q_repr q M (-1)); [|lia|lia]. rewrite Hq. reflexivity. }
  assert (B : inject_Z (- 2 ^ 52) <= q /\ q <= inject_Z (2 ^ 52)).
  { rewrite Hq.
    assert (inject_Z (- 2 ^ 52) <= inject_Z M /\ inject_Z M <= inject_Z (2 ^ 52))
      by (rewrite <- !Zle_Qle; lia).
    change (inject_Z (- 2 ^ 52)) with (-4503599627370496) in *.
    change (inject_Z (2 ^ 52)) with 4503599627370496 in *. lra. }
  destruct (rnd_fin_between q (- 2 ^ 52) (2 ^ 52)) as (F & _ & _); try lia; try tauto.
  exists (rnd_q q). split; [exact F | exact R].
Qed.

Lemma Qfloor_half (m : Z) q : q == inject_Z m * (1 # 2) -> Qfloor q = (m / 2)%Z.
Proof.
  intros E. rewrite (Qfloor_comp _ _ E).
  pose proof (Z.div_mod m 2 ltac:(lia)) as D.
  pose proof (Z.mod_pos_bound m 2 ltac:(lia)) as Bm.
  apply Qfloor_unique.
  - assert (inject_Z (2 * (m / 2)) <= inject_Z m) by (rewrite <- Zle_Qle; lia).
    rewrite inject_Z_mult in H. change (inject_Z 2) with 2 in H. lra.
  - assert (inject_Z m < inject_Z (2 * (m / 2) + 2)) by (rewrite <- Zlt_Qlt; lia).
    rewrite inject_Z_plus, inject_Z_mult in H.
    change (inject_Z 2) with 2 in H. lra.
Qed.

Lemma Qceiling_half (m : Z) q : q == inject_Z m * (1 # 2) -> Qceiling q = ((m + 1) / 2)%Z.
Proof.
  intros E. rewrite (Qceiling_comp _ _ E).
  pose proof (Z.div_mod (m + 1) 2 ltac:(lia)) as D.
  pose proof (Z.mod_pos_bound (m + 1) 2 ltac:(lia)) as Bm.
  apply Qceiling_unique.
  - assert (inject_Z (2 * ((m + 1) / 2)) < inject_Z (m + 2)) by (rewrite <- Zlt_Qlt; lia).
    rewrite inject_Z_plus, inject_Z_mult in H.
    change (inject_Z 2) with 2 in H. lra.
  - assert (inject_Z m <= inject_Z (2 * ((m + 1) / 2))) by (rewrite <- Zle_Qle; lia).
    rewrite inject_Z_mult in H. change (inject_Z 2) with 2 in H. lra.
Qed.

Lemma nth_error_ints (vs : list Z) (k : nat) :
  (k < List.length vs)%nat -> nth_error (map int vs) k = Some (int (nth k vs 0%Z)).
Proof.
  intros H. rewrite nth_error_map.
  rewrite (nth_error_nth' vs 0%Z H). reflexivity.
Qed.

Lemma Math_ceil_of_int z : Math_ceil (int z) = int z.
Proof. unfold Math_ceil, int. rewrite Qceiling_Z. reflexivity. Qed.

(** X23: [calculatePercentile] on integer samples: percentile 0 is the
    first element and percentile 100 the last; percentile 50 is the
    middle element of an odd number of samples and, for an even number,
    exactly the mean of the two middle ones, computed as
    [(a + b) / 2]: the interpolation [a * 0.5 + b * 0.5] loses nothing.
    The empty array gives 0 for every percentile. *)
Theorem calculatePercentile_edges (vs : list Z) :
  vs <> [] -> (Z.of_nat (List.length vs) < 2 ^ 50)%Z ->
  Forall (fun v => (Z.abs v < 2 ^ 50)%Z) vs ->
  let N := Z.of_nat (List.length vs) in
  let at_ (k : Z) := nth (Z.to_nat k) vs 0%Z in
  calculatePercentile (map int vs) (int 0) = Some (int (at_ 0%Z))
  /\ calculatePercentile (map int vs) (int 100) = Some (int (at_ (N - 1)%Z))
  /\ calculatePercentile (map int vs) (int 50)
     = Some (if Z.odd N then int (at_ ((N - 1) / 2)%Z)
             else div (add (int (at_ (N / 2 - 1)%Z)) (int (at_ (N / 2)%Z))) (int 2))
  /\ forall p, calculatePercentile [] p = Some (int 0).
Proof.
  intros NE HN HV. cbv zeta.
  change (2 ^ 50)%Z with 1125899906842624%Z in *.
  set (N := Z.of_nat (List.length vs)) in *.
  assert (PN : (1 <= N)%Z).
  { unfold N. destruct vs; [contradiction | cbn [List.length]; lia]. }
  assert (Get : forall k, (0 <= k < N)%Z ->
                  array_get (map int vs) (int k) = Some (int (nth (Z.to_nat k) vs 0%Z))).
  { intros k Hk. rewrite array_get_int by lia. apply nth_error_ints. unfold N in Hk. lia. }
  assert (Bound : forall k, (0 <= k < N)%Z -> (Z.abs (nth (Z.to_nat k) vs 0) < 1125899906842624)%Z).
  { intros k Hk. rewrite Forall_forall in HV. apply HV. apply nth_In. unfold N in Hk. lia. }
  assert (U : forall p,
             calculatePercentile (map int vs) p
             = let index := mul (div p (int 100)) (int (N - 1)) in
               let lower := Math_floor index in
               let upper := Math_ceil index in
               let weight := sub index lower in
               if strict_eq lower upper then array_get (map int vs) lower
               else
                 Some (add (mul (to_number (array_get (map int vs) lower))
                                (sub (int 1) weight))
                           (mul (to_number (array_get (map int vs) upper)) weight))).
  { intros p. unfold calculatePercentile.
    destruct vs as [|v0 vr]; [contradiction|].
    cbn [map]. rewrite sub_int.
    - cbn [List.length]. rewrite length_map. reflexivity.
    - cbn [List.length]. rewrite length_map.
      change (2 ^ 53)%Z with 9007199254740992%Z.
      unfold N in HN. cbn [List.length] in HN. lia. }
  split; [|split; [|split]].
  - rewrite U. cbv zeta.
    replace (div (int 0) (int 100)) with (int 0) by (vm_compute; reflexivity).
    rewrite mul_int by (cbn; lia). cbn [Z.mul].
    rewrite Math_floor_int, Math_ceil_of_int, strict_eq_int. cbn [Z.eqb].
    apply Get. lia.
  - rewrite U. cbv zeta.
    replace (div (int 100) (int 100)) with (int 1) by (vm_compute; reflexivity).
    rewrite mul_int by (change (2 ^ 53)%Z with 9007199254740992%Z; lia).
    rewrite Z.mul_1_l.
    rewrite Math_floor_int, Math_ceil_of_int, strict_eq_int, Z.eqb_refl.
    apply Get. lia.
  - rewrite U. cbv zeta.
    replace (div (int 50) (int 100)) with (Fin (1 # 2)) by (vm_compute; reflexivity).
    set (m := (N - 1)%Z).
    pose proof (Z.div_mod m 2 ltac:(lia)) as Dm.
    pose proof (Z.mod_pos_bound m 2 ltac:(lia)) as Bm.
    change (mul (Fin (1 # 2)) (int m)) with (rnd ((1 # 2) * inject_Z m)).
    destruct (rnd_exact ((1 # 2) * inject_Z m) m) as (qi & Fi & Ei); [ring | lia |].
    rewrite Fi. cbn [Math_floor Math_ceil].
    assert (Ei' : qi == inject_Z m * (1 # 2)) by (rewrite Ei; ring).
    rewrite (Qfloor_half m qi Ei'), (Qceiling_half m qi Ei').
    rewrite strict_eq_int.
    change (sub (Fin qi) (int (m / 2))) with (rnd (qi + - inject_Z (m / 2))).
    destruct (rnd_exact (qi + - inject_Z (m / 2)) (m mod 2)) as (qw & Fw & Ew); [|lia|].
    { rewrite Ei'. rewrite Dm at 1.
      rewrite inject_Z_plus, inject_Z_mult. change (inject_Z 2) with 2. ring. }
    rewrite Fw.
    destruct (Z.odd N) eqn:Odd.
    + assert (Em : (m mod 2 = 0)%Z).
      { apply Z.odd_spec in Odd. destruct Odd as [k Hk]. unfold m. rewrite Hk.
        replace (2 * k + 1 - 1)%Z with (k * 2)%Z by lia. apply Z.mod_mul. lia. }
      replace ((m + 1) / 2)%Z with (m / 2)%Z
        by (apply (Z.div_unique (m + 1) 2 (m / 2) 1); lia).
      rewrite Z.eqb_refl. apply Get.
      split; [apply Z.div_pos; lia | apply Z.div_lt_upper_bound; lia].
    + assert (Em : (m mod 2 = 1)%Z).
      { rewrite <- Z.negb_even in Odd. apply negb_false_iff in Odd.
        apply Z.even_spec in Odd. destruct Odd as [k Hk]. unfold m. rewrite Hk.
        replace (2 * k - 1)%Z with (1 + (k - 1) * 2)%Z by lia.
        rewrite Z.mod_add by lia. reflexivity. }
      assert (L : (m / 2 = N / 2 - 1)%Z).
      { symmetry. apply (Z.div_unique m 2 (N / 2 - 1) 1); [lia|].
        pose proof (Z.div_mod N 2 ltac:(lia)). pose proof (Z.mod_pos_bound N 2 ltac:(lia)).
        assert (N mod 2 = 0)%Z; [|lia].
        replace N with (m + 1)%Z by (unfold m; lia).
        rewrite Z.add_mod by lia. rewrite Em. reflexivity. }
      assert (Uq : ((m + 1) / 2 = N / 2)%Z) by (unfold m; f_equal; lia).
      rewrite L, Uq.
      replace (N / 2 - 1 =? N / 2)%Z with false by (symmetry; apply Z.eqb_neq; lia).
      assert (RL : (0 <= N / 2 - 1 < N)%Z) by (rewrite <- L; split;
        [apply Z.div_pos; lia | apply Z.div_lt_upper_bound; lia]).
      assert (RU : (0 <= N / 2 < N)%Z) by lia.
      rewrite (Get _ RL), (Get _ RU). cbn [to_number].
      pose proof (Bound _ RL) as Ba. pose proof (Bound _ RU) as Bb.
      set (a := nth (Z.to_nat (N / 2 - 1)) vs 0%Z) in *.
      set (b := nth (Z.to_nat (N / 2)) vs 0%Z) in *.
      assert (Ew' : qw == 1 # 2).
      { assert (Im : inject_Z m == 2 * inject_Z (m / 2) + 1).
        { rewrite Dm at 1. rewrite Em, inject_Z_plus, inject_Z_mult. reflexivity. }
        rewrite Ew, Ei', Im. ring. }
      change (sub (int 1) (Fin qw)) with (rnd (inject_Z 1 + - qw)).
      destruct (rnd_exact (inject_Z 1 + - qw) 1) as (q1 & F1 & E1); [|lia|].
      { rewrite Ew'. reflexivity. }
      rewrite F1.
      change (mul (int a) (Fin q1)) with (rnd (inject_Z a * q1)).
      destruct (rnd_exact (inject_Z a * q1) a) as (pa & Fa & Ea); [|lia|].
      { rewrite E1, Ew'. ring. }
      rewrite Fa.
      change (mul (int b) (Fin qw)) with (rnd (inject_Z b * qw)).
      destruct (rnd_exact (inject_Z b * qw) b) as (pb & Fb & Eb); [|lia|].
      { rewrite Ew'. ring. }
      rewrite Fb.
      rewrite add_int by (change (2 ^ 53)%Z with 9007199254740992%Z; lia).
      rewrite div_int by lia.
      f_equal. change (add (Fin pa) (Fin pb)) with (rnd (pa + pb)).
      apply rnd_proper. rewrite Ea, Eb, E1, Ew', inject_Z_plus.
      change (inject_Z 2) with 2. change (inject_Z 1) with 1. field.
  - intros p. reflexivity.
Qed.

Lemma calculatePercentile_edges_witness :
  calculatePercentile (map int [21%Z; 30%Z; 45%Z; 90%Z]) (int 50)
  = Some (div (add (int 30) (int 45)) (int 2)).
Proof.
  refine (proj1 (proj2 (proj2 (calculatePercentile_edges [21; 30; 45; 90]%Z _ _ _)))).
  - discriminate.
  - reflexivity.
  - repeat constructor.
Defined.

End Percentiles.

(** ** Merging the half-hour buckets of several repositories *)

Section MergeByHour.
Import GitDataMerger.
Open Scope Z_scope.

Lemma count_get_set m k' v k :
  count_get (count_set m k' v) k = if String.eqb k' k then Some v else count_get m k.
Proof.
  induction m as [|[k0 v0] r IH]; cbn [count_set count_get].
  - reflexivity.
  - destruct (String.eqb_spec k0 k') as [E|N]; cbn [count_get].
    + subst k0. destruct (String.eqb k' k); reflexivity.
    + rewrite IH. destruct (String.eqb_spec k0 k) as [E|N']; [|reflexivity].
      subst k0. destruct (String.eqb_spec k' k) as [E'|_]; [|reflexivity].
      congruence.
Qed.

Lemma get_or_zero_set m k' v k :
  get_or_zero (count_set m k' v) k
  = if String.eqb k' k then TimeAggregator.or_zero v else get_or_zero m k.
Proof.
  unfold get_or_zero. rewrite count_get_set. destruct (String.eqb k' k); reflexivity.
Qed.

(** The entry of one key after the loop over the buckets. *)
Lemma merge_loop_key (k : string) (items : list (string * Z)) : forall m z0,
  get_or_zero m k = int z0 -> 0 <= z0 ->
  Forall (fun it => 0 <= snd it) items -> z0 + sumAll snd items < 2 ^ 53 ->
  get_or_zero
    (fold_left
       (fun m item =>
          let current := get_or_zero m (time item) in
          count_set m (time item) (add current (count item)))
       (timeCounts items) m) k
  = int (z0 + sumIf (fun it => String.eqb (fst it) k) snd items).
Proof.
  induction items as [|[label c] r IH]; intros m z0 G P Hc HB.
  - cbn [timeCounts map fold_left sumIf]. rewrite Z.add_0_r. exact G.
  - inversion Hc as [|? ? Hc0 Hr]; subst. cbn [snd] in Hc0.
    unfold sumAll in HB. cbn [sumIf snd] in HB. fold (sumAll snd r) in HB.
    assert (Hs : 0 <= sumAll snd r) by (apply sumIf_nonneg; exact Hr).
    cbn [timeCounts map fold_left time count sumIf fst snd]. fold (timeCounts r).
    cbv zeta.
    destruct (String.eqb_spec label k) as [E|N].
    + subst label.
      rewrite (IH _ (z0 + c)); [f_equal; lia | | lia | exact Hr | lia].
      rewrite get_or_zero_set, String.eqb_refl, G.
      rewrite add_int by lia. reflexivity.
    + rewrite (IH _ z0); [f_equal; lia | | lia | exact Hr | lia].
      rewrite get_or_zero_set.
      replace (String.eqb label k) with false by (symmetry; apply String.eqb_neq; exact N).
      exact G.
Qed.

Lemma initial_zero (k : string) (l : list nat) : forall m,
  get_or_zero m k = int 0 ->
  get_or_zero
    (fold_left
       (fun m i =>
          let hour := TimeAggregator.two_digits i in
          count_set (count_set m (hour ++ ":00") (int 0)) (hour ++ ":30") (int 0))
       l m) k
  = int 0.
Proof.
  induction l as [|i l IH]; intros m G; cbn [fold_left]; [exact G|].
  apply IH. cbv zeta. rewrite !get_or_zero_set.
  destruct (String.eqb _ k); [reflexivity|].
  destruct (String.eqb _ k); [reflexivity | exact G].
Qed.

Lemma fold_concat {A M : Type} (step : M -> A -> M) (dataList : list (list A)) : forall m,
  fold_left (fun m data => fold_left step data m) dataList m
  = fold_left step (List.concat dataList) m.
Proof.
  induction dataList as [|d r IH]; intros m; cbn [fold_left List.concat]; [reflexivity|].
  rewrite fold_left_app. apply IH.
Qed.

(** X24: [mergeByHour] returns the 48 half-hour buckets 00:00 ... 23:30 in
    order, and the count of each is the sum, over all the repositories,
    of the counts of the buckets with that label: merging loses no commit
    of a known bucket; buckets with any other label are dropped. *)
Theorem mergeByHour_sums (repos : list (list (string * Z))) :
  Forall (fun it => 0 <= snd it) (List.concat repos) ->
  sumAll snd (List.concat repos) < 2 ^ 53 ->
  let total (k : string) :=
    sumIf (fun it => String.eqb (fst it) k) snd (List.concat repos) in
  mergeByHour (map timeCounts repos)
  = flat_map
      (fun i =>
         let hour := TimeAggregator.two_digits i in
         [ {| time := hour ++ ":00"; count := int (total (hour ++ ":00")%string) |};
           {| time := hour ++ ":30"; count := int (total (hour ++ ":30")%string) |} ])
      (seq 0 24).
Proof.
  intros Hc HB. cbv zeta. unfold mergeByHour. cbv zeta.
  rewrite fold_concat.
  replace (List.concat (map timeCounts repos)) with (timeCounts (List.concat repos))
    by (unfold timeCounts; apply concat_map).
  set (initial :=
         fold_left
           (fun (m : CountMap) i =>
              count_set (count_set m (TimeAggregator.two_digits i ++ ":00") (int 0))
                (TimeAggregator.two_digits i ++ ":30") (int 0))
           (seq 0 24) []).
  assert (Key : forall k,
             get_or_zero
               (fold_left
                  (fun m item => count_set m (time item)
                                   (add (get_or_zero m (time item)) (count item)))
                  (timeCounts (List.concat repos)) initial) k
             = int (sumIf (fun it => String.eqb (fst it) k) snd (List.concat repos))).
  { intros k.
    pose proof (merge_loop_key k (List.concat repos) initial 0) as M. cbv zeta in M.
    rewrite M; [reflexivity | | lia | exact Hc | lia].
    exact (initial_zero k (seq 0 24) [] eq_refl). }
  apply flat_map_ext. intros i. rewrite !Key. reflexivity.
Qed.

Lemma mergeByHour_sums_witness :
  let repos := [ [("09:00"%string, 4); ("09:30"%string, 1)];
                 [("09:00"%string, 2); ("25:00"%string, 7)] ] in
  let total (k : string) :=
    sumIf (fun it => String.eqb (fst it) k) snd (List.concat repos) in
  mergeByHour (map timeCounts repos)
  = flat_map
      (fun i =>
         let hour := TimeAggregator.two_digits i in
         [ {| time := hour ++ ":00"; count := int (total (hour ++ ":00")%string) |};
           {| time := hour ++ ":30"; count := int (total (hour ++ ":30")%string) |} ])
      (seq 0 24).
Proof.
  intros repos.
  apply (mergeByHour_sums repos).
  - repeat constructor; cbn; lia.
  - vm_compute. reflexivity.
Defined.

End MergeByHour.
